(* ===== verification/_CoqProject ===== *)
-Q . S2P
Prelude.v
Ring.v
CString.v
FsTypes.v
State.v
Spinlock.v
Console.v
Kalloc.v
Vm.v
Sched.v
Process.v
Args.v
Sysproc.v
Trap.v
Sleeplock.v
Ide.v
Bio.v
Log.v
Fs.v
Pipe.v
File.v
ConsoleDev.v
Kbd.v
Exec.v
Sysfile.v
SchedInv.v
Sample.v
SchedOps.v
ProcessOps.v
TrapOps.v
FsOps.v
SysfileOps.v
Policy.v
Fair.v
Dispatch.v
Calls.v
WakeSpec.v
LevelSpec.v
EdfLevel.v
AgingSpec.v
QuantumSpec.v
DataSpec.v
LockSpec.v
MemSpec.v
VmOps.v
VmSpec.v
VmFree.v
VmCopy.v
PipeSpec.v
FsSpec.v
LogSpec.v
TaskOps.v
CacheSpec.v
FsRead.v
FsPath.v
CrashSpec.v
Crash.v
User.v
Grep.v
GrepSpec.v
Tools.v
Ls.v
Sh.v
ShSpec.v
Mkfs.v
MkfsSpec.v
FsImage.v
Umalloc.v
UmallocSpec.v
Boot.v
Mp.v
Apic.v
ConsoleSpec.v
ArgSpec.v
Main.v
System.v
