(* ===== verification/Prelude.v ===== *)
(** * A verified model of an xv6 kernel with a three-policy scheduler

    The program is the x86 version of the teaching kernel xv6, changed by a
    scheduler of two classes: real-time processes run earliest deadline first
    (EDF); normal processes run round robin (RR, level 1) or first come first
    served (FCFS, level 2), and an FCFS process that has waited 800 ticks is moved
    up to round robin (aging). Around the kernel there are the boot loader, the
    program that builds the file-system image, and the user programs. This library
    is a shallow embedding of the C code: every C function is a Rocq function of the
    same name, the global variables are one record, and the theorems are about these
    functions.

    ** The model

    - Prelude.v: update of struct fields, 32-bit arithmetic ([u32], [i32]), the
      monad [M] of kernel code and its program logic. Kernel code either returns
      ([Ret]), panics ([Panic]), touches what is not there ([Fault]), waits forever
      for a spin lock of another CPU ([Spin]), leaves the CPU in [swtch] with the
      rest of the thread as a continuation ([Swtch]), or runs out of fuel
      ([NoFuel]). [wlp] and [wp] say what holds when code returns or leaves the
      CPU; [wp] also says that it does.
    - CString.v is string.c; FsTypes.v and State.v hold the structs, constants and
      global variables (param.h, proc.h, spinlock.h, mmu.h, memlayout.h, traps.h,
      fs.h, file.h, buf.h); Spinlock.v is spinlock.c with [mycpu] and [myproc];
      Console.v is [cprintf] and utils.c; Kalloc.v is kalloc.c; Vm.v is vm.c.
    - Sched.v and Process.v are proc.c. The endless loop of [scheduler] is split at
      its [swtch]: [scheduler_pick] is a turn up to it, [scheduler_back] the rest.
    - Args.v and Trap.v are syscall.c and trap.c, Sysproc.v is sysproc.c.
    - Sleeplock.v, Ide.v, Bio.v, Log.v, Fs.v, Pipe.v, File.v, Exec.v, Sysfile.v are
      the C files of these names (Ide.v also has memide.c's [iderw]). ConsoleDev.v
      and Kbd.v are the console's display and line discipline, uart.c, and kbd.c.
    - Main.v is main.c. System.v composes everything: a transition system whose
      steps are boot, traps and system calls, and turns of the scheduler, on any
      number of CPUs.
    - Boot.v is bootmain.c; Mp.v is mp.c; Apic.v is lapic.c, ioapic.c, picirq.c and
      [uartinit]. What a device answers is an argument, what is written to its
      registers is state. Mkfs.v is mkfs.c, on an image of blocks.
    - User.v is ulib.c and printf.c: a user program runs on a [world] that holds the
      replies of the system and the trace of the calls. Grep.v is grep.c; Tools.v is
      cat.c, wc.c, echo.c, kill.c, ln.c, mkdir.c, rm.c; Ls.v is ls.c and init.c;
      Umalloc.v is umalloc.c; Sh.v is sh.c, where a process that runs a command is a
      tree of system calls, since it forks.

    proc.c and trap.c are written against interfaces of the file system and the
    devices (classes [FileSys], [SysFiles], [Devices]); what they rely on are the
    classes [FileSysOk], [SysFilesOk], [DevicesOk], and SysfileOps.v gives the
    instances that the code of fs.c, log.c, file.c, sysfile.c, ide.c, kbd.c and
    uart.c makes.

    Pointers to elements of a global array are indices. Kernel memory (free pages,
    page tables, user pages) is one map of bytes, so the free list and the page
    tables are read from memory as the code reads them. Disk blocks are lists of
    bytes with the layout of fs.h. Counters that the code lets wrap (pipes, console
    input, ticks) wrap in the model; the signed counters of proc.c and the log do
    not, their overflow being undefined in C.

    ** What is proved

    - Scheduling policy (Policy.v, Dispatch.v, Fair.v): one turn of [scheduler]
      always completes and chooses by the policy; round robin serves a process that
      stays RUNNABLE within [NPROC] turns.
    - Invariants of the whole kernel (SchedInv.v, SchedOps.v, ProcessOps.v,
      TrapOps.v, FsOps.v, SysfileOps.v, System.v): in every reachable state the
      three ready counters, on which the scheduler branches, are the sizes of the
      queues; a process is RUNNING exactly if one CPU runs it; pids in use are
      unique. Every function of the kernel is shown to keep this, by tactics that
      walk through its code; code that does not touch processes is [quiet].
    - The operations of the scheduler, exactly (Calls.v, WakeSpec.v, LevelSpec.v,
      QuantumSpec.v, AgingSpec.v): [wakeup], [change_sched_level], the accounting
      and preemption of a clock tick, aging.
    - Address spaces (VmOps.v, VmSpec.v, VmFree.v, VmCopy.v): mapping a page and
      growing, freeing and copying an address space, down to the free list: what
      [freevm] frees is what was taken, and [copyuvm] gives a copy in pages of its
      own or gives everything back.
    - Locks (LockSpec.v), pages (MemSpec.v),
      pipes (Ring.v, PipeSpec.v), disk structures and path names (FsSpec.v), the
      log (LogSpec.v), the console (ConsoleSpec.v), arguments of system calls
      (ArgSpec.v), strings and numbers (DataSpec.v). Pipes and the console are
      refined to the queue and the line they implement.
    - Crash safety (TaskOps.v, CacheSpec.v, CrashSpec.v, Crash.v): operations of the
      log, run with the buffer cache and the disk driver, are atomic with respect to
      crashes at every point at which the disk has changed, and so is recovery.
      TaskOps.v has the logic [rexec] for a process that sleeps for the disk and is
      resumed after the interrupt; CacheSpec.v says what the cache and the driver
      promise to the log.
    - Reading files and path names (FsRead.v, FsPath.v): through the cache and the
      driver, [readi] gives the bytes of the blocks of a file, and [namei] is refined
      to the walk along the elements of a path on the disk, with the references and
      locks of the inode cache accounted for.
    - The image of mkfs (MkfsSpec.v): it holds the files it was given, and the
      kernel's recovery leaves it alone; [namei] and [readi] of the kernel find the
      files on it, byte for byte (FsImage.v).
    - The boot loader loads what the ELF headers say (Boot.v); the processors and
      controllers are those of the tables (Mp.v), interrupts are routed as asked
      for and the clock is read correctly (Apic.v).
    - User programs: the matcher of grep decides a regular language and grep selects
      lines (GrepSpec.v); the parser of the shell terminates and inverts printing,
      and its commands start programs with the right descriptors (ShSpec.v);
      [malloc] and [free] keep a heap of disjoint blocks (UmallocSpec.v); wc counts
      (Tools.v) and ls lists (Ls.v).
    - Where the code goes wrong (WakeSpec.v, LevelSpec.v, EdfLevel.v, LogSpec.v,
      GrepSpec.v, Mp.v, UmallocSpec.v): the clock interrupt panics when a process
      sleeps on the clock; a level change to the present level keeps the lock; a
      level change of an EDF process breaks the counters and starves others;
      [kill(0)]; the log's reservation; grep drops the part of a line; an unknown
      entry keeps [mpinit] in its loop; very large requests to [malloc].

    Sample.v holds a small machine on which hypotheses are checked by computation.

    ** Bounds and fuel

    Loops over pages get [page_fuel], the 2^20 pages of the address space; the
    round-robin scan gets [NPROC], which [rr_loop] never exceeds; [printint] gets the
    16 digits of its buffer. Theorems about these loops show that the fuel is enough.
    The loops of the user programs, of mkfs and of the boot loader take their fuel as
    an argument, and the theorems say how much is enough: a read for each byte of the
    input of grep and wc, four nested calls for each character in the parser of the
    shell, two turns for each header of the heap in [malloc].
    Loops that sleep ([Fuel], [wakeups]) are followed for an arbitrary number of
    wakeups; the invariants hold for all of them. [fork] is assumed to be called
    while [nextpid < 2^31 - 1] ([call_ok]), and the system call that changes a level
    only for processes of the normal class ([level_change_ok]), since the
    invariant fails otherwise.

    Kernel code runs without interruption from a trap to its return or its
    [swtch], except that every step may be taken by any CPU; a lock held by another
    CPU ends the attempt in [Spin]. Theorems about single functions assume an
    uncontended CPU where they say so ([lctx]: the locks this CPU holds are
    known, the others are free).

    ** Not modelled

    - assembly (bootasm.S, entry.S, entryother.S, initcode.S, swtch.S, trapasm.S,
      usys.S) and the scripts that generate or sign files: [swtch] and the trap path
      are primitives;
    - [seginit] and the registers of the disk controller: a command to the disk is
      its effect. In the model of the whole kernel (System.v, Main.v) the
      initialization of the interrupt controllers and [lapiceoi] have no effect on
      the state; what they do to the devices is in Apic.v;
    - the test programs (usertests.c, forktest.c, stressfs.c, zombie.c, rrtest.c,
      schedtest.c, scheduleTest.c, test_sched.c): they only exercise the kernel and
      print what they see. In the model of the kernel, user memory and registers
      are arbitrary at every trap, so its theorems hold for all of them. *)
From stdpp Require Import base tactics list numbers strings gmap.

#[local] Open Scope Z_scope.

(** ** Field update of C structs

    [p <| f := v |>] is the struct [p] with field [f] assigned. An instance of
    [Eta] lists the fields of a record once, by eta-expanding its constructor;
    the update of any field is computed from it. *)
Class Eta (R : Type) := eta_fields : R -> R.
Class Upd {R T : Type} (proj : R -> T) := upd : (T -> T) -> R -> R.
Arguments upd {R T} proj {_} _ _.

Ltac build_upd proj :=
  lazymatch type of proj with
  | ?R -> _ =>
      let inst := constr:(ltac:(typeclasses eauto) : Eta R) in
      let inst' := eval cbv delta [eta_fields] in (@eta_fields R inst) in
      let body := eval hnf in inst' in
      lazymatch eval pattern proj in body with
      | ?g _ => let r := eval cbv beta in (fun f => g (fun x => f (proj x))) in exact r
      end
  end.
#[global] Hint Extern 1 (Upd ?proj) => (build_upd proj) : typeclass_instances.

Declare Scope struct_scope.
Delimit Scope struct_scope with struct.
Notation "p <| f := v |>" := (upd f (fun _ => v) p)
  (at level 1, f at next level, left associativity,
   format "p  <| f  :=  v |>") : struct_scope.
Notation "p <| f ::= g |>" := (upd f g p)
  (at level 1, f at next level, left associativity,
   format "p  <| f  ::=  g |>") : struct_scope.
#[global] Open Scope struct_scope.

(** ** C integers

    [uint] and [int] are 32 bits wide; a value is kept as a [Z] in range and
    every arithmetic result that can leave the range is wrapped. *)
Definition u32 (x : Z) : Z := x mod 2^32.
Definition i32 (x : Z) : Z := (x + 2^31) mod 2^32 - 2^31.
Definition in_u32 (x : Z) : Prop := 0 <= x < 2^32.
Definition in_i32 (x : Z) : Prop := - 2^31 <= x < 2^31.

Lemma u32_range x : in_u32 (u32 x).
Proof. unfold in_u32, u32. apply Z.mod_pos_bound. lia. Qed.

Lemma u32_small x : in_u32 x -> u32 x = x.
Proof. intros. unfold u32. by apply Z.mod_small. Qed.

Lemma u32_u32 x : u32 (u32 x) = u32 x.
Proof. apply u32_small, u32_range. Qed.

Lemma i32_range x : in_i32 (i32 x).
Proof.
  unfold in_i32, i32. pose proof (Z.mod_pos_bound (x + 2^31) (2^32)). lia.
Qed.

Lemma i32_small x : in_i32 x -> i32 x = x.
Proof. unfold in_i32, i32. intros. rewrite Z.mod_small; lia. Qed.

(** The value of a C condition. *)
Definition b2z (b : bool) : Z := if b then 1 else 0.

Lemma b2z_nonneg b : 0 <= b2z b.
Proof. destruct b; simpl; lia. Qed.

(** The newline of C's [\n] in a string literal. *)
Definition nl : string := String (Ascii.ascii_of_nat 10) EmptyString.

(** ** Kernel spin locks, by the object they protect *)
Inductive lockid : Type :=
| ptable_lock
| tickslock
| kmem_lock
| cons_lock
| ftable_lock
| icache_lock
| bcache_lock
| log_lock
| idelock
| pipe_lock (p : Z)
| buf_lk (i : nat)
| inode_lk (i : nat).

#[global] Instance lockid_eq_dec : EqDecision lockid.
Proof. solve_decision. Defined.

Definition lockid_code (l : lockid) : nat * Z :=
  match l with
  | ptable_lock => (0%nat, 0) | tickslock => (1%nat, 0) | kmem_lock => (2%nat, 0)
  | cons_lock => (3%nat, 0) | ftable_lock => (4%nat, 0) | icache_lock => (5%nat, 0)
  | bcache_lock => (6%nat, 0) | log_lock => (7%nat, 0) | idelock => (8%nat, 0)
  | pipe_lock p => (9%nat, p) | buf_lk i => (10%nat, Z.of_nat i)
  | inode_lk i => (11%nat, Z.of_nat i)
  end.

Definition lockid_decode (c : nat * Z) : lockid :=
  match c with
  | (0%nat, _) => ptable_lock | (1%nat, _) => tickslock | (2%nat, _) => kmem_lock
  | (3%nat, _) => cons_lock | (4%nat, _) => ftable_lock | (5%nat, _) => icache_lock
  | (6%nat, _) => bcache_lock | (7%nat, _) => log_lock | (8%nat, _) => idelock
  | (9%nat, p) => pipe_lock p | (10%nat, i) => buf_lk (Z.to_nat i)
  | (_, i) => inode_lk (Z.to_nat i)
  end.

#[global] Instance lockid_countable : Countable lockid.
Proof.
  apply (inj_countable' lockid_code lockid_decode). intros []; simpl; by rewrite ?Nat2Z.id.
Defined.

(** ** Kernel code as a state monad with control outcomes

    A C function of the kernel is a map from the machine state to an outcome:
    - [Ret a s]: it returned [a] in state [s];
    - [Panic m s]: it called [panic(m)], which never returns;
    - [Fault w s]: it dereferenced a null or wild pointer;
    - [Spin l s]: it is busy-waiting in [acquire] for lock [l] held elsewhere;
    - [Swtch s k]: it called [swtch] to leave this CPU to the scheduler; the
      kernel thread goes on as [k] from the state in which it is resumed;
    - [NoFuel s]: a loop used up the iterations given to it. *)
Inductive outcome (S A : Type) : Type :=
| Ret (a : A) (s : S)
| Panic (msg : string) (s : S)
| Fault (why : string) (s : S)
| Spin (l : lockid) (s : S)
| Swtch (s : S) (k : S -> outcome S A)
| NoFuel (s : S).
Arguments Ret {S A} _ _.
Arguments Panic {S A} _ _.
Arguments Fault {S A} _ _.
Arguments Spin {S A} _ _.
Arguments Swtch {S A} _ _.
Arguments NoFuel {S A} _.

Fixpoint obind {S A B : Type} (f : A -> S -> outcome S B) (o : outcome S A) : outcome S B :=
  match o with
  | Ret a s => f a s
  | Panic m s => Panic m s
  | Fault w s => Fault w s
  | Spin l s => Spin l s
  | Swtch s k => Swtch s (fun s' => obind f (k s'))
  | NoFuel s => NoFuel s
  end.

Definition M (S A : Type) : Type := S -> outcome S A.

#[global] Instance M_ret {S} : MRet (M S) := fun A a s => Ret a s.
#[global] Instance M_bind {S} : MBind (M S) := fun A B f m s => obind f (m s).
Arguments M_ret {S} A a s /.
Arguments M_bind {S} A B f m s /.

Definition get {S} : M S S := fun s => Ret s s.
Definition put {S} (s : S) : M S unit := fun _ => Ret tt s.
Definition gets {S A} (f : S -> A) : M S A := fun s => Ret (f s) s.
Definition modify {S} (f : S -> S) : M S unit := fun s => Ret tt (f s).
Definition panic {S A} (msg : string) : M S A := fun s => Panic msg s.
Definition fault {S A} (why : string) : M S A := fun s => Fault why s.
Definition spin {S A} (l : lockid) : M S A := fun s => Spin l s.
Definition nofuel {S A} : M S A := fun s => NoFuel s.
(** [swtch]: save this thread's context and run the scheduler's. *)
Definition swtch {S} : M S unit := fun s => Swtch s (fun s' => Ret tt s').
Definition mwhen {S} (b : bool) (m : M S unit) : M S unit := if b then m else mret tt.

Lemma bind_ret {S A B} (m : M S A) (f : A -> M S B) s a s1 :
  m s = Ret a s1 -> (m ≫= f) s = f a s1.
Proof. intros E. unfold mbind, M_bind. by rewrite E. Qed.
Lemma bind_panic {S A B} (m : M S A) (f : A -> M S B) s msg s1 :
  m s = Panic msg s1 -> (m ≫= f) s = Panic msg s1.
Proof. intros E. unfold mbind, M_bind. by rewrite E. Qed.

(** [for (i : l) body], where [body] may return from the enclosing function. *)
Fixpoint for_each {S I R} (l : list I) (body : I -> M S (option R)) : M S (option R) :=
  match l with
  | [] => mret None
  | i :: l' =>
      r ← body i;
      match r with
      | Some v => mret (Some v)
      | None => for_each l' body
      end
  end.

(** A loop whose body never leaves the function. *)
Fixpoint for_all {S I} (l : list I) (body : I -> M S unit) : M S unit :=
  match l with
  | [] => mret tt
  | i :: l' => body i;; for_all l' body
  end.

(** ** Program logic

    [exec tot Out In Q o]: the outcome [o] satisfies [Q] where it returns; a
    thread that leaves the CPU establishes [Out] and may assume [In] when it is
    resumed. With [tot = true] the outcome is moreover not a panic, a fault, a
    spin or an exhausted loop. *)
Fixpoint exec {S A} (tot : bool) (Out In : S -> Prop) (Q : A -> S -> Prop)
    (o : outcome S A) : Prop :=
  match o with
  | Ret a s => Q a s
  | Swtch s k => Out s /\ forall s', In s' -> exec tot Out In Q (k s')
  | _ => tot = false
  end.

(** Partial correctness; total correctness. *)
Abbreviation wlp := (exec false).
Abbreviation wp := (exec true).

Section exec_rules.
Context {S : Type} (tot : bool) (Out In : S -> Prop).

Lemma exec_mono {A} (Q Q' : A -> S -> Prop) (o : outcome S A) :
  (forall a s, Q a s -> Q' a s) -> exec tot Out In Q o -> exec tot Out In Q' o.
Proof.
  intros HQ. induction o as [ | | | | s k IH | ]; simpl; try done; [by apply HQ|].
  intros [Hs Hk]. split; [done|]. intros s' Hs'. by apply IH, Hk.
Qed.

Lemma exec_mono_out {A} (Out' : S -> Prop) (Q : A -> S -> Prop) (o : outcome S A) :
  (forall s, Out' s -> Out s) -> exec tot Out' In Q o -> exec tot Out In Q o.
Proof.
  intros HO. induction o as [ | | | | s k IH | ]; simpl; try done.
  intros [Hs Hk]. split; [by apply HO|]. intros s' Hs'. by apply IH, Hk.
Qed.

Lemma exec_mono_in {A} (Out' In' : S -> Prop) (Q : A -> S -> Prop) (o : outcome S A) :
  (forall s, Out' s -> Out s) -> (forall s, In s -> In' s) ->
  exec tot Out' In' Q o -> exec tot Out In Q o.
Proof.
  intros HO HI. induction o as [ | | | | s k IH | ]; simpl; try done.
  intros [Hs Hk]. split; [by apply HO|]. intros s' Hs'. by apply IH, Hk, HI.
Qed.

Lemma exec_obind {A B} (f : A -> S -> outcome S B) (o : outcome S A) (Q : B -> S -> Prop) :
  exec tot Out In (fun a s => exec tot Out In Q (f a s)) o ->
  exec tot Out In Q (obind f o).
Proof.
  induction o as [ | | | | s k IH | ]; simpl; try done.
  intros [Hs Hk]. split; [done|]. intros s' Hs'. by apply IH, Hk.
Qed.

Lemma exec_bind {A B} (m : M S A) (f : A -> M S B) (s : S) (Q : B -> S -> Prop) :
  exec tot Out In (fun a s => exec tot Out In Q (f a s)) (m s) ->
  exec tot Out In Q ((m ≫= f) s).
Proof. apply exec_obind. Qed.

(** Loops: [J] is kept by each iteration. *)
Lemma exec_for_all {I} (body : I -> M S unit) (J : list I -> S -> Prop) (l : list I) (s : S) :
  J [] s ->
  (forall l1 i l2 s1, l = l1 ++ i :: l2 -> J l1 s1 ->
    exec tot Out In (fun _ s2 => J (l1 ++ [i]) s2) (body i s1)) ->
  exec tot Out In (fun _ s' => J l s') (for_all l body s).
Proof.
  intros H0 Hb.
  enough (forall l2 l1 s1, l = l1 ++ l2 -> J l1 s1 ->
    exec tot Out In (fun _ s' => J l s') (for_all l2 body s1)) as Hall.
  { by apply (Hall l []). }
  induction l2 as [|i l2 IH]; intros l1 s1 Hl HJ; simpl.
  - by rewrite app_nil_r in Hl; subst.
  - apply exec_bind. eapply exec_mono; [|by eapply Hb].
    intros [] s2 HJ2. apply (IH (l1 ++ [i])); [|done].
    by rewrite Hl, <-app_assoc.
Qed.

Lemma exec_for_each {I R} (body : I -> M S (option R)) (J : list I -> S -> Prop)
    (Q : option R -> S -> Prop) (l : list I) (s : S) :
  J [] s ->
  (forall s1, J l s1 -> Q None s1) ->
  (forall l1 i l2 s1, l = l1 ++ i :: l2 -> J l1 s1 ->
    exec tot Out In (fun r s2 => match r with
      | Some v => Q (Some v) s2 | None => J (l1 ++ [i]) s2 end) (body i s1)) ->
  exec tot Out In Q (for_each l body s).
Proof.
  intros H0 HN Hb.
  enough (forall l2 l1 s1, l = l1 ++ l2 -> J l1 s1 ->
    exec tot Out In Q (for_each l2 body s1)) as Hall.
  { by apply (Hall l []). }
  induction l2 as [|i l2 IH]; intros l1 s1 Hl HJ; simpl.
  - rewrite app_nil_r in Hl; subst. by apply HN.
  - apply exec_bind. eapply exec_mono; [|by eapply Hb].
    intros [v|] s2 HJ2; [done|]. apply (IH (l1 ++ [i])); [|done].
    by rewrite Hl, <-app_assoc.
Qed.
End exec_rules.

Lemma exec_wlp {S A} (Out In : S -> Prop) (Q : A -> S -> Prop) (o : outcome S A) :
  wp Out In Q o -> wlp Out In Q o.
Proof.
  induction o as [ | | | | s k IH | ]; simpl; try done.
  intros [Hs Hk]. split; [done|]. intros s' Hs'. by apply IH, Hk.
Qed.

(** Total correctness and an invariant combine. *)
Lemma exec_conj {S A} (Out In : S -> Prop) (Q1 Q2 : A -> S -> Prop) (o : outcome S A) :
  wp Out In Q1 o -> wlp Out In Q2 o -> wp Out In (fun a s => Q1 a s /\ Q2 a s) o.
Proof.
  induction o as [ | | | | s k IH | ]; simpl; try done.
  intros [Hs Hk] [_ Hk']. split; [done|]. intros s' Hs'. auto.
Qed.

(** Code that may not leave the CPU returns. *)
Lemma wp_returns {S A} (In : S -> Prop) (Q : A -> S -> Prop) (o : outcome S A) :
  wp (fun _ => False) In Q o -> exists a s, o = Ret a s /\ Q a s.
Proof. destruct o; simpl; try done; [eauto|by intros []]. Qed.

(** ** Interference

    [rexec tot Out R Q o]: as [exec], where a thread that leaves the CPU in a state
    [s] that satisfies [Out] is resumed in a state [s'] with [R s s']. *)
Fixpoint rexec {S A} (tot : bool) (Out : S -> Prop) (R : S -> S -> Prop) (Q : A -> S -> Prop)
    (o : outcome S A) : Prop :=
  match o with
  | Ret a s => Q a s
  | Swtch s k => Out s /\ forall s', R s s' -> rexec tot Out R Q (k s')
  | _ => tot = false
  end.

Section rexec_rules.
Context {S : Type} (tot : bool) (Out : S -> Prop) (R : S -> S -> Prop).

Lemma rexec_mono {A} (Q Q' : A -> S -> Prop) (o : outcome S A) :
  (forall a s, Q a s -> Q' a s) -> rexec tot Out R Q o -> rexec tot Out R Q' o.
Proof.
  intros HQ. induction o as [ | | | | s k IH | ]; simpl; try done; [by apply HQ|].
  intros [Hs Hk]. split; [done|]. intros s' Hs'. by apply IH, Hk.
Qed.

Lemma rexec_bind {A B} (m : M S A) (f : A -> M S B) (s : S) (Q : B -> S -> Prop) :
  rexec tot Out R (fun a s => rexec tot Out R Q (f a s)) (m s) -> rexec tot Out R Q ((m ≫= f) s).
Proof.
  unfold mbind, M_bind. induction (m s) as [ | | | | s1 k IH | ]; simpl; try done.
  intros [Hs Hk]. split; [done|]. intros s' Hs'. by apply IH, Hk.
Qed.

(** Code that does not leave the CPU. *)
Lemma rexec_call {A} In (Q : A -> S -> Prop) (o : outcome S A) :
  exec tot (fun _ => False) In Q o -> rexec tot Out R Q o.
Proof. destruct o; simpl; try done. by intros []. Qed.

Lemma rexec_for_all {I} (body : I -> M S unit) (J : list I -> S -> Prop) (l : list I) (s : S) :
  J [] s ->
  (forall l1 i l2 s1, l = l1 ++ i :: l2 -> J l1 s1 ->
    rexec tot Out R (fun _ s2 => J (l1 ++ [i]) s2) (body i s1)) ->
  rexec tot Out R (fun _ s' => J l s') (for_all l body s).
Proof.
  intros H0 Hb.
  enough (forall l2 l1 s1, l = l1 ++ l2 -> J l1 s1 ->
    rexec tot Out R (fun _ s' => J l s') (for_all l2 body s1)) as Hall by (by apply (Hall l [])).
  induction l2 as [|i l2 IH]; intros l1 s1 Hl HJ; simpl.
  - by rewrite app_nil_r in Hl; subst.
  - apply rexec_bind. eapply rexec_mono; [|by eapply Hb].
    intros [] s2 HJ2. apply (IH (l1 ++ [i])); [|done]. by rewrite Hl, <-app_assoc.
Qed.
End rexec_rules.

Lemma rexec_mono_out {S A} tot (Out Out' : S -> Prop) (R : S -> S -> Prop) (Q : A -> S -> Prop) (o : outcome S A) :
  (forall s, Out s -> Out' s) -> rexec tot Out R Q o -> rexec tot Out' R Q o.
Proof.
  intros HO. induction o as [ | | | | s k IH | ]; simpl; try done.
  intros [Hs Hk]. split; [by apply HO|]. intros s' Hs'. by apply IH, Hk.
Qed.

(** ** Table updates and counting *)
Lemma list_alter_as_insert {A} (f : A -> A) (l : list A) (i : nat) (x : A) :
  l !! i = Some x -> alter f i l = <[i:=f x]> l.
Proof.
  intros Hi. apply list_eq. intros j. destruct (decide (i = j)) as [->|Hne].
  - rewrite list_lookup_alter_eq, Hi, list_lookup_insert_eq; [done|].
    by eapply lookup_lt_Some.
  - by rewrite list_lookup_alter_ne, list_lookup_insert_ne.
Qed.

Lemma list_alter_none {A} (f : A -> A) (l : list A) (i : nat) :
  l !! i = None -> alter f i l = l.
Proof.
  intros Hi. apply list_eq. intros j. destruct (decide (i = j)) as [->|Hne].
  - by rewrite list_lookup_alter_eq, Hi.
  - by rewrite list_lookup_alter_ne.
Qed.

Lemma list_alter_alter {A} (f g : A -> A) (l : list A) (i : nat) :
  alter f i (alter g i l) = alter (fun x => f (g x)) i l.
Proof.
  revert i. induction l as [|x l IH]; intros [|i]; try done.
  change (x :: alter f i (alter g i l) = x :: alter (fun x => f (g x)) i l). by rewrite IH.
Qed.

Fixpoint count_if {A} (f : A -> bool) (l : list A) : Z :=
  match l with
  | [] => 0
  | x :: l' => b2z (f x) + count_if f l'
  end.

Section count_if.
Context {A : Type} (f : A -> bool).

Lemma count_if_app l1 l2 : count_if f (l1 ++ l2) = count_if f l1 + count_if f l2.
Proof. induction l1; simpl; lia. Qed.

Lemma count_if_nonneg l : 0 <= count_if f l.
Proof. induction l as [|x l IH]; simpl; [lia|]. pose proof (b2z_nonneg (f x)). lia. Qed.

Lemma count_if_le_length l : count_if f l <= Z.of_nat (length l).
Proof. induction l as [|x l IH]; simpl; [lia|]. destruct (f x); simpl; lia. Qed.

Lemma count_if_insert l i x y :
  l !! i = Some x -> count_if f (<[i:=y]> l) = count_if f l - b2z (f x) + b2z (f y).
Proof.
  revert i. induction l as [|z l IH]; intros [|i] Hi; simplify_eq/=; [lia|].
  rewrite (IH i Hi). lia.
Qed.

Lemma count_if_alter l i x g :
  l !! i = Some x -> count_if f (alter g i l) = count_if f l - b2z (f x) + b2z (f (g x)).
Proof. intros Hi. rewrite (list_alter_as_insert _ _ _ _ Hi). by apply count_if_insert. Qed.

Lemma count_if_alter_same l i g :
  (forall x, l !! i = Some x -> f (g x) = f x) -> count_if f (alter g i l) = count_if f l.
Proof.
  intros H. destruct (l !! i) as [x|] eqn:Hi.
  - rewrite (count_if_alter _ _ _ _ Hi), (H x eq_refl). lia.
  - by rewrite list_alter_none.
Qed.

Lemma count_if_pos_exists l : 0 < count_if f l -> exists i x, l !! i = Some x /\ f x = true.
Proof.
  induction l as [|x l IH]; simpl; [lia|]. destruct (f x) eqn:E; simpl.
  - intros _. by exists 0%nat, x.
  - intros H. destruct IH as (i & y & Hi & Hy); [lia|]. by exists (Datatypes.S i), y.
Qed.

Lemma count_if_pos l i x : l !! i = Some x -> f x = true -> 0 < count_if f l.
Proof.
  revert i. induction l as [|z l IH]; intros [|i] Hi Hf; simplify_eq/=.
  - rewrite Hf. pose proof (count_if_nonneg l). simpl; lia.
  - pose proof (b2z_nonneg (f z)). pose proof (IH i Hi Hf). lia.
Qed.
End count_if.
