(* ===== verification/Ring.v ===== *)
(** Ring buffers with free-running 32-bit counters, as in pipe.c and console.c: the
    byte for counter value [a] is at [a % N]. *)
From stdpp Require Import base tactics list numbers.
From S2P Require Import Prelude.

#[local] Open Scope Z_scope.

(** ** Counters *)
Lemma u32_add x k : in_u32 x -> 0 <= k <= 2^32 ->
  u32 (x + k) = if x + k <? 2^32 then x + k else x + k - 2^32.
Proof.
  unfold in_u32, u32. intros Hx Hk. destruct (Z.ltb_spec (x + k) (2^32)).
  - apply Z.mod_small. lia.
  - symmetry. apply (Z.mod_unique _ _ 1); lia.
Qed.

Lemma u32_diff w r : in_u32 w -> in_u32 r -> u32 (w - r) = if r <=? w then w - r else w - r + 2^32.
Proof.
  unfold in_u32, u32. intros Hw Hr. destruct (Z.leb_spec r w).
  - apply Z.mod_small. lia.
  - symmetry. apply (Z.mod_unique _ _ (-1)); lia.
Qed.

(** The distance of two counters determines one from the other. *)
Lemma u32_dist w r : in_u32 w -> w = u32 (r + u32 (w - r)).
Proof.
  intros Hw. unfold u32. rewrite Zplus_mod_idemp_r. replace (r + (w - r)) with w by lia.
  symmetry. by apply Z.mod_small.
Qed.

(** ** Contents *)
Section ring.
Context (N : Z) (HN : 0 < N).

(** The [n] bytes from counter [a] on. *)
Definition ring (data : list Z) (a : Z) (n : nat) : list Z :=
  (fun k => default 0 (data !! Z.to_nat ((a + Z.of_nat k) mod N))) <$> seq 0 n.

Lemma length_ring data a n : length (ring data a n) = n.
Proof. unfold ring. by rewrite length_fmap, length_seq. Qed.

Lemma ring_app data a n m : ring data a (n + m) = ring data a n ++ ring data (a + Z.of_nat n) m.
Proof.
  unfold ring. rewrite seq_app, fmap_app. f_equal. rewrite Nat.add_0_l, <-(Nat.add_0_r n), <-(fmap_add_seq n 0 m), Nat.add_0_r, <-list_fmap_compose.
  apply list_fmap_ext. intros i k _. unfold compose. do 4 f_equal. lia.
Qed.

Lemma ring_ext data a b n : a mod N = b mod N -> ring data a n = ring data b n.
Proof.
  intros E. apply list_fmap_ext. intros i k _. do 3 f_equal.
  by rewrite <-Z.add_mod_idemp_l, E, Z.add_mod_idemp_l by lia.
Qed.

Lemma ring_cons data a n :
  ring data a (S n) = default 0 (data !! Z.to_nat (a mod N)) :: ring data (a + 1) n.
Proof. change (S n) with (1 + n)%nat. rewrite ring_app. unfold ring at 1. simpl. by rewrite Z.add_0_r. Qed.

Lemma ring_snoc data a n :
  ring data a (S n) = ring data a n ++ [default 0 (data !! Z.to_nat ((a + Z.of_nat n) mod N))].
Proof. rewrite <-(Nat.add_1_r n), ring_app. unfold ring at 2. simpl. by rewrite Z.add_0_r. Qed.

Lemma slot_ne a j k : 0 <= j < k -> k < N -> (a + j) mod N <> (a + k) mod N.
Proof.
  intros Hj Hk E. pose proof (Z.div_mod (a + j) N ltac:(lia)). pose proof (Z.div_mod (a + k) N ltac:(lia)).
  set (q1 := (a + j) / N) in *. set (q2 := (a + k) / N) in *.
  destruct (Z.le_gt_cases q2 q1); nia.
Qed.

(** A store past the contents leaves them alone. *)
Lemma ring_insert data a n k v b : b mod N = (a + k) mod N -> Z.of_nat n <= k < N ->
  ring (<[Z.to_nat (b mod N) := v]> data) a n = ring data a n.
Proof.
  intros E Hn. apply list_fmap_ext. intros i j [-> Hj]%lookup_seq. rewrite E.
  rewrite list_lookup_insert_ne; [done|]. intros E'%Z2Nat.inj; [|by apply Z.mod_pos_bound..].
  symmetry in E'. apply slot_ne in E'; [done|lia|lia].
Qed.

Lemma ring_push data a n v b : length data = Z.to_nat N -> b mod N = (a + Z.of_nat n) mod N -> Z.of_nat n < N ->
  ring (<[Z.to_nat (b mod N) := v]> data) a (S n) = ring data a n ++ [v].
Proof.
  intros Hl E Hn. rewrite ring_snoc, (ring_insert _ _ _ (Z.of_nat n)) by (done || lia). rewrite <-E.
  rewrite list_lookup_insert_eq; [done|]. pose proof (Z.mod_pos_bound b N HN). lia.
Qed.
End ring.

(** Counters wrap at a multiple of the size. *)
Lemma u32_mod N x : (N | 2^32) -> u32 x mod N = x mod N.
Proof. intros. unfold u32. by apply Z.mod_mod_divide. Qed.
