(* ===== verification/CString.v ===== *)
(** string.c and the byte-copying instructions of x86.h it uses.

    The [mem*] routines work on byte-addressed memory, a finite map from address
    to byte (an address that was never written reads as 0). The [str*] routines
    work on the bytes from the pointer on, as a list: reading past the end of the
    list is an access outside the array and gives [None]. *)
From stdpp Require Import base tactics list numbers strings gmap.
From S2P Require Import Prelude.

#[local] Open Scope Z_scope.

(** ** Byte-addressed memory *)
Abbreviation memory := (gmap Z Z).

Definition ld8 (m : memory) (a : Z) : Z := default 0 (m !! a).
Definition st8 (m : memory) (a v : Z) : memory := <[a := v mod 256]> m.

(** Little-endian 32-bit words. *)
Definition ld32 (m : memory) (a : Z) : Z :=
  ld8 m a + 2^8 * ld8 m (a + 1) + 2^16 * ld8 m (a + 2) + 2^24 * ld8 m (a + 3).
Definition st32 (m : memory) (a v : Z) : memory :=
  st8 (st8 (st8 (st8 m a v) (a + 1) (v / 2^8)) (a + 2) (v / 2^16)) (a + 3) (v / 2^24).

(** Successive bytes stored from an address on. *)
Fixpoint st_list (m : memory) (a : Z) (l : list Z) : memory :=
  match l with
  | [] => m
  | c :: l' => st_list (st8 m a c) (a + 1) l'
  end.

(** Every byte is in range. *)
Definition mem_ok (m : memory) : Prop := forall a, 0 <= ld8 m a < 256.

(** ** x86.h: rep stosb, rep stosl *)
Fixpoint stosb (m : memory) (addr data : Z) (cnt : nat) : memory :=
  match cnt with
  | O => m
  | S n => stosb (st8 m addr data) (addr + 1) data n
  end.

Fixpoint stosl (m : memory) (addr data : Z) (cnt : nat) : memory :=
  match cnt with
  | O => m
  | S n => stosl (st32 m addr data) (addr + 4) data n
  end.

(** ** string.c *)
Definition memset (m : memory) (dst c n : Z) : memory :=
  if (Z.rem (i32 dst) 4 =? 0) && (n mod 4 =? 0) then
    let c := Z.land c 0xFF in
    stosl m dst (u32 (Z.lor (Z.lor (Z.lor (Z.shiftl c 24) (Z.shiftl c 16)) (Z.shiftl c 8)) c))
      (Z.to_nat (n / 4))
  else stosb m dst c (Z.to_nat n).

Fixpoint memcmp_loop (m : memory) (s1 s2 : Z) (n : nat) : Z :=
  match n with
  | O => 0
  | S n' => if negb (ld8 m s1 =? ld8 m s2) then ld8 m s1 - ld8 m s2
            else memcmp_loop m (s1 + 1) (s2 + 1) n'
  end.
Definition memcmp (m : memory) (v1 v2 n : Z) : Z := memcmp_loop m v1 v2 (Z.to_nat n).

(** [while(n-- > 0) *d++ = *s++] *)
Fixpoint copy_up (m : memory) (d s : Z) (n : nat) : memory :=
  match n with
  | O => m
  | S n' => copy_up (st8 m d (ld8 m s)) (d + 1) (s + 1) n'
  end.

(** [while(n-- > 0) *--d = *--s] *)
Fixpoint copy_down (m : memory) (d s : Z) (n : nat) : memory :=
  match n with
  | O => m
  | S n' => copy_down (st8 m (d - 1) (ld8 m (s - 1))) (d - 1) (s - 1) n'
  end.

Definition memmove (m : memory) (dst src n : Z) : memory :=
  if (src <? dst) && (dst <? src + n) then copy_down m (dst + n) (src + n) (Z.to_nat n)
  else copy_up m dst src (Z.to_nat n).

(** [strncmp]: [n] bounds the bytes that are compared. *)
Fixpoint strncmp (p q : list Z) (n : nat) : option Z :=
  match n with
  | O => Some 0
  | S n' =>
      match p, q with
      | a :: p', b :: q' =>
          if negb (a =? 0) && (a =? b) then strncmp p' q' n' else Some (a - b)
      | _, _ => None
      end
  end.

(** [strncpy]: the first loop copies up to and with the NUL, the second pads with
    zeros. The result is the array [s] after the call. *)
Fixpoint strncpy (s t : list Z) (n : nat) : option (list Z) :=
  match n with
  | O => Some s
  | S n' =>
      match s, t with
      | _ :: s', c :: t' =>
          if c =? 0 then
            if (n' <=? length s')%nat then Some (0 :: replicate n' 0 ++ drop n' s') else None
          else cons c <$> strncpy s' t' n'
      | _, _ => None
      end
  end.

(** The copying loop of [safestrcpy], for [k] = the value of [n] after [--n]; it
    ends with the store of the NUL. *)
Fixpoint safestrcpy_loop (s t : list Z) (k : nat) : option (list Z) :=
  match s with
  | [] => None
  | _ :: s' =>
      match k with
      | O => Some (0 :: s')
      | S k' =>
          match t with
          | [] => None
          | c :: t' => if c =? 0 then
              match s' with [] => None | _ :: s'' => Some (0 :: 0 :: s'') end
            else cons c <$> safestrcpy_loop s' t' k'
          end
      end
  end.

Definition safestrcpy (s t : list Z) (n : Z) : option (list Z) :=
  if n <=? 0 then Some s else safestrcpy_loop s t (Z.to_nat (n - 1)).

Fixpoint strlen (s : list Z) : option Z :=
  match s with
  | [] => None
  | c :: s' => if c =? 0 then Some 0 else (fun k => k + 1) <$> strlen s'
  end.

(** ** Lemmas on memory *)
Lemma ld8_st8 m a v b : ld8 (st8 m a v) b = if decide (a = b) then v mod 256 else ld8 m b.
Proof. unfold ld8, st8. rewrite lookup_insert. by case_decide. Qed.

Lemma ld8_st8_eq m a v : ld8 (st8 m a v) a = v mod 256.
Proof. rewrite ld8_st8. by case_decide. Qed.

Lemma ld8_st8_ne m a v b : a <> b -> ld8 (st8 m a v) b = ld8 m b.
Proof. intros. rewrite ld8_st8. by case_decide. Qed.

Lemma mem_ok_st8 m a v : mem_ok m -> mem_ok (st8 m a v).
Proof.
  intros H b. rewrite ld8_st8. case_decide; [|apply H].
  apply Z.mod_pos_bound. lia.
Qed.

Lemma mem_ok_st32 m a v : mem_ok m -> mem_ok (st32 m a v).
Proof. intros. unfold st32. by repeat apply mem_ok_st8. Qed.

Lemma mem_ok_empty : mem_ok ∅.
Proof. intros a. unfold ld8. rewrite lookup_empty. simpl. lia. Qed.

(** A word is its four bytes. *)
Lemma word_bytes v :
  v mod 256 + 2^8 * (v / 2^8 mod 256) + 2^16 * (v / 2^16 mod 256) + 2^24 * (v / 2^24 mod 256)
  = v mod 2^32.
Proof.
  change 256 with (2^8).
  assert (forall k, 0 <= k -> v / 2^k mod 2^8 * 2^k = v mod 2^(k + 8) - v mod 2^k) as Hk.
  { intros k Hk. rewrite Z.pow_add_r by lia.
    rewrite (Z.rem_mul_r v (2^k) (2^8)) by (try apply Z.pow_nonzero; lia).
    lia. }
  pose proof (Hk 8 ltac:(lia)). pose proof (Hk 16 ltac:(lia)). pose proof (Hk 24 ltac:(lia)).
  change (8 + 8) with 16 in *. change (16 + 8) with 24 in *. change (24 + 8) with 32 in *.
  lia.
Qed.

Lemma ld32_st32_eq m a v : ld32 (st32 m a v) a = v mod 2^32.
Proof.
  unfold ld32, st32. rewrite !ld8_st8. repeat case_decide; try lia. apply word_bytes.
Qed.

Lemma ld8_st32_ne m a v b : b < a \/ a + 4 <= b -> ld8 (st32 m a v) b = ld8 m b.
Proof. intros. unfold st32. rewrite !ld8_st8. repeat case_decide; first [lia|done]. Qed.

Lemma ld32_ext m1 m2 a :
  (forall b, a <= b < a + 4 -> ld8 m1 b = ld8 m2 b) -> ld32 m1 a = ld32 m2 a.
Proof. intros H. unfold ld32. by rewrite !H by lia. Qed.

Lemma ld32_st32_ne m a v b : b + 4 <= a \/ a + 4 <= b -> ld32 (st32 m a v) b = ld32 m b.
Proof. intros. apply ld32_ext. intros. apply ld8_st32_ne. lia. Qed.

Lemma ld32_range m a : mem_ok m -> in_u32 (ld32 m a).
Proof.
  intros H. unfold in_u32, ld32.
  pose proof (H a). pose proof (H (a + 1)). pose proof (H (a + 2)). pose proof (H (a + 3)). lia.
Qed.

(** ** memset: both versions fill the range with the low byte of [c] *)
Lemma ld8_stosb n m a c b :
  ld8 (stosb m a c n) b = if decide (a <= b < a + Z.of_nat n) then c mod 256 else ld8 m b.
Proof.
  revert m a. induction n as [|n IH]; intros m a; simpl.
  - case_decide; [lia|done].
  - rewrite IH, ld8_st8. repeat case_decide; first [lia|done].
Qed.

(** The word [memset] stores is the byte [c & 0xff] four times. *)
Lemma splat_byte c k :
  In k [0; 8; 16; 24] ->
  let d := c mod 256 in
  (Z.lor (Z.lor (Z.lor (Z.shiftl d 24) (Z.shiftl d 16)) (Z.shiftl d 8)) d) / 2^k mod 256 = d.
Proof.
  intros Hk d. assert (Hd : 0 <= d < 2^8) by (apply Z.mod_pos_bound; lia).
  assert (Hhi : forall i, 8 <= i -> Z.testbit d i = false).
  { intros i Hi. rewrite <-(Z.mod_small d (2^8) Hd). apply Z.mod_pow2_bits_high. lia. }
  change 256 with (2^8). apply Z.bits_inj'. intros i Hi.
  destruct (Z.ltb_spec i 8) as [Hlt|Hge].
  - rewrite Z.mod_pow2_bits_low by lia.
    assert (Hlo : forall n, 8 <= n -> i + k < n -> Z.testbit (Z.shiftl d n) (i + k) = false).
    { intros n ??. rewrite Z.shiftl_spec_low by lia. done. }
    assert (Hup : forall n, 0 <= n -> n + 8 <= k -> Z.testbit (Z.shiftl d n) (i + k) = false).
    { intros n ??. rewrite Z.shiftl_spec by lia. apply Hhi. lia. }
    assert (Heq : 0 <= k -> Z.testbit (Z.shiftl d k) (i + k) = Z.testbit d i).
    { intros ?. rewrite Z.shiftl_spec by lia. f_equal. lia. }
    rewrite Z.div_pow2_bits by (simpl in Hk; lia). rewrite !Z.lor_spec.
    rewrite <-(Z.shiftl_0_r d) at 4.
    simpl in Hk. destruct Hk as [<-|[<-|[<-|[<-|[]]]]];
      rewrite ?Heq by lia; rewrite ?Hlo, ?Hup by lia;
      by rewrite ?orb_false_r, ?orb_false_l.
  - rewrite Z.mod_pow2_bits_high by lia. by rewrite Hhi.
Qed.

Lemma stosl_splat n m a c w :
  (forall k, In k [0; 8; 16; 24] -> w / 2^k mod 256 = c mod 256) ->
  forall b, ld8 (stosl m a w n) b = ld8 (stosb m a c (4 * n)) b.
Proof.
  intros Hw. revert m a. induction n as [|n IH]; intros m a b; [done|].
  replace (4 * S n)%nat with (S (S (S (S (4 * n))))) by lia. cbn [stosl stosb].
  rewrite IH, !ld8_stosb. replace (a + 1 + 1 + 1 + 1) with (a + 4) by lia.
  case_decide; [done|]. unfold st32. rewrite !ld8_st8.
  replace (a + 1 + 1 + 1) with (a + 3) by lia. replace (a + 1 + 1) with (a + 2) by lia.
  pose proof (Hw 0 ltac:(simpl; tauto)) as H0. rewrite Z.div_1_r in H0.
  rewrite H0, !Hw by (simpl; tauto). done.
Qed.

Lemma land_0xFF c : Z.land c 0xFF = c mod 256.
Proof. change 0xFF with (Z.ones 8). rewrite Z.land_ones by lia. done. Qed.

Lemma ld8_memset m dst c n b : 0 <= n ->
  ld8 (memset m dst c n) b = if decide (dst <= b < dst + n) then c mod 256 else ld8 m b.
Proof.
  intros Hn. unfold memset. destruct (_ && _) eqn:E.
  - apply andb_true_iff in E as [_ E%Z.eqb_eq]. rewrite land_0xFF.
    rewrite (stosl_splat _ _ _ c).
    + rewrite ld8_stosb. pose proof (Z.div_mod n 4 ltac:(lia)).
      replace (Z.of_nat (4 * Z.to_nat (n / 4))) with n by lia. done.
    + intros k Hk. unfold u32. rewrite <-(splat_byte c k Hk) at 5.
      assert (Hk' : 0 <= k <= 24) by (simpl in Hk; lia).
      change 256 with (2^8). rewrite <-!Z.shiftr_div_pow2, <-!Z.land_ones by lia.
      apply Z.bits_inj'. intros i Hi. rewrite !Z.land_spec, !Z.shiftr_spec, !Z.land_spec by lia.
      destruct (Z.ltb_spec i 8).
      * rewrite (Z.ones_spec_low 32) by lia. by rewrite andb_true_r.
      * rewrite (Z.ones_spec_high 8) by lia. by rewrite !andb_false_r.
  - rewrite ld8_stosb. replace (Z.of_nat (Z.to_nat n)) with n by lia. done.
Qed.

(** ** memmove *)
Lemma ld8_copy_up n m d s b : mem_ok m ->
  (forall j, 0 <= j < Z.of_nat n -> ~ (d <= s + j < d + j)) ->
  ld8 (copy_up m d s n) b = if decide (d <= b < d + Z.of_nat n) then ld8 m (s + (b - d)) else ld8 m b.
Proof.
  revert m d s. induction n as [|n IH]; intros m d s Hm Hj; simpl.
  - case_decide; [lia|done].
  - rewrite IH; [..|by apply mem_ok_st8|].
    2: { intros j Hlt. specialize (Hj (j + 1)). lia. }
    destruct (decide (d + 1 <= b < d + 1 + Z.of_nat n)).
    + rewrite decide_True by lia. rewrite ld8_st8_ne; [f_equal; lia|].
      specialize (Hj (b - d)). lia.
    + destruct (decide (d = b)) as [<-|].
      * rewrite decide_True, ld8_st8_eq by lia. rewrite Z.mod_small by apply Hm. f_equal. lia.
      * rewrite decide_False, ld8_st8_ne by lia. done.
Qed.

Lemma ld8_copy_down n m d s b : mem_ok m -> s < d ->
  ld8 (copy_down m d s n) b =
    if decide (d - Z.of_nat n <= b < d) then ld8 m (s + (b - d)) else ld8 m b.
Proof.
  revert m d s. induction n as [|n IH]; intros m d s Hm Hs; simpl.
  - case_decide; [lia|done].
  - rewrite IH; [|by apply mem_ok_st8|lia].
    destruct (decide (d - 1 - Z.of_nat n <= b < d - 1)).
    + rewrite decide_True by lia. rewrite ld8_st8_ne by lia. f_equal. lia.
    + destruct (decide (d - 1 = b)) as [<-|].
      * rewrite decide_True, ld8_st8_eq by lia. rewrite Z.mod_small by apply Hm. f_equal. lia.
      * rewrite decide_False, ld8_st8_ne by lia. done.
Qed.

Lemma ld8_memmove m dst src n b : mem_ok m -> 0 <= n ->
  ld8 (memmove m dst src n) b =
    if decide (dst <= b < dst + n) then ld8 m (src + (b - dst)) else ld8 m b.
Proof.
  intros Hm Hn. unfold memmove. destruct (_ && _) eqn:E.
  - rewrite ld8_copy_down by (try done; lia). rewrite Z2Nat.id by lia.
    repeat case_decide; first [lia | f_equal; lia | done].
  - rewrite ld8_copy_up by (try done; lia). by rewrite Z2Nat.id by lia.
Qed.

Lemma mem_ok_of (m : memory) (g : memory -> memory) :
  mem_ok m -> (forall b, exists c, ld8 (g m) b = c mod 256 \/ ld8 (g m) b = ld8 m c) -> mem_ok (g m).
Proof.
  intros Hm Hg b. destruct (Hg b) as (c & [-> | ->]); [|apply Hm]. apply Z.mod_pos_bound. lia.
Qed.

Lemma mem_ok_memset m dst c n : 0 <= n -> mem_ok m -> mem_ok (memset m dst c n).
Proof.
  intros Hn Hm. apply (mem_ok_of m (fun m => memset m dst c n) Hm). intros b.
  rewrite ld8_memset by done. case_decide; eauto.
Qed.

Lemma mem_ok_memmove m dst src n : 0 <= n -> mem_ok m -> mem_ok (memmove m dst src n).
Proof.
  intros Hn Hm. apply (mem_ok_of m (fun m => memmove m dst src n) Hm). intros b.
  rewrite ld8_memmove by done. case_decide; eauto.
Qed.
