(* ===== verification/FsTypes.v ===== *)
(** Constants, structs and variables of the file system and the character
    devices: fs.h, stat.h, buf.h, file.h, sleeplock.h, log.c, pipe.c, console.c
    and ide.c. A pointer to an element of a global array is its index; a pipe is
    known by the address of its page. *)
From stdpp Require Import base tactics list numbers strings gmap.
From S2P Require Import Prelude.

#[local] Open Scope Z_scope.

(** ** param.h, fs.h, stat.h, fcntl.h *)
Definition NFILE : nat := 100.
Definition NINODE : nat := 50.
Definition NDEV : Z := 10.
Definition ROOTDEV : Z := 1.
Definition MAXARG : nat := 32.
Definition MAXOPBLOCKS : Z := 10.
Definition LOGSIZE : Z := MAXOPBLOCKS * 3.
Definition NBUF : nat := 30.
Definition FSSIZE : Z := 1000.
Definition ROOTINO : Z := 1.
Definition BSIZE : Z := 512.
Definition NDIRECT : Z := 12.
Definition NINDIRECT : Z := BSIZE / 4.
Definition MAXFILE : Z := NDIRECT + NINDIRECT.
Definition sizeof_dinode : Z := 64.
Definition IPB : Z := BSIZE / sizeof_dinode.
Definition BPB : Z := BSIZE * 8.
Definition DIRSIZ : nat := 14.
Definition sizeof_dirent : Z := 16.
Definition T_DIR : Z := 1.
Definition T_FILE : Z := 2.
Definition T_DEV : Z := 3.
Definition O_RDONLY : Z := 0x000.
Definition O_WRONLY : Z := 0x001.
Definition O_RDWR : Z := 0x002.
Definition O_CREATE : Z := 0x200.
Definition CONSOLE : Z := 1.
Definition PIPESIZE : Z := 512.
Definition INPUT_BUF : Z := 128.
Definition B_VALID : Z := 0x2.
Definition B_DIRTY : Z := 0x4.

(** ** sleeplock.h: [struct sleeplock]; its spin lock [lk] is a [lockid] *)
Record sleeplock := Sleeplock {
  sl_locked : bool;
  sl_name : string;
  sl_pid : Z
}.
#[global] Instance eta_sleeplock : Eta sleeplock :=
  fun x => Sleeplock (sl_locked x) (sl_name x) (sl_pid x).
Definition sleeplock0 : sleeplock := Sleeplock false EmptyString 0.

(** ** buf.h: [struct buf]; its links are the lists [lru] and [idequeue] below *)
Record buf := Buf {
  b_flags : Z;
  b_dev : Z;
  b_blockno : Z;
  b_lock : sleeplock;
  b_refcnt : Z;
  b_data : list Z
}.
#[global] Instance eta_buf : Eta buf :=
  fun x => Buf (b_flags x) (b_dev x) (b_blockno x) (b_lock x) (b_refcnt x) (b_data x).
Definition zero_block : list Z := replicate 512 0.
Definition buf0 : buf := Buf 0 0 0 sleeplock0 0 zero_block.
#[global] Instance buf_inhabited : Inhabited buf := populate buf0.

(** ** fs.h: [struct superblock], [struct dinode] *)
Record superblock := Superblock {
  sb_size : Z;
  sb_nblocks : Z;
  sb_ninodes : Z;
  sb_nlog : Z;
  sb_logstart : Z;
  sb_inodestart : Z;
  sb_bmapstart : Z
}.
Definition superblock0 : superblock := Superblock 0 0 0 0 0 0 0.

Record dinode := Dinode {
  d_type : Z;
  d_major : Z;
  d_minor : Z;
  d_nlink : Z;
  d_size : Z;
  d_addrs : list Z
}.

(** ** file.h: [struct inode], [struct file] *)
Record inode := Inode {
  i_dev : Z;
  i_inum : Z;
  i_ref : Z;
  i_lock : sleeplock;
  i_valid : bool;
  i_type : Z;
  i_major : Z;
  i_minor : Z;
  i_nlink : Z;
  i_size : Z;
  i_addrs : list Z
}.
#[global] Instance eta_inode : Eta inode :=
  fun x => Inode (i_dev x) (i_inum x) (i_ref x) (i_lock x) (i_valid x) (i_type x) (i_major x)
    (i_minor x) (i_nlink x) (i_size x) (i_addrs x).
Definition inode0 : inode := Inode 0 0 0 sleeplock0 false 0 0 0 0 0 (replicate 13 0).
#[global] Instance inode_inhabited : Inhabited inode := populate inode0.

Inductive filetype : Type := FD_NONE | FD_PIPE | FD_INODE.
#[global] Instance filetype_eq_dec : EqDecision filetype.
Proof. solve_decision. Defined.

Record file := File {
  f_type : filetype;
  f_ref : Z;
  f_readable : bool;
  f_writable : bool;
  f_pipe : Z;
  f_ip : option nat;
  f_off : Z
}.
#[global] Instance eta_file : Eta file :=
  fun x => File (f_type x) (f_ref x) (f_readable x) (f_writable x) (f_pipe x) (f_ip x) (f_off x).
Definition file0 : file := File FD_NONE 0 false false 0 None 0.
#[global] Instance file_inhabited : Inhabited file := populate file0.

(** ** pipe.c: [struct pipe] *)
Record pipe := Pipe {
  p_data : list Z;
  p_nread : Z;
  p_nwrite : Z;
  p_readopen : bool;
  p_writeopen : bool
}.
#[global] Instance eta_pipe : Eta pipe :=
  fun x => Pipe (p_data x) (p_nread x) (p_nwrite x) (p_readopen x) (p_writeopen x).
Definition pipe0 : pipe := Pipe (replicate 512 0) 0 0 false false.

(** ** log.c: [struct log] and [struct logheader] *)
Record log_t := Log {
  l_start : Z;
  l_size : Z;
  l_outstanding : Z;
  l_committing : bool;
  l_dev : Z;
  lh_n : Z;
  lh_block : list Z
}.
#[global] Instance eta_log : Eta log_t :=
  fun x => Log (l_start x) (l_size x) (l_outstanding x) (l_committing x) (l_dev x) (lh_n x)
    (lh_block x).
Definition log0 : log_t := Log 0 0 0 false 0 0 (replicate 30 0).

(** ** console.c: the input buffer *)
Record input_t := Input {
  in_buf : list Z;
  in_r : Z;
  in_w : Z;
  in_e : Z
}.
#[global] Instance eta_input : Eta input_t :=
  fun x => Input (in_buf x) (in_r x) (in_w x) (in_e x).
Definition input0 : input_t := Input (replicate 128 0) 0 0 0.

(** ** Variables of the file system and the devices

    bio.c: the buffers and [lru], the order of the list from [head.next];
    log.c, fs.c, file.c: [log], [sb], the inode cache and the file table;
    ide.c: [idequeue] as the list of its buffers, [havedisk1]; [disk] is the
    contents of the two disks, by disk and block number; [kbd_shift] is the static
    variable [shift] of [kbdgetc]. *)
Record fsst := Fsst {
  bufs : list buf;
  lru : list nat;
  logst : log_t;
  sblk : superblock;
  inodes : list inode;
  files : list file;
  pipes : gmap Z pipe;
  input : input_t;
  idequeue : list nat;
  havedisk1 : bool;
  disk : gmap (Z * Z) (list Z);
  kbd_shift : Z
}.
#[global] Instance eta_fsst : Eta fsst :=
  fun x => Fsst (bufs x) (lru x) (logst x) (sblk x) (inodes x) (files x) (pipes x) (input x)
    (idequeue x) (havedisk1 x) (disk x) (kbd_shift x).
Definition fsst0 : fsst :=
  Fsst (replicate NBUF buf0) [] log0 superblock0 (replicate NINODE inode0)
    (replicate NFILE file0) ∅ input0 [] false ∅ 0.
