(* ===== verification/State.v ===== *)
(** The kernel's constants, structs and global variables.

    Constants come from param.h, mmu.h, memlayout.h, traps.h and defs.h, structs
    from proc.h, spinlock.h and x86.h (the file system's are in FsTypes.v). A pointer to an element of a global array
    is its index ([None] is the null pointer); any other address is a [Z]. *)
From stdpp Require Import base tactics list numbers strings gmap.
From S2P Require Import Prelude CString FsTypes.

#[local] Open Scope Z_scope.

(** ** param.h, defs.h *)
Definition NPROC : nat := 64.
#[global] Arguments NPROC : simpl never.
Definition KSTACKSIZE : Z := 4096.
Definition NCPU : nat := 8.
Definition NOFILE : nat := 16.
Definition Time_Quantum : Z := 30.
Definition Unit_Quantum_length_ms : Z := 10.
Definition AGING_THRESHOLD : Z := 800.

(** ** mmu.h, memlayout.h *)
Definition FL_IF : Z := 0x200.
Definition SEG_KDATA : Z := 2.
Definition SEG_UCODE : Z := 3.
Definition SEG_UDATA : Z := 4.
Definition DPL_USER : Z := 3.
Definition PGSIZE : Z := 4096.
Definition KERNBASE : Z := 0x80000000.
Definition EXTMEM : Z := 0x100000.
Definition PHYSTOP : Z := 0xE000000.
Definition DEVSPACE : Z := 0xFE000000.
Definition KERNLINK : Z := KERNBASE + EXTMEM.
Definition NPDENTRIES : nat := 1024.
Definition PGROUNDUP (sz : Z) : Z := Z.land (u32 (sz + PGSIZE - 1)) (Z.lnot (PGSIZE - 1)).
Definition PGROUNDDOWN (a : Z) : Z := Z.land a (Z.lnot (PGSIZE - 1)).
Definition V2P (a : Z) : Z := u32 (u32 a - KERNBASE).
Definition P2V (a : Z) : Z := u32 (a + KERNBASE).

(** ** traps.h *)
Definition T_SYSCALL : Z := 64.
Definition T_IRQ0 : Z := 32.
Definition IRQ_TIMER : Z := 0.
Definition IRQ_KBD : Z := 1.
Definition IRQ_COM1 : Z := 4.
Definition IRQ_IDE : Z := 14.
Definition IRQ_SPURIOUS : Z := 31.

(** ** spinlock.h: [struct spinlock] without the debugging call stack [pcs] *)
Record spinlock := Spinlock {
  locked : bool;
  lk_name : string;
  lk_cpu : option nat
}.
#[global] Instance eta_spinlock : Eta spinlock :=
  fun x => Spinlock (locked x) (lk_name x) (lk_cpu x).
(** A lock in the kernel's bss, before [initlock]. *)
Definition lock0 : spinlock := Spinlock false EmptyString None.

(** ** proc.h: [struct cpu]

    [nextrrp] is the local variable of the [scheduler()] activation of this CPU;
    [ts_esp0] is the stack pointer [switchuvm] puts into the task state. *)
Record cpu := Cpu {
  apicid : Z;
  started : bool;
  ncli : Z;
  intena : bool;
  cpu_proc : option nat;
  nextrrp : nat;
  ts_esp0 : Z
}.
#[global] Instance eta_cpu : Eta cpu :=
  fun x => Cpu (apicid x) (started x) (ncli x) (intena x) (cpu_proc x) (nextrrp x) (ts_esp0 x).
#[global] Instance cpu_inhabited : Inhabited cpu := populate (Cpu 0 false 0 false None 0 0).

(** ** proc.h: process states *)
Inductive procstate : Type := UNUSED | EMBRYO | SLEEPING | RUNNABLE | RUNNING | ZOMBIE.
#[global] Instance procstate_eq_dec : EqDecision procstate.
Proof. solve_decision. Defined.

(** What a process sleeps on: the address passed to [sleep] as [chan]. *)
Inductive chan_t : Type :=
| ch_null
| ch_proc (i : nat)
| ch_ticks
| ch_input
| ch_log
| ch_buf (i : nat)
| ch_buflock (i : nat)
| ch_inodelock (i : nat)
| ch_pipe_r (p : Z)
| ch_pipe_w (p : Z).
#[global] Instance chan_eq_dec : EqDecision chan_t.
Proof. solve_decision. Defined.

(** Kernel code addresses that are stored in data. *)
Inductive codeptr : Type := code_null | code_forkret | code_trapret.

(** ** proc.h: [struct context], and the return address [allocproc] leaves above it *)
Record context_t := Context {
  c_edi : Z; c_esi : Z; c_ebx : Z; c_ebp : Z;
  c_eip : codeptr;
  c_ret : codeptr
}.
#[global] Instance eta_context : Eta context_t :=
  fun x => Context (c_edi x) (c_esi x) (c_ebx x) (c_ebp x) (c_eip x) (c_ret x).
Definition sizeof_context : Z := 20.

(** ** x86.h: [struct trapframe] (padding left out) *)
Record trapframe := Trapframe {
  edi : Z; esi : Z; ebp : Z; oesp : Z; ebx : Z; edx : Z; ecx : Z; eax : Z;
  gs : Z; fs : Z; es : Z; ds : Z;
  trapno : Z; err : Z; eip : Z; cs : Z; eflags : Z; esp : Z; ss : Z
}.
#[global] Instance eta_trapframe : Eta trapframe :=
  fun x => Trapframe (edi x) (esi x) (ebp x) (oesp x) (ebx x) (edx x) (ecx x) (eax x)
    (gs x) (fs x) (es x) (ds x) (trapno x) (err x) (eip x) (cs x) (eflags x) (esp x) (ss x).
Definition zero_trapframe : trapframe := Trapframe 0 0 0 0 0 0 0 0 0 0 0 0 0 0 0 0 0 0 0.
Definition sizeof_trapframe : Z := 76.

(** ** proc.h: [struct proc]

    [tf] and [context] are the addresses the struct holds; [tframe] and [ctx] are
    what is stored there, in the process's own kernel stack. *)
Record proc := Proc {
  sz : Z;
  pgdir : Z;
  kstack : Z;
  state : procstate;
  pid : Z;
  parent : option nat;
  tf : Z;
  tframe : trapframe;
  context : Z;
  ctx : context_t;
  chan : chan_t;
  killed : bool;
  ofile : list (option nat);
  cwd : option nat;
  name : list Z;
  sched_class : Z;
  sched_level : Z;
  deadline : Z;
  rr_ticks : Z;
  runnig_time : Z;
  arrival_time : Z;
  waited_ticks : Z;
  consecutive_run : Z;
  max_consecutive_run : Z;
  last_run : Z
}.
#[global] Instance eta_proc : Eta proc :=
  fun x => Proc (sz x) (pgdir x) (kstack x) (state x) (pid x) (parent x) (tf x) (tframe x)
    (context x) (ctx x) (chan x) (killed x) (ofile x) (cwd x) (name x) (sched_class x)
    (sched_level x) (deadline x) (rr_ticks x) (runnig_time x) (arrival_time x)
    (waited_ticks x) (consecutive_run x) (max_consecutive_run x) (last_run x).

(** A zeroed [struct proc]: the contents of [ptable.proc] in the kernel's bss. *)
Definition proc0 : proc := {|
  sz := 0; pgdir := 0; kstack := 0; state := UNUSED; pid := 0; parent := None;
  tf := 0; tframe := zero_trapframe; context := 0;
  ctx := Context 0 0 0 0 code_null code_null; chan := ch_null; killed := false;
  ofile := replicate NOFILE None; cwd := None; name := replicate 16 0;
  sched_class := 0; sched_level := 0; deadline := 0; rr_ticks := 0; runnig_time := 0;
  arrival_time := 0; waited_ticks := 0; consecutive_run := 0; max_consecutive_run := 0;
  last_run := 0 |}.
#[global] Instance proc_inhabited : Inhabited proc := populate proc0.

(** ** CPUs and spin locks

    [here] is the local APIC id of the CPU that is executing, [ifl] the interrupt
    flag of each CPU and [cr3] its page-table register, by APIC id. *)
Record lstate := Lstate {
  cpus : list cpu;
  ncpu : nat;
  here : Z;
  ifl : gmap Z bool;
  cr3 : gmap Z Z;
  locks : gmap lockid spinlock
}.
#[global] Instance eta_lstate : Eta lstate :=
  fun x => Lstate (cpus x) (ncpu x) (here x) (ifl x) (cr3 x) (locks x).

(** ** The kernel's global variables

    proc.c: [ptable.proc], the three ready counters, [nextpid], [initproc] and the
    static [first] of [forkret]; trap.c: [ticks]; console.c: [cons.locking], and
    [screen], the characters given to [consputc] so far, oldest first; kalloc.c:
    [kmem.use_lock] and [kmem.freelist]; vm.c: [kpgdir]. [mem] is the memory at kernel virtual
    addresses, [sym_end] and [sym_data] the linker's symbols [end] and [data]. [fss] is the
    state of the file system and of the devices (FsTypes.v). *)
Record kst := Kst {
  klk : lstate;
  ptab : list proc;
  count_edf : Z;
  count_rr : Z;
  count_fcfs : Z;
  nextpid : Z;
  initproc : option nat;
  first : bool;
  ticks : Z;
  cons_locking : bool;
  screen : list Z;
  use_lock : bool;
  freelist : Z;
  kpgdir : Z;
  mem : memory;
  sym_end : Z;
  sym_data : Z;
  fss : fsst
}.
#[global] Instance eta_kst : Eta kst :=
  fun x => Kst (klk x) (ptab x) (count_edf x) (count_rr x) (count_fcfs x) (nextpid x)
    (initproc x) (first x) (ticks x) (cons_locking x) (screen x) (use_lock x) (freelist x)
    (kpgdir x) (mem x) (sym_end x) (sym_data x) (fss x).

(** ** Rounding lemmas *)
Lemma land_lnot_4095 x : Z.land x (Z.lnot (PGSIZE - 1)) = x - x mod PGSIZE.
Proof.
  change (PGSIZE - 1) with (Z.ones 12). rewrite <-Z.ldiff_land, Z.ldiff_ones_r by lia.
  rewrite Z.shiftl_mul_pow2, Z.shiftr_div_pow2 by lia. change (2^12) with PGSIZE.
  pose proof (Z.div_mod x PGSIZE ltac:(done)). lia.
Qed.

Lemma PGROUNDDOWN_eq a : PGROUNDDOWN a = a - a mod PGSIZE.
Proof. apply land_lnot_4095. Qed.

Lemma PGROUNDDOWN_aligned a : a mod PGSIZE = 0 -> PGROUNDDOWN a = a.
Proof. intros H. rewrite PGROUNDDOWN_eq. lia. Qed.

Lemma PGROUNDDOWN_bounds a : PGROUNDDOWN a <= a < PGROUNDDOWN a + PGSIZE.
Proof. rewrite PGROUNDDOWN_eq. pose proof (Z.mod_pos_bound a PGSIZE ltac:(done)). lia. Qed.

Lemma PGROUNDDOWN_mod a : PGROUNDDOWN a mod PGSIZE = 0.
Proof.
  rewrite PGROUNDDOWN_eq. rewrite Zminus_mod_idemp_r, Z.sub_diag. done.
Qed.

Lemma PGROUNDUP_spec sz : 0 <= sz -> sz + PGSIZE <= 2^32 ->
  sz <= PGROUNDUP sz < sz + PGSIZE /\ PGROUNDUP sz mod PGSIZE = 0.
Proof.
  intros H0 H1. unfold PGROUNDUP. rewrite u32_small by (unfold in_u32, PGSIZE in *; lia).
  fold (PGROUNDDOWN (sz + PGSIZE - 1)).
  pose proof (PGROUNDDOWN_bounds (sz + PGSIZE - 1)). pose proof (PGROUNDDOWN_mod (sz + PGSIZE - 1)).
  split; [lia|done].
Qed.

(** Kernel code over the global state. *)
Abbreviation K := (M kst).
