(* ===== verification/Spinlock.v ===== *)
(** Interrupt masking and spin locks: spinlock.c, with [mycpu], [cpuid] and
    [myproc] of proc.c, which the locks and every client of them use. *)
From stdpp Require Import base tactics list numbers strings gmap.
From S2P Require Import Prelude State.

#[local] Open Scope Z_scope.

(** ** Hardware access (x86.h, lapic.c) *)
Definition readeflags_IF : K bool :=
  gets (fun s => default false (ifl (klk s) !! here (klk s))).
Definition set_IF (b : bool) : K unit :=
  modify (fun s => s <| klk ::= fun l => l <| ifl ::= <[here l := b]> |> |>).
Definition cli : K unit := set_IF false.
Definition sti : K unit := set_IF true.
Definition lapicid : K Z := gets (fun s => here (klk s)).

(** ** proc.c: which CPU, which process *)

(** The loop of [mycpu]: the first of the [ncpu] entries with this APIC id. *)
Fixpoint find_cpu (id : Z) (i : nat) (l : list cpu) : option nat :=
  match l with
  | [] => None
  | c :: l' => if decide (apicid c = id) then Some i else find_cpu id (S i) l'
  end.

Definition mycpu : K nat :=
  f ← readeflags_IF;
  if (f : bool) then panic ("mycpu called with interrupts enabled" +:+ nl)
  else
    id ← lapicid;
    l ← gets klk;
    match find_cpu id 0 (take (ncpu l) (cpus l)) with
    | Some i => mret i
    | None => panic ("unknown apicid" +:+ nl)
    end.

Definition cpuid : K Z := i ← mycpu; mret (Z.of_nat i).

Definition cpu_at (i : nat) : K cpu := gets (fun s => cpus (klk s) !!! i).
Definition upd_cpu (i : nat) (f : cpu -> cpu) : K unit :=
  modify (fun s => s <| klk ::= fun l => l <| cpus ::= alter f i |> |>).

(** ** spinlock.c: nested interrupt disabling *)
Definition pushcli : K unit :=
  eflags ← readeflags_IF;
  cli;;
  i ← mycpu;
  c ← cpu_at i;
  mwhen (ncli c =? 0) (upd_cpu i (fun c => c <| intena := eflags |>));;
  upd_cpu i (fun c => c <| ncli ::= Z.add 1 |>).

Definition popcli : K unit :=
  f ← readeflags_IF;
  if (f : bool) then panic "popcli - interruptible"
  else
    i ← mycpu;
    upd_cpu i (fun c => c <| ncli ::= Z.pred |>);;
    c ← cpu_at i;
    if ncli c <? 0 then panic "popcli"
    else mwhen ((ncli c =? 0) && intena c) sti.

Definition myproc : K (option nat) :=
  pushcli;;
  i ← mycpu;
  c ← cpu_at i;
  popcli;;
  mret (cpu_proc c).

(** ** spinlock.c: locks *)
Definition get_lock (lk : lockid) : K spinlock :=
  gets (fun s => default lock0 (locks (klk s) !! lk)).
Definition set_lock (lk : lockid) (v : spinlock) : K unit :=
  modify (fun s => s <| klk ::= fun l => l <| locks ::= <[lk := v]> |> |>).

Definition initlock (lk : lockid) (nm : string) : K unit :=
  set_lock lk (Spinlock false nm None).

(** Check whether this CPU is holding the lock. *)
Definition holding (lk : lockid) : K bool :=
  pushcli;;
  v ← get_lock lk;
  i ← mycpu;
  popcli;;
  mret (locked v && bool_decide (lk_cpu v = Some i)).

(** The [xchg] loop either takes the lock at once or keeps spinning. *)
Definition acquire (lk : lockid) : K unit :=
  pushcli;;
  h ← holding lk;
  if (h : bool) then panic "acquire"
  else
    v ← get_lock lk;
    if locked v then spin lk
    else
      set_lock lk (v <| locked := true |>);;
      i ← mycpu;
      v ← get_lock lk;
      set_lock lk (v <| lk_cpu := Some i |>).

Definition release (lk : lockid) : K unit :=
  h ← holding lk;
  if negb h then panic "release"
  else
    v ← get_lock lk;
    set_lock lk (v <| lk_cpu := None |> <| locked := false |>);;
    popcli.

(** ** Lemmas: what the lock layer reads and changes *)

(** The entry of [cpus] that [mycpu] returns. *)
Definition this_cpu (l : lstate) : option nat := find_cpu (here l) 0 (take (ncpu l) (cpus l)).

(** The process running on this CPU, as [myproc] returns it. *)
Definition cur (l : lstate) : option nat :=
  i ← this_cpu l; c ← cpus l !! i; cpu_proc c.

(** What locking never changes: who is executing, and each CPU's fields other
    than the interrupt bookkeeping. *)
Definition cpu_static (c : cpu) : Z * bool * option nat * nat * Z :=
  (apicid c, started c, cpu_proc c, nextrrp c, ts_esp0 c).
Definition lk_static (l : lstate) : Z * nat * list (Z * bool * option nat * nat * Z) * gmap Z Z :=
  (here l, ncpu l, cpu_static <$> cpus l, cr3 l).

Lemma find_cpu_ext id n (l1 l2 : list cpu) :
  apicid <$> l1 = apicid <$> l2 -> find_cpu id n l1 = find_cpu id n l2.
Proof.
  revert n l2. induction l1 as [|c1 l1 IH]; intros n [|c2 l2] H; simplify_eq/=; [done|].
  rewrite H. case_decide; [done|]. by apply IH.
Qed.

Lemma lk_static_apicid l1 l2 :
  lk_static l1 = lk_static l2 -> apicid <$> cpus l1 = apicid <$> cpus l2.
Proof.
  unfold lk_static. intros [= _ _ H _].
  apply (f_equal (fmap (fun t : Z * bool * option nat * nat * Z => t.1.1.1.1))) in H.
  by rewrite <-!list_fmap_compose in H.
Qed.

Lemma this_cpu_static l1 l2 : lk_static l1 = lk_static l2 -> this_cpu l1 = this_cpu l2.
Proof.
  intros H. pose proof (lk_static_apicid _ _ H) as Ha.
  unfold this_cpu. unfold lk_static in H. injection H as Hh Hn _ _. rewrite Hh, Hn.
  apply find_cpu_ext. by rewrite !fmap_take, Ha.
Qed.

Lemma cur_static l1 l2 : lk_static l1 = lk_static l2 -> cur l1 = cur l2.
Proof.
  intros H. unfold cur. rewrite (this_cpu_static _ _ H).
  destruct (this_cpu l2) as [i|]; simpl; [|done].
  unfold lk_static in H. injection H as _ _ Hc _.
  apply (f_equal (fun k => k !! i)) in Hc. rewrite !list_lookup_fmap in Hc.
  unfold cpu_static in Hc.
  destruct (cpus l1 !! i), (cpus l2 !! i); simplify_eq/=; congruence.
Qed.

(** [m] only works on the lock layer: every result state is the initial one with
    other locks and interrupt state. *)
Definition lk_only {A} (m : K A) : Prop :=
  forall s, match m s with
    | Ret _ s' => exists l, s' = s <| klk := l |> /\ lk_static l = lk_static (klk s)
    | Swtch _ _ => False
    | _ => True
    end.

Lemma lk_only_ret {A} (a : A) : lk_only (mret a).
Proof. intros s. exists (klk s). by destruct s. Qed.

Lemma lk_only_gets {A} (f : kst -> A) : lk_only (gets f).
Proof. intros s. exists (klk s). by destruct s. Qed.

Lemma lk_only_panic {A} msg : lk_only (panic (A:=A) msg).
Proof. done. Qed.

Lemma lk_only_spin {A} l : lk_only (spin (A:=A) l).
Proof. done. Qed.

Lemma lk_only_bind {A B} (m : K A) (f : A -> K B) :
  lk_only m -> (forall a, lk_only (f a)) -> lk_only (m ≫= f).
Proof.
  intros Hm Hf s. specialize (Hm s). unfold mbind, M_bind.
  destruct (m s) as [a s1| | | | | ]; simpl; try done.
  destruct Hm as (l & -> & Hl). specialize (Hf a (s <| klk := l |>)).
  destruct (f a (s <| klk := l |>)) as [b s2| | | | | ]; try done.
  destruct Hf as (l2 & -> & Hl2). exists l2. split; [done|]. by rewrite Hl2.
Qed.

Lemma lk_only_when (b : bool) m : lk_only m -> lk_only (mwhen b m).
Proof. destruct b; [done|]. intros _. apply lk_only_ret. Qed.

Lemma lk_only_upd_cpu i f :
  (forall c, cpu_static (f c) = cpu_static c) -> lk_only (upd_cpu i f).
Proof.
  intros Hf s. exists ((klk s) <| cpus ::= alter f i |>). split; [done|].
  unfold lk_static. simpl. do 2 f_equal.
  apply list_eq. intros j. rewrite !list_lookup_fmap.
  destruct (decide (i = j)) as [->|Hne].
  - rewrite list_lookup_alter_eq. destruct (cpus (klk s) !! j); simpl; by rewrite ?Hf.
  - by rewrite list_lookup_alter_ne.
Qed.

Lemma lk_only_set_lock k v : lk_only (set_lock k v).
Proof. intros s. by eexists. Qed.

Lemma lk_only_set_IF b : lk_only (set_IF b).
Proof. intros s. by eexists. Qed.

Create HintDb lockdb.
#[export] Hint Resolve lk_only_ret lk_only_gets lk_only_panic lk_only_spin lk_only_bind
  lk_only_when lk_only_set_lock lk_only_set_IF : lockdb.

(** Walks through a lock-layer routine, splitting its tests. *)
Ltac lk_walk :=
  repeat first
    [ progress intros
    | solve [eauto 2 with lockdb]
    | apply lk_only_bind
    | apply lk_only_when
    | apply lk_only_upd_cpu; by intros
    | match goal with
      | |- lk_only (if ?b then _ else _) => destruct b
      | |- lk_only (match ?o with Some _ => _ | None => _ end) => destruct o
      end ].

Lemma lk_only_mycpu : lk_only mycpu.
Proof. unfold mycpu, readeflags_IF, lapicid. lk_walk. Qed.
#[export] Hint Resolve lk_only_mycpu : lockdb.

Lemma lk_only_pushcli : lk_only pushcli.
Proof. unfold pushcli, readeflags_IF, cli, cpu_at. lk_walk. Qed.

Lemma lk_only_popcli : lk_only popcli.
Proof. unfold popcli, readeflags_IF, sti, cpu_at. lk_walk. Qed.
#[export] Hint Resolve lk_only_pushcli lk_only_popcli : lockdb.

Lemma lk_only_holding lk : lk_only (holding lk).
Proof. unfold holding, get_lock. lk_walk. Qed.
#[export] Hint Resolve lk_only_holding : lockdb.

Lemma lk_only_acquire lk : lk_only (acquire lk).
Proof. unfold acquire, get_lock. lk_walk. Qed.

Lemma lk_only_release lk : lk_only (release lk).
Proof. unfold release, get_lock. lk_walk. Qed.

Lemma lk_only_myproc : lk_only myproc.
Proof. unfold myproc, cpu_at. lk_walk. Qed.

Lemma lk_only_cpuid : lk_only cpuid.
Proof. unfold cpuid. lk_walk. Qed.
#[export] Hint Resolve lk_only_acquire lk_only_release lk_only_myproc lk_only_cpuid : lockdb.

(** A lock-layer call inside a handler: only [klk] can have changed. *)
Lemma wlp_lk_only {A} (Out In : kst -> Prop) (Q : A -> kst -> Prop) (m : K A) s :
  lk_only m ->
  (forall a l, lk_static l = lk_static (klk s) -> Q a (s <| klk := l |>)) ->
  wlp Out In Q (m s).
Proof.
  intros Hm HQ. specialize (Hm s). destruct (m s); simpl; try done.
  destruct Hm as (l & -> & Hl). by apply HQ.
Qed.

(** ** Lemmas: the exact effect of each routine *)
Definition IFof (l : lstate) : bool := default false (ifl l !! here l).
Definition lock_of (l : lstate) (k : lockid) : spinlock := default lock0 (locks l !! k).

Definition push_c (e : bool) (c : cpu) : cpu :=
  (if ncli c =? 0 then c <| intena := e |> else c) <| ncli ::= Z.add 1 |>.
Definition pushed (l : lstate) (i : nat) (c : cpu) : lstate :=
  l <| ifl ::= <[here l := false]> |> <| cpus ::= <[i := push_c (IFof l) c]> |>.

Definition pop_c (c : cpu) : cpu := c <| ncli ::= Z.pred |>.
Definition popped (l : lstate) (i : nat) (c : cpu) : lstate :=
  let l' := l <| cpus ::= <[i := pop_c c]> |> in
  if (Z.pred (ncli c) =? 0) && intena c then l' <| ifl ::= <[here l := true]> |> else l'.

Lemma find_cpu_lookup id n l i :
  find_cpu id n l = Some i -> exists c, l !! (i - n)%nat = Some c /\ (n <= i)%nat.
Proof.
  revert n. induction l as [|c l IH]; intros n; simpl; [done|].
  case_decide; intros H'; simplify_eq.
  - exists c. rewrite Nat.sub_diag. done.
  - destruct (IH _ H') as (c' & Hc & ?). exists c'.
    replace (i - n)%nat with (S (i - S n)) by lia. split; [done|lia].
Qed.

Lemma this_cpu_lookup l i : this_cpu l = Some i -> exists c, cpus l !! i = Some c.
Proof.
  intros H. destruct (find_cpu_lookup _ _ _ _ H) as (c & Hc & _).
  rewrite Nat.sub_0_r in Hc. exists c. by apply lookup_take_Some in Hc as [? _].
Qed.

Lemma this_cpu_insert l i c c' b :
  cpus l !! i = Some c -> apicid c' = apicid c ->
  this_cpu (l <| ifl := b |> <| cpus ::= <[i := c']> |>) = this_cpu l.
Proof.
  intros Hi Ha. unfold this_cpu. simpl. apply find_cpu_ext. rewrite !fmap_take. f_equal.
  rewrite list_fmap_insert, list_insert_id; [done|]. by rewrite list_lookup_fmap, Hi, Ha.
Qed.

Lemma push_c_apicid e c : apicid (push_c e c) = apicid c.
Proof. unfold push_c. by destruct (ncli c =? 0). Qed.
Lemma push_c_ncli e c : ncli (push_c e c) = 1 + ncli c.
Proof. unfold push_c. by destruct (ncli c =? 0). Qed.

Lemma IFof_false l b : IFof (l <| ifl := <[here l := false]> b |>) = false.
Proof. unfold IFof. simpl. by rewrite lookup_insert_eq. Qed.

Lemma mycpu_eq s i : IFof (klk s) = false -> this_cpu (klk s) = Some i -> mycpu s = Ret i s.
Proof.
  intros HF Hi. unfold mycpu, readeflags_IF, lapicid, mbind, M_bind, gets. simpl.
  unfold IFof in HF. rewrite HF. simpl. unfold this_cpu in Hi. by rewrite Hi.
Qed.

Section lock_eqs.
Context (s : kst) (i : nat) (c : cpu).
Hypothesis Hi : this_cpu (klk s) = Some i.
Hypothesis Hc : cpus (klk s) !! i = Some c.

Lemma pushcli_eq : pushcli s = Ret tt (s <| klk := pushed (klk s) i c |>).
Proof.
  unfold pushcli, cli, set_IF, readeflags_IF, mbind, M_bind, gets, modify. simpl.
  rewrite (mycpu_eq _ i); simpl.
  2: { unfold IFof. simpl. by rewrite lookup_insert_eq. }
  2: done.
  rewrite (list_lookup_total_correct _ _ _ Hc). unfold pushed, push_c, IFof.
  destruct (ncli c =? 0); unfold mwhen, upd_cpu, modify; unfold upd; simpl.
  - by rewrite !(list_alter_as_insert _ _ _ c Hc),
      (list_alter_as_insert _ _ _ _ (list_lookup_insert_eq _ _ _ (lookup_lt_Some _ _ _ Hc))),
      list_insert_insert_eq.
  - by rewrite !(list_alter_as_insert _ _ _ c Hc).
Qed.

Lemma popcli_eq :
  IFof (klk s) = false -> 0 < ncli c ->
  popcli s = Ret tt (s <| klk := popped (klk s) i c |>).
Proof.
  intros HF Hn.
  assert (HF' : readeflags_IF s = Ret false s).
  { unfold readeflags_IF, gets. unfold IFof in HF. by rewrite HF. }
  unfold popcli, cpu_at, mbind, M_bind, gets. rewrite HF'. simpl.
  rewrite (mycpu_eq _ i HF Hi). simpl.
  rewrite (list_alter_as_insert _ _ _ c Hc).
  rewrite (list_lookup_total_correct _ _ (c <| ncli ::= Z.pred |>))
    by (apply list_lookup_insert_eq; by eapply lookup_lt_Some).
  simpl. rewrite (proj2 (Z.ltb_ge _ _)) by lia.
  unfold popped. destruct ((Z.pred (ncli c) =? 0) && intena c);
    unfold mwhen, sti, set_IF, modify, upd; simpl; by rewrite ?(list_alter_as_insert _ _ _ c Hc).
Qed.
End lock_eqs.

(** ** Reasoning about a CPU

    [cpu_ok l i n]: the executing CPU is entry [i] of [cpus] and has nested [n]
    interrupt disables. *)
Record cpu_ok (l : lstate) (i : nat) (n : Z) : Prop := Cpu_ok {
  cpu_ok_this : this_cpu l = Some i;
  cpu_ok_ncli : exists c, cpus l !! i = Some c /\ ncli c = n;
  cpu_ok_nonneg : 0 <= n;
  cpu_ok_if : IFof l = true -> n = 0
}.

Lemma cpu_ok_IF_off l i n : cpu_ok l i n -> 0 < n -> IFof l = false.
Proof. intros [_ _ _ HF] Hn. destruct (IFof l); [|done]. specialize (HF eq_refl). lia. Qed.

Lemma cpu_ok_set_lock l i n k v : cpu_ok l i n -> cpu_ok (l <| locks ::= <[k := v]> |>) i n.
Proof. by intros []. Qed.

Lemma lk_static_insert l i c c' b :
  cpus l !! i = Some c -> cpu_static c' = cpu_static c ->
  lk_static (l <| ifl := b |> <| cpus ::= <[i := c']> |>) = lk_static l.
Proof.
  intros Hi Hs. unfold lk_static. simpl. do 2 f_equal.
  rewrite list_fmap_insert, list_insert_id; [done|]. by rewrite list_lookup_fmap, Hi, Hs.
Qed.

Lemma push_c_static e c : cpu_static (push_c e c) = cpu_static c.
Proof. unfold push_c. by destruct (ncli c =? 0). Qed.

Section cpu_rules.
Context (s : kst) (i : nat) (n : Z).
Hypothesis HC : cpu_ok (klk s) i n.

Lemma cpu_ok_pushcli : exists l',
  pushcli s = Ret tt (s <| klk := l' |>) /\ cpu_ok l' i (n + 1) /\
  lk_static l' = lk_static (klk s) /\ locks l' = locks (klk s).
Proof.
  destruct HC as [Ht (c & Hc & Hn) H0 HF].
  exists (pushed (klk s) i c). split; [by apply pushcli_eq|]. split; [|split].
  - split.
    + rewrite <-Ht. apply (this_cpu_insert (klk s) i c); [done|apply push_c_apicid].
    + exists (push_c (IFof (klk s)) c). split.
      * simpl. apply list_lookup_insert_eq. by eapply lookup_lt_Some.
      * rewrite push_c_ncli. lia.
    + lia.
    + unfold IFof. simpl. rewrite lookup_insert_eq. done.
  - apply (lk_static_insert (klk s) i c); [done|apply push_c_static].
  - done.
Qed.

Lemma cpu_ok_popcli : 0 < n -> exists l',
  popcli s = Ret tt (s <| klk := l' |>) /\ cpu_ok l' i (n - 1) /\
  lk_static l' = lk_static (klk s) /\ locks l' = locks (klk s).
Proof.
  intros Hpos. pose proof (cpu_ok_IF_off _ _ _ HC Hpos) as HF0.
  destruct HC as [Ht (c & Hc & Hn) H0 HF].
  assert (Hin : <[i := pop_c c]> (cpus (klk s)) !! i = Some (pop_c c)).
  { apply list_lookup_insert_eq. by eapply lookup_lt_Some. }
  exists (popped (klk s) i c). split; [apply popcli_eq; [done..|lia]|].
  unfold popped. rewrite Hn. destruct ((Z.pred n =? 0) && intena c) eqn:E; (split; [|split]).
  - apply andb_true_iff in E as [E _]. apply Z.eqb_eq in E. split.
    + rewrite <-Ht. by apply (this_cpu_insert (klk s) i c).
    + exists (pop_c c). split; [done|]. simpl. lia.
    + lia.
    + intros _. lia.
  - by apply (lk_static_insert (klk s) i c).
  - done.
  - split.
    + rewrite <-Ht. by apply (this_cpu_insert (klk s) i c).
    + exists (pop_c c). split; [done|]. simpl. lia.
    + lia.
    + unfold IFof in *. simpl. congruence.
  - by apply (lk_static_insert (klk s) i c).
  - done.
Qed.

Lemma cpu_ok_mycpu : 0 < n -> mycpu s = Ret i s.
Proof. intros Hn. apply mycpu_eq; [by eapply cpu_ok_IF_off|by destruct HC]. Qed.
End cpu_rules.

(** [holding] tells whether this CPU has the lock, and changes nothing else. *)
Lemma cpu_ok_holding s i n k : cpu_ok (klk s) i n -> exists l',
  holding k s = Ret (locked (lock_of (klk s) k) && bool_decide (lk_cpu (lock_of (klk s) k) = Some i))
    (s <| klk := l' |>) /\
  cpu_ok l' i n /\ lk_static l' = lk_static (klk s) /\ locks l' = locks (klk s).
Proof.
  intros HL. destruct (cpu_ok_pushcli s i n HL) as (l1 & E1 & L1 & S1 & K1).
  assert (Hn : 0 < n + 1) by (destruct HL; lia).
  change (cpu_ok (klk (s <| klk := l1 |>)) i (n + 1)) in L1.
  destruct (cpu_ok_popcli _ i (n + 1) L1 Hn) as (l2 & E2 & L2 & S2 & K2).
  exists l2. unfold holding, mbind, M_bind. rewrite E1. simpl.
  rewrite (cpu_ok_mycpu _ i (n + 1) L1 Hn). simpl.
  rewrite E2. simpl. unfold mret, M_ret. replace (n + 1 - 1) with n in L2 by lia.
  split; [|split; [done|split; [by rewrite S2|by rewrite K2]]].
  unfold lock_of. by rewrite K1.
Qed.

(** The state in which [acquire] meets the lock, after its [pushcli] and
    [holding]. *)
Lemma cpu_ok_acquire_test s i n k : cpu_ok (klk s) i n -> exists l',
  cpu_ok l' i (n + 1) /\ lk_static l' = lk_static (klk s) /\ locks l' = locks (klk s) /\
  acquire k s =
    (if locked (lock_of (klk s) k) && bool_decide (lk_cpu (lock_of (klk s) k) = Some i)
     then Panic "acquire" (s <| klk := l' |>)
     else if locked (lock_of (klk s) k) then Spin k (s <| klk := l' |>)
     else Ret tt (s <| klk := l' <| locks ::=
       <[k := Spinlock true (lk_name (lock_of (klk s) k)) (Some i)]> |> |>)).
Proof.
  intros HL. destruct (cpu_ok_pushcli s i n HL) as (l1 & E1 & L1 & S1 & K1).
  assert (Hn : 0 < n + 1) by (destruct HL; lia).
  change (cpu_ok (klk (s <| klk := l1 |>)) i (n + 1)) in L1.
  destruct (cpu_ok_holding _ i (n + 1) k L1) as (l2 & E2 & L2 & S2 & K2).
  exists l2. simpl in K2, S2. rewrite K2, K1, S2, S1.
  split; [done|]. split; [done|]. split; [done|].
  unfold acquire, mbind, M_bind, get_lock, set_lock, gets, modify. rewrite E1. simpl.
  rewrite E2. unfold lock_of. simpl. rewrite K1.
  destruct (locked (default lock0 (locks (klk s) !! k)) && _) eqn:E; [done|]. simpl.
  rewrite K2, K1. destruct (locked (default lock0 (locks (klk s) !! k))) eqn:El; [done|].
  rewrite (mycpu_eq _ i).
  - unfold upd. simpl. rewrite lookup_insert_eq. simpl. by rewrite insert_insert_eq.
  - eapply (cpu_ok_IF_off l2); [done|lia].
  - by destruct L2.
Qed.

(** ** A CPU that runs without contention

    [lctx l i n H]: besides [cpu_ok], this CPU holds exactly the locks [H], and
    every other lock is free. *)
Record lctx (l : lstate) (i : nat) (n : Z) (H : gset lockid) : Prop := Lctx {
  lctx_ok : cpu_ok l i n;
  lctx_locks : forall k, locked (lock_of l k) = bool_decide (k ∈ H);
  lctx_owner : forall k, k ∈ H -> lk_cpu (lock_of l k) = Some i
}.

Lemma lctx_same_locks l l' i n n' H :
  lctx l i n H -> cpu_ok l' i n' -> locks l' = locks l -> lctx l' i n' H.
Proof. intros [_ Hl Ho] HC E. unfold lock_of in *. split; [done|..]; unfold lock_of; by rewrite E. Qed.

Lemma lctx_holding s i n H k : lctx (klk s) i n H -> exists l',
  holding k s = Ret (bool_decide (k ∈ H)) (s <| klk := l' |>) /\ lctx l' i n H /\
  lk_static l' = lk_static (klk s) /\ locks l' = locks (klk s).
Proof.
  intros HL. destruct (cpu_ok_holding s i n k) as (l' & E & HC & S1 & K1); [by destruct HL|].
  exists l'. split; [|split; [by eapply lctx_same_locks|done]].
  rewrite E, (lctx_locks _ _ _ _ HL). f_equal.
  destruct (bool_decide (k ∈ H)) eqn:B; [|done]. apply bool_decide_eq_true in B.
  rewrite (lctx_owner _ _ _ _ HL) by done. by rewrite bool_decide_true.
Qed.

Lemma lctx_acquire s i n H k : lctx (klk s) i n H -> k ∉ H -> exists l',
  acquire k s = Ret tt (s <| klk := l' |>) /\ lctx l' i (n + 1) ({[k]} ∪ H) /\
  lk_static l' = lk_static (klk s).
Proof.
  intros HL Hk. destruct (cpu_ok_acquire_test s i n k) as (l' & HC & S1 & K1 & E); [by destruct HL|].
  rewrite (lctx_locks _ _ _ _ HL), bool_decide_false in E by done.
  eexists. split; [exact E|]. split; [|done].
  destruct HL as [_ Hl Ho]. unfold lock_of in *. split; [by apply cpu_ok_set_lock|..];
    intros k'; unfold lock_of; simpl; rewrite K1; destruct (decide (k = k')) as [<-|Hne].
  - rewrite lookup_insert_eq, bool_decide_true by set_solver. done.
  - rewrite lookup_insert_ne by done. rewrite Hl. apply bool_decide_ext. set_solver.
  - by rewrite lookup_insert_eq.
  - rewrite lookup_insert_ne by done. intros ?. apply Ho. set_solver.
Qed.

Lemma lctx_release s i n H k : lctx (klk s) i n H -> k ∈ H -> 0 < n -> exists l',
  release k s = Ret tt (s <| klk := l' |>) /\ lctx l' i (n - 1) (H ∖ {[k]}) /\
  lk_static l' = lk_static (klk s).
Proof.
  intros HL Hk Hn. destruct (lctx_holding s i n H k HL) as (l1 & E1 & L1 & S1 & K1).
  set (v := default lock0 (locks l1 !! k)).
  set (l2 := l1 <| locks ::= <[k := v <| lk_cpu := None |> <| locked := false |>]> |>).
  assert (L2 : cpu_ok l2 i n) by (destruct L1; by apply cpu_ok_set_lock).
  change (cpu_ok (klk (s <| klk := l2 |>)) i n) in L2.
  destruct (cpu_ok_popcli _ i n L2 Hn) as (l3 & E3 & L3 & S3 & K3). simpl in S3, K3.
  exists l3. split; [|split].
  - unfold release, mbind, M_bind, get_lock, set_lock, gets, modify. rewrite E1.
    rewrite bool_decide_true by done. simpl. exact E3.
  - destruct L1 as [_ Hl Ho]. unfold lock_of in *. split; [done|..];
      intros k'; unfold lock_of; rewrite K3; simpl; destruct (decide (k = k')) as [<-|Hne].
    + rewrite lookup_insert_eq, bool_decide_false by set_solver. done.
    + rewrite lookup_insert_ne by done. rewrite Hl. apply bool_decide_ext. set_solver.
    + set_solver.
    + rewrite lookup_insert_ne by done. intros ?. apply Ho. set_solver.
  - rewrite S3. by unfold lk_static in *.
Qed.

Lemma cpu_ok_myproc s i n : cpu_ok (klk s) i n -> exists l',
  myproc s = Ret (cur (klk s)) (s <| klk := l' |>) /\ cpu_ok l' i n /\
  lk_static l' = lk_static (klk s) /\ locks l' = locks (klk s).
Proof.
  intros HL. destruct (cpu_ok_pushcli s i n HL) as (l1 & E1 & L1 & S1 & K1).
  assert (Hn : 0 < n + 1) by (destruct HL; lia).
  change (cpu_ok (klk (s <| klk := l1 |>)) i (n + 1)) in L1.
  destruct (cpu_ok_popcli _ i (n + 1) L1 Hn) as (l2 & E2 & L2 & S2 & K2).
  exists l2. unfold myproc, cpu_at, mbind, M_bind, gets. rewrite E1. simpl.
  rewrite (cpu_ok_mycpu _ i (n + 1) L1 Hn). simpl.
  rewrite E2. simpl. unfold mret, M_ret. replace (n + 1 - 1) with n in L2 by lia.
  split; [|split; [done|split; [by rewrite S2|by rewrite K2]]].
  f_equal. rewrite <-(cur_static _ _ S1). unfold cur. destruct L1 as [Ht (c & Hc & _) _ _].
  simpl in Ht, Hc. rewrite Ht. simpl. rewrite Hc. simpl.
  by rewrite (list_lookup_total_correct _ _ _ Hc).
Qed.

(** *** Rules for handlers *)
Section lock_wp.
Context (Out In : kst -> Prop) (s : kst) (i : nat) (n : Z) (H : gset lockid).
Hypothesis HL : lctx (klk s) i n H.

Lemma wp_acquire k (Q : unit -> kst -> Prop) :
  k ∉ H ->
  (forall l, lctx l i (n + 1) ({[k]} ∪ H) -> lk_static l = lk_static (klk s) ->
    Q tt (s <| klk := l |>)) ->
  wp Out In Q (acquire k s).
Proof.
  intros Hk HQ. destruct (lctx_acquire s i n H k HL Hk) as (l & -> & ? & ?). by apply HQ.
Qed.

Lemma wp_release k (Q : unit -> kst -> Prop) :
  k ∈ H -> 0 < n ->
  (forall l, lctx l i (n - 1) (H ∖ {[k]}) -> lk_static l = lk_static (klk s) ->
    Q tt (s <| klk := l |>)) ->
  wp Out In Q (release k s).
Proof.
  intros Hk Hn HQ. destruct (lctx_release s i n H k HL Hk Hn) as (l & -> & ? & ?). by apply HQ.
Qed.

Lemma wp_myproc (Q : option nat -> kst -> Prop) :
  (forall l, lctx l i n H -> lk_static l = lk_static (klk s) ->
    Q (cur (klk s)) (s <| klk := l |>)) ->
  wp Out In Q (myproc s).
Proof.
  intros HQ. destruct (cpu_ok_myproc s i n) as (l & -> & ? & ? & ?); [by destruct HL|].
  apply HQ; [|done]. by eapply lctx_same_locks.
Qed.
End lock_wp.

Lemma klk_id (s : kst) : s <| klk := klk s |> = s.
Proof. by destruct s. Qed.

(** Bracketed and conditional sections: [acquire] then, from the state it leaves,
    [release] gives back the context. *)
Section section_wp.
Context (Out In : kst -> Prop) (s : kst) (i : nat) (n : Z) (H : gset lockid).

Lemma wp_release_top k (Q : unit -> kst -> Prop) :
  lctx (klk s) i (n + 1) ({[k]} ∪ H) -> k ∉ H -> 0 <= n ->
  (forall l, lctx l i n H -> lk_static l = lk_static (klk s) -> Q tt (s <| klk := l |>)) ->
  wp Out In Q (release k s).
Proof.
  intros HL Hk Hn HQ. eapply wp_release; [exact HL|set_solver|lia|].
  intros l Hl. replace (n + 1 - 1) with n in Hl by lia.
  replace (({[k]} ∪ H) ∖ {[k]}) with H in Hl by set_solver. by apply HQ.
Qed.

Lemma wp_acquire_when b k (Q : unit -> kst -> Prop) :
  lctx (klk s) i n H -> k ∉ H ->
  (forall l, lctx l i (n + b2z b) (if b then {[k]} ∪ H else H) ->
    lk_static l = lk_static (klk s) -> Q tt (s <| klk := l |>)) ->
  wp Out In Q (mwhen b (acquire k) s).
Proof.
  intros HL Hk HQ. destruct b; simpl in *.
  - by eapply wp_acquire.
  - rewrite <-(klk_id s). apply HQ; [|done]. by rewrite Z.add_0_r.
Qed.

Lemma wp_release_when b k (Q : unit -> kst -> Prop) :
  lctx (klk s) i (n + b2z b) (if b then {[k]} ∪ H else H) -> k ∉ H -> 0 <= n ->
  (forall l, lctx l i n H -> lk_static l = lk_static (klk s) -> Q tt (s <| klk := l |>)) ->
  wp Out In Q (mwhen b (release k) s).
Proof.
  intros HL Hk Hn HQ. destruct b; simpl in *.
  - by eapply wp_release_top.
  - rewrite <-(klk_id s). apply HQ; [|done]. by rewrite Z.add_0_r in HL.
Qed.
End section_wp.

Lemma lctx_nonneg l i n H : lctx l i n H -> 0 <= n.
Proof. by intros [[] _ _]. Qed.

(** ** Invariants of handlers

    [keeps I m]: started with [I], [m] leaves [I] where it returns and where it
    leaves the CPU, assuming [I] when it is resumed. *)
Definition keeps {A} (I : kst -> Prop) (m : K A) : Prop :=
  forall s, I s -> wlp I I (fun _ => I) (m s).

(** [I] does not look at locks and CPUs. *)
Definition lk_free (I : kst -> Prop) : Prop := forall s l, I s -> I (s <| klk := l |>).

Section keeps.
Context (I : kst -> Prop).

Lemma keeps_ret {A} (a : A) : keeps I (mret a).
Proof. by intros s. Qed.

Lemma keeps_gets {A} (f : kst -> A) : keeps I (gets f).
Proof. by intros s. Qed.

Lemma keeps_panic {A} msg : keeps I (panic (A:=A) msg).
Proof. done. Qed.

Lemma keeps_fault {A} msg : keeps I (fault (A:=A) msg).
Proof. done. Qed.

Lemma keeps_nofuel {A} : keeps I (nofuel (A:=A)).
Proof. done. Qed.

Lemma keeps_swtch : keeps I swtch.
Proof. intros s Hs. simpl. done. Qed.

Lemma keeps_bind {A B} (m : K A) (f : A -> K B) :
  keeps I m -> (forall a, keeps I (f a)) -> keeps I (m ≫= f).
Proof.
  intros Hm Hf s Hs. apply exec_bind. eapply exec_mono; [|by apply Hm].
  intros a s' Hs'. by apply Hf.
Qed.

Lemma keeps_when b m : keeps I m -> keeps I (mwhen b m).
Proof. destruct b; [done|]. intros _. apply keeps_ret. Qed.

Lemma keeps_lk {A} (m : K A) : lk_free I -> lk_only m -> keeps I m.
Proof. intros HI Hm s Hs. apply wlp_lk_only; [done|]. intros a l _. by apply HI. Qed.

Lemma keeps_for_all {J} (l : list J) (body : J -> K unit) :
  (forall i, i ∈ l -> keeps I (body i)) -> keeps I (for_all l body).
Proof.
  intros Hb s Hs. apply (exec_for_all _ _ _ _ (fun _ => I)); [done|].
  intros l1 i l2 s1 -> Hs1. apply Hb; [set_solver|done].
Qed.

Lemma keeps_for_each {J R} (l : list J) (body : J -> K (option R)) :
  (forall i, i ∈ l -> keeps I (body i)) -> keeps I (for_each l body).
Proof.
  intros Hb s Hs. apply (exec_for_each _ _ _ _ (fun _ => I)); [done|done|].
  intros l1 i l2 s1 -> Hs1. eapply exec_mono; [|apply Hb; [set_solver|done]].
  by intros [] s'.
Qed.
End keeps.

Create HintDb keepdb.
#[export] Hint Resolve keeps_ret keeps_gets keeps_panic keeps_fault keeps_nofuel keeps_swtch : keepdb.

(** Walks through a handler, splitting its tests and using the lemmas of [keepdb]
    for the calls. *)
Ltac keep_walk :=
  repeat first
    [ progress intros
    | solve [eauto with keepdb]
    | apply keeps_bind
    | apply keeps_when
    | apply keeps_for_all
    | apply keeps_for_each
    | match goal with
      | |- keeps _ (if ?b then _ else _) => destruct b
      | |- keeps _ (match ?o with Some _ => _ | None => _ end) => destruct o
      | |- keeps _ (let '(_, _) := ?o in _) => destruct o
      end ].
