(* ===== verification/Console.v ===== *)
(** Kernel output: [printint], [cprintf] and [consputc] of console.c, and the
    formatting helpers of utils.c. A character is its code. *)
From stdpp Require Import base tactics list numbers strings gmap.
From Stdlib Require Import Ascii.
From S2P Require Import Prelude State Spinlock.

#[local] Open Scope Z_scope.

(** The bytes of a C string literal, without the terminating NUL. *)
Fixpoint codes (s : string) : list Z :=
  match s with
  | EmptyString => []
  | String c s' => Z.of_N (N_of_ascii c) :: codes s'
  end.
Definition ch (c : ascii) : Z := Z.of_N (N_of_ascii c).

(** ** printint

    The [do]-loop stores the digits of [x], least significant first, in
    [buf[16]]; [fuel] is the size of [buf]. *)
Definition digits : list Z := codes "0123456789abcdef".

Fixpoint itoa (fuel : nat) (x base : Z) : list Z :=
  match fuel with
  | O => []
  | S f => (digits !!! Z.to_nat (x mod base)) ::
             (if x / base =? 0 then [] else itoa f (x / base) base)
  end.

Definition printint (xx base : Z) (sign : bool) : list Z :=
  let neg := sign && (xx <? 0) in
  let x := if neg then u32 (- xx) else u32 xx in
  let buf := itoa 16 x base ++ (if neg then [ch "-"] else []) in
  rev buf.

(** ** cprintf

    An argument word is an integer or the address of a string. *)
Inductive arg : Type := AInt (z : Z) | AStr (s : list Z) | ANull.

Definition arg_int (a : arg) : option Z := match a with AInt z => Some z | _ => None end.
Definition arg_str (a : arg) : option (list Z) :=
  match a with AStr s => Some s | ANull => Some (codes "(null)") | AInt _ => None end.

(** The characters [cprintf] prints, or [None] if the format uses an argument
    that was not passed or has the wrong type. *)
Fixpoint cformat (fmt : list Z) (args : list arg) : option (list Z) :=
  match fmt with
  | [] => Some []
  | c :: rest =>
      if negb (c =? ch "%") then cons c <$> cformat rest args
      else match rest with
        | [] => Some []
        | d :: rest' =>
            if d =? ch "d" then
              a ← head args; z ← arg_int a;
              app (printint z 10 true) <$> cformat rest' (tail args)
            else if (d =? ch "x") || (d =? ch "p") then
              a ← head args; z ← arg_int a;
              app (printint z 16 false) <$> cformat rest' (tail args)
            else if d =? ch "s" then
              a ← head args; s ← arg_str a;
              app s <$> cformat rest' (tail args)
            else if d =? ch "%" then cons (ch "%") <$> cformat rest' args
            else (fun out => ch "%" :: d :: out) <$> cformat rest' args
        end
  end.

Definition consputc (c : Z) : K unit := modify (fun s => s <| screen ::= fun o => o ++ [c] |>).

Definition cprintf (fmt : string) (args : list arg) : K unit :=
  locking ← gets cons_locking;
  mwhen locking (acquire cons_lock);;
  (match cformat (codes fmt) args with
   | Some out => for_all out consputc
   | None => fault "cprintf: argument"
   end);;
  mwhen locking (release cons_lock).

(** ** utils.c *)
Fixpoint digitcount_loop (fuel : nat) (num count : Z) : Z :=
  match fuel with
  | O => count
  | S f => if num =? 0 then count else digitcount_loop f (Z.quot num 10) (count + 1)
  end.

(** [int] has at most 10 decimal digits, so 11 iterations are enough. *)
Definition digitcount (num : Z) : Z :=
  if num =? 0 then 1 else digitcount_loop 11 num 0.

Definition printspaces (count : Z) : K unit :=
  for_all (seq 0 (Z.to_nat count)) (fun _ => cprintf " " []).

(** The linear congruential generator; [%] binds tighter than [+] in C, so the
    reduction applies to the constant 12345 only. *)
Definition rand_step (seed : Z) : Z := u32 (seed * 1103515245 + Z.rem 12345 (i32 (2^31))).
