(* ===== verification/Kalloc.v ===== *)
(** The physical page allocator: kalloc.c.

    A free page holds, in its first word, the address of the next free page
    ([struct run]); [freelist] is the first one, 0 ends the list. *)
From stdpp Require Import base tactics list numbers strings gmap.
From S2P Require Import Prelude CString State Spinlock.

#[local] Open Scope Z_scope.

Definition set_mem (f : memory -> memory) : K unit := modify (fun s => s <| mem ::= f |>).

(** ** kalloc.c *)
Definition kfree (v : Z) : K unit :=
  e ← gets sym_end;
  if negb (v mod PGSIZE =? 0) || (v <? e) || (PHYSTOP <=? V2P v) then panic "kfree"
  else
    set_mem (fun m => memset m v 1 PGSIZE);;
    ul ← gets use_lock;
    mwhen ul (acquire kmem_lock);;
    fl ← gets freelist;
    set_mem (fun m => st32 m v fl);;
    modify (fun s => s <| freelist := v |>);;
    mwhen ul (release kmem_lock).

Definition kalloc : K Z :=
  ul ← gets use_lock;
  mwhen ul (acquire kmem_lock);;
  r ← gets freelist;
  mwhen (negb (r =? 0)) (modify (fun s => s <| freelist := ld32 (mem s) r |>));;
  mwhen ul (release kmem_lock);;
  mret r.

(** [for(; p + PGSIZE <= vend; p += PGSIZE) kfree(p)], at most [fuel] times. *)
Fixpoint freerange_loop (fuel : nat) (p vend : Z) : K unit :=
  if p + PGSIZE <=? vend then
    match fuel with
    | O => nofuel
    | S f => kfree p;; freerange_loop f (p + PGSIZE) vend
    end
  else mret tt.

(** A 32-bit address space has 2^20 pages; one page takes one iteration. *)
Definition freerange (vstart vend : Z) : K unit :=
  freerange_loop (Z.to_nat (2^20)) (PGROUNDUP vstart) vend.

Definition kinit1 (vstart vend : Z) : K unit :=
  initlock kmem_lock "kmem";;
  modify (fun s => s <| use_lock := false |>);;
  freerange vstart vend.

Definition kinit2 (vstart vend : Z) : K unit :=
  freerange vstart vend;;
  modify (fun s => s <| use_lock := true |>).

(** ** The free list *)

(** A page the allocator may own. *)
Definition page_ok (e v : Z) : Prop :=
  v mod PGSIZE = 0 /\ e <= v /\ KERNBASE <= v < KERNBASE + PHYSTOP.

Fixpoint flist (m : memory) (h : Z) (l : list Z) : Prop :=
  match l with
  | [] => h = 0
  | p :: l' => h = p /\ flist m (ld32 m p) l'
  end.

(** The allocator's invariant: the list starting at [freelist] visits exactly the
    pages [l], each once. *)
Record free_pages (s : kst) (l : list Z) : Prop := {
  fp_list : flist (mem s) (freelist s) l;
  fp_nodup : NoDup l;
  fp_pages : Forall (page_ok (sym_end s)) l;
  fp_mem : mem_ok (mem s);
  fp_end : KERNBASE <= sym_end s
}.

Lemma page_ok_range e v : page_ok e v -> 0 < v /\ v + PGSIZE <= 2^32.
Proof. unfold page_ok, KERNBASE, PHYSTOP, PGSIZE. lia. Qed.

Lemma page_ok_V2P e v : page_ok e v -> V2P v = v - KERNBASE /\ 0 <= V2P v < PHYSTOP.
Proof.
  unfold page_ok, V2P, KERNBASE, PHYSTOP. intros (_ & _ & H).
  rewrite (u32_small v) by (unfold in_u32; lia). rewrite u32_small by (unfold in_u32; lia). lia.
Qed.

(** Different pages do not overlap. *)
Lemma pages_disjoint a b :
  a mod PGSIZE = 0 -> b mod PGSIZE = 0 -> a <> b -> a + PGSIZE <= b \/ b + PGSIZE <= a.
Proof.
  unfold PGSIZE. intros Ha Hb Hne.
  pose proof (Z.div_mod a 4096 ltac:(lia)). pose proof (Z.div_mod b 4096 ltac:(lia)). lia.
Qed.

(** Writing outside the free pages leaves the list as it is. *)
Lemma flist_frame m m' h l :
  (forall p b, p ∈ l -> p <= b < p + 4 -> ld8 m' b = ld8 m b) -> flist m h l -> flist m' h l.
Proof.
  revert h. induction l as [|p l IH]; intros h Hm; simpl; [done|].
  intros [-> Hl]. split; [done|]. rewrite (ld32_ext m' m).
  - apply IH; [|done]. intros q b Hq. apply Hm. set_solver.
  - intros b. apply Hm. set_solver.
Qed.

(** The memory [kfree] leaves: page [v] filled with 1s, then linked to [next]. *)
Definition freed_mem (m : memory) (v next : Z) : memory := st32 (memset m v 1 PGSIZE) v next.

Lemma ld8_freed m v next b :
  b < v \/ v + PGSIZE <= b -> ld8 (freed_mem m v next) b = ld8 m b.
Proof.
  intros Hb. unfold freed_mem, PGSIZE in *. rewrite ld8_st32_ne by lia.
  rewrite ld8_memset by lia. by rewrite decide_False by lia.
Qed.

Lemma ld32_freed m v next : ld32 (freed_mem m v next) v = u32 next.
Proof. apply ld32_st32_eq. Qed.

Lemma mem_ok_freed m v next : mem_ok m -> mem_ok (freed_mem m v next).
Proof. intros. apply mem_ok_st32, mem_ok_memset; [done|done]. Qed.

Lemma free_pages_freed s v l :
  page_ok (sym_end s) v -> v ∉ l -> free_pages s l -> in_u32 (freelist s) ->
  free_pages (s <| mem ::= fun m => freed_mem m v (freelist s) |> <| freelist := v |>) (v :: l).
Proof.
  intros Hv Hnot [Hl Hnd Hp Hm He] Hr. split; simpl; try done.
  - split; [done|]. rewrite ld32_freed, u32_small by done.
    eapply flist_frame; [|exact Hl]. intros p b Hpl Hb. apply ld8_freed.
    assert (Hpp : page_ok (sym_end s) p) by (by eapply (proj1 (Forall_forall _ _))).
    destruct (pages_disjoint p v) as [|]; [apply Hpp|apply Hv|set_solver|..];
      unfold PGSIZE in *; lia.
  - by constructor.
  - by constructor.
  - by apply mem_ok_freed.
Qed.

(** The head of a free list is an address. *)
Lemma free_pages_head s l : free_pages s l -> in_u32 (freelist s).
Proof.
  intros [Hl _ Hp _ _]. destruct l as [|p l]; simpl in Hl.
  - rewrite Hl. unfold in_u32. lia.
  - destruct Hl as [-> _]. inversion Hp as [|?? Hpp]; subst.
    destruct (page_ok_range _ _ Hpp). unfold in_u32, PGSIZE in *. lia.
Qed.

Section kalloc_spec.
Context (Out In : kst -> Prop) (s : kst) (i : nat) (n : Z) (H : gset lockid) (l : list Z).
Hypothesis HL : lctx (klk s) i n H.
Hypothesis Hk : kmem_lock ∉ H.
Hypothesis HF : free_pages s l.

(** [kalloc] takes the first free page off the list, or returns 0. *)
Lemma wp_kalloc (Q : Z -> kst -> Prop) :
  (forall lk, lctx lk i n H -> lk_static lk = lk_static (klk s) ->
    free_pages (s <| klk := lk |> <| freelist := ld32 (mem s) (freelist s) |>) (tail l) ->
    l <> [] -> Q (freelist s) (s <| klk := lk |> <| freelist := ld32 (mem s) (freelist s) |>)) ->
  (forall lk, lctx lk i n H -> lk_static lk = lk_static (klk s) ->
    l = [] -> Q 0 (s <| klk := lk |>)) ->
  wp Out In Q (kalloc s).
Proof.
  intros Hsome Hnone. pose proof (lctx_nonneg _ _ _ _ HL) as Hn.
  pose proof HF as [Hl Hnd Hp Hm He]. unfold kalloc.
  apply exec_bind. simpl. apply exec_bind. eapply wp_acquire_when; [exact HL|done|].
  intros lk L S1. apply exec_bind. simpl. apply exec_bind. destruct l as [|p l'].
  - simpl in Hl. rewrite Hl. simpl. apply exec_bind.
    eapply wp_release_when; [exact L|done|done|]. intros lk' L' S'. simpl.
    apply Hnone; [done|by rewrite S'|done].
  - destruct Hl as [Hfl Hl]. inversion Hp as [|?? Hpp Hpl]; subst.
    assert (freelist s <> 0) by (destruct (page_ok_range _ _ Hpp); lia).
    rewrite (proj2 (Z.eqb_neq _ _)) by done. simpl. apply exec_bind.
    eapply wp_release_when; [exact L|done|done|]. intros lk' L' S'. simpl.
    apply Hsome; [done|by rewrite S'|split; simpl; try done; by inversion Hnd|done].
Qed.

(** [kfree] puts the page at the front of the list. *)
Lemma wp_kfree v (Q : unit -> kst -> Prop) :
  page_ok (sym_end s) v -> v ∉ l ->
  (forall lk, lctx lk i n H -> lk_static lk = lk_static (klk s) ->
    let s' := s <| klk := lk |> <| mem ::= fun m => freed_mem m v (freelist s) |>
      <| freelist := v |> in
    free_pages s' (v :: l) -> Q tt s') ->
  wp Out In Q (kfree v s).
Proof.
  intros Hv Hnot HQ. pose proof (lctx_nonneg _ _ _ _ HL) as Hn.
  pose proof (free_pages_head _ _ HF) as Hh. destruct (page_ok_V2P _ _ Hv) as [_ HV].
  unfold kfree. apply exec_bind. simpl.
  rewrite (proj2 (Z.eqb_eq _ _)) by apply Hv. rewrite (proj2 (Z.ltb_ge _ _)) by apply Hv.
  rewrite (proj2 (Z.leb_gt _ _)) by lia. simpl.
  apply exec_bind. simpl. apply exec_bind. simpl. apply exec_bind.
  eapply wp_acquire_when; [exact HL|done|]. intros lk L S1.
  apply exec_bind. simpl. apply exec_bind. simpl. apply exec_bind. simpl.
  eapply wp_release_when; [exact L|done|done|]. intros lk' L' S'. simpl in S'.
  apply HQ; [done|by rewrite S'|].
  assert (HF' : free_pages (s <| klk := lk' |>) l) by (by destruct HF).
  pose proof (free_pages_freed (s <| klk := lk' |>) v l) as HX. exact (HX Hv Hnot HF' Hh).
Qed.
End kalloc_spec.

(** An address that is not a page of the allocator stops the kernel and changes
    nothing. *)
Lemma kfree_bad v s :
  KERNBASE <= sym_end s -> in_u32 v -> ~ page_ok (sym_end s) v -> kfree v s = Panic "kfree" s.
Proof.
  intros He Hv Hbad. unfold kfree, mbind, M_bind, gets. simpl.
  destruct (negb (v mod PGSIZE =? 0) || (v <? sym_end s) || (PHYSTOP <=? V2P v)) eqn:E; [done|].
  exfalso. apply Hbad. apply orb_false_iff in E as [[E1 E2]%orb_false_iff E3].
  apply negb_false_iff, Z.eqb_eq in E1. apply Z.ltb_ge in E2. apply Z.leb_gt in E3.
  unfold V2P in E3. rewrite (u32_small v Hv) in E3.
  rewrite u32_small in E3 by (unfold in_u32, KERNBASE in *; lia).
  unfold page_ok. unfold KERNBASE in *. lia.
Qed.

(** ** freerange *)

(** The [cnt] pages from [p] on. *)
Fixpoint pages_from (p : Z) (cnt : nat) : list Z :=
  match cnt with
  | O => []
  | S c => p :: pages_from (p + PGSIZE) c
  end.

Lemma pages_from_ge p cnt q : q ∈ pages_from p cnt -> p <= q.
Proof.
  revert p. induction cnt as [|c IH]; intros p; simpl; [by intros ?%elem_of_nil|].
  intros [->|Hq]%elem_of_cons; [lia|]. specialize (IH _ Hq). unfold PGSIZE in *. lia.
Qed.

(** The loop frees every whole page of the range, and nothing else changes hands. *)
Lemma wp_freerange_loop cnt fuel Out In s i n H l p vend (Q : unit -> kst -> Prop) :
  lctx (klk s) i n H -> kmem_lock ∉ H -> free_pages s l ->
  Forall (fun q => page_ok (sym_end s) q /\ q ∉ l) (pages_from p cnt) ->
  p + PGSIZE * Z.of_nat cnt <= vend < p + PGSIZE * Z.of_nat cnt + PGSIZE ->
  (cnt <= fuel)%nat ->
  (forall s', lctx (klk s') i n H -> lk_static (klk s') = lk_static (klk s) ->
    sym_end s' = sym_end s -> use_lock s' = use_lock s -> ptab s' = ptab s ->
    free_pages s' (rev (pages_from p cnt) ++ l) -> Q tt s') ->
  wp Out In Q (freerange_loop fuel p vend s).
Proof.
  revert fuel s l p. induction cnt as [|cnt IH]; intros fuel s l p HL Hk HF Hp Hv Hfuel HQ.
  - assert (E : (p + PGSIZE <=? vend) = false) by (apply Z.leb_gt; lia).
    destruct fuel; simpl; rewrite E; by apply HQ.
  - destruct fuel as [|fuel]; [lia|]. cbn [freerange_loop].
    assert (E : (p + PGSIZE <=? vend) = true) by (apply Z.leb_le; unfold PGSIZE in *; lia).
    rewrite E. cbn [pages_from] in Hp. inversion Hp as [|?? [Hpp Hnl] Hps]; subst.
    apply exec_bind. eapply wp_kfree; [exact HL|done|exact HF|done|done|].
    intros lk L S1 s' HF'.
    apply (IH fuel s' (p :: l)); [done|done|done| |unfold PGSIZE in *; lia|lia|].
    + apply Forall_forall. intros q Hq.
      rewrite Forall_forall in Hps. destruct (Hps q Hq) as [Hqp Hql].
      split; [done|]. apply not_elem_of_cons. split; [|done].
      pose proof (pages_from_ge _ _ _ Hq). unfold PGSIZE in *. lia.
    + intros s2 HL2 Hst ??? HF2. apply HQ; [done|by rewrite Hst|done..|].
      simpl. rewrite <-app_assoc. exact HF2.
Qed.
