(* ===== verification/Vm.v ===== *)
(** Page tables and user memory: vm.c.

    A page directory or page table is a page of kernel memory, a table of 1024
    little-endian words. Loops over pages take fuel: there are 2^20 pages. *)
From stdpp Require Import base tactics list numbers strings gmap.
From S2P Require Import Prelude CString FsTypes State Spinlock Console Kalloc.

#[local] Open Scope Z_scope.

(** ** mmu.h *)
Definition PTE_P : Z := 1.
Definition PTE_W : Z := 2.
Definition PTE_U : Z := 4.
Definition PTE_ADDR (pte : Z) : Z := Z.land pte (Z.lnot 0xFFF).
Definition PTE_FLAGS (pte : Z) : Z := Z.land pte 0xFFF.
Definition PDX (va : Z) : Z := Z.land (Z.shiftr va 22) 0x3FF.
Definition PTX (va : Z) : Z := Z.land (Z.shiftr va 12) 0x3FF.
Definition PGADDR (d t o : Z) : Z := u32 (Z.lor (Z.lor (Z.shiftl d 22) (Z.shiftl t 12)) o).
(** [x & f], as a condition. *)
Definition flag (x f : Z) : bool := negb (Z.land x f =? 0).

Definition load32 (a : Z) : K Z := gets (fun s => ld32 (mem s) a).
Definition store32 (a v : Z) : K unit := set_mem (fun m => st32 m a v).

(** Enough iterations for a loop over the pages of an address space. *)
Definition page_fuel : nat := Z.to_nat (2^20).

(** ** Walking and mapping *)
Definition walkpgdir (pgdir va : Z) (alloc : bool) : K Z :=
  let pde := pgdir + 4 * PDX va in
  e ← load32 pde;
  if flag e PTE_P then mret (P2V (PTE_ADDR e) + 4 * PTX va)
  else if negb alloc then mret 0
  else
    pgtab ← kalloc;
    if pgtab =? 0 then mret 0
    else
      set_mem (fun m => memset m pgtab 0 PGSIZE);;
      store32 pde (Z.lor (Z.lor (Z.lor (V2P pgtab) PTE_P) PTE_W) PTE_U);;
      mret (pgtab + 4 * PTX va).

Fixpoint mappages_loop (fuel : nat) (pgdir a last pa perm : Z) : K Z :=
  match fuel with
  | O => nofuel
  | S f =>
      pte ← walkpgdir pgdir a true;
      if pte =? 0 then mret (-1)
      else
        e ← load32 pte;
        if flag e PTE_P then panic "remap"
        else
          store32 pte (Z.lor (Z.lor pa perm) PTE_P);;
          if a =? last then mret 0
          else mappages_loop f pgdir (u32 (a + PGSIZE)) last (u32 (pa + PGSIZE)) perm
  end.
Definition mappages (pgdir va size pa perm : Z) : K Z :=
  mappages_loop page_fuel pgdir (PGROUNDDOWN va) (PGROUNDDOWN (u32 (va + size - 1))) pa perm.

(** ** Releasing user memory *)
Fixpoint deallocuvm_loop (fuel : nat) (pgdir a oldsz : Z) : K unit :=
  if a <? oldsz then
    match fuel with
    | O => nofuel
    | S f =>
        pte ← walkpgdir pgdir a false;
        a' ← (if pte =? 0 then mret (u32 (PGADDR (PDX a + 1) 0 0 - PGSIZE))
              else
                e ← load32 pte;
                if flag e PTE_P then
                  let pa := PTE_ADDR e in
                  if pa =? 0 then panic "kfree"
                  else kfree (P2V pa);; store32 pte 0;; mret a
                else mret a);
        deallocuvm_loop f pgdir (u32 (a' + PGSIZE)) oldsz
    end
  else mret tt.
Definition deallocuvm (pgdir oldsz newsz : Z) : K Z :=
  if oldsz <=? newsz then mret oldsz
  else deallocuvm_loop page_fuel pgdir (PGROUNDUP newsz) oldsz;; mret newsz.

Definition freevm (pgdir : Z) : K unit :=
  if pgdir =? 0 then panic "freevm: no pgdir"
  else
    _ ← deallocuvm pgdir KERNBASE 0;
    for_all (seq 0 NPDENTRIES) (fun i =>
      e ← load32 (pgdir + 4 * Z.of_nat i);
      mwhen (flag e PTE_P) (kfree (P2V (PTE_ADDR e))));;
    kfree pgdir.

(** ** The kernel part of a page table *)
Record kmap_t := Kmap { virt : Z; phys_start : Z; phys_end : Z; perm : Z }.
Definition kmap (data : Z) : list kmap_t :=
  [Kmap KERNBASE 0 EXTMEM PTE_W;
   Kmap KERNLINK (V2P KERNLINK) (V2P data) 0;
   Kmap data (V2P data) PHYSTOP PTE_W;
   Kmap DEVSPACE DEVSPACE 0 PTE_W].

Definition setupkvm : K Z :=
  pgdir ← kalloc;
  if pgdir =? 0 then mret 0
  else
    set_mem (fun m => memset m pgdir 0 PGSIZE);;
    if DEVSPACE <? P2V PHYSTOP then panic "PHYSTOP too high"
    else
      data ← gets sym_data;
      r ← for_each (kmap data) (fun k =>
        v ← mappages pgdir (virt k) (u32 (phys_end k - phys_start k)) (phys_start k) (perm k);
        if v <? 0 then freevm pgdir;; mret (Some 0) else mret None);
      mret (default pgdir r).

Definition switchkvm : K unit :=
  k ← gets kpgdir;
  modify (fun s => s <| klk ::= fun l => l <| cr3 ::= <[here l := V2P k]> |> |>).

Definition kvmalloc : K unit :=
  k ← setupkvm;
  modify (fun s => s <| kpgdir := k |>);;
  switchkvm.

(** ** User memory *)

(** [init] is the kernel address of the [sz] bytes of initcode. *)
Definition inituvm (pgdir init sz : Z) : K unit :=
  if PGSIZE <=? sz then panic "inituvm: more than a page"
  else
    page ← kalloc;
    set_mem (fun m => memset m page 0 PGSIZE);;
    _ ← mappages pgdir 0 PGSIZE (V2P page) (Z.lor PTE_W PTE_U);
    set_mem (fun m => memmove m page init sz).

Fixpoint allocuvm_loop (fuel : nat) (pgdir a oldsz newsz : Z) : K Z :=
  if a <? newsz then
    match fuel with
    | O => nofuel
    | S f =>
        page ← kalloc;
        if page =? 0 then
          cprintf ("allocuvm out of memory" +:+ nl) [];;
          _ ← deallocuvm pgdir newsz oldsz; mret 0
        else
          set_mem (fun m => memset m page 0 PGSIZE);;
          r ← mappages pgdir a PGSIZE (V2P page) (Z.lor PTE_W PTE_U);
          if r <? 0 then
            cprintf ("allocuvm out of memory (2)" +:+ nl) [];;
            _ ← deallocuvm pgdir newsz oldsz;
            kfree page;; mret 0
          else allocuvm_loop f pgdir (u32 (a + PGSIZE)) oldsz newsz
    end
  else mret newsz.
Definition allocuvm (pgdir oldsz newsz : Z) : K Z :=
  if KERNBASE <=? newsz then mret 0
  else if newsz <? oldsz then mret oldsz
  else allocuvm_loop page_fuel pgdir (PGROUNDUP oldsz) oldsz newsz.

Definition clearpteu (pgdir uva : Z) : K unit :=
  pte ← walkpgdir pgdir uva false;
  if pte =? 0 then panic "clearpteu"
  else
    e ← load32 pte;
    store32 pte (Z.land e (Z.lnot PTE_U)).

(** The loop of [copyuvm]: [false] for [goto bad]. *)
Fixpoint copyuvm_loop (fuel : nat) (d pgdir i sz : Z) : K bool :=
  if i <? sz then
    match fuel with
    | O => nofuel
    | S f =>
        pte ← walkpgdir pgdir i false;
        if pte =? 0 then panic "copyuvm: pte should exist"
        else
          e ← load32 pte;
          if negb (flag e PTE_P) then panic "copyuvm: page not present"
          else
            page ← kalloc;
            if page =? 0 then mret false
            else
              set_mem (fun m => memmove m page (P2V (PTE_ADDR e)) PGSIZE);;
              r ← mappages d i PGSIZE (V2P page) (PTE_FLAGS e);
              if r <? 0 then kfree page;; mret false
              else copyuvm_loop f d pgdir (u32 (i + PGSIZE)) sz
    end
  else mret true.
Definition copyuvm (pgdir sz : Z) : K Z :=
  d ← setupkvm;
  if d =? 0 then mret 0
  else
    ok ← copyuvm_loop page_fuel d pgdir 0 sz;
    if (ok : bool) then mret d else freevm d;; mret 0.

(** A null page-table entry is dereferenced without a test. *)
Definition uva2ka (pgdir uva : Z) : K Z :=
  pte ← walkpgdir pgdir uva false;
  if pte =? 0 then fault "uva2ka: null pte"
  else
    e ← load32 pte;
    if negb (flag e PTE_P) then mret 0
    else if negb (flag e PTE_U) then mret 0
    else mret (P2V (PTE_ADDR e)).

(** [bytes] are the [len] bytes at [p]. *)
Fixpoint copyout_loop (fuel : nat) (pgdir va : Z) (bytes : list Z) : K Z :=
  match bytes with
  | [] => mret 0
  | _ =>
    match fuel with
    | O => nofuel
    | S f =>
        let len := Z.of_nat (length bytes) in
        let va0 := PGROUNDDOWN va in
        pa0 ← uva2ka pgdir va0;
        if pa0 =? 0 then mret (-1)
        else
          let n := Z.min (PGSIZE - (va - va0)) len in
          set_mem (fun m => st_list m (pa0 + (va - va0)) (take (Z.to_nat n) bytes));;
          copyout_loop f pgdir (u32 (va0 + PGSIZE)) (drop (Z.to_nat n) bytes)
    end
  end.
Definition copyout (pgdir va : Z) (bytes : list Z) : K Z := copyout_loop page_fuel pgdir va bytes.
