(* ===== verification/Sched.v ===== *)
(** The process table and the scheduler: proc.c, with [switchuvm] and [switchkvm]
    of vm.c.

    Kernel code that leaves the CPU ends in [sched], whose [swtch] is the [Swtch]
    outcome; what the scheduler thread does is [scheduler_pick] up to its own
    [swtch] and [scheduler_back] after it. *)
From stdpp Require Import base tactics list numbers strings gmap.
From S2P Require Import Prelude CString State Spinlock Console Kalloc Vm.

#[local] Open Scope Z_scope.

(** ** Access to the process table *)
Definition procs : list nat := seq 0 NPROC.
#[global] Arguments procs : simpl never.
Definition proc_at (i : nat) : K proc := gets (fun s => ptab s !!! i).
Definition upd_proc (i : nat) (f : proc -> proc) : K unit :=
  modify (fun s => s <| ptab ::= alter f i |>).
Definition deref (o : option nat) : K nat :=
  match o with Some i => mret i | None => fault "null struct proc" end.

(** The test that guards each of the three ready counters, repeated in the code
    wherever a process becomes or stops being RUNNABLE. *)
Definition add_count (d : Z) (p : proc) : K unit :=
  if sched_class p =? 1 then modify (fun s => s <| count_edf ::= Z.add d |>)
  else if (sched_class p =? 2) && (sched_level p =? 1) then
    modify (fun s => s <| count_rr ::= Z.add d |>)
  else if (sched_class p =? 2) && (sched_level p =? 2) then
    modify (fun s => s <| count_fcfs ::= Z.add d |>)
  else mret tt.
Definition count_inc (i : nat) : K unit := p ← proc_at i; add_count 1 p.
Definition count_dec (i : nat) : K unit := p ← proc_at i; add_count (-1) p.

(** Stamping a process with the clock, under [tickslock]. *)
Definition with_ticks (i : nat) (f : Z -> proc -> proc) : K unit :=
  acquire tickslock;;
  t ← gets ticks;
  upd_proc i (f (i32 t));;
  release tickslock.

Definition pinit : K unit := initlock ptable_lock "ptable".

(** ** allocproc *)

(** The fields set while [ptable.lock] is held. *)
Definition embryo (np : Z) (p : proc) : proc :=
  p <| state := EMBRYO |> <| pid := np |>
    <| sched_class := 2 |> <| sched_level := 2 |> <| deadline := 1000000000 |>
    <| arrival_time := 0 |> <| waited_ticks := 0 |> <| consecutive_run := 0 |>
    <| max_consecutive_run := 0 |> <| rr_ticks := 0 |> <| runnig_time := 0 |>.

(** The kernel stack: a trap frame at the top, below it the return address
    [trapret] and a context that starts at [forkret]. *)
Definition stack_setup (p : proc) : proc :=
  let sp := kstack p + KSTACKSIZE in
  let sp := sp - sizeof_trapframe in
  let p := p <| tf := sp |> in
  let sp := sp - 4 in
  let sp := sp - sizeof_context in
  p <| context := sp |> <| ctx := Context 0 0 0 0 code_forkret code_trapret |>.

Definition allocproc : K (option nat) :=
  acquire ptable_lock;;
  r ← for_each procs (fun i =>
        p ← proc_at i; mret (if decide (state p = UNUSED) then Some i else None));
  match r with
  | None => release ptable_lock;; mret None
  | Some i =>
      np ← gets nextpid;
      upd_proc i (embryo np);;
      modify (fun s => s <| nextpid := i32 (np + 1) |>);;
      release ptable_lock;;
      k ← kalloc;
      upd_proc i (fun p => p <| kstack := k |>);;
      if k =? 0 then
        upd_proc i (fun p => p <| state := UNUSED |>);; mret None
      else
        upd_proc i stack_setup;; mret (Some i)
  end.

(** ** vm.c: loading a process's address space (the segment descriptors of the
    task state are not modelled) *)
Definition switchuvm (op : option nat) : K unit :=
  match op with
  | None => panic "switchuvm: no process"
  | Some j =>
      p ← proc_at j;
      if kstack p =? 0 then panic "switchuvm: no kstack"
      else if pgdir p =? 0 then panic "switchuvm: no pgdir"
      else
        pushcli;;
        i ← mycpu;
        upd_cpu i (fun c => c <| ts_esp0 := u32 (kstack p + KSTACKSIZE) |>);;
        modify (fun s => s <| klk ::= fun l => l <| cr3 ::= <[here l := V2P (pgdir p)]> |> |>);;
        popcli
  end.

(** ** The scheduler's choice *)

(** Class 1, EDF: the first process of the table with the least deadline. *)
Definition is_edf (p : proc) : bool :=
  bool_decide (state p = RUNNABLE) && (sched_class p =? 1).
Fixpoint edf_loop (pt : list proc) (l : list nat) (chosen : option nat) : option nat :=
  match l with
  | [] => chosen
  | i :: l' =>
      let p := pt !!! i in
      edf_loop pt l'
        (if is_edf p then
           match chosen with
           | None => Some i
           | Some c => if deadline p <? deadline (pt !!! c) then Some i else chosen
           end
         else chosen)
  end.

(** Class 2 level 1, round robin: the test of the loop looks at the level only. *)
Definition is_rr_cand (p : proc) : bool :=
  bool_decide (state p = RUNNABLE) && (sched_level p =? 1).
(** [if(++p == &ptable.proc[NPROC]) p = ptable.proc] *)
Definition next_slot (p : nat) : nat := if (S p =? NPROC)%nat then 0%nat else S p.

(** The [do]-[while (p != nextrrp)] loop: [Some (Some (chosen, nextrrp'))] or
    [Some None] when it ends, [None] when [fuel] iterations were not enough. *)
Fixpoint rr_loop (fuel : nat) (pt : list proc) (nextrrp p : nat) : option (option (nat * nat)) :=
  match fuel with
  | O => None
  | S f =>
      if negb (is_rr_cand (pt !!! p)) then
        let p := next_slot p in
        if (p =? nextrrp)%nat then Some None else rr_loop f pt nextrrp p
      else Some (Some (p, next_slot p))
  end.

(** Class 2 level 2, FCFS: every candidate's [waited_ticks] grows; the first one
    with the least arrival time is chosen. *)
Definition is_fcfs (p : proc) : bool :=
  bool_decide (state p = RUNNABLE) && (sched_class p =? 2) && (sched_level p =? 2).
Fixpoint fcfs_loop (pt : list proc) (l : list nat) (chosen : option nat) : list proc * option nat :=
  match l with
  | [] => (pt, chosen)
  | i :: l' =>
      if is_fcfs (pt !!! i) then
        let pt := alter (fun p => p <| waited_ticks ::= Z.add 1 |>) i pt in
        let p := pt !!! i in
        fcfs_loop pt l'
          match chosen with
          | None => Some i
          | Some c => if arrival_time p <? arrival_time (pt !!! c) then Some i else chosen
          end
      else fcfs_loop pt l' chosen
  end.

Definition sched_choose (c : nat) : K (option nat) :=
  ce ← gets count_edf;
  if 0 <? ce then gets (fun s => edf_loop (ptab s) procs None)
  else
    cr ← gets count_rr;
    if 0 <? cr then
      cp ← cpu_at c;
      pt ← gets ptab;
      match rr_loop NPROC pt (nextrrp cp) (nextrrp cp) with
      | None => nofuel
      | Some None => mret None
      | Some (Some (j, nx)) => upd_cpu c (fun x => x <| nextrrp := nx |>);; mret (Some j)
      end
    else
      cf ← gets count_fcfs;
      if 0 <? cf then
        pt ← gets ptab;
        let '(pt', chosen) := fcfs_loop pt procs None in
        modify (fun s => s <| ptab := pt' |>);; mret chosen
      else mret None.

(** The chosen process is made RUNNING on CPU entry [c]. *)
Definition sched_run (c j : nat) : K unit :=
  upd_cpu c (fun x => x <| cpu_proc := Some j |>);;
  switchuvm (Some j);;
  upd_proc j (fun p => p <| state := RUNNING |>);;
  count_dec j;;
  upd_proc j (fun p => p <| consecutive_run := 0 |> <| rr_ticks := 0 |> <| waited_ticks := 0 |>);;
  with_ticks j (fun t p => p <| last_run := t |>).

(** [scheduler] before its loop: the CPU has no process, the round-robin cursor (a
    local variable of the scheduler's thread) is at the start of the table. *)
Definition scheduler_start : K nat :=
  c ← mycpu;
  upd_cpu c (fun x => x <| nextrrp := 0%nat |> <| cpu_proc := None |>);;
  mret c.

(** One turn of the scheduler's loop, up to the [swtch] into the chosen process. *)
Definition scheduler_pick (c : nat) : K (option nat) :=
  sti;;
  acquire ptable_lock;;
  chosen ← sched_choose c;
  match chosen with
  | Some j => sched_run c j;; mret (Some j)
  | None => release ptable_lock;; mret None
  end.

(** The rest of the turn, when the process has switched back. *)
Definition scheduler_back (c : nat) : K unit :=
  switchkvm;;
  upd_cpu c (fun x => x <| cpu_proc := None |>);;
  release ptable_lock.

(** ** Leaving the CPU *)
Definition sched : K unit :=
  op ← myproc;
  h ← holding ptable_lock;
  if negb h then panic "sched ptable.lock"
  else
    i ← mycpu;
    c ← cpu_at i;
    if negb (ncli c =? 1) then panic "sched locks"
    else
      j ← deref op;
      p ← proc_at j;
      if decide (state p = RUNNING) then panic "sched running"
      else
        f ← readeflags_IF;
        if (f : bool) then panic "sched interruptible"
        else
          swtch;;
          i' ← mycpu;
          upd_cpu i' (fun x => x <| intena := intena c |>).

Definition yield : K unit :=
  acquire ptable_lock;;
  op ← myproc;
  j ← deref op;
  upd_proc j (fun p => p <| state := RUNNABLE |>);;
  with_ticks j (fun t p => p <| arrival_time := t |> <| waited_ticks := 0 |>
    <| consecutive_run := 0 |>);;
  count_inc j;;
  sched;;
  release ptable_lock.

Definition sleep (ch : chan_t) (lk : lockid) : K unit :=
  op ← myproc;
  match op with
  | None => panic "sleep"
  | Some j =>
      mwhen (bool_decide (lk <> ptable_lock)) (acquire ptable_lock;; release lk);;
      upd_proc j (fun p => p <| chan := ch |>);;
      p ← proc_at j;
      mwhen (bool_decide (state p = RUNNABLE)) (count_dec j);;
      upd_proc j (fun p => p <| consecutive_run := 0 |> <| state := SLEEPING |>);;
      sched;;
      upd_proc j (fun p => p <| chan := ch_null |>);;
      mwhen (bool_decide (lk <> ptable_lock)) (release ptable_lock;; acquire lk)
  end.

(** The search that [kill], [set_deadline_for_process] and [change_sched_level]
    share: under [ptable.lock], run [body] on the first process with this pid and
    return; -1 if there is none. *)
Definition for_pid (pd : Z) (body : nat -> proc -> K Z) : K Z :=
  acquire ptable_lock;;
  r ← for_each procs (fun i =>
    p ← proc_at i;
    if pid p =? pd then v ← body i p; mret (Some v) else mret None);
  match r with
  | Some v => mret v
  | None => release ptable_lock;; mret (-1)
  end.

(** ** Waking processes *)

(** A sleeping process becomes RUNNABLE: the same lines in [wakeup1] and [kill]. *)
Definition make_runnable (i : nat) : K unit :=
  upd_proc i (fun p => p <| state := RUNNABLE |>);;
  with_ticks i (fun t p => p <| arrival_time := t |> <| waited_ticks := 0 |>);;
  count_inc i.

Definition wakeup1 (ch : chan_t) : K unit :=
  for_all procs (fun i =>
    p ← proc_at i;
    mwhen (bool_decide (state p = SLEEPING) && bool_decide (chan p = ch)) (make_runnable i)).

Definition wakeup (ch : chan_t) : K unit :=
  acquire ptable_lock;;
  wakeup1 ch;;
  release ptable_lock.

Definition kill (pd : Z) : K Z :=
  for_pid pd (fun i p =>
    upd_proc i (fun p => p <| killed := true |>);;
    mwhen (bool_decide (state p = SLEEPING)) (make_runnable i);;
    release ptable_lock;;
    mret 0).

(** ** Scheduling parameters *)
Definition set_deadline_for_process (pd dl : Z) : K Z :=
  if dl <? 0 then cprintf "Invalid deadline!" [];; mret (-1)
  else
    for_pid pd (fun i p =>
      mwhen (bool_decide (state p = RUNNABLE))
        (if sched_level p =? 1 then
           modify (fun s => s <| count_rr ::= Z.add (-1) |> <| count_edf ::= Z.add 1 |>)
         else if sched_level p =? 2 then
           modify (fun s => s <| count_fcfs ::= Z.add (-1) |> <| count_edf ::= Z.add 1 |>)
         else mret tt);;
      upd_proc i (fun p => p <| sched_level := 0 |> <| sched_class := 1 |> <| deadline := dl |>);;
      cprintf ("PID %d : Deadline = %d " +:+ nl) [AInt pd; AInt dl];;
      release ptable_lock;;
      mret 0).

(** The path of a process that is in the level already returns with
    [ptable.lock] held. *)
Definition change_sched_level (pd target_level : Z) : K Z :=
  if negb (target_level =? 1) && negb (target_level =? 2) then
    cprintf "Invalid target level!" [];; mret (-1)
  else
    for_pid pd (fun i p =>
      if sched_level p =? target_level then
        cprintf "Process is already in target level!" [];;
        mret (-1)
      else
        mwhen (bool_decide (state p = RUNNABLE))
          (if sched_level p =? 1 then
             modify (fun s => s <| count_rr ::= Z.add (-1) |> <| count_fcfs ::= Z.add 1 |>)
           else
             modify (fun s => s <| count_fcfs ::= Z.add (-1) |> <| count_rr ::= Z.add 1 |>));;
        cprintf ("PID %d : Level %d to %d" +:+ nl) [AInt pd; AInt (sched_level p); AInt target_level];;
        upd_proc i (fun p => p <| sched_level := if target_level =? 2 then 2 else 1 |>);;
        release ptable_lock;;
        mret 0).

Definition update_wait_time (osTicks : Z) : K Z :=
  acquire ptable_lock;;
  for_all procs (fun i =>
    p ← proc_at i;
    mwhen (bool_decide (state p = RUNNABLE))
      (upd_proc i (fun p => p <| waited_ticks := i32 (osTicks - arrival_time p) |>);;
       p ← proc_at i;
       mwhen ((sched_class p =? 2) && (sched_level p =? 2) && (AGING_THRESHOLD <=? waited_ticks p))
         (release ptable_lock;;
          _ ← change_sched_level (pid p) 1;
          acquire ptable_lock;;
          upd_proc i (fun p => p <| arrival_time := osTicks |>))));;
  release ptable_lock;;
  mret 0.

Definition is_higher_waiting : K Z :=
  ce ← gets count_edf;
  cr ← gets count_rr;
  if (0 <? ce) || (0 <? cr) then yield;; mret 1
  else mret 0.
