(* ===== verification/Process.v ===== *)
(** Process management: the rest of proc.c (processes are created, grow, exit and
    are waited for; process listings).

    What proc.c needs of the file system is the interface [FileSys]. *)
From stdpp Require Import base tactics list numbers strings gmap.
From S2P Require Import Prelude CString FsTypes State Spinlock Console Kalloc Vm Sched.

#[local] Open Scope Z_scope.

(** ** The file-system calls of proc.c *)
Class FileSys := {
  filedup : nat -> K nat;
  fileclose : nat -> K unit;
  idup : option nat -> K (option nat);
  iput : option nat -> K unit;
  begin_op : K unit;
  end_op : K unit;
  namei : list Z -> K (option nat);
  iinit : Z -> K unit;
  initlog : Z -> K unit
}.

(** A call of a string routine on a buffer of the process. *)
Definition of_option {A} (why : string) (o : option A) : K A :=
  match o with Some a => mret a | None => fault why end.

(** The bytes of a C string, without the NUL. *)
Fixpoint cstr (s : list Z) : list Z :=
  match s with
  | [] => []
  | c :: s' => if c =? 0 then [] else c :: cstr s'
  end.

(** A process pointer used as a sleep channel. *)
Definition chan_of (o : option nat) : chan_t :=
  match o with Some i => ch_proc i | None => ch_null end.

(** The block that makes a new process RUNNABLE, in [userinit] and [fork]. *)
Definition start_proc (i : nat) (stamp : Z -> proc -> proc) : K unit :=
  acquire ptable_lock;;
  upd_proc i (fun p => p <| state := RUNNABLE |>);;
  with_ticks i stamp;;
  count_inc i;;
  release ptable_lock.

Section proc.
Context {F : FileSys}.

(** [initcode] is linked into the kernel at [start], [size] bytes. *)
Definition userinit (start size : Z) : K unit :=
  op ← allocproc;
  i ← deref op;
  upd_proc i (fun p => p <| sched_class := 2 |> <| sched_level := 1 |>);;
  modify (fun s => s <| initproc := Some i |>);;
  pg ← setupkvm;
  upd_proc i (fun p => p <| pgdir := pg |>);;
  if pg =? 0 then panic "userinit: out of memory?"
  else
    inituvm pg start size;;
    upd_proc i (fun p => p <| sz := PGSIZE |>
      <| tframe := zero_trapframe
           <| cs := Z.lor (Z.shiftl SEG_UCODE 3) DPL_USER |>
           <| ds := Z.lor (Z.shiftl SEG_UDATA 3) DPL_USER |>
           <| es := Z.lor (Z.shiftl SEG_UDATA 3) DPL_USER |>
           <| ss := Z.lor (Z.shiftl SEG_UDATA 3) DPL_USER |>
           <| eflags := FL_IF |> <| esp := PGSIZE |> <| eip := 0 |> |>);;
    p ← proc_at i;
    nm ← of_option "userinit: name" (safestrcpy (name p) (codes "initcode" ++ [0]) 16);
    upd_proc i (fun p => p <| name := nm |>);;
    root ← namei (codes "/");
    upd_proc i (fun p => p <| cwd := root |>);;
    start_proc i (fun t p => p <| arrival_time := t |> <| waited_ticks := 0 |>).

Definition growproc (n : Z) : K Z :=
  op ← myproc;
  j ← deref op;
  p ← proc_at j;
  r ← (if 0 <? n then
         v ← allocuvm (pgdir p) (sz p) (u32 (sz p + n));
         mret (if v =? 0 then None else Some v)
       else if n <? 0 then
         v ← deallocuvm (pgdir p) (sz p) (u32 (sz p + n));
         mret (if v =? 0 then None else Some v)
       else mret (Some (sz p)));
  match r with
  | None => mret (-1)
  | Some v =>
      upd_proc j (fun p => p <| sz := v |>);;
      switchuvm (Some j);;
      mret 0
  end.

(** [if(curproc->ofile[i]) np->ofile[i] = filedup(curproc->ofile[i])] *)
Definition dup_files (j i : nat) : K unit :=
  for_all (seq 0 NOFILE) (fun fd =>
    p ← proc_at j;
    match ofile p !!! fd with
    | Some f =>
        f' ← filedup f;
        upd_proc i (fun q => q <| ofile ::= <[fd := Some f']> |>)
    | None => mret tt
    end).

Definition fork : K Z :=
  op ← myproc;
  onp ← allocproc;
  match onp with
  | None => mret (-1)
  | Some i =>
      j ← deref op;
      p ← proc_at j;
      pg ← copyuvm (pgdir p) (sz p);
      upd_proc i (fun q => q <| pgdir := pg |>);;
      if pg =? 0 then
        q ← proc_at i;
        kfree (kstack q);;
        upd_proc i (fun q => q <| kstack := 0 |> <| state := UNUSED |>);;
        mret (-1)
      else
        p ← proc_at j;
        upd_proc i (fun q => q <| sz := sz p |> <| parent := Some j |>
          <| tframe := (tframe p) <| eax := 0 |> |>);;
        dup_files j i;;
        p ← proc_at j;
        d ← idup (cwd p);
        upd_proc i (fun q => q <| cwd := d |>);;
        p ← proc_at j;
        q ← proc_at i;
        nm ← of_option "fork: name" (safestrcpy (name q) (name p) 16);
        upd_proc i (fun q => q <| name := nm |>);;
        q ← proc_at i;
        let pd := pid q in
        start_proc i (fun t q => q <| arrival_time := t |> <| waited_ticks := 0 |> <| last_run := t |>);;
        mret pd
  end.

(** Closing every open file of process [j]. *)
Definition close_files (j : nat) : K unit :=
  for_all (seq 0 NOFILE) (fun fd =>
    p ← proc_at j;
    match ofile p !!! fd with
    | Some f =>
        fileclose f;;
        upd_proc j (fun q => q <| ofile ::= <[fd := None]> |>)
    | None => mret tt
    end).

(** Handing the children of [j] to init. *)
Definition reparent (j : nat) : K unit :=
  for_all procs (fun i =>
    p ← proc_at i;
    if decide (parent p = Some j) then
      ini ← gets initproc;
      upd_proc i (fun p => p <| parent := ini |>);;
      mwhen (bool_decide (state p = ZOMBIE)) (wakeup1 (chan_of ini))
    else mret tt).

Definition exit : K unit :=
  op ← myproc;
  ini ← gets initproc;
  if decide (op = ini) then panic "init exiting"
  else
    j ← deref op;
    close_files j;;
    begin_op;;
    p ← proc_at j;
    iput (cwd p);;
    end_op;;
    upd_proc j (fun p => p <| cwd := None |>);;
    acquire ptable_lock;;
    p ← proc_at j;
    wakeup1 (chan_of (parent p));;
    reparent j;;
    upd_proc j (fun p => p <| state := ZOMBIE |>);;
    sched;;
    panic "zombie exit".

(** One scan of [wait] over the table: [inl pid] for a child that was reaped,
    [inr havekids] otherwise. *)
Fixpoint wait_scan (l : list nat) (j : nat) (havekids : bool) : K (Z + bool) :=
  match l with
  | [] => mret (inr havekids)
  | i :: l' =>
      p ← proc_at i;
      if decide (parent p = Some j) then
        if decide (state p = ZOMBIE) then
          let pd := pid p in
          kfree (kstack p);;
          upd_proc i (fun p => p <| kstack := 0 |>);;
          freevm (pgdir p);;
          upd_proc i (fun p => p <| pid := 0 |> <| parent := None |>
            <| name ::= <[0%nat := 0]> |> <| killed := false |> <| state := UNUSED |>);;
          release ptable_lock;;
          mret (inl pd)
        else wait_scan l' j true
      else wait_scan l' j havekids
  end.

(** [for(;;)] scan, then sleep: [fuel] bounds the number of scans. *)
Fixpoint wait_loop (fuel : nat) (j : nat) : K Z :=
  match fuel with
  | O => nofuel
  | S f =>
      r ← wait_scan procs j false;
      match r with
      | inl pd => mret pd
      | inr havekids =>
          p ← proc_at j;
          if negb havekids || killed p then release ptable_lock;; mret (-1)
          else
            sleep (ch_proc j) ptable_lock;;
            wait_loop f j
      end
  end.

Definition wait (fuel : nat) : K Z :=
  op ← myproc;
  acquire ptable_lock;;
  j ← deref op;
  wait_loop fuel j.

Definition forkret : K unit :=
  release ptable_lock;;
  f ← gets first;
  mwhen f
    (modify (fun s => s <| first := false |>);;
     iinit ROOTDEV;;
     initlog ROOTDEV).
End proc.

(** ** Listings *)
Fixpoint callerpcs (fuel : nat) (m : memory) (ebp : Z) : list Z :=
  match fuel with
  | O => []
  | S f => if (ebp =? 0) || (ebp <? KERNBASE) || (ebp =? 0xffffffff) then replicate (S f) 0
           else ld32 m (ebp + 4) :: callerpcs f m (ld32 m ebp)
  end.
(** spinlock.c: the 10 return addresses found by following saved frame pointers. *)
Definition getcallerpcs (m : memory) (v : Z) : list Z := callerpcs 10 m (u32 (v - 8)).

Definition dump_state (st : procstate) : string :=
  match st with
  | UNUSED => "unused" | EMBRYO => "embryo" | SLEEPING => "sleep "
  | RUNNABLE => "runble" | RUNNING => "run   " | ZOMBIE => "zombie"
  end.

Fixpoint print_pcs (pcs : list Z) : K unit :=
  match pcs with
  | [] => mret tt
  | pc :: l => if pc =? 0 then mret tt else cprintf " %p" [AInt pc];; print_pcs l
  end.

Definition procdump : K unit :=
  for_all procs (fun i =>
    p ← proc_at i;
    if decide (state p = UNUSED) then mret tt
    else
      cprintf "%d %s %s" [AInt (pid p); AStr (codes (dump_state (state p))); AStr (cstr (name p))];;
      mwhen (bool_decide (state p = SLEEPING))
        (m ← gets mem; print_pcs (getcallerpcs m (u32 (c_ebp (ctx p) + 8))));;
      cprintf nl []).

Definition info_state (st : procstate) : string :=
  match st with
  | UNUSED => "UNUSED" | EMBRYO => "EMBRYO" | SLEEPING => "SLEEPING"
  | RUNNABLE => "RUNNABLE" | RUNNING => "RUNNING" | ZOMBIE => "ZOMBIE"
  end.

(** A cell of the table: the text, padded with spaces to the column's width. *)
Definition cell_str (w : Z) (s : list Z) : K unit :=
  cprintf "%s" [AStr s];; printspaces (w - Z.of_nat (length s)).
Definition cell_int (w : Z) (v : Z) : K unit :=
  cprintf "%d" [AInt v];; printspaces (w - digitcount v).

Definition info_rule : string :=
  "-------------------------------------------------------------------------------------------------------------------------------------".
Definition info_header : string :=
  "Process_Name    PID     State       Class       Algorithm   Wait_time   Deadline    Consecutive_run  Arrival  RR_time   Running_Time ".

Definition print_sched_info : K Z :=
  acquire tickslock;;
  t ← gets ticks;
  cprintf ("-----------------------" +:+ nl +:+ "Tick: %d " +:+ nl) [AInt (i32 t)];;
  release tickslock;;
  cprintf (info_rule +:+ nl +:+ info_header +:+ nl) [];;
  acquire ptable_lock;;
  for_all procs (fun i =>
    p ← proc_at i;
    if decide (state p = UNUSED) then mret tt
    else
      let algorithm := if sched_class p =? 1 then "EDF"
                       else if sched_level p =? 1 then "RR" else "FCFS" in
      let class := if sched_class p =? 1 then "Real-Time" else "Normal" in
      cell_str 16 (cstr (name p));;
      cell_int 8 (pid p);;
      cell_str 12 (codes (info_state (state p)));;
      cell_str 12 (codes class);;
      cell_str 12 (codes algorithm);;
      cell_int 12 (waited_ticks p);;
      cell_int 12 (deadline p);;
      cell_int 17 (max_consecutive_run p);;
      cell_int 9 (arrival_time p);;
      cell_int 10 (rr_ticks p);;
      cell_int 13 (runnig_time p);;
      cprintf nl []);;
  release ptable_lock;;
  mret 0.
