(* ===== verification/Args.v ===== *)
(** System-call arguments: the first half of syscall.c.

    The kernel reads user memory through the page table of the current process,
    which is loaded while the process is in the kernel; an unmapped address is a
    page fault in the kernel. *)
From stdpp Require Import base tactics list numbers strings gmap.
From S2P Require Import Prelude CString FsTypes State Spinlock Console Kalloc Vm Sched.

#[local] Open Scope Z_scope.

(** The kernel address of user address [va]; the kernel may use any present page. *)
Definition uaddr (pg va : Z) : K Z :=
  pte ← walkpgdir pg va false;
  if pte =? 0 then fault "page fault"
  else
    e ← load32 pte;
    if flag e PTE_P then mret (P2V (PTE_ADDR e) + va mod PGSIZE) else fault "page fault".

Definition uload8 (pg va : Z) : K Z := a ← uaddr pg va; gets (fun s => ld8 (mem s) a).
Definition ustore8 (pg va v : Z) : K unit := a ← uaddr pg va; set_mem (fun m => st8 m a v).

(** [*(int* )addr] *)
Definition uload32 (pg va : Z) : K Z :=
  b0 ← uload8 pg va;
  b1 ← uload8 pg (va + 1);
  b2 ← uload8 pg (va + 2);
  b3 ← uload8 pg (va + 3);
  mret (i32 (b0 + 2^8 * b1 + 2^16 * b2 + 2^24 * b3)).

(** The current process. *)
Definition curproc : K nat := op ← myproc; deref op.

(** [Some v] for [*ip = v; return 0], [None] for [return -1]. *)
Definition fetchint (addr : Z) : K (option Z) :=
  j ← curproc;
  p ← proc_at j;
  if (sz p <=? addr) || (sz p <? u32 (addr + 4)) then mret None
  else v ← uload32 (pgdir p) addr; mret (Some v).

(** The characters from [s] up to the NUL, if there is one below [ep]. *)
Fixpoint fetchstr_loop (fuel : nat) (pg s : Z) : K (option (list Z)) :=
  match fuel with
  | O => mret None
  | S f =>
      c ← uload8 pg s;
      if c =? 0 then mret (Some [])
      else
        r ← fetchstr_loop f pg (s + 1);
        mret (cons c <$> r)
  end.

(** The string at [addr] with its address, or [None] for [return -1]; there are
    [sz - addr] characters to look at. *)
Definition fetchstr (addr : Z) : K (option (Z * list Z)) :=
  j ← curproc;
  p ← proc_at j;
  if sz p <=? addr then mret None
  else
    r ← fetchstr_loop (Z.to_nat (sz p - addr)) (pgdir p) addr;
    mret (pair addr <$> r).

Definition argint (n : Z) : K (option Z) :=
  j ← curproc;
  p ← proc_at j;
  fetchint (u32 (esp (tframe p) + 4 + 4 * n)).

(** The pointer, or [None] for [return -1]. *)
Definition argptr (n size : Z) : K (option Z) :=
  j ← curproc;
  r ← argint n;
  match r with
  | None => mret None
  | Some i =>
      p ← proc_at j;
      if (size <? 0) || (sz p <=? u32 i) || (sz p <? u32 (u32 i + size)) then mret None
      else mret (Some (u32 i))
  end.

Definition argstr (n : Z) : K (option (Z * list Z)) :=
  r ← argint n;
  match r with
  | None => mret None
  | Some addr => fetchstr (u32 addr)
  end.
