(* ===== verification/Sysproc.v ===== *)
(** Process system calls: sysproc.c. *)
From stdpp Require Import base tactics list numbers strings gmap.
From S2P Require Import Prelude CString FsTypes State Spinlock Console Kalloc Vm Sched Process Args.

#[local] Open Scope Z_scope.

(** A call whose integer arguments are fetched first; -1 if one cannot be. *)
Definition with_int (n : Z) (k : Z -> K Z) : K Z :=
  r ← argint n;
  match r with Some v => k v | None => mret (-1) end.

Section sysproc.
Context {F : FileSys}.

Definition sys_fork : K Z := fork.
Definition sys_exit : K Z := exit;; mret 0.
Definition sys_wait (fuel : nat) : K Z := wait fuel.
Definition sys_kill : K Z := with_int 0 kill.
Definition sys_getpid : K Z := j ← curproc; p ← proc_at j; mret (pid p).

Definition sys_sbrk : K Z :=
  with_int 0 (fun n =>
    j ← curproc;
    p ← proc_at j;
    let addr := i32 (sz p) in
    r ← growproc n;
    if r <? 0 then mret (-1) else mret addr).

(** [while(ticks - ticks0 < n)]: unsigned arithmetic, and a negative [n] becomes
    a large unsigned number. [fuel] bounds the number of wakeups. *)
Fixpoint sys_sleep_loop (fuel : nat) (ticks0 n : Z) : K Z :=
  t ← gets ticks;
  if u32 (t - ticks0) <? u32 n then
    match fuel with
    | O => nofuel
    | S f =>
        j ← curproc;
        p ← proc_at j;
        if killed p then release tickslock;; mret (-1)
        else sleep ch_ticks tickslock;; sys_sleep_loop f ticks0 n
    end
  else release tickslock;; mret 0.
Definition sys_sleep (fuel : nat) : K Z :=
  with_int 0 (fun n =>
    acquire tickslock;;
    ticks0 ← gets ticks;
    sys_sleep_loop fuel ticks0 n).

Definition sys_uptime : K Z :=
  acquire tickslock;;
  xticks ← gets ticks;
  release tickslock;;
  mret (i32 xticks).

Definition sys_set_deadline_for_process : K Z :=
  with_int 0 (fun pd => with_int 1 (fun dl => set_deadline_for_process pd dl)).
Definition sys_change_sched_level : K Z :=
  with_int 0 (fun pd => with_int 1 (fun target => change_sched_level pd target)).
Definition sys_print_sched_info : K Z := print_sched_info.
Definition sys_update_wait_time : K Z := with_int 0 update_wait_time.
Definition sys_is_higher_waiting : K Z := is_higher_waiting.
End sysproc.
