(* ===== verification/Trap.v ===== *)
(** Traps and system-call dispatch: trap.c and the second half of syscall.c.

    The file system's calls and the device interrupts are interfaces. The
    end-of-interrupt write of [lapiceoi] changes no state of the model. *)
From stdpp Require Import base tactics list numbers strings gmap.
From S2P Require Import Prelude CString FsTypes State Spinlock Console Kalloc Vm Sched Process Args Sysproc.

#[local] Open Scope Z_scope.

(** ** syscall.c *)
Class SysFiles := {
  sys_pipe : K Z; sys_read : K Z; sys_exec : K Z; sys_fstat : K Z; sys_chdir : K Z;
  sys_dup : K Z; sys_open : K Z; sys_write : K Z; sys_mknod : K Z; sys_unlink : K Z;
  sys_link : K Z; sys_mkdir : K Z; sys_close : K Z
}.

(** The device interrupt handlers: ide.c, kbd.c, uart.c. *)
Class Devices := {
  ideintr : K unit;
  kbdintr : K unit;
  uartintr : K unit
}.

Section trap.
Context {F : FileSys} {SF : SysFiles} {D : Devices}.

(** The table [syscalls]; numbers 22 and 24 have no entry. *)
Definition syscalls (fuel : nat) (num : Z) : option (K Z) :=
  match num with
  | 1 => Some sys_fork | 2 => Some sys_exit | 3 => Some (sys_wait fuel) | 4 => Some sys_pipe
  | 5 => Some sys_read | 6 => Some sys_kill | 7 => Some sys_exec | 8 => Some sys_fstat
  | 9 => Some sys_chdir | 10 => Some sys_dup | 11 => Some sys_getpid | 12 => Some sys_sbrk
  | 13 => Some (sys_sleep fuel) | 14 => Some sys_uptime | 15 => Some sys_open
  | 16 => Some sys_write | 17 => Some sys_mknod | 18 => Some sys_unlink | 19 => Some sys_link
  | 20 => Some sys_mkdir | 21 => Some sys_close | 23 => Some sys_change_sched_level
  | 25 => Some sys_print_sched_info | 26 => Some sys_update_wait_time
  | 27 => Some sys_is_higher_waiting | 28 => Some sys_set_deadline_for_process
  | _ => None
  end.

Definition set_eax (j : nat) (v : Z) : K unit :=
  upd_proc j (fun p => p <| tframe ::= fun t => t <| eax := u32 v |> |>).

Definition syscall (fuel : nat) : K unit :=
  j ← curproc;
  p ← proc_at j;
  let num := i32 (eax (tframe p)) in
  match syscalls fuel num with
  | Some f => v ← f; set_eax j v
  | None =>
      cprintf ("%d %s: unknown sys call %d" +:+ nl) [AInt (pid p); AStr (cstr (name p)); AInt num];;
      set_eax j (-1)
  end.

(** ** trap.c *)
Definition from_user (t : trapframe) : bool := Z.land (cs t) 3 =? DPL_USER.

(** [if(myproc() && myproc()->killed && (tf->cs&3) == DPL_USER) exit()] *)
Definition exit_if_killed (t : trapframe) : K unit :=
  op ← myproc;
  match op with
  | Some j => p ← proc_at j; mwhen (killed p && from_user t) exit
  | None => mret tt
  end.

Definition tick : K unit :=
  i ← cpuid;
  if i =? 0 then
    acquire tickslock;;
    modify (fun s => s <| ticks ::= fun t => u32 (t + 1) |>);;
    osTicks ← gets ticks;
    wakeup ch_ticks;;
    release tickslock;;
    _ ← update_wait_time (i32 osTicks);
    mret tt
  else mret tt.

(** The accounting and preemption of the running process at a clock tick. *)
Definition quantum : K unit :=
  j ← curproc;
  upd_proc j (fun p => p <| consecutive_run ::= Z.add 1 |>);;
  upd_proc j (fun p => p <| runnig_time ::= Z.add 1 |>);;
  upd_proc j (fun p => if max_consecutive_run p <? consecutive_run p
    then p <| max_consecutive_run := consecutive_run p |> else p);;
  p ← proc_at j;
  if (sched_class p =? 2) && (sched_level p =? 1) then
    upd_proc j (fun p => p <| rr_ticks ::= Z.add 1 |>);;
    p ← proc_at j;
    mwhen (Z.quot Time_Quantum Unit_Quantum_length_ms <=? rr_ticks p)
      (cprintf ("RR proc %d  yielded, RR ticks: %d " +:+ nl) [AInt (pid p); AInt (rr_ticks p)];;
       yield)
  else if (sched_class p =? 2) && (sched_level p =? 2) then
    r ← is_higher_waiting;
    mwhen (negb (r =? 0)) yield
  else mret tt.

Definition preempt (t : trapframe) : K unit :=
  op ← myproc;
  match op with
  | Some j =>
      p ← proc_at j;
      mwhen (bool_decide (state p = RUNNING) && (trapno t =? T_IRQ0 + IRQ_TIMER)) quantum
  | None => mret tt
  end.

(** [default:] of the switch; [cr2] is the faulting address register. *)
Definition unexpected (t : trapframe) (cr2 : Z) : K unit :=
  op ← myproc;
  match op with
  | Some j =>
      if Z.land (cs t) 3 =? 0 then
        i ← cpuid;
        cprintf ("unexpected trap %d from cpu %d eip %x (cr2=0x%x)" +:+ nl)
          [AInt (trapno t); AInt i; AInt (eip t); AInt cr2];;
        panic "trap"
      else
        p ← proc_at j;
        i ← cpuid;
        cprintf ("pid %d %s: trap %d err %d on cpu %d eip 0x%x addr 0x%x--kill proc" +:+ nl)
          [AInt (pid p); AStr (cstr (name p)); AInt (trapno t); AInt (err t); AInt i;
           AInt (eip t); AInt cr2];;
        upd_proc j (fun p => p <| killed := true |>)
  | None =>
      i ← cpuid;
      cprintf ("unexpected trap %d from cpu %d eip %x (cr2=0x%x)" +:+ nl)
        [AInt (trapno t); AInt i; AInt (eip t); AInt cr2];;
      panic "trap"
  end.

Definition dispatch (t : trapframe) (cr2 : Z) : K unit :=
  let n := trapno t - T_IRQ0 in
  if n =? IRQ_TIMER then tick
  else if n =? IRQ_IDE then ideintr
  else if n =? IRQ_IDE + 1 then mret tt
  else if n =? IRQ_KBD then kbdintr
  else if n =? IRQ_COM1 then uartintr
  else if (n =? 7) || (n =? IRQ_SPURIOUS) then
    i ← cpuid;
    cprintf ("cpu%d: spurious interrupt at %x:%x" +:+ nl) [AInt i; AInt (cs t); AInt (eip t)]
  else unexpected t cr2.

Definition trap (fuel : nat) (t : trapframe) (cr2 : Z) : K unit :=
  if trapno t =? T_SYSCALL then
    j ← curproc;
    p ← proc_at j;
    mwhen (killed p) exit;;
    j ← curproc;
    upd_proc j (fun p => p <| tframe := t |>);;
    syscall fuel;;
    j ← curproc;
    p ← proc_at j;
    mwhen (killed p) exit
  else
    dispatch t cr2;;
    exit_if_killed t;;
    preempt t;;
    exit_if_killed t.
End trap.
