(* ===== verification/Sleeplock.v ===== *)
(** Sleeping locks: sleeplock.c. *)
From stdpp Require Import base tactics list numbers strings gmap.
From S2P Require Import Prelude CString FsTypes State Spinlock Console Kalloc Vm Sched Args.

#[local] Open Scope Z_scope.

(** ** Access to the file-system state *)
Definition fsget {A} (f : fsst -> A) : K A := gets (fun s => f (fss s)).
Definition fsmod (f : fsst -> fsst) : K unit := modify (fun s => s <| fss ::= f |>).
Definition buf_at (i : nat) : K buf := fsget (fun f => bufs f !!! i).
Definition upd_buf (i : nat) (g : buf -> buf) : K unit := fsmod (fun f => f <| bufs ::= alter g i |>).
Definition inode_at (i : nat) : K inode := fsget (fun f => inodes f !!! i).
Definition upd_inode (i : nat) (g : inode -> inode) : K unit :=
  fsmod (fun f => f <| inodes ::= alter g i |>).

(** How many times a thread that sleeps in a loop is followed. *)
Class Fuel := wakeups : nat.

(** The sleep locks of the kernel: one in each buffer and in each inode. *)
Inductive slid : Type := SL_buf (i : nat) | SL_inode (i : nat).
Definition sl_spin (k : slid) : lockid :=
  match k with SL_buf i => buf_lk i | SL_inode i => inode_lk i end.
Definition sl_chan (k : slid) : chan_t :=
  match k with SL_buf i => ch_buflock i | SL_inode i => ch_inodelock i end.
Definition sl_get (k : slid) : K sleeplock :=
  match k with
  | SL_buf i => b ← buf_at i; mret (b_lock b)
  | SL_inode i => ip ← inode_at i; mret (i_lock ip)
  end.
Definition sl_upd (k : slid) (g : sleeplock -> sleeplock) : K unit :=
  match k with
  | SL_buf i => upd_buf i (fun b => b <| b_lock ::= g |>)
  | SL_inode i => upd_inode i (fun ip => ip <| i_lock ::= g |>)
  end.

(** ** sleeplock.c *)
Definition initsleeplock (k : slid) (nm : string) : K unit :=
  initlock (sl_spin k) "sleep lock";;
  sl_upd k (fun l => l <| sl_name := nm |> <| sl_locked := false |> <| sl_pid := 0 |>).

(** [while(lk->locked) sleep(lk, &lk->lk)] *)
Fixpoint acquiresleep_loop (fuel : nat) (k : slid) : K unit :=
  l ← sl_get k;
  if sl_locked l then
    match fuel with
    | O => nofuel
    | S f => sleep (sl_chan k) (sl_spin k);; acquiresleep_loop f k
    end
  else mret tt.

Definition acquiresleep `{Fuel} (k : slid) : K unit :=
  acquire (sl_spin k);;
  acquiresleep_loop wakeups k;;
  sl_upd k (fun l => l <| sl_locked := true |>);;
  j ← curproc;
  p ← proc_at j;
  sl_upd k (fun l => l <| sl_pid := pid p |>);;
  release (sl_spin k).

Definition releasesleep (k : slid) : K unit :=
  acquire (sl_spin k);;
  sl_upd k (fun l => l <| sl_locked := false |> <| sl_pid := 0 |>);;
  wakeup (sl_chan k);;
  release (sl_spin k).

(** [myproc()] is only called when the lock is held by someone. *)
Definition holdingsleep (k : slid) : K bool :=
  acquire (sl_spin k);;
  l ← sl_get k;
  r ← (if sl_locked l then j ← curproc; p ← proc_at j; mret (sl_pid l =? pid p) else mret false);
  release (sl_spin k);;
  mret r.
