(* ===== verification/Ide.v ===== *)
(** The disk driver: ide.c, and the memory disk memide.c that can replace it.

    The controller's registers are not modelled: a write command stores the data
    that is sent after it into the block it names, a read command makes the data
    of its block available when the interrupt comes. *)
From stdpp Require Import base tactics list numbers strings gmap.
From S2P Require Import Prelude CString FsTypes State Spinlock Console Kalloc Vm Sched Args Sleeplock.

#[local] Open Scope Z_scope.

Definition SECTOR_SIZE : Z := 512.

(** The disk the driver selects for a device number. *)
Definition disk_of (b : buf) : Z * Z := (Z.land (b_dev b) 1, b_blockno b).
Definition disk_block (d : gmap (Z * Z) (list Z)) (k : Z * Z) : list Z := default zero_block (d !! k).

(** [ideinit]: [present] is whether disk 1 answers. *)
Definition ideinit (present : bool) : K unit :=
  initlock idelock "ide";;
  fsmod (fun f => f <| havedisk1 ::= fun h => h || present |>).

Definition idestart (i : nat) : K unit :=
  b ← buf_at i;
  if FSSIZE <=? b_blockno b then panic "incorrect blockno"
  else if 7 <? BSIZE / SECTOR_SIZE then panic "idestart"
  else
    mwhen (negb (Z.land (b_flags b) B_DIRTY =? 0))
      (fsmod (fun f => f <| disk ::= <[disk_of b := b_data b]> |>)).

(** [ok] is whether the status read by [idewait(1)] shows no error. *)
Definition ideintr (ok : bool) : K unit :=
  acquire idelock;;
  q ← fsget idequeue;
  match q with
  | [] => release idelock
  | i :: rest =>
      fsmod (fun f => f <| idequeue := rest |>);;
      b ← buf_at i;
      mwhen ((Z.land (b_flags b) B_DIRTY =? 0) && ok)
        (d ← fsget disk; upd_buf i (fun b => b <| b_data := disk_block d (disk_of b) |>));;
      upd_buf i (fun b => b <| b_flags ::= fun fl => Z.land (Z.lor fl B_VALID) (Z.lnot B_DIRTY) |>);;
      wakeup (ch_buf i);;
      (match rest with [] => mret tt | n :: _ => idestart n end);;
      release idelock
  end.

(** [while((b->flags & (B_VALID|B_DIRTY)) != B_VALID) sleep(b, &idelock)] *)
Fixpoint iderw_loop (fuel : nat) (i : nat) : K unit :=
  b ← buf_at i;
  if Z.land (b_flags b) (Z.lor B_VALID B_DIRTY) =? B_VALID then mret tt
  else match fuel with
    | O => nofuel
    | S f => sleep (ch_buf i) idelock;; iderw_loop f i
    end.

Definition iderw `{Fuel} (i : nat) : K unit :=
  h ← holdingsleep (SL_buf i);
  if negb h then panic "iderw: buf not locked"
  else
    b ← buf_at i;
    if Z.land (b_flags b) (Z.lor B_VALID B_DIRTY) =? B_VALID then panic "iderw: nothing to do"
    else
      have ← fsget havedisk1;
      if negb (b_dev b =? 0) && negb have then panic "iderw: ide disk 1 not present"
      else
        acquire idelock;;
        fsmod (fun f => f <| idequeue ::= fun q => q ++ [i] |>);;
        q ← fsget idequeue;
        mwhen (bool_decide (head q = Some i)) (idestart i);;
        iderw_loop wakeups i;;
        release idelock.

(** ** memide.c: [iderw] on a disk image of [disksize] blocks in memory *)
Definition mem_iderw (disksize : Z) (i : nat) : K unit :=
  h ← holdingsleep (SL_buf i);
  if negb h then panic "iderw: buf not locked"
  else
    b ← buf_at i;
    if Z.land (b_flags b) (Z.lor B_VALID B_DIRTY) =? B_VALID then panic "iderw: nothing to do"
    else if negb (b_dev b =? 1) then panic "iderw: request not for disk 1"
    else if disksize <=? b_blockno b then panic "iderw: block out of range"
    else
      (if negb (Z.land (b_flags b) B_DIRTY =? 0) then
         upd_buf i (fun b => b <| b_flags ::= fun fl => Z.land fl (Z.lnot B_DIRTY) |>);;
         fsmod (fun f => f <| disk ::= <[(1, b_blockno b) := b_data b]> |>)
       else
         d ← fsget disk;
         upd_buf i (fun b' => b' <| b_data := disk_block d (1, b_blockno b) |>));;
      upd_buf i (fun b => b <| b_flags ::= fun fl => Z.lor fl B_VALID |>).
