(* ===== verification/Bio.v ===== *)
(** The buffer cache: bio.c. The doubly linked list is [lru], its order from
    [head.next], the most recently used buffer. *)
From stdpp Require Import base tactics list numbers strings gmap.
From S2P Require Import Prelude CString FsTypes State Spinlock Console Kalloc Vm Sched Args Sleeplock Ide.

#[local] Open Scope Z_scope.

Definition binit : K unit :=
  initlock bcache_lock "bcache";;
  fsmod (fun f => f <| lru := [] |>);;
  for_all (seq 0 NBUF) (fun i =>
    initsleeplock (SL_buf i) "buffer";;
    fsmod (fun f => f <| lru ::= cons i |>)).

(** The first buffer of [l] that satisfies [ok]. *)
Fixpoint find_buf (ok : buf -> bool) (bs : list buf) (l : list nat) : option nat :=
  match l with
  | [] => None
  | i :: l' => if ok (bs !!! i) then Some i else find_buf ok bs l'
  end.

Definition is_block (dev blockno : Z) (b : buf) : bool :=
  (b_dev b =? dev) && (b_blockno b =? blockno).
Definition recyclable (b : buf) : bool :=
  (b_refcnt b =? 0) && (Z.land (b_flags b) B_DIRTY =? 0).

Definition bget `{Fuel} (dev blockno : Z) : K nat :=
  acquire bcache_lock;;
  f ← fsget (fun f => f);
  match find_buf (is_block dev blockno) (bufs f) (lru f) with
  | Some i =>
      upd_buf i (fun b => b <| b_refcnt ::= fun r => u32 (r + 1) |>);;
      release bcache_lock;;
      acquiresleep (SL_buf i);;
      mret i
  | None =>
      match find_buf recyclable (bufs f) (rev (lru f)) with
      | Some i =>
          upd_buf i (fun b => b <| b_dev := dev |> <| b_blockno := blockno |> <| b_flags := 0 |>
            <| b_refcnt := 1 |>);;
          release bcache_lock;;
          acquiresleep (SL_buf i);;
          mret i
      | None => panic "bget: no buffers"
      end
  end.

Definition bread `{Fuel} (dev blockno : Z) : K nat :=
  i ← bget dev blockno;
  b ← buf_at i;
  mwhen (Z.land (b_flags b) B_VALID =? 0) (iderw i);;
  mret i.

Definition bwrite `{Fuel} (i : nat) : K unit :=
  h ← holdingsleep (SL_buf i);
  if negb h then panic "bwrite"
  else
    upd_buf i (fun b => b <| b_flags ::= fun fl => Z.lor fl B_DIRTY |>);;
    iderw i.

(** Unlinking buffer [i] and putting it first. *)
Definition to_front (i : nat) (l : list nat) : list nat := i :: filter (fun j => j <> i) l.

Definition brelse (i : nat) : K unit :=
  h ← holdingsleep (SL_buf i);
  if negb h then panic "brelse"
  else
    releasesleep (SL_buf i);;
    acquire bcache_lock;;
    upd_buf i (fun b => b <| b_refcnt ::= fun r => u32 (r - 1) |>);;
    b ← buf_at i;
    mwhen (b_refcnt b =? 0) (fsmod (fun f => f <| lru ::= to_front i |>));;
    release bcache_lock.
