(* ===== verification/Log.v ===== *)
(** The write-ahead log: log.c, with [readsb] of fs.c, and the layout of words in
    disk blocks. *)
From stdpp Require Import base tactics list numbers strings gmap.
From S2P Require Import Prelude CString FsTypes State Spinlock Console Kalloc Vm Sched Args Sleeplock Ide Bio.

#[local] Open Scope Z_scope.

(** ** Words in a block of bytes *)
Definition byte_at (d : list Z) (i : nat) : Z := default 0 (d !! i).
Definition rd16 (d : list Z) (o : nat) : Z := byte_at d o + 2^8 * byte_at d (o + 1).
Definition rd32 (d : list Z) (o : nat) : Z := rd16 d o + 2^16 * rd16 d (o + 2).
(** [l] stored over the bytes from [o] on. *)
Definition splice (o : nat) (l d : list Z) : list Z := take o d ++ l ++ drop (o + length l) d.
Definition le16 (v : Z) : list Z := [v mod 2^8; v / 2^8 mod 2^8].
Definition le32 (v : Z) : list Z := le16 v ++ le16 (v / 2^16).
Definition wr32 (o : nat) (v : Z) (d : list Z) : list Z := splice o (le32 v) d.
(** A [short]. *)
Definition i16 (v : Z) : Z := (v + 2^15) mod 2^16 - 2^15.

Definition upd_log (g : log_t -> log_t) : K unit := fsmod (fun f => f <| logst ::= g |>).

Section log.
Context {fl : Fuel}.

(** ** fs.c: [readsb] *)
Definition decode_sb (d : list Z) : superblock :=
  Superblock (rd32 d 0) (rd32 d 4) (rd32 d 8) (rd32 d 12) (rd32 d 16) (rd32 d 20) (rd32 d 24).

Definition readsb (dev : Z) : K superblock :=
  bp ← bread dev 1;
  b ← buf_at bp;
  brelse bp;;
  mret (decode_sb (b_data b)).

(** ** log.c *)

(** [log.lh.block[i]]; the array has [LOGSIZE] elements. *)
Definition lh_get (i : nat) : K Z :=
  l ← fsget logst;
  match lh_block l !! i with Some b => mret b | None => fault "log.lh.block" end.
Definition lh_set (i : nat) (v : Z) : K unit :=
  l ← fsget logst;
  if (i <? length (lh_block l))%nat then upd_log (fun l => l <| lh_block ::= <[i := v]> |>)
  else fault "log.lh.block".

(** [for(tail = 0; tail < log.lh.n; tail++)] *)
Definition for_log (body : nat -> K unit) : K unit :=
  l ← fsget logst;
  for_all (seq 0 (Z.to_nat (lh_n l))) body.

(** Copying one block's data into another buffer. *)
Definition copy_block (dst src : nat) : K unit :=
  b ← buf_at src;
  upd_buf dst (fun d => d <| b_data := b_data b |>).

Definition install_trans : K unit :=
  for_log (fun t =>
    l ← fsget logst;
    lbuf ← bread (l_dev l) (u32 (l_start l + Z.of_nat t + 1));
    bno ← lh_get t;
    dbuf ← bread (l_dev l) (u32 bno);
    copy_block dbuf lbuf;;
    bwrite dbuf;;
    brelse lbuf;;
    brelse dbuf).

Definition read_head : K unit :=
  l ← fsget logst;
  bp ← bread (l_dev l) (u32 (l_start l));
  b ← buf_at bp;
  upd_log (fun l => l <| lh_n := i32 (rd32 (b_data b) 0) |>);;
  for_log (fun i => lh_set i (i32 (rd32 (b_data b) (4 + 4 * i))));;
  brelse bp.

Definition write_head : K unit :=
  l ← fsget logst;
  bp ← bread (l_dev l) (u32 (l_start l));
  l ← fsget logst;
  upd_buf bp (fun b => b <| b_data ::= wr32 0 (lh_n l) |>);;
  for_log (fun i => v ← lh_get i; upd_buf bp (fun b => b <| b_data ::= wr32 (4 + 4 * i) v |>));;
  bwrite bp;;
  brelse bp.

Definition recover_from_log : K unit :=
  read_head;;
  install_trans;;
  upd_log (fun l => l <| lh_n := 0 |>);;
  write_head.

Definition initlog (dev : Z) : K unit :=
  if BSIZE <=? 4 * (1 + LOGSIZE) then panic "initlog: too big logheader"
  else
    initlock log_lock "log";;
    sb ← readsb dev;
    upd_log (fun l => l <| l_start := i32 (sb_logstart sb) |> <| l_size := i32 (sb_nlog sb) |>
      <| l_dev := dev |>);;
    recover_from_log.

(** [while(1)]: [fuel] bounds the number of times the caller sleeps. *)
Fixpoint begin_op_loop (fuel : nat) : K unit :=
  l ← fsget logst;
  if l_committing l || (LOGSIZE <? lh_n l + (l_outstanding l + 1) * MAXOPBLOCKS) then
    match fuel with
    | O => nofuel
    | S f => sleep ch_log log_lock;; begin_op_loop f
    end
  else
    upd_log (fun l => l <| l_outstanding ::= Z.add 1 |>);;
    release log_lock.
Definition begin_op : K unit := acquire log_lock;; begin_op_loop wakeups.

Definition write_log : K unit :=
  for_log (fun t =>
    l ← fsget logst;
    dst ← bread (l_dev l) (u32 (l_start l + Z.of_nat t + 1));
    bno ← lh_get t;
    src ← bread (l_dev l) (u32 bno);
    copy_block dst src;;
    bwrite dst;;
    brelse src;;
    brelse dst).

Definition commit : K unit :=
  l ← fsget logst;
  mwhen (0 <? lh_n l)
    (write_log;;
     write_head;;
     install_trans;;
     upd_log (fun l => l <| lh_n := 0 |>);;
     write_head).

Definition end_op : K unit :=
  acquire log_lock;;
  upd_log (fun l => l <| l_outstanding ::= Z.add (-1) |>);;
  l ← fsget logst;
  if l_committing l then panic "log.committing"
  else
    let do_commit := l_outstanding l =? 0 in
    (if do_commit then upd_log (fun l => l <| l_committing := true |>) else wakeup ch_log);;
    release log_lock;;
    mwhen do_commit
      (commit;;
       acquire log_lock;;
       upd_log (fun l => l <| l_committing := false |>);;
       wakeup ch_log;;
       release log_lock).

(** The index of [blockno] among the first [n] logged blocks, or [n]. *)
Fixpoint log_index (l : list Z) (n : nat) (blockno : Z) : nat :=
  match n, l with
  | S n', b :: l' => if b =? blockno then O else S (log_index l' n' blockno)
  | _, _ => O
  end.

Definition log_write (bp : nat) : K unit :=
  l ← fsget logst;
  if (LOGSIZE <=? lh_n l) || (l_size l - 1 <=? lh_n l) then panic "too big a transaction"
  else if l_outstanding l <? 1 then panic "log_write outside of trans"
  else
    acquire log_lock;;
    l ← fsget logst;
    b ← buf_at bp;
    let i := log_index (lh_block l) (Z.to_nat (lh_n l)) (i32 (b_blockno b)) in
    lh_set i (i32 (b_blockno b));;
    mwhen (Z.of_nat i =? lh_n l) (upd_log (fun l => l <| lh_n ::= Z.add 1 |>));;
    upd_buf bp (fun b => b <| b_flags ::= fun fl => Z.lor fl B_DIRTY |>);;
    release log_lock.
End log.
