(* ===== verification/Fs.v ===== *)
(** The file system: fs.c (blocks, inodes, directories, path names).

    A path is its bytes without the final NUL. [readi] returns the bytes that the
    code copies to [dst], [writei] takes the bytes at [src]. Devices are reached
    through the table [devsw], an interface. *)
From stdpp Require Import base tactics list numbers strings gmap.
From S2P Require Import Prelude CString FsTypes State Spinlock Console Kalloc Vm Sched Process Args Sleeplock Ide Bio Log.

#[local] Open Scope Z_scope.

(** file.h: [devsw[major]]; [None] where there is no function. A read gives the
    bytes read, or [None] for -1. *)
Class Devsw := {
  dev_read : Z -> option (nat -> Z -> K (option (list Z)));
  dev_write : Z -> option (nat -> list Z -> K Z)
}.

Section fs.
Context {fl : Fuel}.

(** ** Blocks *)
Definition bzero (dev bno : Z) : K unit :=
  bp ← bread dev bno;
  upd_buf bp (fun b => b <| b_data := zero_block |>);;
  log_write bp;;
  brelse bp.

Definition BBLOCK (b : Z) (sb : superblock) : Z := b / BPB + sb_bmapstart sb.
Definition IBLOCK (i : Z) (sb : superblock) : Z := i / IPB + sb_inodestart sb.

(** [bp->data[bi/8] & (1 << (bi % 8))] *)
Definition bit_used (d : list Z) (bi : Z) : bool :=
  negb (Z.land (byte_at d (Z.to_nat (bi / 8))) (Z.shiftl 1 (bi mod 8)) =? 0).
Definition set_bit (bi : Z) (d : list Z) : list Z :=
  alter (fun c => Z.lor c (Z.shiftl 1 (bi mod 8))) (Z.to_nat (bi / 8)) d.
Definition clear_bit (bi : Z) (d : list Z) : list Z :=
  alter (fun c => Z.land c (Z.lnot (Z.shiftl 1 (bi mod 8)))) (Z.to_nat (bi / 8)) d.

(** The inner loop of [balloc]: the first free bit from [bi] on, among [n]. *)
Fixpoint free_bit (d : list Z) (bi : Z) (n : nat) : option Z :=
  match n with
  | O => None
  | S n' => if bit_used d bi then free_bit d (bi + 1) n' else Some bi
  end.

Definition balloc (dev : Z) : K Z :=
  sb ← fsget sblk;
  r ← for_each ((fun k => Z.of_nat k * BPB) <$> seq 0 (Z.to_nat ((sb_size sb + BPB - 1) / BPB))) (fun b =>
    bp ← bread dev (BBLOCK b sb);
    bb ← buf_at bp;
    match free_bit (b_data bb) 0 (Z.to_nat (Z.min BPB (sb_size sb - b))) with
    | Some bi =>
        upd_buf bp (fun b => b <| b_data ::= set_bit bi |>);;
        log_write bp;;
        brelse bp;;
        bzero dev (b + bi);;
        mret (Some (b + bi))
    | None => brelse bp;; mret None
    end);
  match r with
  | Some a => mret a
  | None => panic "balloc: out of blocks"
  end.

Definition bfree (dev b : Z) : K unit :=
  sb ← fsget sblk;
  bp ← bread dev (BBLOCK b sb);
  bb ← buf_at bp;
  let bi := b mod BPB in
  if negb (bit_used (b_data bb) bi) then panic "freeing free block"
  else
    upd_buf bp (fun b => b <| b_data ::= clear_bit bi |>);;
    log_write bp;;
    brelse bp.

(** ** Inodes *)
Definition iinit (dev : Z) : K unit :=
  initlock icache_lock "icache";;
  for_all (seq 0 NINODE) (fun i => initsleeplock (SL_inode i) "inode");;
  sb ← readsb dev;
  fsmod (fun f => f <| sblk := sb |>);;
  cprintf ("sb: size %d nblocks %d ninodes %d nlog %d logstart %d inodestart %d bmap start %d" +:+ nl)
    [AInt (i32 (sb_size sb)); AInt (i32 (sb_nblocks sb)); AInt (i32 (sb_ninodes sb));
     AInt (i32 (sb_nlog sb)); AInt (i32 (sb_logstart sb)); AInt (i32 (sb_inodestart sb));
     AInt (i32 (sb_bmapstart sb))].

(** The in-core inode [iget] uses: a cached one, else the first free entry. *)
Fixpoint find_inode (ok : inode -> bool) (l : list inode) (i : nat) : option nat :=
  match l with
  | [] => None
  | ip :: l' => if ok ip then Some i else find_inode ok l' (S i)
  end.

Definition iget (dev inum : Z) : K nat :=
  acquire icache_lock;;
  l ← fsget inodes;
  match find_inode (fun ip => (0 <? i_ref ip) && (i_dev ip =? dev) && (i_inum ip =? inum)) l 0 with
  | Some i =>
      upd_inode i (fun ip => ip <| i_ref ::= Z.add 1 |>);;
      release icache_lock;;
      mret i
  | None =>
      match find_inode (fun ip => i_ref ip =? 0) l 0 with
      | None => panic "iget: no inodes"
      | Some i =>
          upd_inode i (fun ip => ip <| i_dev := dev |> <| i_inum := inum |> <| i_ref := 1 |>
            <| i_valid := false |>);;
          release icache_lock;;
          mret i
      end
  end.

(** The dinode [k] of a block, and its store. *)
Definition dinode_off (inum : Z) : nat := Z.to_nat (inum mod IPB * sizeof_dinode).
Definition read_dinode (d : list Z) (o : nat) : dinode :=
  Dinode (i16 (rd16 d o)) (i16 (rd16 d (o + 2))) (i16 (rd16 d (o + 4))) (i16 (rd16 d (o + 6)))
    (rd32 d (o + 8)) ((fun k => rd32 d (o + 12 + 4 * k)) <$> seq 0 13).
Definition encode_dinode (x : dinode) : list Z :=
  le16 (d_type x) ++ le16 (d_major x) ++ le16 (d_minor x) ++ le16 (d_nlink x) ++
  le32 (d_size x) ++ concat (le32 <$> d_addrs x).
Definition write_dinode (o : nat) (x : dinode) (d : list Z) : list Z := splice o (encode_dinode x) d.

Definition ialloc (dev type : Z) : K nat :=
  sb ← fsget sblk;
  r ← for_each (Z.of_nat <$> seq 1 (Z.to_nat (sb_ninodes sb - 1))) (fun inum =>
    bp ← bread dev (IBLOCK inum sb);
    b ← buf_at bp;
    if d_type (read_dinode (b_data b) (dinode_off inum)) =? 0 then
      upd_buf bp (fun b => b <| b_data ::=
        write_dinode (dinode_off inum) (Dinode type 0 0 0 0 (replicate 13 0)) |>);;
      log_write bp;;
      brelse bp;;
      i ← iget dev inum;
      mret (Some i)
    else brelse bp;; mret None);
  match r with
  | Some i => mret i
  | None => panic "ialloc: no inodes"
  end.

Definition iupdate (i : nat) : K unit :=
  sb ← fsget sblk;
  ip ← inode_at i;
  bp ← bread (i_dev ip) (IBLOCK (i_inum ip) sb);
  ip ← inode_at i;
  upd_buf bp (fun b => b <| b_data ::= write_dinode (dinode_off (i_inum ip))
    (Dinode (i_type ip) (i_major ip) (i_minor ip) (i_nlink ip) (i_size ip) (i_addrs ip)) |>);;
  log_write bp;;
  brelse bp.

Definition idup (oi : option nat) : K (option nat) :=
  acquire icache_lock;;
  match oi with
  | None => fault "idup: null inode"
  | Some i =>
      upd_inode i (fun ip => ip <| i_ref ::= Z.add 1 |>);;
      release icache_lock;;
      mret (Some i)
  end.

Definition ilock (i : nat) : K unit :=
  ip ← inode_at i;
  if i_ref ip <? 1 then panic "ilock"
  else
    acquiresleep (SL_inode i);;
    ip ← inode_at i;
    mwhen (negb (i_valid ip))
      (sb ← fsget sblk;
       bp ← bread (i_dev ip) (IBLOCK (i_inum ip) sb);
       b ← buf_at bp;
       let x := read_dinode (b_data b) (dinode_off (i_inum ip)) in
       upd_inode i (fun ip => ip <| i_type := d_type x |> <| i_major := d_major x |>
         <| i_minor := d_minor x |> <| i_nlink := d_nlink x |> <| i_size := d_size x |>
         <| i_addrs := d_addrs x |>);;
       brelse bp;;
       upd_inode i (fun ip => ip <| i_valid := true |>);;
       ip ← inode_at i;
       if i_type ip =? 0 then panic "ilock: no type" else mret tt).

Definition iunlock (i : nat) : K unit :=
  h ← holdingsleep (SL_inode i);
  ip ← inode_at i;
  if negb h || (i_ref ip <? 1) then panic "iunlock"
  else releasesleep (SL_inode i).

(** *** Contents *)
Definition addr_at (ip : inode) (n : Z) : Z := default 0 (i_addrs ip !! Z.to_nat n).
Definition set_addr (i : nat) (n v : Z) : K unit :=
  upd_inode i (fun ip => ip <| i_addrs ::= <[Z.to_nat n := v]> |>).

(** [if((addr = ip->addrs[n]) == 0) ip->addrs[n] = addr = balloc(ip->dev)] *)
Definition addr_or_alloc (i : nat) (n : Z) : K Z :=
  ip ← inode_at i;
  if addr_at ip n =? 0 then
    a ← balloc (i_dev ip);
    set_addr i n a;;
    mret a
  else mret (addr_at ip n).

Definition bmap (i : nat) (bn : Z) : K Z :=
  if bn <? NDIRECT then addr_or_alloc i bn
  else
    let bn := bn - NDIRECT in
    if bn <? NINDIRECT then
      addr ← addr_or_alloc i NDIRECT;
      ip ← inode_at i;
      bp ← bread (i_dev ip) addr;
      b ← buf_at bp;
      let o := Z.to_nat (4 * bn) in
      if rd32 (b_data b) o =? 0 then
        a ← balloc (i_dev ip);
        upd_buf bp (fun b => b <| b_data ::= wr32 o a |>);;
        log_write bp;;
        brelse bp;;
        mret a
      else
        brelse bp;;
        mret (rd32 (b_data b) o)
    else panic "bmap: out of range".

Definition itrunc (i : nat) : K unit :=
  for_all (seq 0 (Z.to_nat NDIRECT)) (fun k =>
    ip ← inode_at i;
    mwhen (negb (addr_at ip (Z.of_nat k) =? 0))
      (bfree (i_dev ip) (addr_at ip (Z.of_nat k));;
       set_addr i (Z.of_nat k) 0));;
  ip ← inode_at i;
  mwhen (negb (addr_at ip NDIRECT =? 0))
    (bp ← bread (i_dev ip) (addr_at ip NDIRECT);
     for_all (seq 0 (Z.to_nat NINDIRECT)) (fun j =>
       b ← buf_at bp;
       mwhen (negb (rd32 (b_data b) (4 * j) =? 0)) (bfree (i_dev ip) (rd32 (b_data b) (4 * j))));;
     brelse bp;;
     ip ← inode_at i;
     bfree (i_dev ip) (addr_at ip NDIRECT);;
     set_addr i NDIRECT 0);;
  upd_inode i (fun ip => ip <| i_size := 0 |>);;
  iupdate i.

Definition iput (oi : option nat) : K unit :=
  match oi with
  | None => fault "iput: null inode"
  | Some i =>
      acquiresleep (SL_inode i);;
      ip ← inode_at i;
      mwhen (i_valid ip && (i_nlink ip =? 0))
        (acquire icache_lock;;
         ip ← inode_at i;
         let r := i_ref ip in
         release icache_lock;;
         mwhen (r =? 1)
           (itrunc i;;
            upd_inode i (fun ip => ip <| i_type := 0 |>);;
            iupdate i;;
            upd_inode i (fun ip => ip <| i_valid := false |>)));;
      releasesleep (SL_inode i);;
      acquire icache_lock;;
      upd_inode i (fun ip => ip <| i_ref ::= Z.add (-1) |>);;
      release icache_lock
  end.

Definition iunlockput (i : nat) : K unit := iunlock i;; iput (Some i).

(** [struct stat]: type, dev, ino, nlink, size. *)
Definition stati (i : nat) : K (Z * Z * Z * Z * Z) :=
  ip ← inode_at i;
  mret (i_type ip, i_dev ip, i_inum ip, i_nlink ip, i_size ip).

Section content.
Context {dv : Devsw}.

(** [for(tot=0; tot<n; tot+=m, off+=m, dst+=m)]: every iteration moves at least one
    byte, so [n] iterations are enough. *)
Fixpoint readi_loop (fuel : nat) (i : nat) (tot off n : Z) : K (list Z) :=
  if tot <? n then
    match fuel with
    | O => nofuel
    | S f =>
        a ← bmap i (off / BSIZE);
        ip ← inode_at i;
        bp ← bread (i_dev ip) a;
        let m := Z.min (n - tot) (BSIZE - off mod BSIZE) in
        b ← buf_at bp;
        let bytes := take (Z.to_nat m) (drop (Z.to_nat (off mod BSIZE)) (b_data b)) in
        brelse bp;;
        rest ← readi_loop f i (tot + m) (off + m) n;
        mret (bytes ++ rest)
    end
  else mret [].

Definition readi (i : nat) (off n : Z) : K (option (list Z)) :=
  ip ← inode_at i;
  if i_type ip =? T_DEV then
    if (i_major ip <? 0) || (NDEV <=? i_major ip) then mret None
    else match dev_read (i_major ip) with
      | None => mret None
      | Some rd => rd i n
      end
  else if (i_size ip <? off) || (u32 (off + n) <? off) then mret None
  else
    let n := if i_size ip <? u32 (off + n) then i_size ip - off else n in
    l ← readi_loop (Z.to_nat n) i 0 off n;
    mret (Some l).

Fixpoint writei_loop (fuel : nat) (i : nat) (src : list Z) (tot off n : Z) : K Z :=
  if tot <? n then
    match fuel with
    | O => nofuel
    | S f =>
        a ← bmap i (off / BSIZE);
        ip ← inode_at i;
        bp ← bread (i_dev ip) a;
        let m := Z.min (n - tot) (BSIZE - off mod BSIZE) in
        upd_buf bp (fun b => b <| b_data ::=
          splice (Z.to_nat (off mod BSIZE)) (take (Z.to_nat m) src) |>);;
        log_write bp;;
        brelse bp;;
        writei_loop f i (drop (Z.to_nat m) src) (tot + m) (off + m) n
    end
  else mret off.

(** [src] holds the [n] bytes to write. *)
Definition writei (i : nat) (src : list Z) (off n : Z) : K Z :=
  ip ← inode_at i;
  if i_type ip =? T_DEV then
    if (i_major ip <? 0) || (NDEV <=? i_major ip) then mret (-1)
    else match dev_write (i_major ip) with
      | None => mret (-1)
      | Some wr => wr i src
      end
  else if (i_size ip <? off) || (u32 (off + n) <? off) then mret (-1)
  else if MAXFILE * BSIZE <? u32 (off + n) then mret (-1)
  else
    off' ← writei_loop (Z.to_nat n) i src 0 off n;
    ip ← inode_at i;
    mwhen ((0 <? n) && (i_size ip <? off'))
      (upd_inode i (fun ip => ip <| i_size := off' |>);;
       iupdate i);;
    mret n.

(** ** Directories *)
Definition namecmp (s t : list Z) : K Z := of_option "namecmp" (strncmp s t DIRSIZ).

(** A directory entry: the inode number and the 14 bytes of the name. *)
Definition de_inum (de : list Z) : Z := rd16 de 0.
Definition de_name (de : list Z) : list Z := drop 2 de.

(** The offsets [0, 16, ...] below the size of a directory. *)
Definition de_offsets (size : Z) : list Z :=
  (fun k => Z.of_nat k * sizeof_dirent) <$> seq 0 (Z.to_nat ((size + sizeof_dirent - 1) / sizeof_dirent)).

Definition read_dirent (dp : nat) (off : Z) (msg : string) : K (list Z) :=
  r ← readi dp off sizeof_dirent;
  match r with
  | Some de => if (length de =? Z.to_nat sizeof_dirent)%nat then mret de else panic msg
  | None => panic msg
  end.

(** The inode of the entry and its offset. *)
Definition dirlookup (dp : nat) (nm : list Z) : K (option (nat * Z)) :=
  d ← inode_at dp;
  if negb (i_type d =? T_DIR) then panic "dirlookup not DIR"
  else
    for_each (de_offsets (i_size d)) (fun off =>
      de ← read_dirent dp off "dirlookup read";
      if de_inum de =? 0 then mret None
      else
        c ← namecmp nm (de_name de);
        if c =? 0 then
          d ← inode_at dp;
          i ← iget (i_dev d) (de_inum de);
          mret (Some (i, off))
        else mret None).

Definition dirlink (dp : nat) (nm : list Z) (inum : Z) : K Z :=
  r ← dirlookup dp nm;
  match r with
  | Some (i, _) => iput (Some i);; mret (-1)
  | None =>
      d ← inode_at dp;
      r ← for_each (de_offsets (i_size d)) (fun off =>
        de ← read_dirent dp off "dirlink read";
        mret (if de_inum de =? 0 then Some off else None));
      let off := default (Z.of_nat (length (de_offsets (i_size d))) * sizeof_dirent) r in
      nm' ← of_option "dirlink: name" (strncpy (replicate DIRSIZ 0) nm DIRSIZ);
      w ← writei dp (le16 inum ++ nm') off sizeof_dirent;
      if negb (w =? sizeof_dirent) then panic "dirlink" else mret 0
  end.

(** ** Paths *)
Definition slash : Z := 47.
Fixpoint skip_slashes (path : list Z) : list Z :=
  match path with
  | c :: rest => if c =? slash then skip_slashes rest else path
  | [] => []
  end.
(** The characters before the next slash, and the rest. *)
Fixpoint path_elem (path : list Z) : list Z * list Z :=
  match path with
  | c :: rest => if c =? slash then ([], path)
                 else let '(e, r) := path_elem rest in (c :: e, r)
  | [] => ([], [])
  end.

(** The rest of the path and the name buffer; [None] when no element is left. *)
Definition skipelem (path nm : list Z) : option (list Z * list Z) :=
  match skip_slashes path with
  | [] => None
  | path' =>
      let '(e, rest) := path_elem path' in
      let nm' := if (DIRSIZ <=? length e)%nat then splice 0 (take DIRSIZ e) nm
                 else splice 0 (e ++ [0]) nm in
      Some (skip_slashes rest, nm')
  end.

(** The loop of [namex]: every element shortens the path. *)
Fixpoint namex_loop (fuel : nat) (ip : nat) (path nm : list Z) (nameiparent : bool) :
    K (option nat * list Z) :=
  match skipelem path nm with
  | None =>
      if nameiparent then iput (Some ip);; mret (None, nm)
      else mret (Some ip, nm)
  | Some (path', nm') =>
      match fuel with
      | O => nofuel
      | S f =>
          ilock ip;;
          x ← inode_at ip;
          if negb (i_type x =? T_DIR) then iunlockput ip;; mret (None, nm')
          else if nameiparent && bool_decide (path' = []) then iunlock ip;; mret (Some ip, nm')
          else
            r ← dirlookup ip nm';
            match r with
            | None => iunlockput ip;; mret (None, nm')
            | Some (next, _) => iunlockput ip;; namex_loop f next path' nm' nameiparent
            end
      end
  end.

Definition namex (path : list Z) (nameiparent : bool) (nm : list Z) : K (option nat * list Z) :=
  ip ← (if decide (head path = Some slash) then i ← iget ROOTDEV ROOTINO; mret (Some i)
        else j ← curproc; p ← proc_at j; idup (cwd p));
  match ip with
  | None => fault "namex"
  | Some i => namex_loop (length path) i path nm nameiparent
  end.

Definition namei (path : list Z) : K (option nat) :=
  r ← namex path false (replicate DIRSIZ 0); mret r.1.
(** The parent and the last element of the path. *)
Definition nameiparent (path : list Z) : K (option (nat * list Z)) :=
  r ← namex path true (replicate DIRSIZ 0);
  mret (i ← r.1; Some (i, r.2)).
End content.
End fs.
