(* ===== verification/Pipe.v ===== *)
(** Pipes: [pipeclose], [pipewrite] and [piperead] of pipe.c. A pipe is known by
    the address of its page; [p_data] is the ring buffer. *)
From stdpp Require Import base tactics list numbers strings gmap.
From S2P Require Import Prelude CString FsTypes State Spinlock Console Kalloc Vm Sched Args Sleeplock.

#[local] Open Scope Z_scope.

Definition pipe_at (p : Z) : K pipe :=
  m ← fsget pipes;
  match m !! p with Some x => mret x | None => fault "pipe" end.
Definition upd_pipe (p : Z) (g : pipe -> pipe) : K unit := fsmod (fun f => f <| pipes ::= alter g p |>).

Definition pipeclose (p : Z) (writable : bool) : K unit :=
  acquire (pipe_lock p);;
  (if writable then
     upd_pipe p (fun x => x <| p_writeopen := false |>);; wakeup (ch_pipe_r p)
   else
     upd_pipe p (fun x => x <| p_readopen := false |>);; wakeup (ch_pipe_w p));;
  x ← pipe_at p;
  if negb (p_readopen x) && negb (p_writeopen x) then
    release (pipe_lock p);;
    fsmod (fun f => f <| pipes ::= delete p |>);;
    kfree p
  else release (pipe_lock p).

(** [p->nwrite == p->nread + PIPESIZE] *)
Definition pipe_full (x : pipe) : bool := p_nwrite x =? u32 (p_nread x + PIPESIZE).

(** [p->data[p->nwrite++ % PIPESIZE] = c] *)
Definition pipe_push (c : Z) (x : pipe) : pipe :=
  x <| p_data ::= <[Z.to_nat (p_nwrite x mod PIPESIZE) := c]> |> <| p_nwrite := u32 (p_nwrite x + 1) |>.
(** [p->data[p->nread++ % PIPESIZE]] *)
Definition pipe_next (x : pipe) : Z := default 0 (p_data x !! Z.to_nat (p_nread x mod PIPESIZE)).
Definition pipe_pop (x : pipe) : pipe := x <| p_nread := u32 (p_nread x + 1) |>.

(** Waiting for room: [false] if the writer has to give up. *)
Fixpoint pipewrite_wait (fuel : nat) (p : Z) : K bool :=
  x ← pipe_at p;
  if pipe_full x then
    j ← (if negb (p_readopen x) then mret true else j ← curproc; q ← proc_at j; mret (killed q));
    if (j : bool) then mret false
    else match fuel with
      | O => nofuel
      | S f =>
          wakeup (ch_pipe_r p);;
          sleep (ch_pipe_w p) (pipe_lock p);;
          pipewrite_wait f p
      end
  else mret true.

Fixpoint pipewrite_loop `{Fuel} (p : Z) (src : list Z) : K bool :=
  match src with
  | [] => mret true
  | c :: rest =>
      ok ← pipewrite_wait wakeups p;
      if (ok : bool) then upd_pipe p (pipe_push c);; pipewrite_loop p rest
      else mret false
  end.

Definition pipewrite `{Fuel} (p : Z) (src : list Z) : K Z :=
  acquire (pipe_lock p);;
  ok ← pipewrite_loop p src;
  if (ok : bool) then
    wakeup (ch_pipe_r p);;
    release (pipe_lock p);;
    mret (Z.of_nat (length src))
  else release (pipe_lock p);; mret (-1).

(** Waiting for data: [false] if the reader was killed. *)
Fixpoint piperead_wait (fuel : nat) (p : Z) : K bool :=
  x ← pipe_at p;
  if (p_nread x =? p_nwrite x) && p_writeopen x then
    j ← curproc;
    q ← proc_at j;
    if killed q then mret false
    else match fuel with
      | O => nofuel
      | S f => sleep (ch_pipe_r p) (pipe_lock p);; piperead_wait f p
      end
  else mret true.

Fixpoint piperead_loop (n : nat) (p : Z) : K (list Z) :=
  match n with
  | O => mret []
  | S n' =>
      x ← pipe_at p;
      if p_nread x =? p_nwrite x then mret []
      else
        upd_pipe p pipe_pop;;
        rest ← piperead_loop n' p;
        mret (pipe_next x :: rest)
  end.

(** The bytes read, or [None] for -1. *)
Definition piperead `{Fuel} (p n : Z) : K (option (list Z)) :=
  acquire (pipe_lock p);;
  ok ← piperead_wait wakeups p;
  if (ok : bool) then
    l ← piperead_loop (Z.to_nat n) p;
    wakeup (ch_pipe_w p);;
    release (pipe_lock p);;
    mret (Some l)
  else release (pipe_lock p);; mret None.
