(* ===== verification/File.v ===== *)
(** Open files: file.c, and [pipealloc] of pipe.c. *)
From stdpp Require Import base tactics list numbers strings gmap.
From S2P Require Import Prelude CString FsTypes State Spinlock Console Kalloc Vm Sched Process Args Sleeplock Ide Bio Log Fs Pipe.

#[local] Open Scope Z_scope.

Definition file_at (i : nat) : K file := fsget (fun f => files f !!! i).
Definition upd_file (i : nat) (g : file -> file) : K unit := fsmod (fun f => f <| files ::= alter g i |>).

Definition fileinit : K unit := initlock ftable_lock "ftable".

Definition filealloc : K (option nat) :=
  acquire ftable_lock;;
  r ← for_each (seq 0 NFILE) (fun i =>
    f ← file_at i;
    if f_ref f =? 0 then
      upd_file i (fun f => f <| f_ref := 1 |>);;
      release ftable_lock;;
      mret (Some i)
    else mret None);
  match r with
  | Some i => mret (Some i)
  | None => release ftable_lock;; mret None
  end.

Definition filedup (i : nat) : K nat :=
  acquire ftable_lock;;
  f ← file_at i;
  if f_ref f <? 1 then panic "filedup"
  else
    upd_file i (fun f => f <| f_ref ::= Z.add 1 |>);;
    release ftable_lock;;
    mret i.

Section file.
Context {fl : Fuel} {dv : Devsw}.

Definition fileclose (i : nat) : K unit :=
  acquire ftable_lock;;
  f ← file_at i;
  if f_ref f <? 1 then panic "fileclose"
  else
    upd_file i (fun f => f <| f_ref ::= Z.add (-1) |>);;
    ff ← file_at i;
    if 0 <? f_ref ff then release ftable_lock
    else
      upd_file i (fun f => f <| f_ref := 0 |> <| f_type := FD_NONE |>);;
      release ftable_lock;;
      match f_type ff with
      | FD_PIPE => pipeclose (f_pipe ff) (f_writable ff)
      | FD_INODE => begin_op;; iput (f_ip ff);; end_op
      | FD_NONE => mret tt
      end.

(** A null [f->ip]. *)
Definition the_inode (o : option nat) (msg : string) : K nat :=
  match o with Some i => mret i | None => panic msg end.

Definition filestat (i : nat) : K (option (Z * Z * Z * Z * Z)) :=
  f ← file_at i;
  match f_type f with
  | FD_INODE =>
      ip ← the_inode (f_ip f) "ilock";
      ilock ip;;
      st ← stati ip;
      iunlock ip;;
      mret (Some st)
  | _ => mret None
  end.

(** The bytes read, or [None] for -1. *)
Definition fileread (i : nat) (n : Z) : K (option (list Z)) :=
  f ← file_at i;
  if negb (f_readable f) then mret None
  else match f_type f with
    | FD_PIPE => piperead (f_pipe f) n
    | FD_INODE =>
        ip ← the_inode (f_ip f) "ilock";
        ilock ip;;
        f ← file_at i;
        r ← readi ip (f_off f) (u32 n);
        (match r with
         | Some l => mwhen (0 <? Z.of_nat (length l))
             (upd_file i (fun f => f <| f_off ::= fun o => u32 (o + Z.of_nat (length l)) |>))
         | None => mret tt
         end);;
        iunlock ip;;
        mret r
    | FD_NONE => panic "fileread"
    end.

(** The most bytes written in one transaction. *)
Definition filewrite_max : Z := (MAXOPBLOCKS - 1 - 1 - 2) / 2 * 512.

(** [while(i < n)]: every iteration writes at least one byte; [written] is [i]. *)
Fixpoint filewrite_loop (fuel : nat) (i ip : nat) (src : list Z) (written n : Z) : K Z :=
  if written <? n then
    match fuel with
    | O => nofuel
    | S k =>
        let n1 := Z.min (n - written) filewrite_max in
        begin_op;;
        ilock ip;;
        f ← file_at i;
        r ← writei ip (take (Z.to_nat n1) src) (f_off f) n1;
        mwhen (0 <? r) (upd_file i (fun f => f <| f_off ::= fun o => u32 (o + r) |>));;
        iunlock ip;;
        end_op;;
        if r <? 0 then mret written
        else if negb (r =? n1) then panic "short filewrite"
        else filewrite_loop k i ip (drop (Z.to_nat n1) src) (written + r) n
    end
  else mret written.

Definition filewrite (i : nat) (src : list Z) : K Z :=
  let n := Z.of_nat (length src) in
  f ← file_at i;
  if negb (f_writable f) then mret (-1)
  else match f_type f with
    | FD_PIPE => pipewrite (f_pipe f) src
    | FD_INODE =>
        ip ← the_inode (f_ip f) "ilock";
        w ← filewrite_loop (length src) i ip src 0 n;
        mret (if w =? n then n else -1)
    | FD_NONE => panic "filewrite"
    end.

(** ** pipe.c: [pipealloc] *)

(** [bad:] with the page and the files allocated so far. *)
Definition pipealloc_bad (p : Z) (f0 f1 : option nat) : K (option (nat * nat)) :=
  mwhen (negb (p =? 0)) (kfree p);;
  (match f0 with Some f => fileclose f | None => mret tt end);;
  (match f1 with Some f => fileclose f | None => mret tt end);;
  mret None.

Definition pipealloc : K (option (nat * nat)) :=
  o0 ← filealloc;
  match o0 with
  | None => pipealloc_bad 0 None None
  | Some f0 =>
      o1 ← filealloc;
      match o1 with
      | None => pipealloc_bad 0 (Some f0) None
      | Some f1 =>
          p ← kalloc;
          if p =? 0 then pipealloc_bad 0 (Some f0) (Some f1)
          else
            fsmod (fun f => f <| pipes ::= <[p := Pipe (replicate 512 0) 0 0 true true]> |>);;
            initlock (pipe_lock p) "pipe";;
            upd_file f0 (fun f => f <| f_type := FD_PIPE |> <| f_readable := true |>
              <| f_writable := false |> <| f_pipe := p |>);;
            upd_file f1 (fun f => f <| f_type := FD_PIPE |> <| f_readable := false |>
              <| f_writable := true |> <| f_pipe := p |>);;
            mret (Some (f0, f1))
      end
  end.
End file.
