(* ===== verification/ConsoleDev.v ===== *)
(** The console as a device: the display and the line discipline of console.c,
    and the serial port of uart.c.

    [screen] keeps the characters given to [consputc]; what [cgaputc] makes of
    them on the display and [uartputc] on the serial line are functions of that
    sequence. The ports are read through the arguments: the input that waits in
    the device is a list of bytes. *)
From stdpp Require Import base tactics list numbers strings gmap.
From Stdlib Require Import Ascii.
From S2P Require Import Prelude CString FsTypes State Spinlock Console Kalloc Vm Sched Process Args Sleeplock Ide Bio Log Fs.

#[local] Open Scope Z_scope.

(** ** The display

    [crt] is the memory of the 25 rows of 80 cells, [pos] the cursor register. *)
Definition BACKSPACE : Z := 0x100.
Definition newline : Z := 10.
Record cga := Cga { crt : list Z; pos : Z }.
#[global] Instance eta_cga : Eta cga := fun x => Cga (crt x) (pos x).

(** Where the cursor goes before scrolling, and the cell that is written. *)
Definition cga_advance (c : Z) (g : cga) : cga :=
  if c =? newline then g <| pos ::= fun p => p + (80 - Z.rem p 80) |>
  else if c =? BACKSPACE then if 0 <? pos g then g <| pos ::= fun p => p - 1 |> else g
  else g <| crt ::= <[Z.to_nat (pos g) := Z.lor (Z.land c 0xff) 0x0700]> |> <| pos ::= Z.add 1 |>.

(** [memmove(crt, crt+80, sizeof(crt[0])*23*80)]; [memset] to the end of row 23. *)
Definition cga_scroll (g : cga) : cga :=
  let p := pos g - 80 in
  let up := take 1840 (drop 80 (crt g)) ++ drop 1840 (crt g) in
  Cga (take (Z.to_nat p) up ++ replicate (Z.to_nat (24 * 80 - p)) 0 ++ drop 1920 up) p.

Definition cgaputc (c : Z) (g : cga) : option cga :=
  let g := cga_advance c g in
  if (pos g <? 0) || (25 * 80 <? pos g) then None
  else
    let g := if 24 <=? pos g / 80 then cga_scroll g else g in
    Some (g <| crt ::= <[Z.to_nat (pos g) := Z.lor (ch " ") 0x0700]> |>).

(** The display after a sequence of characters; [None] where [cgaputc] panics. *)
Fixpoint display (out : list Z) (g : cga) : option cga :=
  match out with
  | [] => Some g
  | c :: rest => g' ← cgaputc c g; display rest g'
  end.

(** ** uart.c: the bytes [consputc] sends; [uart] is whether there is a port *)
Definition uartputc (uart : bool) (c : Z) : list Z := if uart then [Z.land c 0xff] else [].
Definition serial (uart : bool) (c : Z) : list Z :=
  if c =? BACKSPACE then uartputc uart 8 ++ uartputc uart (ch " ") ++ uartputc uart 8
  else uartputc uart c.

(** [data] is the byte in the receive register, if there is one. *)
Definition uartgetc (uart : bool) (data : option Z) : K Z :=
  mret (if uart then default (-1) data else -1).

(** ** The line discipline *)
Definition C (c : ascii) : Z := ch c - ch "@".
Definition upd_input (g : input_t -> input_t) : K unit := fsmod (fun f => f <| input ::= g |>).
(** [input.buf[i % INPUT_BUF]] *)
Definition in_at (i : Z) (x : input_t) : Z := default 0 (in_buf x !! Z.to_nat (i mod INPUT_BUF)).

(** One edited character is taken back. *)
Definition rubout : K unit :=
  upd_input (fun x => x <| in_e ::= fun e => u32 (e - 1) |>);;
  consputc BACKSPACE.

(** [while(input.e != input.w && ...)]: at most [INPUT_BUF] characters are edited. *)
Fixpoint kill_line (fuel : nat) : K unit :=
  x ← fsget input;
  if negb (in_e x =? in_w x) && negb (in_at (u32 (in_e x - 1)) x =? newline) then
    match fuel with
    | O => nofuel
    | S f => rubout;; kill_line f
    end
  else mret tt.

(** [default:] of the switch. *)
Definition in_char (c : Z) : K unit :=
  x ← fsget input;
  if negb (c =? 0) && (u32 (in_e x - in_r x) <? INPUT_BUF) then
    let c := if c =? 13 then newline else c in
    upd_input (fun x => x <| in_buf ::= <[Z.to_nat (in_e x mod INPUT_BUF) := Z.land c 0xff]> |>
      <| in_e := u32 (in_e x + 1) |>);;
    consputc c;;
    x ← fsget input;
    mwhen ((c =? newline) || (c =? C "D") || (in_e x =? u32 (in_r x + INPUT_BUF)))
      (upd_input (fun x => x <| in_w := in_e x |>);;
       wakeup ch_input)
  else mret tt.

(** One character of input: whether it asks for a process listing. *)
Definition console_char (c : Z) : K bool :=
  if c =? C "P" then mret true
  else if c =? C "U" then kill_line (Z.to_nat INPUT_BUF);; mret false
  else if (c =? C "H") || (c =? 0x7f) then
    x ← fsget input;
    mwhen (negb (in_e x =? in_w x)) rubout;;
    mret false
  else in_char c;; mret false.

(** [while((c = getc()) >= 0)], with [data] waiting in the device. *)
Fixpoint consoleintr_loop (getc : option Z -> K Z) (data : list Z) (dump : bool) : K bool :=
  c ← getc (head data);
  if c <? 0 then mret dump
  else
    d ← console_char c;
    match data with
    | [] => nofuel
    | _ :: rest => consoleintr_loop getc rest (dump || d)
    end.

Definition consoleintr (getc : option Z -> K Z) (data : list Z) : K unit :=
  acquire cons_lock;;
  dump ← consoleintr_loop getc data false;
  release cons_lock;;
  mwhen dump procdump.

Definition uartintr (uart : bool) (data : list Z) : K unit := consoleintr (uartgetc uart) data.

(** ** Reading and writing the device *)
Section dev.
Context {fl : Fuel}.

(** [while(input.r == input.w)]: [false] if the reader was killed. *)
Fixpoint input_wait (fuel : nat) : K bool :=
  x ← fsget input;
  if in_r x =? in_w x then
    j ← curproc;
    p ← proc_at j;
    if killed p then mret false
    else match fuel with
      | O => nofuel
      | S f => sleep ch_input cons_lock;; input_wait f
      end
  else mret true.

(** [while(n > 0)]: the characters read, or [None] for a killed reader; [some] is
    [n < target]. *)
Fixpoint consoleread_loop (n : nat) (some : bool) : K (option (list Z)) :=
  match n with
  | O => mret (Some [])
  | S n' =>
      ok ← input_wait wakeups;
      if negb ok then mret None
      else
        x ← fsget input;
        let c := in_at (in_r x) x in
        upd_input (fun x => x <| in_r ::= fun r => u32 (r + 1) |>);;
        if c =? C "D" then
          mwhen some (upd_input (fun x => x <| in_r ::= fun r => u32 (r - 1) |>));;
          mret (Some [])
        else if c =? newline then mret (Some [c])
        else
          rest ← consoleread_loop n' true;
          mret (cons c <$> rest)
  end.

Definition consoleread (ip : nat) (n : Z) : K (option (list Z)) :=
  iunlock ip;;
  acquire cons_lock;;
  r ← consoleread_loop (Z.to_nat n) false;
  release cons_lock;;
  ilock ip;;
  mret r.

Definition consolewrite (ip : nat) (buf : list Z) : K Z :=
  iunlock ip;;
  acquire cons_lock;;
  for_all buf (fun c => consputc (Z.land c 0xff));;
  release cons_lock;;
  ilock ip;;
  mret (Z.of_nat (length buf)).

(** [devsw] as [consoleinit] leaves it. *)
#[global] Instance console_devsw : Devsw := {|
  dev_read m := if m =? CONSOLE then Some consoleread else None;
  dev_write m := if m =? CONSOLE then Some consolewrite else None |}.
Definition consoleinit : K unit :=
  initlock cons_lock "console";;
  modify (fun s => s <| cons_locking := true |>).
End dev.
