(* ===== verification/Kbd.v ===== *)
(** The keyboard: kbd.h and kbd.c. *)
From stdpp Require Import base tactics list numbers strings gmap.
From Stdlib Require Import Ascii.
From S2P Require Import Prelude CString FsTypes State Spinlock Console Kalloc Vm Sched Process Args Sleeplock Ide Bio Log Fs ConsoleDev.

#[local] Open Scope Z_scope.

(** ** kbd.h *)
Definition SHIFT : Z := 1.
Definition CTL : Z := 2.
Definition ALT : Z := 4.
Definition CAPSLOCK : Z := 8.
Definition NUMLOCK : Z := 16.
Definition SCROLLLOCK : Z := 32.
Definition E0ESC : Z := 64.

(** An array of 256 bytes from its first elements and its designated ones. *)
Definition table (first : list Z) (designated : list (nat * Z)) : list Z :=
  foldr (fun '(i, v) t => <[i := v]> t) (first ++ replicate (256 - length first) 0) designated.
Definition at_code (t : list Z) (data : Z) : Z := default 0 (t !! Z.to_nat data).

Definition shiftcode : list Z :=
  table [] [(0x1D, CTL); (0x2A, SHIFT); (0x36, SHIFT); (0x38, ALT); (0x9D, CTL); (0xB8, ALT)]%nat.
Definition togglecode : list Z :=
  table [] [(0x3A, CAPSLOCK); (0x45, NUMLOCK); (0x46, SCROLLLOCK)]%nat.

(** The keys after an escape, the same in the three maps but for two. *)
Definition escaped (enter div : Z) : list (nat * Z) :=
  [(0x9C, enter); (0xB5, div); (0xC8, 0xE2%Z); (0xD0, 0xE3%Z); (0xC9, 0xE6%Z); (0xD1, 0xE7%Z);
   (0xCB, 0xE4%Z); (0xCD, 0xE5%Z); (0x97, 0xE0%Z); (0xCF, 0xE1%Z); (0xD2, 0xE8%Z); (0xD3, 0xE9%Z)]%nat.

Definition normalmap : list Z := table
  [0; 27; 49; 50; 51; 52; 53; 54; 55; 56; 57; 48; 45; 61; 8; 9;
   113; 119; 101; 114; 116; 121; 117; 105; 111; 112; 91; 93; 10; 0; 97; 115;
   100; 102; 103; 104; 106; 107; 108; 59; 39; 96; 0; 92; 122; 120; 99; 118;
   98; 110; 109; 44; 46; 47; 0; 42; 0; 32; 0; 0; 0; 0; 0; 0;
   0; 0; 0; 0; 0; 0; 0; 55; 56; 57; 45; 52; 53; 54; 43; 49;
   50; 51; 48; 46; 0; 0; 0; 0] (escaped 10 47).

Definition shiftmap : list Z := table
  [0; 27; 33; 64; 35; 36; 37; 94; 38; 42; 40; 41; 95; 43; 8; 9;
   81; 87; 69; 82; 84; 89; 85; 73; 79; 80; 123; 125; 10; 0; 65; 83;
   68; 70; 71; 72; 74; 75; 76; 58; 34; 126; 0; 124; 90; 88; 67; 86;
   66; 78; 77; 60; 62; 63; 0; 42; 0; 32; 0; 0; 0; 0; 0; 0;
   0; 0; 0; 0; 0; 0; 0; 55; 56; 57; 45; 52; 53; 54; 43; 49;
   50; 51; 48; 46; 0; 0; 0; 0] (escaped 10 47).

(** [C('/')] is -17, as a byte 239. *)
Definition ctlmap : list Z := table
  [0; 0; 0; 0; 0; 0; 0; 0; 0; 0; 0; 0; 0; 0; 0; 0;
   17; 23; 5; 18; 20; 25; 21; 9; 15; 16; 0; 0; 13; 0; 1; 19;
   4; 6; 7; 8; 10; 11; 12; 0; 0; 0; 0; 28; 26; 24; 3; 22;
   2; 14; 13; 0; 0; 239; 0; 0] (escaped 13 239).

Definition charcode (i : Z) : list Z :=
  if i =? 0 then normalmap else if i =? 1 then shiftmap else ctlmap.

(** ** kbd.c *)

(** What a byte from the controller makes of [shift], and the character (0 for
    none). *)
Definition kbd_byte (data shift : Z) : Z * Z :=
  if data =? 0xE0 then (0, Z.lor shift E0ESC)
  else if negb (Z.land data 0x80 =? 0) then
    let data := if negb (Z.land shift E0ESC =? 0) then data else Z.land data 0x7F in
    (0, Z.ldiff shift (Z.lor (at_code shiftcode data) E0ESC))
  else
    let esc := negb (Z.land shift E0ESC =? 0) in
    let data := if esc then Z.lor data 0x80 else data in
    let shift := if esc then Z.ldiff shift E0ESC else shift in
    let shift := Z.lor shift (at_code shiftcode data) in
    let shift := Z.lxor shift (at_code togglecode data) in
    let c := at_code (charcode (Z.land shift (Z.lor CTL SHIFT))) data in
    let c := if negb (Z.land shift CAPSLOCK =? 0) then
               if (97 <=? c) && (c <=? 122) then c + (65 - 97)
               else if (65 <=? c) && (c <=? 90) then c + (97 - 65) else c
             else c in
    (c, shift).

(** [data] is the byte in the controller's buffer, if there is one. *)
Definition kbdgetc (data : option Z) : K Z :=
  match data with
  | None => mret (-1)
  | Some d =>
      shift ← fsget kbd_shift;
      let '(c, shift') := kbd_byte d shift in
      fsmod (fun f => f <| kbd_shift := shift' |>);;
      mret c
  end.

Definition kbdintr (data : list Z) : K unit := consoleintr kbdgetc data.
