(* ===== verification/Exec.v ===== *)
(** Program loading: [loaduvm] of vm.c and exec.c.

    The argument strings are given by their bytes, without the final NUL. *)
From stdpp Require Import base tactics list numbers strings gmap.
From S2P Require Import Prelude CString FsTypes State Spinlock Console Kalloc Vm Sched Process Args Sleeplock Ide Bio Log Fs.

#[local] Open Scope Z_scope.

(** ** elf.h: byte offsets of the fields of [struct elfhdr] and [struct proghdr] *)
Definition ELF_MAGIC : Z := 0x464C457F.
Definition ELF_PROG_LOAD : Z := 1.
Record elfhdr := Elfhdr { elf_magic : Z; elf_entry : Z; elf_phoff : Z; elf_phnum : Z }.
Definition sizeof_elfhdr : Z := 52.
Definition read_elfhdr (b : list Z) : elfhdr :=
  Elfhdr (rd32 b 0) (rd32 b 24) (rd32 b 28) (rd16 b 44).
Record proghdr := Proghdr {
  ph_type : Z; ph_off : Z; ph_vaddr : Z; ph_filesz : Z; ph_memsz : Z
}.
Definition sizeof_proghdr : Z := 32.
Definition read_proghdr (b : list Z) : proghdr :=
  Proghdr (rd32 b 0) (rd32 b 4) (rd32 b 8) (rd32 b 16) (rd32 b 20).

Section exec.
Context {fl : Fuel} {dv : Devsw}.

(** [readi] into a struct: its [n] bytes, or [None] for a short read. *)
Definition readi_struct (ip : nat) (off n : Z) : K (option (list Z)) :=
  r ← readi ip off n;
  mret (match r with
        | Some b => if Z.of_nat (length b) =? n then Some b else None
        | None => None
        end).

(** ** vm.c: [loaduvm] *)
Fixpoint loaduvm_loop (fuel : nat) (pgdir addr : Z) (ip : nat) (offset i sz : Z) : K Z :=
  if i <? sz then
    match fuel with
    | O => nofuel
    | S f =>
        pte ← walkpgdir pgdir (u32 (addr + i)) false;
        if pte =? 0 then panic "loaduvm: address should exist"
        else
          e ← load32 pte;
          let pa := PTE_ADDR e in
          let n := if sz - i <? PGSIZE then sz - i else PGSIZE in
          r ← readi ip (u32 (offset + i)) n;
          match r with
          | None => mret (-1)
          | Some b =>
              set_mem (fun m => st_list m (P2V pa) b);;
              if Z.of_nat (length b) =? n then loaduvm_loop f pgdir addr ip offset (u32 (i + PGSIZE)) sz
              else mret (-1)
          end
    end
  else mret 0.
Definition loaduvm (pgdir addr : Z) (ip : nat) (offset sz : Z) : K Z :=
  if negb (addr mod PGSIZE =? 0) then panic "loaduvm: addr must be page aligned"
  else loaduvm_loop page_fuel pgdir addr ip offset 0 sz.

(** ** exec.c *)

(** [bad:] with the page table and the locked inode there are, if any. *)
Definition exec_bad (pgdir : Z) (ip : option nat) : K Z :=
  mwhen (negb (pgdir =? 0)) (freevm pgdir);;
  (match ip with Some i => iunlockput i;; end_op | None => mret tt end);;
  mret (-1).

(** The loop over the program headers: the size of the image, or [None] for
    [goto bad]; [n] headers are left. *)
Fixpoint load_segments (n : nat) (pgdir : Z) (ip : nat) (off sz : Z) : K (option Z) :=
  match n with
  | O => mret (Some sz)
  | S n' =>
      r ← readi_struct ip (u32 off) sizeof_proghdr;
      match r with
      | None => mret None
      | Some b =>
          let ph := read_proghdr b in
          let off' := i32 (off + sizeof_proghdr) in
          if negb (ph_type ph =? ELF_PROG_LOAD) then load_segments n' pgdir ip off' sz
          else if ph_memsz ph <? ph_filesz ph then mret None
          else if u32 (ph_vaddr ph + ph_memsz ph) <? ph_vaddr ph then mret None
          else
            sz' ← allocuvm pgdir sz (u32 (ph_vaddr ph + ph_memsz ph));
            if sz' =? 0 then mret None
            else if negb (ph_vaddr ph mod PGSIZE =? 0) then mret None
            else
              v ← loaduvm pgdir (ph_vaddr ph) ip (ph_off ph) (ph_filesz ph);
              if v <? 0 then mret None
              else load_segments n' pgdir ip off' sz'
      end
  end.

(** Pushing the argument strings: the stack pointer and the addresses of the
    strings, or [None] for [goto bad]; [argc] strings are done. *)
Fixpoint push_args (pgdir : Z) (argv : list (list Z)) (argc : nat) (sp : Z) :
    K (option (Z * list Z)) :=
  match argv with
  | [] => mret (Some (sp, []))
  | s :: rest =>
      if (MAXARG <=? argc)%nat then mret None
      else
        let sp := Z.land (u32 (sp - (Z.of_nat (length s) + 1))) (Z.lnot 3) in
        r ← copyout pgdir sp (s ++ [0]);
        if r <? 0 then mret None
        else
          q ← push_args pgdir rest (S argc) sp;
          mret (match q with Some (sp', us) => Some (sp', sp :: us) | None => None end)
  end.

(** The words of [ustack] for the strings at [us], when the last one is at [sp]. *)
Definition ustack (sp : Z) (us : list Z) : list Z :=
  let argc := Z.of_nat (length us) in
  [0xffffffff; argc; u32 (sp - (argc + 1) * 4)] ++ us ++ [0].

(** The characters after the last slash of the path. *)
Fixpoint last_elem (last s : list Z) : list Z :=
  match s with
  | [] => last
  | c :: s' => last_elem (if c =? slash then s' else last) s'
  end.

(** The new image is complete: it replaces the old one. *)
Definition exec_commit (j : nat) (path : list Z) (pgdir sz entry sp : Z) : K Z :=
  p ← proc_at j;
  nm ← of_option "exec: name" (safestrcpy (name p) (last_elem path path ++ [0]) 16);
  upd_proc j (fun p => p <| name := nm |>);;
  p ← proc_at j;
  mwhen ((pid p =? 1) || (pid p =? 2))
    (upd_proc j (fun p => p <| sched_class := 2 |> <| sched_level := 1 |>));;
  p ← proc_at j;
  let oldpgdir := State.pgdir p in
  upd_proc j (fun p => p <| State.pgdir := pgdir |> <| State.sz := sz |>
    <| tframe ::= fun t => t <| eip := entry |> <| esp := sp |> |>);;
  switchuvm (Some j);;
  freevm oldpgdir;;
  mret 0.

(** The user stack, above an inaccessible page; [sz] is the end of the program. *)
Definition exec_stack (j : nat) (path : list Z) (argv : list (list Z)) (pgdir sz entry : Z) : K Z :=
  let sz := PGROUNDUP sz in
  sz ← allocuvm pgdir sz (u32 (sz + 2 * PGSIZE));
  if sz =? 0 then exec_bad pgdir None
  else
    clearpteu pgdir (u32 (sz - 2 * PGSIZE));;
    r ← push_args pgdir argv 0 sz;
    match r with
    | None => exec_bad pgdir None
    | Some (sp, us) =>
        let words := ustack sp us in
        let sp := u32 (sp - 4 * Z.of_nat (length words)) in
        v ← copyout pgdir sp (concat (le32 <$> words));
        if v <? 0 then exec_bad pgdir None
        else exec_commit j path pgdir sz entry sp
    end.

Definition exec (path : list Z) (argv : list (list Z)) : K Z :=
  j ← curproc;
  begin_op;;
  oip ← namei path;
  match oip with
  | None => end_op;; cprintf ("exec: fail" +:+ nl) [];; mret (-1)
  | Some ip =>
      ilock ip;;
      r ← readi_struct ip 0 sizeof_elfhdr;
      match r with
      | None => exec_bad 0 (Some ip)
      | Some b =>
          let elf := read_elfhdr b in
          if negb (elf_magic elf =? ELF_MAGIC) then exec_bad 0 (Some ip)
          else
            pgdir ← setupkvm;
            if pgdir =? 0 then exec_bad 0 (Some ip)
            else
              osz ← load_segments (Z.to_nat (elf_phnum elf)) pgdir ip (i32 (elf_phoff elf)) 0;
              match osz with
              | None => exec_bad pgdir (Some ip)
              | Some sz =>
                  iunlockput ip;;
                  end_op;;
                  exec_stack j path argv pgdir sz (elf_entry elf)
              end
      end
  end.
End exec.
