(* ===== verification/Sysfile.v ===== *)
(** File-system system calls: sysfile.c.

    A path argument is its bytes. What the code copies to or from user memory
    inside [fileread], [filewrite] and [filestat] is copied around these calls. *)
From stdpp Require Import base tactics list numbers strings gmap.
From S2P Require Import Prelude CString FsTypes State Spinlock Console Kalloc Vm Sched Process Args Sleeplock Ide Bio Log Fs Pipe File Exec.

#[local] Open Scope Z_scope.

(** ** User memory of the current process *)
Fixpoint uread (pg va : Z) (n : nat) : K (list Z) :=
  match n with
  | O => mret []
  | S n' => c ← uload8 pg va; l ← uread pg (va + 1) n'; mret (c :: l)
  end.
Fixpoint uwrite (pg va : Z) (l : list Z) : K unit :=
  match l with
  | [] => mret tt
  | c :: l' => ustore8 pg va c;; uwrite pg (va + 1) l'
  end.
Definition upgdir : K Z := j ← curproc; p ← proc_at j; mret (pgdir p).

(** [if(... < 0) return -1] on a fallible argument. *)
Definition or_fail {A} (m : K (option A)) (k : A -> K Z) : K Z :=
  r ← m;
  match r with Some a => k a | None => mret (-1) end.

(** ** Descriptors *)
Definition argfd (n : Z) : K (option (Z * nat)) :=
  r ← argint n;
  match r with
  | None => mret None
  | Some fd =>
      if (fd <? 0) || (Z.of_nat NOFILE <=? fd) then mret None
      else
        j ← curproc;
        p ← proc_at j;
        mret (pair fd <$> ofile p !!! Z.to_nat fd)
  end.

Definition fdalloc (f : nat) : K Z :=
  j ← curproc;
  r ← for_each (seq 0 NOFILE) (fun fd =>
    p ← proc_at j;
    match ofile p !!! fd with
    | None =>
        upd_proc j (fun p => p <| ofile ::= <[fd := Some f]> |>);;
        mret (Some (Z.of_nat fd))
    | Some _ => mret None
    end);
  mret (default (-1) r).

Section sysfile.
Context {fl : Fuel} {dv : Devsw}.

Definition sys_dup : K Z :=
  or_fail (argfd 0) (fun '(_, f) =>
    fd ← fdalloc f;
    if fd <? 0 then mret (-1)
    else _ ← filedup f; mret fd).

Definition sys_read : K Z :=
  or_fail (argfd 0) (fun '(_, f) =>
  or_fail (argint 2) (fun n =>
  or_fail (argptr 1 n) (fun p =>
    r ← fileread f n;
    match r with
    | None => mret (-1)
    | Some l => pg ← upgdir; uwrite pg p l;; mret (Z.of_nat (length l))
    end))).

Definition sys_write : K Z :=
  or_fail (argfd 0) (fun '(_, f) =>
  or_fail (argint 2) (fun n =>
  or_fail (argptr 1 n) (fun p =>
    pg ← upgdir;
    l ← uread pg p (Z.to_nat n);
    filewrite f l))).

Definition sys_close : K Z :=
  or_fail (argfd 0) (fun '(fd, f) =>
    j ← curproc;
    upd_proc j (fun p => p <| ofile ::= <[Z.to_nat fd := None]> |>);;
    fileclose f;;
    mret 0).

(** stat.h: [type] at 0, [dev] at 4, [ino] at 8, [nlink] at 12, [size] at 16. *)
Definition sizeof_stat : Z := 20.
Definition sys_fstat : K Z :=
  or_fail (argfd 0) (fun '(_, f) =>
  or_fail (argptr 1 sizeof_stat) (fun st =>
    r ← filestat f;
    match r with
    | None => mret (-1)
    | Some (type, dev, ino, nlink, size) =>
        pg ← upgdir;
        uwrite pg (st + 4) (le32 dev);;
        uwrite pg (st + 8) (le32 ino);;
        uwrite pg st (le16 type);;
        uwrite pg (st + 12) (le16 nlink);;
        uwrite pg (st + 16) (le32 size);;
        mret 0
    end)).

(** ** Links *)

(** [ip->nlink += d; iupdate(ip)] *)
Definition add_nlink (ip : nat) (d : Z) : K unit :=
  upd_inode ip (fun x => x <| i_nlink ::= fun n => i16 (n + d) |>);;
  iupdate ip.

Definition link_bad (ip : nat) : K Z :=
  ilock ip;;
  add_nlink ip (-1);;
  iunlockput ip;;
  end_op;;
  mret (-1).

Definition sys_link : K Z :=
  or_fail (argstr 0) (fun '(_, old) =>
  or_fail (argstr 1) (fun '(_, new) =>
    begin_op;;
    oip ← namei old;
    match oip with
    | None => end_op;; mret (-1)
    | Some ip =>
        ilock ip;;
        x ← inode_at ip;
        if i_type x =? T_DIR then iunlockput ip;; end_op;; mret (-1)
        else
          add_nlink ip 1;;
          iunlock ip;;
          odp ← nameiparent new;
          match odp with
          | None => link_bad ip
          | Some (dp, nm) =>
              ilock dp;;
              d ← inode_at dp;
              x ← inode_at ip;
              v ← (if negb (i_dev d =? i_dev x) then mret (-1) else dirlink dp nm (i_inum x));
              if v <? 0 then iunlockput dp;; link_bad ip
              else iunlockput dp;; iput (Some ip);; end_op;; mret 0
          end
    end)).

Definition isdirempty (dp : nat) : K bool :=
  d ← inode_at dp;
  r ← for_each (drop 2 (de_offsets (i_size d))) (fun off =>
    de ← read_dirent dp off "isdirempty: readi";
    mret (if de_inum de =? 0 then None else Some false));
  mret (default true r).

Definition unlink_bad (dp : nat) : K Z := iunlockput dp;; end_op;; mret (-1).

(** The entry at [off] of [dp] names [ip], which is locked and may go. *)
Definition unlink_entry (dp ip : nat) (off : Z) : K Z :=
  w ← writei dp (replicate 16 0) off sizeof_dirent;
  if negb (w =? sizeof_dirent) then panic "unlink: writei"
  else
    x ← inode_at ip;
    mwhen (i_type x =? T_DIR) (add_nlink dp (-1));;
    iunlockput dp;;
    add_nlink ip (-1);;
    iunlockput ip;;
    end_op;;
    mret 0.

Definition sys_unlink : K Z :=
  or_fail (argstr 0) (fun '(_, path) =>
    begin_op;;
    odp ← nameiparent path;
    match odp with
    | None => end_op;; mret (-1)
    | Some (dp, nm) =>
        ilock dp;;
        c1 ← namecmp nm (codes "." ++ [0]);
        c2 ← (if c1 =? 0 then mret 0 else namecmp nm (codes ".." ++ [0]));
        if c2 =? 0 then unlink_bad dp
        else
          r ← dirlookup dp nm;
          match r with
          | None => unlink_bad dp
          | Some (ip, off) =>
              ilock ip;;
              x ← inode_at ip;
              if i_nlink x <? 1 then panic "unlink: nlink < 1"
              else
                full ← (if i_type x =? T_DIR then e ← isdirempty ip; mret (negb e) else mret false);
                if (full : bool) then iunlockput ip;; unlink_bad dp
                else unlink_entry dp ip off
          end
    end).

(** ** Creating files *)

(** The new inode's fields, its dots and its entry in [dp]. *)
Definition create_new (dp : nat) (nm : list Z) (type major minor : Z) : K nat :=
  d ← inode_at dp;
  ip ← ialloc (i_dev d) type;
  ilock ip;;
  upd_inode ip (fun x => x <| i_major := major |> <| i_minor := minor |> <| i_nlink := 1 |>);;
  iupdate ip;;
  x ← inode_at ip;
  mwhen (type =? T_DIR)
    (add_nlink dp 1;;
     v ← dirlink ip (codes "." ++ [0]) (i_inum x);
     if v <? 0 then panic "create dots"
     else
       d ← inode_at dp;
       v ← dirlink ip (codes ".." ++ [0]) (i_inum d);
       if v <? 0 then panic "create dots" else mret tt);;
  v ← dirlink dp nm (i_inum x);
  if v <? 0 then panic "create: dirlink"
  else iunlockput dp;; mret ip.

Definition create (path : list Z) (type major minor : Z) : K (option nat) :=
  odp ← nameiparent path;
  match odp with
  | None => mret None
  | Some (dp, nm) =>
      ilock dp;;
      r ← dirlookup dp nm;
      match r with
      | Some (ip, _) =>
          iunlockput dp;;
          ilock ip;;
          x ← inode_at ip;
          if (type =? T_FILE) && (i_type x =? T_FILE) then mret (Some ip)
          else iunlockput ip;; mret None
      | None => ip ← create_new dp nm type major minor; mret (Some ip)
      end
  end.

(** The locked inode that [sys_open] opens. *)
Definition open_inode (path : list Z) (omode : Z) : K (option nat) :=
  if negb (Z.land omode O_CREATE =? 0) then create path T_FILE 0 0
  else
    oip ← namei path;
    match oip with
    | None => mret None
    | Some ip =>
        ilock ip;;
        x ← inode_at ip;
        if (i_type x =? T_DIR) && negb (omode =? O_RDONLY) then iunlockput ip;; mret None
        else mret (Some ip)
    end.

Definition sys_open : K Z :=
  or_fail (argstr 0) (fun '(_, path) =>
  or_fail (argint 1) (fun omode =>
    begin_op;;
    oip ← open_inode path omode;
    match oip with
    | None => end_op;; mret (-1)
    | Some ip =>
        o ← filealloc;
        fd ← (match o with Some f => fdalloc f | None => mret (-1) end);
        match o with
        | Some f =>
            if fd <? 0 then fileclose f;; iunlockput ip;; end_op;; mret (-1)
            else
              iunlock ip;;
              end_op;;
              upd_file f (fun x => x <| f_type := FD_INODE |> <| f_ip := Some ip |> <| f_off := 0 |>
                <| f_readable := Z.land omode O_WRONLY =? 0 |>
                <| f_writable := negb (Z.land omode O_WRONLY =? 0) || negb (Z.land omode O_RDWR =? 0) |>);;
              mret fd
        | None => iunlockput ip;; end_op;; mret (-1)
        end
    end)).

(** The common end of [sys_mkdir] and [sys_mknod]. *)
Definition created (o : option nat) : K Z :=
  match o with
  | Some ip => iunlockput ip;; end_op;; mret 0
  | None => end_op;; mret (-1)
  end.

Definition sys_mkdir : K Z :=
  begin_op;;
  a ← argstr 0;
  o ← (match a with Some (_, path) => create path T_DIR 0 0 | None => mret None end);
  created o.

Definition sys_mknod : K Z :=
  begin_op;;
  a ← argstr 0;
  o ← (match a with
       | None => mret None
       | Some (_, path) =>
           ma ← argint 1;
           match ma with
           | None => mret None
           | Some major =>
               mi ← argint 2;
               match mi with
               | None => mret None
               | Some minor => create path T_DEV (i16 major) (i16 minor)
               end
           end
       end);
  created o.

Definition sys_chdir : K Z :=
  j ← curproc;
  begin_op;;
  a ← argstr 0;
  oip ← (match a with Some (_, path) => namei path | None => mret None end);
  match oip with
  | None => end_op;; mret (-1)
  | Some ip =>
      ilock ip;;
      x ← inode_at ip;
      if negb (i_type x =? T_DIR) then iunlockput ip;; end_op;; mret (-1)
      else
        iunlock ip;;
        p ← proc_at j;
        iput (cwd p);;
        end_op;;
        upd_proc j (fun p => p <| cwd := Some ip |>);;
        mret 0
  end.

(** The loop of [sys_exec] over the vector at [uargv]; [n] slots of [argv] are left. *)
Fixpoint fetch_argv (n : nat) (uargv i : Z) : K (option (list (list Z))) :=
  match n with
  | O => mret None
  | S n' =>
      r ← fetchint (u32 (uargv + 4 * i));
      match r with
      | None => mret None
      | Some uarg =>
          if u32 uarg =? 0 then mret (Some [])
          else
            s ← fetchstr (u32 uarg);
            match s with
            | None => mret None
            | Some (_, str) =>
                l ← fetch_argv n' uargv (i + 1);
                mret (cons str <$> l)
            end
      end
  end.

Definition sys_exec : K Z :=
  or_fail (argstr 0) (fun '(_, path) =>
  or_fail (argint 1) (fun uargv =>
  or_fail (fetch_argv MAXARG (u32 uargv) 0) (fun argv => exec path argv))).

(** The descriptors are given back and both ends closed. *)
Definition sys_pipe : K Z :=
  or_fail (argptr 0 8) (fun fd =>
  or_fail pipealloc (fun '(rf, wf) =>
    fd0 ← fdalloc rf;
    fd1 ← (if fd0 <? 0 then mret (-1) else fdalloc wf);
    if (fd0 <? 0) || (fd1 <? 0) then
      mwhen (0 <=? fd0)
        (j ← curproc; upd_proc j (fun p => p <| ofile ::= <[Z.to_nat fd0 := None]> |>));;
      fileclose rf;;
      fileclose wf;;
      mret (-1)
    else
      pg ← upgdir;
      uwrite pg fd (le32 fd0);;
      uwrite pg (fd + 4) (le32 fd1);;
      mret 0)).
End sysfile.
