(* ===== verification/SchedInv.v ===== *)
(** Invariants of the process table: the three ready counters of proc.c count
    exactly the RUNNABLE processes of their class, and every scheduling field is
    one of the combinations the scheduler knows. *)
From stdpp Require Import base tactics list numbers strings gmap.
From S2P Require Import Prelude CString State Spinlock Console Kalloc Vm Sched.

#[local] Open Scope Z_scope.

(** ** Code that does not touch processes

    What the scheduler sees of the machine: which process runs where, the
    process table, the counters and the next pid. *)
Definition cpu_view (c : cpu) : Z * option nat * nat := (apicid c, cpu_proc c, nextrrp c).
Definition cpus_view (l : lstate) : Z * nat * list (Z * option nat * nat) :=
  (here l, ncpu l, cpu_view <$> cpus l).
Record pview := Pview {
  v_cpus : Z * nat * list (Z * option nat * nat);
  v_ptab : list proc;
  v_counts : Z * Z * Z;
  v_nextpid : Z
}.
Definition view (s : kst) : pview :=
  Pview (cpus_view (klk s)) (ptab s) (count_edf s, count_rr s, count_fcfs s) (nextpid s).

Definition quiet {A} (m : K A) : Prop :=
  forall s, match m s with Ret _ s' => view s' = view s | Swtch _ _ => False | _ => True end.

Lemma cpus_view_static l1 l2 : lk_static l1 = lk_static l2 -> cpus_view l1 = cpus_view l2.
Proof.
  unfold lk_static, cpus_view. intros [= -> -> H _]. f_equal.
  apply (f_equal (fmap (fun t : Z * bool * option nat * nat * Z =>
    (t.1.1.1.1, t.1.1.2, t.1.2)))) in H.
  by rewrite <-!list_fmap_compose in H.
Qed.

Lemma quiet_ret {A} (a : A) : quiet (mret a).
Proof. by intros s. Qed.
Lemma quiet_gets {A} (f : kst -> A) : quiet (gets f).
Proof. by intros s. Qed.
Lemma quiet_fault {A} w : quiet (fault (A:=A) w).
Proof. by intros s. Qed.
Lemma quiet_panic {A} w : quiet (panic (A:=A) w).
Proof. by intros s. Qed.
Lemma quiet_nofuel {A} : quiet (nofuel (A:=A)).
Proof. by intros s. Qed.
Lemma quiet_lk {A} (m : K A) : lk_only m -> quiet m.
Proof.
  intros Hm s. specialize (Hm s). destruct (m s); try done.
  destruct Hm as (l & -> & Hl). unfold view. simpl. by rewrite (cpus_view_static _ _ Hl).
Qed.
Lemma quiet_bind {A B} (m : K A) (f : A -> K B) :
  quiet m -> (forall a, quiet (f a)) -> quiet (m ≫= f).
Proof.
  intros Hm Hf s. specialize (Hm s). unfold mbind, M_bind. destruct (m s) as [a s1| | | | |]; try done.
  simpl. specialize (Hf a s1). destruct (f a s1); try done. congruence.
Qed.
Lemma quiet_when b m : quiet m -> quiet (mwhen b m).
Proof. destruct b; [done|]. intros _. apply quiet_ret. Qed.
Lemma quiet_for_all {J} (l : list J) body : (forall i, quiet (body i)) -> quiet (for_all l body).
Proof.
  intros Hb. induction l as [|i l IH]; [apply quiet_ret|].
  simpl. apply quiet_bind; [apply Hb|done].
Qed.
Lemma quiet_for_each {J R} (l : list J) (body : J -> K (option R)) :
  (forall i, quiet (body i)) -> quiet (for_each l body).
Proof.
  intros Hb. induction l as [|i l IH]; [apply quiet_ret|].
  simpl. apply quiet_bind; [apply Hb|]. intros [v|]; [apply quiet_ret|done].
Qed.
Lemma quiet_modify f : (forall s, view (f s) = view s) -> quiet (modify f).
Proof. intros Hf s. simpl. apply Hf. Qed.

Create HintDb quietdb.
#[export] Hint Resolve quiet_ret quiet_gets quiet_fault quiet_panic quiet_nofuel : quietdb.
#[export] Hint Extern 3 (quiet _) => (apply quiet_lk; solve [eauto with lockdb]) : quietdb.

Ltac quiet_walk :=
  repeat first
    [ progress intros
    | lazymatch goal with
      | |- quiet (for_all _ _) => apply quiet_for_all
      | |- quiet (for_each _ _) => apply quiet_for_each
      | |- quiet (mwhen _ _) => apply quiet_when
      | |- quiet (_ ≫= _) => apply quiet_bind
      | |- quiet (if ?b then _ else _) => destruct b
      | |- quiet (match ?o with Some _ => _ | None => _ end) => destruct o
      | |- quiet (match ?o with inl _ => _ | inr _ => _ end) => destruct o
      | |- quiet (modify _) => apply quiet_modify; by intros
      end
    | solve [eauto with quietdb] ].

Lemma quiet_cprintf fmt args : quiet (cprintf fmt args).
Proof. unfold cprintf, consputc. quiet_walk. Qed.
#[export] Hint Resolve quiet_cprintf : quietdb.

Lemma quiet_printspaces n : quiet (printspaces n).
Proof. unfold printspaces. quiet_walk. Qed.

Lemma quiet_kalloc : quiet kalloc.
Proof. unfold kalloc. quiet_walk. Qed.

Lemma quiet_kfree v : quiet (kfree v).
Proof. unfold kfree, set_mem. quiet_walk. Qed.

Lemma quiet_switchkvm : quiet switchkvm.
Proof. unfold switchkvm. quiet_walk. Qed.

Lemma quiet_upd_cpu i f : (forall c, cpu_view (f c) = cpu_view c) -> quiet (upd_cpu i f).
Proof.
  intros Hf s. unfold upd_cpu, modify, view, cpus_view. simpl. f_equal. f_equal.
  apply list_eq. intros j. rewrite !list_lookup_fmap.
  destruct (decide (i = j)) as [->|Hne].
  - rewrite list_lookup_alter_eq. destruct (cpus (klk s) !! j); simpl; by rewrite ?Hf.
  - by rewrite list_lookup_alter_ne.
Qed.

Lemma quiet_switchuvm op : quiet (switchuvm op).
Proof.
  unfold switchuvm, proc_at. quiet_walk. by apply quiet_upd_cpu.
Qed.
#[export] Hint Resolve quiet_printspaces quiet_kalloc quiet_kfree quiet_switchkvm quiet_switchuvm
  quiet_upd_cpu : quietdb.

(** An invariant over the view is kept by quiet code. *)
Definition on_view (I : pview -> Prop) (s : kst) : Prop := I (view s).

Lemma keeps_quiet {A} (I : pview -> Prop) (m : K A) : quiet m -> keeps (on_view I) m.
Proof.
  intros Hm s Hs. specialize (Hm s). destruct (m s); try done.
  unfold on_view in *. simpl. by rewrite Hm.
Qed.

Lemma wlp_quiet {A} (Out In : kst -> Prop) (Q : A -> kst -> Prop) (m : K A) s :
  quiet m -> (forall a s', view s' = view s -> Q a s') -> wlp Out In Q (m s).
Proof. intros Hm HQ. specialize (Hm s). destruct (m s); try done. by apply HQ. Qed.

(** ** Scheduling classes *)
Inductive queue : Type := Q_EDF | Q_RR | Q_FCFS.

(** The queue a process is counted in when it is RUNNABLE. *)
Definition in_queue (q : queue) (p : proc) : bool :=
  match q with
  | Q_EDF => sched_class p =? 1
  | Q_RR => (sched_class p =? 2) && (sched_level p =? 1)
  | Q_FCFS => (sched_class p =? 2) && (sched_level p =? 2)
  end.
Definition ready (q : queue) (p : proc) : bool :=
  bool_decide (state p = RUNNABLE) && in_queue q p.
Definition cnt (v : pview) (q : queue) : Z :=
  let '(e, r, f) := v_counts v in
  match q with Q_EDF => e | Q_RR => r | Q_FCFS => f end.

(** Scheduling fields of a slot in use: EDF, or normal with level RR or FCFS. *)
Definition proc_wf (p : proc) : Prop :=
  state p = UNUSED \/
  sched_class p = 1 /\ sched_level p = 0 \/
  sched_class p = 2 /\ (sched_level p = 1 \/ sched_level p = 2).

(** The counters differ by [δ] from the number of RUNNABLE processes. *)
Definition sdev (δ : queue -> Z) (v : pview) : Prop :=
  length (v_ptab v) = NPROC /\ Forall proc_wf (v_ptab v) /\
  forall q, cnt v q = count_if (ready q) (v_ptab v) + δ q.
Definition sinv : pview -> Prop := sdev (fun _ => 0).

Definition alter_view (f : proc -> proc) (i : nat) (v : pview) : pview :=
  Pview (v_cpus v) (alter f i (v_ptab v)) (v_counts v) (v_nextpid v).

Lemma sdev_ext δ δ' v : (forall q, δ q = δ' q) -> sdev δ v -> sdev δ' v.
Proof. intros E (Hl & Hw & Hc). split; [done|split; [done|]]. intros q. by rewrite <-E. Qed.

Lemma ptab_lookup (l : list proc) i : length l = NPROC -> (i < NPROC)%nat -> l !! i = Some (l !!! i).
Proof. intros Hl Hi. apply list_lookup_lookup_total_lt. lia. Qed.

Lemma in_procs i : i ∈ procs <-> (i < NPROC)%nat.
Proof. unfold procs. rewrite elem_of_seq. lia. Qed.

Lemma sdev_wf δ v i : sdev δ v -> (i < NPROC)%nat -> proc_wf (v_ptab v !!! i).
Proof.
  intros (Hl & Hw & _) Hi. rewrite Forall_forall in Hw. apply Hw.
  apply list_elem_of_lookup_total_2. lia.
Qed.

(** Changing one process moves the deviation by the change of its contribution. *)
Lemma sdev_alter δ v i f :
  sdev δ v -> (i < NPROC)%nat -> proc_wf (f (v_ptab v !!! i)) ->
  sdev (fun q => δ q + b2z (ready q (v_ptab v !!! i)) - b2z (ready q (f (v_ptab v !!! i))))
    (alter_view f i v).
Proof.
  intros (Hl & Hw & Hc) Hi Hf. pose proof (ptab_lookup _ _ Hl Hi) as Hp.
  split; [by simpl; rewrite length_alter|]. split.
  - simpl. rewrite (list_alter_as_insert _ _ _ _ Hp). by apply Forall_insert.
  - intros q. change (cnt (alter_view f i v) q) with (cnt v q). rewrite Hc. simpl.
    rewrite (count_if_alter _ _ _ _ _ Hp). lia.
Qed.

(** The fields the counters depend on. *)
Definition sched_key (p : proc) : procstate * Z * Z := (state p, sched_class p, sched_level p).

Lemma sched_key_wf p p' : sched_key p' = sched_key p -> proc_wf p -> proc_wf p'.
Proof. unfold sched_key, proc_wf. intros [= -> -> ->]. done. Qed.

Lemma sched_key_ready q p p' : sched_key p' = sched_key p -> ready q p' = ready q p.
Proof. unfold sched_key, ready, in_queue. intros [= -> -> ->]. done. Qed.

Lemma sdev_alter_key δ v i f :
  (forall p, sched_key (f p) = sched_key p) -> sdev δ v -> sdev δ (alter_view f i v).
Proof.
  intros Hf (Hl & Hw & Hc). split; [by simpl; rewrite length_alter|]. split.
  - simpl. apply Forall_alter; [done|]. intros p _. by apply sched_key_wf.
  - intros q. change (cnt (alter_view f i v) q) with (cnt v q). rewrite Hc. simpl.
    rewrite count_if_alter_same; [done|]. intros p _. by apply sched_key_ready.
Qed.

(** ** Process identifiers: a slot in use has one, no two slots share one, and
    [nextpid] is above them all *)
Definition pids_ok (v : pview) : Prop :=
  (forall i j p q, v_ptab v !! i = Some p -> v_ptab v !! j = Some q ->
    pid p = pid q -> pid p <> 0 -> i = j) /\
  (forall p, p ∈ v_ptab v -> 0 <= pid p < v_nextpid v /\ (state p <> UNUSED -> pid p <> 0)) /\
  0 < v_nextpid v.

Lemma alter_elem {A} (f : A -> A) (l : list A) i x :
  x ∈ alter f i l -> x ∈ l \/ exists y, y ∈ l /\ x = f y.
Proof.
  intros [j Hj]%list_elem_of_lookup. destruct (decide (i = j)) as [->|Hne].
  - rewrite list_lookup_alter_eq in Hj. destruct (l !! j) as [y|] eqn:Hy; simplify_eq/=.
    right. exists y. split; [by eapply list_elem_of_lookup_2|done].
  - rewrite list_lookup_alter_ne in Hj by done. left. by eapply list_elem_of_lookup_2.
Qed.

Lemma alter_lookup_pid f (l : list proc) i j p :
  (forall p, pid (f p) = pid p) -> alter f i l !! j = Some p ->
  exists p', l !! j = Some p' /\ pid p' = pid p.
Proof.
  intros Hf. destruct (decide (i = j)) as [->|Hne].
  - rewrite list_lookup_alter_eq. destruct (l !! j) as [y|] eqn:Hy; intros; simplify_eq/=.
    exists y. by rewrite Hf.
  - rewrite list_lookup_alter_ne by done. eauto.
Qed.

Lemma pids_alter v i f :
  (forall p, pid (f p) = pid p) ->
  (forall p, v_ptab v !! i = Some p -> state (f p) <> UNUSED -> pid p <> 0) ->
  pids_ok v -> pids_ok (alter_view f i v).
Proof.
  intros Hf Hs (Hu & Hb & Hn). split; [|split]; [..|done].
  - intros j1 j2 p q H1 H2. simpl in H1, H2.
    destruct (alter_lookup_pid _ _ _ _ _ Hf H1) as (p' & Hp' & <-).
    destruct (alter_lookup_pid _ _ _ _ _ Hf H2) as (q' & Hq' & <-). by apply Hu.
  - simpl. intros p [j Hj]%list_elem_of_lookup. destruct (decide (i = j)) as [->|Hne].
    + rewrite list_lookup_alter_eq in Hj. destruct (v_ptab v !! j) as [y|] eqn:Hy; simplify_eq/=.
      rewrite Hf. split; [|by apply Hs]. apply Hb. by eapply list_elem_of_lookup_2.
    + rewrite list_lookup_alter_ne in Hj by done. apply Hb. by eapply list_elem_of_lookup_2.
Qed.

(** Changes that keep pids and do not bring an unused slot to life. *)
Lemma pids_alter_live v i f :
  (forall p, pid (f p) = pid p) -> (forall p, state p = UNUSED -> state (f p) = UNUSED) ->
  pids_ok v -> pids_ok (alter_view f i v).
Proof.
  intros Hf Hs Hok. apply pids_alter; try done. intros p Hp Hn.
  destruct Hok as (_ & Hb & _). apply (Hb p); [by eapply list_elem_of_lookup_2|].
  intros E. by apply Hn, Hs.
Qed.

(** The pid of a slot in use identifies it. *)
Lemma pids_unique v i p p' :
  pids_ok v -> v_ptab v !! i = Some p -> state p <> UNUSED -> p' ∈ v_ptab v -> pid p' = pid p ->
  p' = p.
Proof.
  intros (Hu & Hb & _) Hi Hs [j Hj]%list_elem_of_lookup Hpid.
  assert (pid p <> 0) by (apply (Hb p); [by eapply list_elem_of_lookup_2|done]).
  assert (i = j) as -> by (eapply Hu; eauto). congruence.
Qed.

(** The whole invariant, up to a deviation of the counters. *)
Definition dev_ok (δ : queue -> Z) (v : pview) : Prop := sdev δ v /\ pids_ok v.
Definition sched_ok : pview -> Prop := dev_ok (fun _ => 0).

Lemma dev_ext δ δ' v : (forall q, δ q = δ' q) -> dev_ok δ v -> dev_ok δ' v.
Proof. intros E [? ?]. split; [by eapply sdev_ext|done]. Qed.

Lemma dev_alter δ v i f :
  dev_ok δ v -> (i < NPROC)%nat -> proc_wf (f (v_ptab v !!! i)) ->
  (forall p, pid (f p) = pid p) ->
  (state (v_ptab v !!! i) = UNUSED -> state (f (v_ptab v !!! i)) = UNUSED) ->
  dev_ok (fun q => δ q + b2z (ready q (v_ptab v !!! i)) - b2z (ready q (f (v_ptab v !!! i))))
    (alter_view f i v).
Proof.
  intros [Hs Hp] Hi Hw Hf Hu. split; [by apply sdev_alter|].
  apply pids_alter; [done| |done]. intros p Hl Hn.
  destruct Hp as (_ & Hb & _). apply (Hb p); [by eapply list_elem_of_lookup_2|].
  destruct Hs as (Hlen & _). rewrite (ptab_lookup _ _ Hlen Hi) in Hl. simplify_eq.
  intros E. by apply Hn, Hu.
Qed.

Lemma dev_alter_key δ v i f :
  (forall p, sched_key (f p) = sched_key p) -> (forall p, pid (f p) = pid p) ->
  dev_ok δ v -> dev_ok δ (alter_view f i v).
Proof.
  intros Hk Hf [Hs Hp]. split; [by apply sdev_alter_key|].
  apply pids_alter_live; [done| |done]. intros p E. specialize (Hk p).
  unfold sched_key in Hk. simplify_eq. congruence.
Qed.

(** ** Who runs where *)
Definition running_on (l : lstate) (c j : nat) : Prop :=
  exists x, cpus l !! c = Some x /\ cpu_proc x = Some j.

(** A CPU's current process is RUNNING, on that CPU only, and every RUNNING
    process is current somewhere. With [ex], the executing CPU is leaving its
    process, which is not RUNNING any more. The round-robin cursors of the
    schedulers stay within the table. *)
Definition run_ok (ex : bool) (l : lstate) (pt : list proc) : Prop :=
  (forall c j, running_on l c j -> (j < NPROC)%nat /\
    (state (pt !!! j) = RUNNING <-> ~ (ex = true /\ this_cpu l = Some c))) /\
  (forall c1 c2 j, running_on l c1 j -> running_on l c2 j -> c1 = c2) /\
  (forall j, (j < NPROC)%nat -> state (pt !!! j) = RUNNING -> exists c, running_on l c j) /\
  Forall (fun n => n < NPROC)%nat (nextrrp <$> cpus l).

Lemma cpus_view_running l1 l2 c j :
  cpus_view l1 = cpus_view l2 -> running_on l1 c j -> running_on l2 c j.
Proof.
  unfold cpus_view, running_on. intros [= _ _ Hv] (x & Hx & Hj).
  apply (f_equal (fun k => k !! c)) in Hv. rewrite !list_lookup_fmap, Hx in Hv. simpl in Hv.
  destruct (cpus l2 !! c) as [y|]; simplify_eq/=. exists y. split; [done|].
  unfold cpu_view in Hv. congruence.
Qed.

Lemma cpus_view_this l1 l2 : cpus_view l1 = cpus_view l2 -> this_cpu l1 = this_cpu l2.
Proof.
  unfold cpus_view, this_cpu. intros [= -> -> Hv]. apply find_cpu_ext. rewrite !fmap_take. f_equal.
  apply (f_equal (fmap (fun t : Z * option nat * nat => t.1.1))) in Hv.
  by rewrite <-!list_fmap_compose in Hv.
Qed.

Lemma cur_running l j : cur l = Some j <-> exists c, this_cpu l = Some c /\ running_on l c j.
Proof.
  unfold cur, running_on. destruct (this_cpu l) as [c|]; simpl; [|naive_solver].
  split.
  - destruct (cpus l !! c) as [x|] eqn:E; [|done]. simpl. eauto.
  - intros (c' & [= <-] & x & -> & Hx). done.
Qed.

Lemma cpus_view_cur l1 l2 : cpus_view l1 = cpus_view l2 -> cur l1 = cur l2.
Proof.
  intros Hv. apply option_eq. intros j. rewrite !cur_running, (cpus_view_this _ _ Hv).
  split; intros (c & ? & ?); exists c; split; try done; by eapply cpus_view_running.
Qed.

Lemma run_ok_ext ex l1 l2 pt : cpus_view l1 = cpus_view l2 -> run_ok ex l1 pt -> run_ok ex l2 pt.
Proof.
  intros Hv (H1 & H2 & H3 & H4). split; [|split; [|split]].
  - intros c j Hr. rewrite <-(cpus_view_this _ _ Hv). apply H1. by eapply cpus_view_running.
  - intros c1 c2 j Hr1 Hr2. eapply H2; by eapply cpus_view_running.
  - intros j Hj Hs. destruct (H3 j Hj Hs) as [c Hc]. exists c. by eapply cpus_view_running.
  - unfold cpus_view in Hv. injection Hv as _ _ Hv.
    apply (f_equal (fmap (fun t : Z * option nat * nat => t.2))) in Hv.
    rewrite <-!list_fmap_compose in Hv.
    change (nextrrp <$> cpus l1 = nextrrp <$> cpus l2) in Hv. by rewrite <-Hv.
Qed.

Lemma lookup_total_alter_eq {A} `{Inhabited A} (pt : list A) i f :
  (i < length pt)%nat -> alter f i pt !!! i = f (pt !!! i).
Proof.
  intros Hi. apply list_lookup_total_correct.
  by rewrite list_lookup_alter_eq, list_lookup_lookup_total_lt.
Qed.

Lemma lookup_total_alter_ne {A} `{Inhabited A} (pt : list A) i j f :
  i <> j -> alter f i pt !!! j = pt !!! j.
Proof. intros Hne. by rewrite !list_lookup_total_alt, list_lookup_alter_ne. Qed.

Lemma lookup_total_alter (pt : list proc) i j f :
  (i < length pt)%nat -> alter f i pt !!! j = if decide (i = j) then f (pt !!! j) else pt !!! j.
Proof.
  intros Hi. case_decide as E; [subst; by apply lookup_total_alter_eq|by apply lookup_total_alter_ne].
Qed.

(** A change of one process that does not make it start or stop RUNNING. *)
Lemma run_ok_alter ex l pt i f :
  length pt = NPROC -> run_ok ex l pt ->
  (state (f (pt !!! i)) = RUNNING <-> state (pt !!! i) = RUNNING) ->
  run_ok ex l (alter f i pt).
Proof.
  intros Hl (H1 & H2 & H3 & H4) Hf.
  assert (He : forall j, (j < NPROC)%nat ->
    state (alter f i pt !!! j) = RUNNING <-> state (pt !!! j) = RUNNING).
  { intros j Hj. destruct (decide (i = j)) as [->|Hne].
    - rewrite lookup_total_alter_eq by lia. done.
    - by rewrite lookup_total_alter_ne. }
  split; [|split; [done|split; [|done]]].
  - intros c j Hr. destruct (H1 c j Hr) as [Hj Hiff]. split; [done|]. by rewrite He.
  - intros j Hj. rewrite He by done. by apply H3.
Qed.

(** The executing process stops RUNNING. *)
Lemma run_ok_leave l pt j f :
  length pt = NPROC -> run_ok false l pt -> cur l = Some j -> state (f (pt !!! j)) <> RUNNING ->
  run_ok true l (alter f j pt).
Proof.
  intros Hl (H1 & H2 & H3 & H4) Hc Hf. apply cur_running in Hc as (c0 & Ht & Hr0).
  destruct (H1 _ _ Hr0) as [Hj _].
  split; [|split; [done|split; [|done]]].
  - intros c j' Hr. destruct (H1 c j' Hr) as [Hj' Hiff]. split; [done|].
    rewrite lookup_total_alter by lia. rewrite Ht. case_decide as E; [subst j'|].
    + assert (c = c0) as -> by eauto. naive_solver.
    + rewrite Hiff. split; [intros _ [_ [= <-]]|by intros _ [? _]].
      destruct Hr0 as (x & Hx & ?), Hr as (y & Hy & ?). congruence.
  - intros j' Hj'. rewrite lookup_total_alter by lia. case_decide; [naive_solver|]. by apply H3.
Qed.

(** *** The invariant of kernel code

    [inv δ ex o s]: the scheduler's counters are off by [δ]; the executing CPU's
    process is [o] and, with [ex], is leaving it. *)
Definition inv (δ : queue -> Z) (ex : bool) (o : option nat) (s : kst) : Prop :=
  dev_ok δ (view s) /\ run_ok ex (klk s) (ptab s) /\ cur (klk s) = o.
Definition zero (q : queue) : Z := 0.

(** Running kernel code on behalf of [o]; about to leave the CPU. *)
Abbreviation hot := (inv zero false).
Abbreviation leaving := (inv zero true).

(** [handles o m]: [m], executed on behalf of [o], keeps the invariant. *)
Definition handles {A} (o : option nat) (m : K A) : Prop :=
  forall s, hot o s -> wlp (leaving o) (hot o) (fun _ => hot o) (m s).

Lemma inv_view δ ex o s s' : view s' = view s -> inv δ ex o s -> inv δ ex o s'.
Proof.
  unfold inv. intros E (Hd & Hr & Hc). rewrite E. split; [done|].
  pose proof (f_equal v_cpus E) as Ec. pose proof (f_equal v_ptab E) as Ep. simpl in Ec, Ep.
  rewrite Ep.
  split; [by eapply run_ok_ext|]. by rewrite (cpus_view_cur _ _ Ec).
Qed.

Lemma inv_ext δ δ' ex o s : (forall q, δ q = δ' q) -> inv δ ex o s -> inv δ' ex o s.
Proof. intros E (Hd & ?). split; [by eapply dev_ext|done]. Qed.

Lemma inv_length δ ex o s : inv δ ex o s -> length (ptab s) = NPROC.
Proof. by intros (((Hl & _) & _) & _). Qed.

Lemma inv_cur_lt δ ex j s : inv δ ex (Some j) s -> (j < NPROC)%nat.
Proof. intros (_ & (H1 & _) & (c & _ & Hr)%cur_running). by destruct (H1 _ _ Hr). Qed.

Lemma hot_running δ j s : inv δ false (Some j) s -> state (ptab s !!! j) = RUNNING.
Proof. intros (_ & (H1 & _) & (c & _ & Hr)%cur_running). destruct (H1 _ _ Hr) as [_ Hx]. naive_solver. Qed.

(** *** Rules *)

(** Code that is quiet keeps any such invariant, and the keys of the processes. *)
Lemma wlp_quiet_inv {A} Out In (Q : A -> kst -> Prop) (m : K A) δ ex o s :
  quiet m -> inv δ ex o s ->
  (forall a s', inv δ ex o s' -> view s' = view s -> Q a s') -> wlp Out In Q (m s).
Proof. intros Hm Hs HQ. apply wlp_quiet; [done|]. intros a s' E. apply HQ; [|done]. by eapply inv_view. Qed.

(** Updates that leave the scheduling key and the pid alone. *)
Definition same_key (f : proc -> proc) : Prop :=
  forall p, sched_key (f p) = sched_key p /\ pid (f p) = pid p.

Lemma inv_upd_key δ ex o s i f :
  same_key f -> inv δ ex o s -> inv δ ex o (s <| ptab ::= alter f i |>).
Proof.
  intros Hf Hs. pose proof (inv_length _ _ _ _ Hs) as Hl. destruct Hs as (Hd & Hr & Hc).
  split; [|split; [|done]].
  - apply (dev_alter_key δ (view s) i f); [by intros; apply Hf..|done].
  - apply run_ok_alter; [done..|]. destruct (Hf (ptab s !!! i)) as [[= -> _ _] _]. done.
Qed.

Lemma key_upd s i j f :
  same_key f -> length (ptab s) = NPROC ->
  sched_key (alter f i (ptab s) !!! j) = sched_key (ptab s !!! j).
Proof.
  intros Hf Hl. destruct (decide (i = j)) as [->|Hne]; [|by rewrite lookup_total_alter_ne].
  destruct (decide (j < NPROC)%nat) as [Hj|Hj].
  - rewrite lookup_total_alter_eq by lia. apply Hf.
  - rewrite list_alter_none; [done|]. apply lookup_ge_None. lia.
Qed.

(** One process changes state, its class and level stay. *)
Lemma inv_upd_state δ ex ex' o s i f :
  inv δ ex o s -> (i < NPROC)%nat -> state (ptab s !!! i) <> UNUSED ->
  (forall p, pid (f p) = pid p) -> 
  sched_class (f (ptab s !!! i)) = sched_class (ptab s !!! i) ->
  sched_level (f (ptab s !!! i)) = sched_level (ptab s !!! i) ->
  run_ok ex' (klk s) (alter f i (ptab s)) ->
  inv (fun q => δ q + (b2z (bool_decide (state (ptab s !!! i) = RUNNABLE)) -
      b2z (bool_decide (state (f (ptab s !!! i)) = RUNNABLE))) * b2z (in_queue q (ptab s !!! i)))
    ex' o (s <| ptab ::= alter f i |>).
Proof.
  intros (Hd & Hr & Hc) Hi Hu Hpid Hcl Hlv Hr'. split; [|done].
  eapply dev_ext; [|apply (dev_alter δ (view s) i f)]; try done.
  - intros q. unfold ready, in_queue. simpl. rewrite Hcl, Hlv.
    destruct (bool_decide (state (ptab s !!! i) = RUNNABLE)),
      (bool_decide (state (f (ptab s !!! i)) = RUNNABLE)), q; simpl; try lia;
      destruct (sched_class _ =? _), (sched_level _ =? _); simpl; lia.
  - pose proof (sdev_wf _ _ i (proj1 Hd) Hi) as Hw. simpl in *.
    unfold proc_wf in *. rewrite Hcl, Hlv. naive_solver.
Qed.

(** [add_count d p] moves the counter of [p]'s queue by [d]. *)
Lemma wlp_add_count δ ex o d p s Out In (Q : unit -> kst -> Prop) :
  inv δ ex o s ->
  (forall s', inv (fun q => δ q + d * b2z (in_queue q p)) ex o s' ->
    ptab s' = ptab s -> klk s' = klk s -> nextpid s' = nextpid s -> Q tt s') ->
  wlp Out In Q (add_count d p s).
Proof.
  intros (((Hl & Hw & Hc) & Hp) & Hr) HQ. unfold add_count.
  destruct (sched_class p =? 1) eqn:E1; [|destruct (sched_class p =? 2) eqn:E2;
    [destruct (sched_level p =? 1) eqn:E3; [|destruct (sched_level p =? 2) eqn:E4]|]];
    simpl; apply HQ; try done; (split; [split; [|done]|done]); (split; [done|split; [done|]]);
    intros q; specialize (Hc q); destruct q; unfold cnt, in_queue, view in *; simpl in *;
    rewrite ?E1, ?E2, ?E3, ?E4; simpl; try lia.
  - apply Z.eqb_eq in E1. rewrite E1. simpl. lia.
  - apply Z.eqb_eq in E1. rewrite E1. simpl. lia.
  - apply Z.eqb_eq in E3. rewrite E3. simpl. lia.
Qed.
