(* ===== verification/Sample.v ===== *)
(** A decision procedure for the scheduler invariant, and a small machine on which
    it holds: two CPUs, six processes of every class. *)
From stdpp Require Import base tactics list numbers strings gmap.
From S2P Require Import Prelude CString FsTypes State Spinlock Console Kalloc Vm Sched SchedInv.

#[local] Open Scope Z_scope.

(** ** Checking the invariant *)
Definition proc_wfb (p : proc) : bool :=
  bool_decide (state p = UNUSED) ||
  ((sched_class p =? 1) && (sched_level p =? 0)) ||
  ((sched_class p =? 2) && ((sched_level p =? 1) || (sched_level p =? 2))).

Definition slots (pt : list proc) : list (nat * proc) := zip (seq 0 (length pt)) pt.

Definition pids_okb (pt : list proc) (np : Z) : bool :=
  (0 <? np) &&
  forallb (fun ip => let '(i, p) := (ip : nat * proc) in
    (0 <=? pid p) && (pid p <? np) && (bool_decide (state p = UNUSED) || negb (pid p =? 0)) &&
    ((pid p =? 0) || forallb (fun jq => let '(j, q) := (jq : nat * proc) in
      (i =? j)%nat || negb (pid p =? pid q)) (slots pt))) (slots pt).

Definition run_okb (l : lstate) (pt : list proc) : bool :=
  forallb (fun x => match cpu_proc x with
    | Some j => (j <? NPROC)%nat && bool_decide (state (pt !!! j) = RUNNING)
    | None => true end) (cpus l) &&
  bool_decide (NoDup (omap cpu_proc (cpus l))) &&
  forallb (fun j => negb (bool_decide (state (pt !!! j) = RUNNING)) ||
    bool_decide (j ∈ omap cpu_proc (cpus l))) procs &&
  forallb (fun x => nextrrp x <? NPROC)%nat (cpus l).

Definition hotb (o : option nat) (s : kst) : bool :=
  (length (ptab s) =? NPROC)%nat && forallb proc_wfb (ptab s) &&
  forallb (fun q => cnt (view s) q =? count_if (ready q) (ptab s)) [Q_EDF; Q_RR; Q_FCFS] &&
  pids_okb (ptab s) (nextpid s) && run_okb (klk s) (ptab s) && bool_decide (cur (klk s) = o).

(** The state in which an outcome leaves the machine. *)
Definition state_of {A} (o : outcome kst A) : kst :=
  match o with Ret _ s | Panic _ s | Fault _ s | Spin _ s | Swtch s _ | NoFuel s => s end.

(** ** The machine *)
Definition sample_proc (pd : Z) (st : procstate) (cl lv dl arr : Z) : proc :=
  proc0 <| pid := pd |> <| state := st |> <| sched_class := cl |> <| sched_level := lv |>
    <| deadline := dl |> <| arrival_time := arr |> <| kstack := KERNBASE + 4096 * pd |>
    <| pgdir := KERNBASE + 1048576 + 4096 * pd |> <| chan := ch_proc 0 |> <| parent := Some 0%nat |>.

Definition sample_table : list proc :=
  [sample_proc 1 SLEEPING 2 2 1000000000 0;
   sample_proc 2 RUNNABLE 1 0 50 3;
   sample_proc 3 RUNNABLE 1 0 20 4;
   sample_proc 4 RUNNABLE 2 1 1000000000 5;
   sample_proc 5 RUNNABLE 2 2 1000000000 7;
   sample_proc 6 RUNNING 2 2 1000000000 9] ++ replicate 58 proc0.

(** CPU 0 is in its scheduler, CPU 1 runs the process in slot 5; [h] is the one
    that executes. *)
Definition sample_lstate (h : Z) : lstate := {|
  cpus := [Cpu 0 true 0 false None 0 0; Cpu 1 true 0 false (Some 5%nat) 0 0];
  ncpu := 2; here := h; ifl := ∅; cr3 := ∅; locks := ∅ |}.

Definition sample (h : Z) : kst := {|
  klk := sample_lstate h; ptab := sample_table;
  count_edf := 2; count_rr := 1; count_fcfs := 1; nextpid := 7; initproc := Some 0%nat;
  first := false; ticks := 900; cons_locking := true; screen := []; use_lock := true;
  freelist := 0; kpgdir := KERNBASE + 1048576; mem := ∅;
  sym_end := KERNBASE + 1048576; sym_data := KERNBASE + 1064960;
  fss := fsst0 |}.

(** ** The check is sound *)
Lemma proc_wfb_sound p : proc_wfb p = true -> proc_wf p.
Proof.
  unfold proc_wfb, proc_wf. rewrite !orb_true_iff, !andb_true_iff, !orb_true_iff, !Z.eqb_eq.
  rewrite bool_decide_eq_true. tauto.
Qed.

Lemma slots_elem pt i p : (i, p) ∈ slots pt <-> pt !! i = Some p.
Proof.
  unfold slots. rewrite list_elem_of_lookup. split.
  - intros [k Hk]. apply lookup_zip_Some in Hk as [H1 H2].
    apply lookup_seq in H1 as [-> _]. done.
  - intros Hi. exists i. apply lookup_zip_Some. split; [|done]. apply lookup_seq.
    split; [done|]. by eapply lookup_lt_Some.
Qed.

Lemma pids_okb_sound v : pids_okb (v_ptab v) (v_nextpid v) = true -> pids_ok v.
Proof.
  unfold pids_okb. intros [Hn Hall]%andb_true_iff. rewrite forallb_forall in Hall.
  assert (Hi : forall i p, v_ptab v !! i = Some p -> _) by (intros i p Hp; exact
    (Hall (i, p) (proj1 (list_elem_of_In _ _) (proj2 (slots_elem _ _ _) Hp)))).
  clear Hall. setoid_rewrite andb_true_iff in Hi. setoid_rewrite andb_true_iff in Hi.
  setoid_rewrite andb_true_iff in Hi.
  split; [|split; [|lia]].
  - intros i j p q Hp Hq E Hz. destruct (Hi i p Hp) as [_ Hu].
    apply orb_true_iff in Hu as [Hu|Hu]; [lia|]. rewrite forallb_forall in Hu.
    specialize (Hu (j, q) (proj1 (list_elem_of_In _ _) (proj2 (slots_elem _ _ _) Hq))).
    apply orb_true_iff in Hu as [Hu|Hu]; [by apply Nat.eqb_eq in Hu|]. lia.
  - intros p [i Hp]%list_elem_of_lookup. destruct (Hi i p Hp) as [[[H1 H2] H3] _].
    split; [lia|]. intros Hu Hz. apply orb_true_iff in H3 as [H3|H3]; [|lia].
    by apply bool_decide_eq_true in H3.
Qed.

Lemma NoDup_omap_inj {A B} (f : A -> option B) (l : list A) i j x y b :
  NoDup (omap f l) -> l !! i = Some x -> l !! j = Some y -> f x = Some b -> f y = Some b -> i = j.
Proof.
  revert i j. induction l as [|z l IH]; intros i j Hnd Hi Hj Hx Hy; [done|].
  assert (Hin : forall k w, l !! k = Some w -> f w = Some b -> b ∈ omap f l).
  { intros k w Hk Hw. apply list_elem_of_omap. exists w. split; [by eapply list_elem_of_lookup_2|done]. }
  simpl in Hnd. destruct i as [|i], j as [|j]; simplify_eq/=; [done|..].
  - rewrite Hx in Hnd. apply NoDup_cons in Hnd as [Hn _]. naive_solver.
  - rewrite Hy in Hnd. apply NoDup_cons in Hnd as [Hn _]. naive_solver.
  - f_equal. apply IH; try done. destruct (f z); [by apply NoDup_cons in Hnd as [_ ?]|done].
Qed.

Lemma run_okb_sound l pt : run_okb l pt = true -> run_ok false l pt.
Proof.
  unfold run_okb. rewrite !andb_true_iff, !forallb_forall. intros [[[H1 H2] H3] H4].
  apply bool_decide_eq_true in H2. split; [|split; [|split]].
  - intros c j (x & Hx & Hj). specialize (H1 x). rewrite Hj, andb_true_iff in H1.
    destruct H1 as [Hlt Hr]; [by eapply list_elem_of_In, list_elem_of_lookup_2|].
    apply Nat.ltb_lt in Hlt. apply bool_decide_eq_true in Hr. split; [done|].
    split; [by intros _ []|done].
  - intros c1 c2 j (x & Hx & Hj) (y & Hy & Hj'). by eapply NoDup_omap_inj.
  - intros j Hj Hs.
    specialize (H3 j (proj1 (list_elem_of_In _ _) (proj2 (in_procs j) Hj))).
    apply orb_true_iff in H3 as [H3|He%bool_decide_eq_true].
    { by rewrite (bool_decide_eq_true_2 _ Hs) in H3. }
    apply list_elem_of_omap in He as (x & Hx & Hp).
    apply list_elem_of_lookup in Hx as [c Hc]. by exists c, x.
  - apply Forall_fmap, Forall_forall. intros x Hx%list_elem_of_In. simpl.
    specialize (H4 x Hx). by apply Nat.ltb_lt in H4.
Qed.

Lemma hotb_sound o s : hotb o s = true -> hot o s.
Proof.
  unfold hotb. rewrite !andb_true_iff. intros [[[[[Hl Hw] Hc] Hp] Hr] Ho].
  apply Nat.eqb_eq in Hl. rewrite forallb_forall in Hw, Hc. split; [split|split].
  - split; [done|]. split.
    + apply Forall_forall. intros p Hin. by apply proc_wfb_sound, Hw, list_elem_of_In.
    + intros q. unfold zero. rewrite Z.add_0_r. apply Z.eqb_eq, Hc. destruct q; simpl; eauto.
  - by apply pids_okb_sound.
  - by apply run_okb_sound.
  - by apply bool_decide_eq_true in Ho.
Qed.

Lemma sample_idle : hot None (sample 0).
Proof. apply hotb_sound. by vm_compute. Qed.

Lemma sample_busy : hot (Some 5%nat) (sample 1).
Proof. apply hotb_sound. by vm_compute. Qed.

Lemma sample_lctx h i :
  this_cpu (sample_lstate h) = Some i -> lctx (sample_lstate h) i 0 ∅.
Proof.
  intros Ht. split; [split; [done| |done|done]|done|done].
  destruct (this_cpu_lookup _ _ Ht) as [c Hc]. exists c. split; [done|].
  destruct i as [|[|i]]; simplify_eq/=; done.
Qed.
