(* ===== verification/SchedOps.v ===== *)
(** Every operation of proc.c that works on processes keeps the invariant of
    SchedInv.v: counters, scheduling fields, pids, and who runs where. *)
From stdpp Require Import base tactics list numbers strings gmap.
From S2P Require Import Prelude CString State Spinlock Console Kalloc Vm Sched SchedInv.

#[local] Open Scope Z_scope.

(** ** Code that moves no process between queues *)
Definition same_keys (s s' : kst) : Prop :=
  forall j, sched_key (ptab s' !!! j) = sched_key (ptab s !!! j) /\
            pid (ptab s' !!! j) = pid (ptab s !!! j).

Definition keyed {A} (m : K A) : Prop :=
  forall δ ex o s Out In, inv δ ex o s ->
    wlp Out In (fun _ s' => inv δ ex o s' /\ same_keys s s') (m s).

Lemma keyed_quiet {A} (m : K A) : quiet m -> keyed m.
Proof.
  intros Hm δ ex o s Out In Hs. eapply wlp_quiet_inv; [done..|]. intros a s' Hs' E. split; [done|].
  intros j. apply (f_equal v_ptab) in E. simpl in E. by rewrite E.
Qed.

Lemma keyed_upd i f : same_key f -> keyed (upd_proc i f).
Proof.
  intros Hf δ ex o s Out In Hs. split; [by apply inv_upd_key|].
  intros j. pose proof (inv_length _ _ _ _ Hs) as Hl. simpl.
  destruct (decide (i = j)) as [->|Hne]; [|by rewrite lookup_total_alter_ne].
  destruct (decide (j < NPROC)%nat) as [Hj|Hj].
  - rewrite lookup_total_alter_eq by lia. apply Hf.
  - rewrite list_alter_none; [done|]. apply lookup_ge_None. lia.
Qed.

Lemma same_keys_refl s : same_keys s s.
Proof. intros j. split; reflexivity. Qed.

Lemma same_keys_trans s1 s2 s3 : same_keys s1 s2 -> same_keys s2 s3 -> same_keys s1 s3.
Proof.
  intros H1 H2 j. destruct (H1 j) as [E1 F1], (H2 j) as [E2 F2].
  split; [by rewrite E2|by rewrite F2].
Qed.

Lemma keyed_bind {A B} (m : K A) (f : A -> K B) :
  keyed m -> (forall a, keyed (f a)) -> keyed (m ≫= f).
Proof.
  intros Hm Hf δ ex o s Out In Hs. apply exec_bind. eapply exec_mono; [|by apply Hm].
  intros a s1 [H1 K1]. eapply exec_mono; [|by apply Hf]. intros b s2 [H2 K2].
  split; [done|]. by eapply same_keys_trans.
Qed.

Lemma keyed_with_ticks i f : (forall t, same_key (f t)) -> keyed (with_ticks i f).
Proof.
  intros Hf. unfold with_ticks.
  repeat (intros; first [by apply keyed_upd|apply keyed_quiet; solve [eauto with quietdb]
    |apply keyed_bind]).
Qed.

Lemma wlp_keyed {A} Out In (Q : A -> kst -> Prop) (m : K A) δ ex o s :
  keyed m -> inv δ ex o s ->
  (forall a s', inv δ ex o s' -> same_keys s s' -> Q a s') -> wlp Out In Q (m s).
Proof. intros Hm Hs HQ. eapply exec_mono; [|by apply Hm]. intros a s' []. by apply HQ. Qed.

Lemma same_key_queue q p p' : sched_key p' = sched_key p -> in_queue q p' = in_queue q p.
Proof. unfold sched_key, in_queue. by intros [= _ -> ->]. Qed.

#[export] Hint Extern 1 (same_key _) => (intros ?; split; reflexivity) : quietdb.
#[export] Hint Resolve keyed_upd keyed_with_ticks : quietdb.
#[export] Hint Extern 2 (keyed _) => (apply keyed_quiet; solve [eauto with quietdb]) : quietdb.

(** A keyed call in a handler. *)
Ltac kstep H s' Hk :=
  apply exec_bind; eapply wlp_keyed; [solve [eauto with quietdb]|exact H|];
  clear H; intros ? s' H Hk.

(** ** Becoming RUNNABLE and ceasing to be *)

(** The counter of a process that has just become RUNNABLE catches up. *)
Lemma wlp_count_inc ex o i p s Out In (Q : unit -> kst -> Prop) :
  inv (fun q => - b2z (in_queue q p)) ex o s -> sched_key (ptab s !!! i) = sched_key p ->
  (forall s', inv zero ex o s' -> ptab s' = ptab s -> klk s' = klk s -> Q tt s') ->
  wlp Out In Q (count_inc i s).
Proof.
  intros Hs Hk HQ. eapply wlp_add_count; [exact Hs|]. intros s' Hs' Hp Hl _.
  apply HQ; [|done..]. eapply inv_ext; [|exact Hs'].
  intros q. simpl. rewrite (same_key_queue q _ _ Hk). unfold zero. lia.
Qed.

Lemma wlp_count_dec ex o i p s Out In (Q : unit -> kst -> Prop) :
  inv (fun q => b2z (in_queue q p)) ex o s -> sched_key (ptab s !!! i) = sched_key p ->
  (forall s', inv zero ex o s' -> ptab s' = ptab s -> klk s' = klk s -> Q tt s') ->
  wlp Out In Q (count_dec i s).
Proof.
  intros Hs Hk HQ. eapply wlp_add_count; [exact Hs|]. intros s' Hs' Hp Hl _.
  apply HQ; [|done..]. eapply inv_ext; [|exact Hs'].
  intros q. simpl. rewrite (same_key_queue q _ _ Hk). unfold zero. lia.
Qed.

(** Setting the state of process [i] to RUNNABLE, up to its counter. *)
Lemma inv_set_runnable ex ex' o s i :
  inv zero ex o s -> (i < NPROC)%nat ->
  state (ptab s !!! i) <> UNUSED -> state (ptab s !!! i) <> RUNNABLE ->
  run_ok ex' (klk s) (alter (fun p => p <| state := RUNNABLE |>) i (ptab s)) ->
  inv (fun q => - b2z (in_queue q ((ptab s !!! i) <| state := RUNNABLE |>))) ex' o
    (s <| ptab ::= alter (fun p => p <| state := RUNNABLE |>) i |>).
Proof.
  intros Hs Hi Hu Hn Hr. eapply inv_ext; [|by apply (inv_upd_state zero ex ex' o s i)].
  intros q. simpl. rewrite bool_decide_false by done. unfold zero. simpl.
  change (in_queue q ((ptab s !!! i) <| state := RUNNABLE |>)) with (in_queue q (ptab s !!! i)). lia.
Qed.

Lemma wlp_make_runnable ex o i s Out In :
  inv zero ex o s -> (i < NPROC)%nat -> state (ptab s !!! i) = SLEEPING ->
  wlp Out In (fun _ => inv zero ex o) (make_runnable i s).
Proof.
  intros Hs Hi Hst. unfold make_runnable. pose proof (inv_length _ _ _ _ Hs) as Hl.
  apply exec_bind. change (upd_proc i ?f s) with (Ret tt (s <| ptab ::= alter f i |>)).
  pose proof (inv_set_runnable ex ex o s i Hs Hi ltac:(congruence) ltac:(congruence)) as H1.
  lapply H1; [clear H1; intros H1|].
  2: { apply run_ok_alter; [done|apply Hs|]. rewrite Hst. simpl. naive_solver. }
  simpl. kstep H1 s2 Hk2. eapply wlp_count_inc; [exact H1| |done].
  rewrite (proj1 (Hk2 i)). simpl. by rewrite lookup_total_alter_eq by lia.
Qed.

(** ** The current process *)
Lemma wlp_mycpu Out In (Q : nat -> kst -> Prop) s :
  (forall i, this_cpu (klk s) = Some i -> Q i s) -> wlp Out In Q (mycpu s).
Proof.
  intros HQ. unfold mycpu, readeflags_IF, lapicid, mbind, M_bind, gets. simpl.
  destruct (default false _); simpl; [done|]. fold (this_cpu (klk s)).
  destruct (this_cpu (klk s)) as [i|] eqn:E; simpl; [|done]. by apply HQ.
Qed.

Lemma wlp_myproc Out In (Q : option nat -> kst -> Prop) δ ex o s :
  inv δ ex o s -> (forall s', inv δ ex o s' -> view s' = view s -> Q o s') ->
  wlp Out In Q (myproc s).
Proof.
  intros Hs HQ. unfold myproc. apply exec_bind. eapply wlp_quiet_inv; [|exact Hs|].
  { eauto with quietdb lockdb. }
  intros _ s1 H1 E1. apply exec_bind, wlp_mycpu. intros i Hi. apply exec_bind. simpl.
  apply exec_bind. eapply wlp_quiet_inv; [|exact H1|].
  { eauto with quietdb lockdb. }
  intros _ s2 H2 E2. simpl.
  enough (cpu_proc (cpus (klk s1) !!! i) = o) as -> by (apply HQ; [done|by rewrite E2]).
  destruct H1 as (_ & _ & <-). unfold cur. rewrite Hi. simpl.
  destruct (this_cpu_lookup _ _ Hi) as [c Hc].
  by rewrite (list_lookup_total_correct _ _ _ Hc), Hc.
Qed.

(** A quiet call in a handler. *)
Ltac qstep H s' E :=
  apply exec_bind; eapply wlp_quiet_inv; [solve [eauto with quietdb lockdb]|exact H|];
  clear H; intros ? s' H E.

Lemma wlp_sched o s : leaving o s -> wlp (leaving o) (hot o) (fun _ => hot o) (sched s).
Proof.
  intros Hs. unfold sched. qstep Hs s1 E1. qstep Hs s2 E2.
  destruct (negb _); [done|]. qstep Hs s3 E3. apply exec_bind. simpl.
  destruct (negb _); [done|]. apply exec_bind. destruct a as [j|]; simpl; [|done].
  apply exec_bind. simpl. case_decide; [done|]. apply exec_bind. simpl.
  destruct (default _ _); simpl; [done|].
  split; [done|]. intros s' Hs'. qstep Hs' s4 E4.
  eapply wlp_quiet_inv; [|exact Hs'|]; [by eauto with quietdb|done].
Qed.

(** ** Handlers *)
Lemma handles_yield o : handles o yield.
Proof.
  intros s Hs. unfold yield. qstep Hs s0 E0. apply exec_bind.
  eapply wlp_myproc; [exact Hs|]. clear Hs. intros s1 Hs _.
  destruct o as [j|]; simpl; [|done].
  pose proof (inv_cur_lt _ _ _ _ Hs) as Hj. pose proof (inv_length _ _ _ _ Hs) as Hl.
  pose proof (hot_running _ _ _ Hs) as Hr.
  apply exec_bind. simpl. apply exec_bind. simpl.
  assert (H1 := inv_set_runnable false true (Some j) s1 j Hs Hj ltac:(congruence) ltac:(congruence)).
  lapply H1; [clear H1; intros H1|by apply run_ok_leave; [done|apply Hs..|]].
  kstep H1 s2 Hk. apply exec_bind. eapply wlp_count_inc; [exact H1| |].
  { rewrite (proj1 (Hk j)). simpl. by rewrite lookup_total_alter_eq by lia. }
  intros s3 H3 _ _. apply exec_bind. eapply exec_mono; [|by apply wlp_sched].
  intros [] s4 H4. eapply wlp_quiet_inv; [|exact H4|]; by eauto with quietdb.
Qed.

(** Setting the state of the current process to something that cannot run. *)
Lemma inv_stop j s f :
  hot (Some j) s -> state (f (ptab s !!! j)) <> RUNNING -> state (f (ptab s !!! j)) <> RUNNABLE ->
  (forall p, pid (f p) = pid p) ->
  sched_class (f (ptab s !!! j)) = sched_class (ptab s !!! j) ->
  sched_level (f (ptab s !!! j)) = sched_level (ptab s !!! j) ->
  leaving (Some j) (s <| ptab ::= alter f j |>).
Proof.
  intros Hs Hn1 Hn2 Hpid Hcl Hlv. pose proof (hot_running _ _ _ Hs) as Hr.
  pose proof (inv_length _ _ _ _ Hs) as Hl. pose proof (inv_cur_lt _ _ _ _ Hs) as Hj.
  eapply inv_ext; [|apply (inv_upd_state zero false true (Some j) s j); try done; [congruence|]].
  - intros q. rewrite !bool_decide_false by congruence. unfold zero. simpl. lia.
  - apply run_ok_leave; [done|apply Hs..|done].
Qed.

Lemma handles_sleep o ch lk : handles o (sleep ch lk).
Proof.
  intros s Hs. unfold sleep. apply exec_bind.
  eapply wlp_myproc; [exact Hs|]. clear Hs. intros s1 Hs _.
  destruct o as [j|]; simpl; [|done].
  assert (Hq : quiet (mwhen (bool_decide (lk <> ptable_lock)) (acquire ptable_lock;; release lk))).
  { quiet_walk. }
  assert (Hq' : quiet (mwhen (bool_decide (lk <> ptable_lock)) (release ptable_lock;; acquire lk))).
  { quiet_walk. }
  qstep Hs s2 E2. kstep Hs s3 K3. apply exec_bind. simpl.
  pose proof (hot_running _ _ _ Hs) as Hr. rewrite Hr. simpl. apply exec_bind.
  simpl. apply exec_bind. simpl. apply exec_bind.
  eapply exec_mono; [|by apply wlp_sched, (inv_stop j s3)].
  intros [] s4 H4. kstep H4 s5 K5. by eapply wlp_quiet_inv; [|exact H4|].
Qed.

Lemma wlp_wakeup1 ex o ch s Out In :
  inv zero ex o s -> wlp Out In (fun _ => inv zero ex o) (wakeup1 ch s).
Proof.
  intros Hs. unfold wakeup1. apply (exec_for_all _ _ _ _ (fun _ => inv zero ex o)); [done|].
  intros l1 i l2 s1 Hl H1. apply exec_bind. simpl.
  destruct (bool_decide (state (ptab s1 !!! i) = SLEEPING)) eqn:E; simpl; [|done].
  apply bool_decide_eq_true in E. destruct (bool_decide _); simpl; [|done].
  apply wlp_make_runnable; [done| |done]. apply in_procs. rewrite Hl. set_solver.
Qed.

Lemma handles_wakeup o ch : handles o (wakeup ch).
Proof.
  intros s Hs. unfold wakeup. qstep Hs s1 E1. apply exec_bind.
  eapply exec_mono; [|by apply wlp_wakeup1]. intros [] s2 H2.
  eapply wlp_quiet_inv; [|exact H2|]; by eauto with quietdb.
Qed.

(** A search through the table under [ptable.lock] for the process with a pid. *)
Lemma wlp_for_pid o (body : nat -> proc -> K Z) pd s :
  hot o s ->
  (forall i s', hot o s' -> ptab s' = ptab s -> (i < NPROC)%nat -> pid (ptab s !!! i) = pd ->
    wlp (leaving o) (hot o) (fun _ => hot o) (body i (ptab s !!! i) s')) ->
  wlp (leaving o) (hot o) (fun _ => hot o) (for_pid pd body s).
Proof.
  intros Hs Hb. unfold for_pid. qstep Hs s1 E1. apply exec_bind.
  apply (f_equal v_ptab) in E1. simpl in E1.
  eapply exec_mono with (Q := fun _ => hot o).
  { intros [v|] s2 H2; [done|]. eapply wlp_quiet_inv; [quiet_walk|exact H2|done]. }
  eapply (exec_for_each _ _ _ _ (fun _ s' => hot o s' /\ ptab s' = ptab s));
    [done|by intros ? []|].
  intros l1 i l2 s2 Hl [H2 E2]. apply exec_bind. simpl. rewrite E2.
  destruct (pid (ptab s !!! i) =? pd) eqn:E; [|done]. apply Z.eqb_eq in E.
  apply exec_bind. eapply exec_mono; [|apply Hb; try done].
  - by intros v s3 H3.
  - apply in_procs. rewrite Hl. set_solver.
Qed.

Lemma handles_quiet {A} o (m : K A) : quiet m -> handles o m.
Proof. intros Hm s Hs. by eapply wlp_quiet_inv; [|exact Hs|]. Qed.

Lemma handles_kill o pd : handles o (kill pd).
Proof.
  unfold kill. intros s0 Hs0. apply wlp_for_pid; [done|]. clear Hs0. intros i s Hs <- Hi _. set (p := ptab s !!! i). kstep Hs s1 K1. apply exec_bind.
  assert (Hq : quiet (release ptable_lock;; mret 0)) by quiet_walk.
  destruct (bool_decide (state p = SLEEPING)) eqn:E; simpl.
  - apply bool_decide_eq_true in E. eapply exec_mono.
    2: { apply wlp_make_runnable; [done..|]. destruct (K1 i) as [[= -> _ _] _]. done. }
    intros [] s2 H2. by eapply wlp_quiet_inv; [|exact H2|].
  - by eapply wlp_quiet_inv; [|exact Hs|].
Qed.

(** *** Changing the scheduling parameters *)

(** Counters moved by hand. *)
Lemma inv_counts δ ex o s de dr df :
  inv δ ex o s ->
  inv (fun q => δ q + match q with Q_EDF => de | Q_RR => dr | Q_FCFS => df end) ex o
    (s <| count_edf ::= Z.add de |> <| count_rr ::= Z.add dr |> <| count_fcfs ::= Z.add df |>).
Proof.
  intros (((Hl & Hw & Hc) & Hp) & Hr). split; [split; [|done]|done]. split; [done|split; [done|]].
  intros q. specialize (Hc q). destruct q; unfold cnt in *; simpl in *; lia.
Qed.

(** A process gets another class or level; its state and pid stay. *)
Lemma inv_upd_class δ ex o s i f :
  inv δ ex o s -> (i < NPROC)%nat -> proc_wf (f (ptab s !!! i)) ->
  (forall p, pid (f p) = pid p /\ state (f p) = state p) ->
  (forall q, δ q + b2z (ready q (ptab s !!! i)) = b2z (ready q (f (ptab s !!! i)))) ->
  inv zero ex o (s <| ptab ::= alter f i |>).
Proof.
  intros Hs Hi Hw Hf Hδ. pose proof (inv_length _ _ _ _ Hs) as Hl.
  destruct Hs as (Hd & Hr & Hc). split; [|split; [|done]].
  - eapply dev_ext; [|apply (dev_alter δ (view s) i f); try done; [by apply Hf|]].
    + intros q. simpl. rewrite Hδ. unfold zero. lia.
    + simpl. by rewrite (proj2 (Hf _)).
  - apply run_ok_alter; [done..|]. by rewrite (proj2 (Hf _)).
Qed.

Lemma inv_wf δ ex o s i : inv δ ex o s -> (i < NPROC)%nat -> proc_wf (ptab s !!! i).
Proof. intros ((Hs & _) & _) Hi. by apply (sdev_wf _ _ i Hs Hi). Qed.

Lemma ready_edf q p : state p = RUNNABLE -> sched_class p = 1 ->
  ready q p = match q with Q_EDF => true | _ => false end.
Proof. unfold ready, in_queue. intros -> ->. by destruct q. Qed.

Lemma ready_normal q p : state p = RUNNABLE -> sched_class p = 2 ->
  ready q p = match q with Q_EDF => false | Q_RR => sched_level p =? 1
    | Q_FCFS => sched_level p =? 2 end.
Proof. unfold ready, in_queue. intros -> ->. by destruct q. Qed.

Lemma ready_not q p : state p <> RUNNABLE -> ready q p = false.
Proof. unfold ready. intros H. by rewrite bool_decide_false. Qed.

Lemma handles_set_deadline o pd dl : handles o (set_deadline_for_process pd dl).
Proof.
  unfold set_deadline_for_process. destruct (dl <? 0); [apply handles_quiet; quiet_walk|].
  intros s0 Hs0. apply wlp_for_pid; [done|]. clear Hs0. intros i s Hs <- Hi _. set (p := ptab s !!! i). apply exec_bind.
  set (f := fun p : proc => p <| sched_level := 0 |> <| sched_class := 1 |> <| deadline := dl |>).
  assert (Hend : forall δ s1, inv δ false o s1 -> ptab s1 = ptab s ->
    (forall q, δ q + b2z (ready q p) = b2z (ready q (f p))) ->
    wlp (leaving o) (hot o) (fun _ => hot o)
      ((upd_proc i f;; cprintf ("PID %d : Deadline = %d " +:+ nl) [AInt pd; AInt dl];;
        release ptable_lock;; mret 0) s1)).
  { intros δ s1 H1 E1 Hδ. apply exec_bind.
    assert (H2 : hot o (s1 <| ptab ::= alter f i |>)).
    { apply (inv_upd_class δ); rewrite ?E1; try done. right. by left. }
    simpl. eapply wlp_quiet_inv; [quiet_walk|exact H2|done]. }
  destruct (bool_decide (state p = RUNNABLE)) eqn:E; simpl.
  - apply bool_decide_eq_true in E.
    pose proof (inv_wf _ _ _ _ i Hs Hi) as Hw. fold p in Hw.
    destruct Hw as [E'|[[Hc Hv]|[Hc [Hv|Hv]]]]; [congruence|..]; rewrite Hv; simpl.
    + apply (Hend zero); [done..|]. intros q. rewrite !ready_edf by done. unfold zero. lia.
    + eapply Hend; [exact (inv_counts zero false o s 1 (-1) 0 Hs)|done|].
      intros q. rewrite ready_normal, ready_edf by done. rewrite Hv. by destruct q.
    + eapply Hend; [exact (inv_counts zero false o s 1 0 (-1) Hs)|done|].
      intros q. rewrite ready_normal, ready_edf by done. rewrite Hv. by destruct q.
  - apply bool_decide_eq_false in E. apply (Hend zero); [done..|].
    intros q. rewrite !ready_not by done. done.
Qed.

(** [change_sched_level] keeps the counters right for normal processes; on an EDF
    process it breaks them. *)
Definition level_change_ok (s : kst) (pd : Z) : Prop :=
  forall i, (i < NPROC)%nat -> pid (ptab s !!! i) = pd ->
    state (ptab s !!! i) = UNUSED \/ sched_class (ptab s !!! i) = 2.

Lemma wlp_change_sched_level o pd lv s :
  hot o s -> level_change_ok s pd ->
  wlp (leaving o) (hot o) (fun _ => hot o) (change_sched_level pd lv s).
Proof.
  intros Hs Hg. unfold change_sched_level.
  destruct (negb (lv =? 1) && negb (lv =? 2)) eqn:Elv; [by apply handles_quiet; [quiet_walk|]|].
  apply wlp_for_pid; [done|]. clear Hs. intros i s' Hs Ept Hi Hpid. specialize (Hg i Hi Hpid).
  pose proof (inv_wf _ _ _ _ i Hs Hi) as Hw. rewrite Ept in Hw. set (p := ptab s !!! i) in *.
  destruct (sched_level p =? lv) eqn:Esame; [by apply handles_quiet; [quiet_walk|]|].
  set (f := fun p : proc => p <| sched_level := if lv =? 2 then 2 else 1 |>). apply exec_bind.
  assert (Hend : forall δ s1, inv δ false o s1 -> ptab s1 = ptab s ->
    (forall q, δ q + b2z (ready q p) = b2z (ready q (f p))) ->
    wlp (leaving o) (hot o) (fun _ => hot o)
      ((cprintf ("PID %d : Level %d to %d" +:+ nl) [AInt pd; AInt (sched_level p); AInt lv];;
        upd_proc i f;; release ptable_lock;; mret 0) s1)).
  { clear Hs. intros δ s1 H1 E1 Hδ. qstep H1 s2 E2. apply (f_equal v_ptab) in E2. simpl in E2.
    apply exec_bind. assert (H2 : hot o (s2 <| ptab ::= alter f i |>)).
    { apply (inv_upd_class δ); rewrite ?E2, ?E1; try done. fold p. unfold proc_wf, f. simpl.
      destruct Hg; [by left|right; right]. destruct (lv =? 2); eauto. }
    simpl. eapply wlp_quiet_inv; [quiet_walk|exact H2|done]. }
  destruct (bool_decide (state p = RUNNABLE)) eqn:E; simpl.
  - apply bool_decide_eq_true in E. destruct Hg as [Hg|Hg]; [congruence|].
    destruct Hw as [Hw|[[Hw _]|[_ [Hw|Hw]]]]; try congruence;
      (rewrite (f_equal (fun x => x =? 1) Hw : (sched_level p =? 1) = _); simpl).
    + eapply Hend; [exact (inv_counts zero false o s' 0 (-1) 1 Hs)|done|].
      intros q. rewrite !ready_normal by done. unfold f. simpl. rewrite Hw.
      destruct (lv =? 2) eqn:E2; [by destruct q|]. destruct q; simpl; lia.
    + eapply Hend; [exact (inv_counts zero false o s' 0 1 (-1) Hs)|done|].
      intros q. rewrite !ready_normal by done. unfold f. simpl. rewrite Hw.
      destruct (lv =? 2) eqn:E2; [|by destruct q]. destruct q; simpl; lia.
  - apply bool_decide_eq_false in E. apply (Hend zero); [done..|].
    intros q. rewrite !ready_not by done. done.
Qed.

(** A pid names one process only, so the aging pass changes the process it means. *)
Lemma level_change_ok_pid δ ex o s i :
  inv δ ex o s -> (i < NPROC)%nat -> state (ptab s !!! i) <> UNUSED ->
  sched_class (ptab s !!! i) = 2 -> level_change_ok s (pid (ptab s !!! i)).
Proof.
  intros Hs Hi Hu Hc j Hj Hp. right. pose proof (inv_length _ _ _ _ Hs) as Hl.
  destruct Hs as ((_ & Hpid) & _).
  rewrite (pids_unique (view s) i (ptab s !!! i) (ptab s !!! j)); try done.
  - by apply ptab_lookup.
  - apply list_elem_of_lookup_total_2. simpl. lia.
Qed.

Lemma handles_update_wait_time o t : handles o (update_wait_time t).
Proof.
  intros s Hs. unfold update_wait_time. qstep Hs s1 E1. apply exec_bind.
  eapply exec_mono with (Q := fun _ => hot o).
  { intros [] s2 H2. eapply wlp_quiet_inv; [quiet_walk|exact H2|done]. }
  apply (exec_for_all _ _ _ _ (fun _ => hot o)); [done|]. clear.
  intros l1 i l2 s Hl Hs. assert (Hi : (i < NPROC)%nat) by (apply in_procs; rewrite Hl; set_solver).
  apply exec_bind. simpl.
  destruct (bool_decide (state (ptab s !!! i) = RUNNABLE)) eqn:E; simpl; [|done].
  apply bool_decide_eq_true in E. kstep Hs s1 K1. apply exec_bind. simpl.
  set (p := ptab s1 !!! i). destruct (sched_class p =? 2) eqn:Ec; simpl; [|done].
  destruct (sched_level p =? 2) eqn:El; simpl; [|done].
  destruct (AGING_THRESHOLD <=? waited_ticks p); simpl; [|done].
  qstep Hs s2 E2. apply (f_equal v_ptab) in E2. simpl in E2. apply exec_bind.
  assert (Hg : level_change_ok s2 (pid p)).
  { unfold p. rewrite <-E2. eapply level_change_ok_pid; [done..| |]; rewrite E2; fold p.
    - destruct (K1 i) as [[= Ek _ _] _]. fold p in Ek. congruence.
    - by apply Z.eqb_eq. }
  eapply exec_mono; [|by apply wlp_change_sched_level]. intros v s3 H3. qstep H3 s4 E4.
  eapply wlp_keyed; [|exact H3|done]. eauto with quietdb.
Qed.

Lemma handles_is_higher_waiting o : handles o is_higher_waiting.
Proof.
  intros s Hs. unfold is_higher_waiting. apply exec_bind. simpl. apply exec_bind. simpl.
  destruct (_ || _); [|done]. apply exec_bind. eapply exec_mono; [|by apply handles_yield].
  by intros [] s'.
Qed.

(** *** allocproc *)
Lemma pids_new v i p f :
  pids_ok v -> v_ptab v !! i = Some p -> pid (f p) = v_nextpid v ->
  v_nextpid v < 2 ^ 31 - 1 ->
  pids_ok (Pview (v_cpus v) (alter f i (v_ptab v)) (v_counts v) (i32 (v_nextpid v + 1))).
Proof.
  intros (Hu & Hb & Hn) Hi Hf Hlim.
  assert (Hnp : i32 (v_nextpid v + 1) = v_nextpid v + 1) by (apply i32_small; unfold in_i32; lia).
  rewrite Hnp. rewrite (list_alter_as_insert _ _ _ _ Hi).
  assert (Hold : forall j q, v_ptab v !! j = Some q -> pid q < v_nextpid v).
  { intros j q Hj. apply (Hb q). by eapply list_elem_of_lookup_2. }
  split; [|split]; simpl; [| |lia].
  - intros j1 j2 q1 q2 H1 H2. apply list_lookup_insert_Some in H1, H2.
    destruct H1 as [(<- & <- & _)|[Hn1 H1]], H2 as [(<- & <- & _)|[Hn2 H2]]; [done|..].
    + specialize (Hold _ _ H2). lia.
    + specialize (Hold _ _ H1). lia.
    + eapply Hu; eauto.
  - intros q [j Hj]%list_elem_of_lookup. apply list_lookup_insert_Some in Hj.
    destruct Hj as [(<- & <- & _)|[_ Hj]]; [rewrite Hf; lia|].
    apply list_elem_of_lookup_2 in Hj. specialize (Hb _ Hj). split; [lia|apply Hb].
Qed.

Lemma hot_embryo o s i :
  hot o s -> (i < NPROC)%nat -> state (ptab s !!! i) = UNUSED -> nextpid s < 2 ^ 31 - 1 ->
  hot o (s <| ptab ::= alter (embryo (nextpid s)) i |> <| nextpid := i32 (nextpid s + 1) |>).
Proof.
  intros Hs Hi Hu Hn. pose proof (inv_length _ _ _ _ Hs) as Hl. destruct Hs as ((Hd & Hp) & Hr & Hc).
  split; [split|split; [|done]].
  - assert (Ha := sdev_alter zero (view s) i (embryo (nextpid s)) Hd Hi).
    lapply Ha; [clear Ha; intros Ha|by right; right; split; [|right]].
    eapply sdev_ext in Ha; [exact Ha|]. intros q. simpl. rewrite !ready_not by (simpl; congruence).
    done.
  - by eapply (pids_new (view s) i (ptab s !!! i)); [|apply ptab_lookup|..].
  - apply run_ok_alter; [done..|]. rewrite Hu. simpl. naive_solver.
Qed.

Definition embryo_key : procstate * Z * Z := (EMBRYO, 2, 2).

(** Giving the slot of an EMBRYO back. *)
Lemma inv_unembryo o s i :
  hot o s -> (i < NPROC)%nat -> sched_key (ptab s !!! i) = embryo_key ->
  hot o (s <| ptab ::= alter (fun p => p <| state := UNUSED |>) i |>).
Proof.
  intros Hs Hi [= Hst Hc Hv].
  eapply inv_ext; [|apply (inv_upd_state zero false false o s i); try done; [congruence|]].
  - intros q. rewrite Hst. simpl. unfold zero. lia.
  - apply run_ok_alter; [by eapply inv_length|apply Hs|]. rewrite Hst. simpl. naive_solver.
Qed.

Lemma wlp_allocproc o s :
  hot o s -> nextpid s < 2 ^ 31 - 1 ->
  wlp (leaving o) (hot o) (fun r s' => hot o s' /\
    forall i, r = Some i -> (i < NPROC)%nat /\ sched_key (ptab s' !!! i) = embryo_key) (allocproc s).
Proof.
  intros Hs Hn. unfold allocproc. qstep Hs s1 E1.
  assert (En : nextpid s1 = nextpid s) by exact (f_equal v_nextpid E1). rewrite <-En in Hn.
  clear s E1 En. apply exec_bind.
  eapply exec_mono with (Q := fun r s => s = s1 /\
    forall i, r = Some i -> (i < NPROC)%nat /\ state (ptab s1 !!! i) = UNUSED).
  2: { eapply (exec_for_each _ _ _ _ (fun _ s' => s' = s1)); [done|by intros ? ->|].
    intros l1 i l2 s Hl ->. apply exec_bind. simpl. case_decide; simpl; [|done].
    split; [done|]. intros ? [= <-]. split; [|done]. apply in_procs. rewrite Hl. set_solver. }
  intros [i|] s [-> Hi].
  - destruct (Hi i eq_refl) as [Hlt Hu]. clear Hi. pose proof (hot_embryo _ _ _ Hs Hlt Hu Hn) as H2.
    apply exec_bind. simpl. apply exec_bind. simpl. apply exec_bind. simpl.
    assert (K2 : sched_key (alter (embryo (nextpid s1)) i (ptab s1) !!! i) = embryo_key).
    { rewrite lookup_total_alter_eq by (rewrite (inv_length _ _ _ _ Hs); lia). done. }
    rename H2 into H3. kstep H3 s3 K3. kstep H3 s4 K4. kstep H3 s5 K5.
    assert (K6 : sched_key (ptab s5 !!! i) = embryo_key).
    { by rewrite (proj1 (K5 i)), (proj1 (K4 i)), (proj1 (K3 i)). }
    destruct (_ =? 0); apply exec_bind.
    + simpl. split; [|done]. by apply inv_unembryo.
    + eapply wlp_keyed; [apply keyed_upd; by intros []|exact H3|].
      intros [] s6 H6 K7. split; [done|]. intros ? [= <-]. split; [done|]. by rewrite (proj1 (K7 i)).
  - qstep Hs s2 E2. done.
Qed.

(** ** Composing handlers *)
Lemma handles_bind {A B} o (m : K A) (f : A -> K B) :
  handles o m -> (forall a, handles o (f a)) -> handles o (m ≫= f).
Proof.
  intros Hm Hf s Hs. apply exec_bind. eapply exec_mono; [|by apply Hm].
  intros a s' Hs'. by apply Hf.
Qed.

Lemma handles_keyed {A} o (m : K A) : keyed m -> handles o m.
Proof. intros Hm s Hs. eapply wlp_keyed; [done|exact Hs|done]. Qed.

Lemma handles_when o b m : handles o m -> handles o (mwhen b m).
Proof. destruct b; [done|]. intros _ s Hs. done. Qed.

Lemma handles_for_all {J} o (l : list J) (body : J -> K unit) :
  (forall i, handles o (body i)) -> handles o (for_all l body).
Proof.
  intros Hb s Hs. apply (exec_for_all _ _ _ _ (fun _ => hot o)); [done|].
  intros l1 i l2 s1 _ Hs1. by apply Hb.
Qed.

Lemma handles_for_each {J R} o (l : list J) (body : J -> K (option R)) :
  (forall i, handles o (body i)) -> handles o (for_each l body).
Proof.
  intros Hb s Hs. apply (exec_for_each _ _ _ _ (fun _ => hot o)); [done|done|].
  intros l1 i l2 s1 _ Hs1. eapply exec_mono; [|by apply Hb]. by intros [] s'.
Qed.

Lemma keyed_for_all {J} (l : list J) (body : J -> K unit) :
  (forall i, keyed (body i)) -> keyed (for_all l body).
Proof.
  intros Hb. induction l as [|i l IH]; [apply keyed_quiet, quiet_ret|].
  simpl. apply keyed_bind; [apply Hb|done].
Qed.

Create HintDb handledb.
#[export] Hint Resolve handles_yield handles_sleep handles_wakeup handles_kill : handledb.
#[export] Hint Extern 4 (handles _ _) => (apply handles_keyed; solve [eauto with quietdb]) : handledb.

(** Walk through code that moves no process between queues; through a handler. *)
Ltac keyed_walk :=
  repeat first
    [ progress intros
    | lazymatch goal with
      | |- keyed (for_all _ _) => apply keyed_for_all
      | |- keyed (_ ≫= _) => apply keyed_bind
      | |- keyed (if ?b then _ else _) => destruct b
      | |- keyed (match ?o with Some _ => _ | None => _ end) => destruct o
      end
    | solve [eauto with quietdb] ].

Ltac handles_walk :=
  repeat first
    [ progress intros
    | lazymatch goal with
      | |- handles _ (for_all _ _) => apply handles_for_all
      | |- handles _ (for_each _ _) => apply handles_for_each
      | |- handles _ (mwhen _ _) => apply handles_when
      | |- handles _ (_ ≫= _) => apply handles_bind
      | |- handles _ (if ?b then _ else _) => destruct b
      | |- handles _ (match (if ?b then _ else _) with Some _ => _ | None => _ end) =>
          destruct b; cbv beta iota
      | |- handles _ (match ?o with Some _ => _ | None => _ end) => destruct o
      | |- handles _ (match ?o with inl _ => _ | inr _ => _ end) => destruct o
      | |- handles _ (modify _) => apply handles_quiet, quiet_modify; by intros
      end
    | solve [eauto with handledb] ].
