(* ===== verification/ProcessOps.v ===== *)
(** Creation, exit and reaping of processes keep the scheduler invariant. *)
From stdpp Require Import base tactics list numbers strings gmap.
From S2P Require Import Prelude CString FsTypes State Spinlock Console Kalloc Vm Sched Process SchedInv Sample SchedOps.

#[local] Open Scope Z_scope.

(** ** vm.c works on memory and page frames only *)
Lemma quiet_load32 a : quiet (load32 a).
Proof. apply quiet_gets. Qed.
Lemma quiet_set_mem f : quiet (set_mem f).
Proof. by apply quiet_modify. Qed.
Lemma quiet_store32 a v : quiet (store32 a v).
Proof. apply quiet_set_mem. Qed.
#[export] Hint Resolve quiet_load32 quiet_set_mem quiet_store32 : quietdb.

Lemma quiet_walkpgdir pg va b : quiet (walkpgdir pg va b).
Proof. unfold walkpgdir. quiet_walk. Qed.
#[export] Hint Resolve quiet_walkpgdir : quietdb.

Lemma quiet_mappages pg va size pa perm : quiet (mappages pg va size pa perm).
Proof.
  unfold mappages. generalize page_fuel (PGROUNDDOWN va) (PGROUNDDOWN (u32 (va + size - 1))). clear.
  intros f a last. revert a pa. induction f as [|f IH]; intros a pa; simpl; quiet_walk.
Qed.
#[export] Hint Resolve quiet_mappages : quietdb.

Lemma quiet_deallocuvm pg o n : quiet (deallocuvm pg o n).
Proof.
  unfold deallocuvm. assert (Hl : forall f a, quiet (deallocuvm_loop f pg a o)).
  { induction f as [|f IH]; intros a; simpl; quiet_walk. }
  quiet_walk.
Qed.
#[export] Hint Resolve quiet_deallocuvm : quietdb.

Lemma quiet_freevm pg : quiet (freevm pg).
Proof. unfold freevm. quiet_walk. Qed.
#[export] Hint Resolve quiet_freevm : quietdb.

Lemma quiet_setupkvm : quiet setupkvm.
Proof. unfold setupkvm. quiet_walk. Qed.
#[export] Hint Resolve quiet_setupkvm : quietdb.

Lemma quiet_inituvm pg a n : quiet (inituvm pg a n).
Proof. unfold inituvm. quiet_walk. Qed.

Lemma quiet_allocuvm pg o n : quiet (allocuvm pg o n).
Proof.
  unfold allocuvm. assert (Hl : forall f a, quiet (allocuvm_loop f pg a o n)).
  { induction f as [|f IH]; intros a; simpl; quiet_walk. }
  quiet_walk.
Qed.

Lemma quiet_copyuvm pg n : quiet (copyuvm pg n).
Proof.
  unfold copyuvm. assert (Hl : forall f d a, quiet (copyuvm_loop f d pg a n)).
  { induction f as [|f IH]; intros d a; simpl; quiet_walk. }
  quiet_walk.
Qed.
#[export] Hint Resolve quiet_inituvm quiet_allocuvm quiet_copyuvm : quietdb.

Lemma quiet_of_option {A} w (x : option A) : quiet (of_option w x).
Proof. destruct x; simpl; auto with quietdb. Qed.
Lemma quiet_deref x : quiet (deref x).
Proof. destruct x; simpl; auto with quietdb. Qed.
Lemma quiet_proc_at i : quiet (proc_at i).
Proof. apply quiet_gets. Qed.
#[export] Hint Resolve quiet_of_option quiet_deref quiet_proc_at : quietdb.

(** ** What proc.c relies on in the file system *)
Class FileSysOk (F : FileSys) := {
  filedup_quiet : forall f, quiet (filedup f);
  idup_quiet : forall d, quiet (idup d);
  namei_root_quiet : quiet (namei (codes "/"));
  fileclose_handles : forall o f, handles o (fileclose f);
  iput_handles : forall o d, handles o (iput d);
  begin_op_handles : forall o, handles o begin_op;
  end_op_handles : forall o, handles o end_op;
  iinit_handles : forall o d, handles o (iinit d);
  initlog_handles : forall o d, handles o (initlog d)
}.
#[export] Hint Resolve filedup_quiet idup_quiet namei_root_quiet : quietdb.

(** ** Steps *)
Lemma wlp_start_proc o i stamp s Out In :
  hot o s -> (i < NPROC)%nat -> state (ptab s !!! i) = EMBRYO -> (forall t, same_key (stamp t)) ->
  wlp Out In (fun _ => hot o) (start_proc i stamp s).
Proof.
  intros Hs Hi Hst Hf. unfold start_proc. qstep Hs s1 E1. apply (f_equal v_ptab) in E1. simpl in E1.
  rewrite <-E1 in Hst. pose proof (inv_length _ _ _ _ Hs) as Hl. apply exec_bind. cbn [upd_proc modify exec].
  assert (H1 := inv_set_runnable false false o s1 i Hs Hi ltac:(congruence) ltac:(congruence)).
  lapply H1; [clear H1; intros H1|].
  2: { apply run_ok_alter; [done|apply Hs|]. rewrite Hst. simpl. naive_solver. }
  kstep H1 s2 Hk. apply exec_bind. eapply wlp_count_inc; [exact H1| |].
  { rewrite (proj1 (Hk i)). simpl. by rewrite lookup_total_alter_eq by lia. }
  intros s3 H3 _ _. eapply wlp_quiet_inv; [|exact H3|done]. eauto with quietdb.
Qed.

(** Giving a slot back: an embryo, or a zombie that is reaped. *)
Lemma pids_clear v i f :
  pids_ok v -> (forall p, pid (f p) = 0 \/ pid (f p) = pid p) ->
  (forall p, v_ptab v !! i = Some p -> state (f p) = UNUSED) -> pids_ok (alter_view f i v).
Proof.
  intros (Hu & Hb & Hn) Hf Hs. split; [|split]; [..|done].
  - assert (Hold : forall j p, alter f i (v_ptab v) !! j = Some p -> pid p <> 0 ->
      exists p', v_ptab v !! j = Some p' /\ pid p' = pid p).
    { intros j p Hj Hp. destruct (decide (i = j)) as [->|Hne].
      - rewrite list_lookup_alter_eq in Hj. destruct (v_ptab v !! j) as [y|]; simplify_eq/=.
        exists y. destruct (Hf y); [congruence|done].
      - rewrite list_lookup_alter_ne in Hj by done. eauto. }
    simpl. intros j1 j2 p q H1 H2 E Hz.
    destruct (Hold _ _ H1) as (p' & ? & Ep); [done|]. destruct (Hold _ _ H2) as (q' & ? & Eq); [congruence|].
    eapply Hu; [done..|congruence|congruence].
  - simpl. intros p [j Hj]%list_elem_of_lookup. destruct (decide (i = j)) as [->|Hne].
    + rewrite list_lookup_alter_eq in Hj. destruct (v_ptab v !! j) as [y|] eqn:Hy; simplify_eq/=.
      rewrite Hs by done. split; [|done].
      destruct (Hf y) as [-> | ->]; [lia|]. apply Hb. by eapply list_elem_of_lookup_2.
    + rewrite list_lookup_alter_ne in Hj by done. apply Hb. by eapply list_elem_of_lookup_2.
Qed.

Lemma hot_clear o s i f :
  hot o s -> (i < NPROC)%nat ->
  state (ptab s !!! i) <> RUNNABLE -> state (ptab s !!! i) <> RUNNING ->
  (forall p, state (f p) = UNUSED) -> (forall p, pid (f p) = 0 \/ pid (f p) = pid p) ->
  hot o (s <| ptab ::= alter f i |>).
Proof.
  intros Hs Hi Hn1 Hn2 Hst Hpid. pose proof (inv_length _ _ _ _ Hs) as Hl.
  destruct Hs as ((Hd & Hp) & Hr & Hc). split; [split|split; [|done]].
  - assert (Ha := sdev_alter zero (view s) i f Hd Hi).
    lapply Ha; [clear Ha; intros Ha|by left]. eapply sdev_ext in Ha; [exact Ha|].
    intros q. simpl. rewrite !ready_not; [done|by rewrite Hst|done].
  - apply (pids_clear (view s)); auto.
  - apply run_ok_alter; [done..|]. rewrite Hst. naive_solver.
Qed.

Lemma same_keys_embryo s s' i :
  same_keys s s' -> sched_key (ptab s !!! i) = embryo_key -> sched_key (ptab s' !!! i) = embryo_key.
Proof. intros Hk <-. apply Hk. Qed.

Lemma embryo_state p : sched_key p = embryo_key -> state p = EMBRYO.
Proof. by intros [= ? _ _]. Qed.

(** ** Handlers *)

(** A call of a handler; a quiet call. *)
Ltac hstep L H s' :=
  apply exec_bind; eapply exec_mono; [|apply L; exact H]; clear H; intros ? s' H.
Ltac hstep_quiet H s' := apply exec_bind; eapply wlp_quiet_inv;
  [solve [eauto with quietdb lockdb]|exact H|]; clear H; intros ? s' H _.

Section handlers.
Context {F : FileSys} {HF : FileSysOk F}.

Lemma handles_growproc o n : handles o (growproc n).
Proof. unfold growproc. handles_walk. Qed.

Lemma keyed_dup_files j i : keyed (dup_files j i).
Proof. unfold dup_files. keyed_walk. Qed.

(** [fork], as long as the pid counter has not reached the top of [int]. *)
Lemma wlp_fork o s :
  hot o s -> nextpid s < 2 ^ 31 - 1 ->
  wlp (leaving o) (hot o) (fun _ => hot o) (fork s).
Proof.
  intros Hs Hn. unfold fork. qstep Hs s1 E1.
  assert (En : nextpid s1 = nextpid s) by exact (f_equal v_nextpid E1). rewrite <-En in Hn.
  clear s E1 En. apply exec_bind. eapply exec_mono; [|by apply wlp_allocproc].
  intros [i|] s2 [H2 Hi]; [|done]. destruct (Hi i eq_refl) as [Hlt Hk]. clear Hs Hi s1 Hn.
  kstep H2 s3 K3. kstep H2 s4 K4. kstep H2 s5 K5. kstep H2 s6 K6.
  assert (Hk6 : sched_key (ptab s6 !!! i) = embryo_key).
  { repeat (eapply same_keys_embryo; [eassumption|]). done. }
  clear K3 K4 K5 K6 Hk.
  destruct (_ =? 0).
  - kstep H2 s7 K7. kstep H2 s8 K8.
    assert (Hk8 : state (ptab s8 !!! i) = EMBRYO).
    { apply embryo_state. repeat (eapply same_keys_embryo; [eassumption|]). done. }
    apply exec_bind. simpl. apply hot_clear; [done|done|congruence|congruence|done|by right].
  - kstep H2 s7 K7. kstep H2 s8 K8.
    apply exec_bind. eapply wlp_keyed; [apply keyed_dup_files|exact H2|]. clear H2. intros [] s9 H2 K9.
    kstep H2 s10 K10. kstep H2 s11 K11. kstep H2 s12 K12. kstep H2 s13 K13. kstep H2 s14 K14.
    kstep H2 s15 K15. kstep H2 s16 K16. kstep H2 s17 K17. apply exec_bind.
    eapply exec_mono; [|apply wlp_start_proc; [exact H2|done| |eauto with quietdb]]; [by intros [] ?|].
    apply embryo_state. repeat (eapply same_keys_embryo; [eassumption|]). done.
Qed.

(** [userinit] gives the first process level RR before it starts. *)
Lemma wlp_userinit o s start size :
  hot o s -> nextpid s < 2 ^ 31 - 1 ->
  wlp (leaving o) (hot o) (fun _ => hot o) (userinit start size s).
Proof.
  intros Hs Hn. unfold userinit. apply exec_bind. eapply exec_mono; [|by apply wlp_allocproc].
  intros [i|] s2 [H2 Hi]; [|done]. destruct (Hi i eq_refl) as [Hlt Hk]. clear Hs Hi s Hn.
  apply exec_bind. simpl. apply exec_bind. cbn [upd_proc modify exec].
  injection Hk as Hst Hc Hv. pose proof (inv_length _ _ _ _ H2) as Hl.
  set (f := fun p : proc => p <| sched_class := 2 |> <| sched_level := 1 |>).
  assert (H3 : hot o (s2 <| ptab ::= alter f i |>)).
  { apply (inv_upd_class zero); try done.
    - right. right. split; [done|by left].
    - intros q. rewrite !ready_not by (simpl; congruence). done. }
  set (s3 := s2 <| ptab ::= alter f i |>) in *.
  assert (Hst3 : state (ptab s3 !!! i) = EMBRYO).
  { simpl. by rewrite lookup_total_alter_eq by lia. }
  clearbody s3. clear H2 Hst Hc Hv Hl s2. rename H3 into H2.
  assert (Hend : forall s', same_keys s3 s' -> state (ptab s' !!! i) = EMBRYO).
  { intros s' K. destruct (K i) as [[= -> _ _] _]. done. }
  apply exec_bind. cbn [modify exec]. set (s4 := s3 <| initproc := Some i |>).
  assert (K4 : same_keys s3 s4) by exact (same_keys_refl s3).
  assert (H4 : hot o s4) by exact H2. clearbody s4. clear H2 Hst3. rename H4 into H2.
  kstep H2 s5 K5. kstep H2 s6 K6. destruct (_ =? 0); [done|].
  kstep H2 s7 K7. kstep H2 s8 K8. kstep H2 s9 K9. kstep H2 s10 K10. kstep H2 s11 K11.
  kstep H2 s12 K12. kstep H2 s13 K13.
  apply wlp_start_proc; [done|done| |eauto with quietdb]. apply Hend.
  repeat (eapply same_keys_trans; [eassumption|]). apply same_keys_refl.
Qed.

Lemma handles_close_files o j : handles o (close_files j).
Proof.
  unfold close_files. handles_walk. apply fileclose_handles.
Qed.

Lemma handles_wakeup1 o ch : handles o (wakeup1 ch).
Proof. intros s Hs. by apply wlp_wakeup1. Qed.

Lemma handles_reparent o j : handles o (reparent j).
Proof.
  unfold reparent. handles_walk. apply handles_wakeup1.
Qed.

(** [exit] leaves the CPU for good. *)
Lemma wlp_exit o s : hot o s -> wlp (leaving o) (hot o) (fun _ _ => False) (exit s).
Proof.
  intros Hs. unfold exit. apply exec_bind. eapply wlp_myproc; [exact Hs|].
  clear Hs. intros s1 Hs _. apply exec_bind. simpl. case_decide; [done|].
  destruct o as [j|]; simpl; [|done]. apply exec_bind. simpl. clear H s.
  hstep handles_close_files Hs s2. hstep begin_op_handles Hs s3. hstep_quiet Hs s4.
  hstep iput_handles Hs s5. hstep end_op_handles Hs s6. kstep Hs s7 K7. hstep_quiet Hs s8.
  hstep_quiet Hs s9. hstep handles_wakeup1 Hs s10. hstep handles_reparent Hs s11.
  apply exec_bind. cbn [upd_proc modify exec]. apply exec_bind.
  eapply exec_mono; [|apply wlp_sched, (inv_stop j s11); try done]. by intros [] s'.
Qed.

Lemma handles_exit o : handles o exit.
Proof. intros s Hs. eapply exec_mono; [|by apply wlp_exit]. done. Qed.

(** Reaping a child, under [ptable.lock]. *)
Lemma wlp_wait_scan o l j hk s :
  hot o s -> (forall i, i ∈ l -> (i < NPROC)%nat) ->
  wlp (leaving o) (hot o) (fun _ => hot o) (wait_scan l j hk s).
Proof.
  revert s hk. induction l as [|i l IH]; intros s hk Hs Hl; [done|].
  assert (IH' : forall hk, wlp (leaving o) (hot o) (fun _ => hot o) (wait_scan l j hk s)).
  { intros. apply IH; [done|]. set_solver. }
  assert (Hi : (i < NPROC)%nat) by (apply Hl; set_solver). cbn [wait_scan].
  apply exec_bind. simpl. set (p := ptab s !!! i). case_decide; [|apply IH'].
  case_decide as Hz; [|apply IH']. clear IH IH'.
  kstep Hs s1 K1. kstep Hs s2 K2. kstep Hs s3 K3. apply exec_bind. cbn [upd_proc modify exec].
  assert (Hst : state (ptab s3 !!! i) = ZOMBIE).
  { destruct (K3 i) as [[= -> _ _] _], (K2 i) as [[= -> _ _] _], (K1 i) as [[= -> _ _] _]. done. }
  match goal with |- context [alter ?f i] =>
    assert (H4 : hot o (s3 <| ptab ::= alter f i |>)) end.
  { apply hot_clear; [done|done|congruence|congruence|done|by left]. }
  eapply wlp_quiet_inv; [|exact H4|done]. quiet_walk.
Qed.

Lemma handles_wait o fuel : handles o (wait fuel).
Proof.
  unfold wait. handles_walk. revert a1. induction fuel as [|fuel IH]; intros j; [by intros s Hs|].
  cbn [wait_loop]. apply handles_bind.
  - intros s Hs. apply wlp_wait_scan; [done|]. intros i. apply in_procs.
  - intros [pd|hk]; handles_walk.
Qed.

Lemma handles_forkret o : handles o forkret.
Proof.
  unfold forkret. handles_walk; [apply iinit_handles|apply initlog_handles].
Qed.
End handlers.
