(* ===== verification/TrapOps.v ===== *)
(** System calls and traps keep the scheduler invariant. *)
From stdpp Require Import base tactics list numbers strings gmap.
From S2P Require Import Prelude CString FsTypes State Spinlock Console Kalloc Vm Sched Process Args Sysproc Trap SchedInv Sample SchedOps ProcessOps.

#[local] Open Scope Z_scope.

(** ** Reading arguments is quiet *)
Lemma quiet_uaddr pg va : quiet (uaddr pg va).
Proof. unfold uaddr. quiet_walk. Qed.
#[export] Hint Resolve quiet_uaddr : quietdb.
Lemma quiet_uload8 pg va : quiet (uload8 pg va).
Proof. unfold uload8. quiet_walk. Qed.
Lemma quiet_ustore8 pg va v : quiet (ustore8 pg va v).
Proof. unfold ustore8. quiet_walk. Qed.
#[export] Hint Resolve quiet_uload8 quiet_ustore8 : quietdb.
Lemma quiet_uload32 pg va : quiet (uload32 pg va).
Proof. unfold uload32. quiet_walk. Qed.
Lemma quiet_curproc : quiet curproc.
Proof. unfold curproc. quiet_walk. Qed.
#[export] Hint Resolve quiet_uload32 quiet_curproc : quietdb.
Lemma quiet_fetchint a : quiet (fetchint a).
Proof. unfold fetchint. quiet_walk. Qed.
#[export] Hint Resolve quiet_fetchint : quietdb.
Lemma quiet_fetchstr a : quiet (fetchstr a).
Proof.
  unfold fetchstr. assert (Hl : forall f pg s, quiet (fetchstr_loop f pg s)).
  { induction f as [|f IH]; intros; simpl; quiet_walk. }
  quiet_walk.
Qed.
#[export] Hint Resolve quiet_fetchstr : quietdb.
Lemma quiet_argint n : quiet (argint n).
Proof. unfold argint. quiet_walk. Qed.
#[export] Hint Resolve quiet_argint : quietdb.
Lemma quiet_argptr n size : quiet (argptr n size).
Proof. unfold argptr. quiet_walk. Qed.
Lemma quiet_argstr n : quiet (argstr n).
Proof. unfold argstr. quiet_walk. Qed.
#[export] Hint Resolve quiet_argptr quiet_argstr : quietdb.

Lemma quiet_print_sched_info : quiet print_sched_info.
Proof. unfold print_sched_info, cell_str, cell_int. quiet_walk. Qed.
Lemma quiet_procdump : quiet procdump.
Proof.
  unfold procdump. assert (Hp : forall l, quiet (print_pcs l)).
  { induction l as [|pc l IH]; simpl; quiet_walk. }
  quiet_walk.
Qed.
#[export] Hint Resolve quiet_print_sched_info quiet_procdump : quietdb.

(** ** What trap.c relies on *)
Class SysFilesOk (SF : SysFiles) := {
  sys_pipe_handles : forall o, handles o sys_pipe;
  sys_read_handles : forall o, handles o sys_read;
  sys_exec_handles : forall o, handles o sys_exec;
  sys_fstat_handles : forall o, handles o sys_fstat;
  sys_chdir_handles : forall o, handles o sys_chdir;
  sys_dup_handles : forall o, handles o sys_dup;
  sys_open_handles : forall o, handles o sys_open;
  sys_write_handles : forall o, handles o sys_write;
  sys_mknod_handles : forall o, handles o sys_mknod;
  sys_unlink_handles : forall o, handles o sys_unlink;
  sys_link_handles : forall o, handles o sys_link;
  sys_mkdir_handles : forall o, handles o sys_mkdir;
  sys_close_handles : forall o, handles o sys_close
}.
Class DevicesOk (D : Devices) := {
  ideintr_handles : forall o, handles o ideintr;
  kbdintr_handles : forall o, handles o kbdintr;
  uartintr_handles : forall o, handles o uartintr
}.
#[export] Hint Resolve sys_pipe_handles sys_read_handles sys_exec_handles sys_fstat_handles
  sys_chdir_handles sys_dup_handles sys_open_handles sys_write_handles sys_mknod_handles
  sys_unlink_handles sys_link_handles sys_mkdir_handles sys_close_handles
  ideintr_handles kbdintr_handles uartintr_handles
  handles_exit handles_wait handles_growproc handles_set_deadline handles_update_wait_time
  handles_is_higher_waiting : handledb.

Section trap_ops.
Context {F : FileSys} {SF : SysFiles} {D : Devices}.
Context {HF : FileSysOk F} {HSF : SysFilesOk SF} {HD : DevicesOk D}.

Lemma handles_with_int o n k : (forall v, handles o (k v)) -> handles o (with_int n k).
Proof. intros Hk. unfold with_int. handles_walk. Qed.

Lemma handles_sys_sleep o fuel : handles o (sys_sleep fuel).
Proof.
  unfold sys_sleep. apply handles_with_int. handles_walk. revert a0.
  induction fuel as [|fuel IH]; intros t; simpl; handles_walk.
Qed.

(** Every system call but [fork] and [change_sched_level], which have conditions. *)
Lemma handles_syscalls o fuel num f :
  syscalls fuel num = Some f -> num <> 1 -> num <> 23 -> handles o f.
Proof.
  intros E H1 H23. unfold syscalls in E.
  repeat match type of E with
    | context [match ?x with _ => _ end] => destruct x; try discriminate E
    end; first [congruence | injection E as <-];
    unfold sys_kill, sys_getpid, sys_sbrk, sys_uptime, sys_set_deadline_for_process,
      sys_print_sched_info, sys_update_wait_time, sys_is_higher_waiting, sys_exit, sys_wait;
    first [ apply handles_sys_sleep | repeat (apply handles_with_int; intros); handles_walk ].
Qed.

(** When a system call may be made: not [change_sched_level], whose condition is
    in [level_change_ok], and [fork] only while pids last. *)
Definition call_ok (s : kst) (t : trapframe) : Prop :=
  trapno t = T_SYSCALL -> i32 (eax t) <> 23 /\ (i32 (eax t) = 1 -> nextpid s < 2 ^ 31 - 1).

Lemma wlp_curproc Out In (Q : nat -> kst -> Prop) δ ex o s :
  inv δ ex o s -> (forall j s', o = Some j -> inv δ ex o s' -> view s' = view s -> Q j s') ->
  wlp Out In Q (curproc s).
Proof.
  intros Hs HQ. unfold curproc. apply exec_bind. eapply wlp_myproc; [exact Hs|].
  intros s' Hs' E. destruct o as [j|]; simpl; [|done]. by apply HQ.
Qed.

Lemma handles_set_eax o j v : handles o (set_eax j v).
Proof. unfold set_eax. handles_walk. Qed.

Lemma wlp_syscall o fuel s :
  hot o s ->
  (forall j, o = Some j -> i32 (eax (tframe (ptab s !!! j))) <> 23 /\
    (i32 (eax (tframe (ptab s !!! j))) = 1 -> nextpid s < 2 ^ 31 - 1)) ->
  wlp (leaving o) (hot o) (fun _ => hot o) (syscall fuel s).
Proof.
  intros Hs Hc. unfold syscall. apply exec_bind. eapply wlp_curproc; [exact Hs|].
  intros j s1 -> H1 E1. destruct (Hc j eq_refl) as [H23 Hf]. clear Hc Hs.
  assert (Ep : ptab s1 = ptab s) by exact (f_equal v_ptab E1).
  assert (En : nextpid s1 = nextpid s) by exact (f_equal v_nextpid E1).
  apply exec_bind. simpl. rewrite Ep. set (p := ptab s !!! j) in *.
  destruct (syscalls fuel (i32 (eax (tframe p)))) as [f|] eqn:Ef.
  - apply exec_bind. eapply exec_mono with (Q := fun _ => hot (Some j)); [intros; by apply handles_set_eax|].
    destruct (decide (i32 (eax (tframe p)) = 1)) as [E|E].
    + rewrite E in Ef. injection Ef as <-. apply wlp_fork; [done|]. rewrite En. by apply Hf.
    + by apply (handles_syscalls _ _ _ _ Ef).
  - qstep H1 s2 E2. by apply handles_set_eax.
Qed.

Lemma handles_tick o : handles o tick.
Proof. unfold tick. handles_walk. Qed.

Lemma handles_quantum o : handles o quantum.
Proof.
  unfold quantum. handles_walk. apply handles_keyed, keyed_upd.
  intros p. by destruct (_ <? _).
Qed.

Lemma handles_dispatch o t cr2 : handles o (dispatch t cr2).
Proof.
  unfold dispatch, unexpected. pose proof (handles_tick o). handles_walk.
Qed.

Lemma handles_exit_if_killed o t : handles o (exit_if_killed t).
Proof. unfold exit_if_killed. handles_walk. Qed.

Lemma handles_preempt o t : handles o (preempt t).
Proof. unfold preempt. pose proof (handles_quantum o). handles_walk. Qed.

Lemma wlp_trap o fuel t cr2 s :
  hot o s -> call_ok s t -> wlp (leaving o) (hot o) (fun _ => hot o) (trap fuel t cr2 s).
Proof.
  intros Hs Hc. unfold trap. destruct (trapno t =? T_SYSCALL) eqn:Et.
  - apply Z.eqb_eq in Et. destruct (Hc Et) as [H23 Hf]. clear Hc.
    apply exec_bind. eapply wlp_curproc; [exact Hs|]. intros j s1 -> H1 E1. clear Hs.
    apply exec_bind. simpl. apply exec_bind. destruct (killed (ptab s1 !!! j)); simpl.
    { eapply exec_mono; [|by apply wlp_exit]. done. }
    apply exec_bind. eapply wlp_curproc; [exact H1|]. intros j' s2 [= <-] H2 E2. clear H1.
    pose proof (inv_length _ _ _ _ H2) as Hl. pose proof (inv_cur_lt _ _ _ _ H2) as Hj.
    assert (En : nextpid s2 = nextpid s).
    { by rewrite (f_equal v_nextpid E2 : nextpid s2 = nextpid s1), (f_equal v_nextpid E1 : nextpid s1 = _). }
    apply exec_bind. cbn [upd_proc modify exec].
    assert (H3 : hot (Some j) (s2 <| ptab ::= alter (fun p => p <| tframe := t |>) j |>)).
    { apply inv_upd_key; [by intros []|done]. }
    apply exec_bind. eapply exec_mono; [|apply wlp_syscall; [exact H3|]].
    + intros [] s4 H4.
      assert (Hend : handles (Some j) (j0 ← curproc; p ← proc_at j0; mwhen (killed p) exit)).
      { handles_walk. }
      by apply Hend.
    + intros ? [= <-]. simpl. rewrite lookup_total_alter_eq by lia. simpl. rewrite En. done.
  - assert (Hend : handles o (dispatch t cr2;; exit_if_killed t;; preempt t;; exit_if_killed t)).
    { apply handles_bind; [apply handles_dispatch|]. intros [].
      apply handles_bind; [apply handles_exit_if_killed|]. intros [].
      apply handles_bind; [apply handles_preempt|]. intros []. apply handles_exit_if_killed. }
    by apply Hend.
Qed.
End trap_ops.
