(* ===== verification/FsOps.v ===== *)
(** The file system and the devices keep the scheduler invariant: they touch
    processes only through [sleep] and [wakeup], and discharge the interfaces that
    proc.c and trap.c rely on. *)
From stdpp Require Import base tactics list numbers strings gmap.
From S2P Require Import Prelude CString FsTypes State Spinlock Console Kalloc Vm Sched Process Args Sysproc Trap Sleeplock Ide Bio Log Fs Pipe File ConsoleDev Kbd Exec Sysfile SchedInv Sample SchedOps ProcessOps TrapOps.

#[local] Open Scope Z_scope.

(** ** Sleep locks, buffers, the disk *)
Lemma quiet_fsget {A} (f : fsst -> A) : quiet (fsget f).
Proof. apply quiet_gets. Qed.
Lemma quiet_fsmod f : quiet (fsmod f).
Proof. by apply quiet_modify. Qed.
Lemma quiet_buf_at i : quiet (buf_at i).
Proof. apply quiet_gets. Qed.
Lemma quiet_upd_buf i f : quiet (upd_buf i f).
Proof. apply quiet_fsmod. Qed.
Lemma quiet_inode_at i : quiet (inode_at i).
Proof. apply quiet_gets. Qed.
Lemma quiet_upd_inode i f : quiet (upd_inode i f).
Proof. apply quiet_fsmod. Qed.
Lemma quiet_file_at i : quiet (file_at i).
Proof. apply quiet_gets. Qed.
Lemma quiet_upd_file i f : quiet (upd_file i f).
Proof. apply quiet_fsmod. Qed.
Lemma quiet_upd_log f : quiet (upd_log f).
Proof. apply quiet_fsmod. Qed.
Lemma quiet_upd_pipe p f : quiet (upd_pipe p f).
Proof. apply quiet_fsmod. Qed.
Lemma quiet_upd_input f : quiet (upd_input f).
Proof. apply quiet_fsmod. Qed.
Lemma quiet_consputc c : quiet (consputc c).
Proof. by apply quiet_modify. Qed.
#[export] Hint Resolve quiet_fsget quiet_fsmod quiet_buf_at quiet_upd_buf quiet_inode_at
  quiet_upd_inode quiet_file_at quiet_upd_file quiet_upd_log quiet_upd_pipe quiet_upd_input
  quiet_consputc : quietdb.

Lemma quiet_sl_get k : quiet (sl_get k).
Proof. destruct k; simpl; quiet_walk. Qed.
Lemma quiet_sl_upd k f : quiet (sl_upd k f).
Proof. destruct k; simpl; quiet_walk. Qed.
#[export] Hint Resolve quiet_sl_get quiet_sl_upd : quietdb.
Lemma quiet_initsleeplock k nm : quiet (initsleeplock k nm).
Proof. unfold initsleeplock. quiet_walk. Qed.
Lemma quiet_holdingsleep k : quiet (holdingsleep k).
Proof. unfold holdingsleep. quiet_walk. Qed.
Lemma quiet_idestart i : quiet (idestart i).
Proof. unfold idestart. quiet_walk. Qed.
Lemma quiet_filealloc : quiet filealloc.
Proof. unfold filealloc. quiet_walk. Qed.
Lemma quiet_filedup f : quiet (File.filedup f).
Proof. unfold File.filedup. quiet_walk. Qed.
Lemma quiet_idup o : quiet (Fs.idup o).
Proof. unfold Fs.idup. quiet_walk. Qed.
Lemma quiet_iget d i : quiet (iget d i).
Proof. unfold iget. quiet_walk. Qed.
Lemma quiet_pipe_at p : quiet (pipe_at p).
Proof. unfold pipe_at. quiet_walk. Qed.
Lemma quiet_lh_get i : quiet (lh_get i).
Proof. unfold lh_get. quiet_walk. Qed.
Lemma quiet_lh_set i v : quiet (lh_set i v).
Proof. unfold lh_set. quiet_walk. Qed.
Lemma quiet_the_inode o m : quiet (the_inode o m).
Proof. destruct o; simpl; auto with quietdb. Qed.
#[export] Hint Resolve quiet_initsleeplock quiet_holdingsleep quiet_idestart quiet_filealloc
  quiet_filedup quiet_idup quiet_iget quiet_pipe_at quiet_lh_get quiet_lh_set quiet_the_inode : quietdb.

Lemma quiet_kill_line f : quiet (kill_line f).
Proof. induction f as [|f IH]; simpl; unfold rubout; quiet_walk. Qed.
#[export] Hint Resolve quiet_kill_line : quietdb.

(** A walk that also opens pairs, lists and the other data of the file system. *)
Ltac fs_walk :=
  repeat first
    [ progress handles_walk
    | lazymatch goal with
      | |- handles _ (match ?o with _ => _ end) => destruct o
      | |- handles _ (let '_ := ?o in _) => destruct o
      end ].

Section fs_ops.
Context {fl : Fuel} (o : option nat).

Lemma handles_acquiresleep k : handles o (acquiresleep k).
Proof.
  unfold acquiresleep. generalize wakeups. intros n.
  assert (Hl : forall f, handles o (acquiresleep_loop f k)) by (induction f; simpl; fs_walk).
  fs_walk.
Qed.
Lemma handles_releasesleep k : handles o (releasesleep k).
Proof. unfold releasesleep. fs_walk. Qed.
#[local] Hint Resolve handles_acquiresleep handles_releasesleep : handledb.

Lemma handles_ideintr ok : handles o (Ide.ideintr ok).
Proof. unfold Ide.ideintr. fs_walk. Qed.

Lemma handles_iderw i : handles o (iderw i).
Proof.
  unfold iderw. generalize wakeups. intros n.
  assert (Hl : forall f, handles o (iderw_loop f i)) by (induction f; simpl; fs_walk).
  fs_walk.
Qed.
#[local] Hint Resolve handles_iderw : handledb.

Lemma handles_bread d b : handles o (bread d b).
Proof. unfold bread, bget. fs_walk. Qed.
Lemma handles_bwrite i : handles o (bwrite i).
Proof. unfold bwrite. fs_walk. Qed.
Lemma handles_brelse i : handles o (brelse i).
Proof. unfold brelse. fs_walk. Qed.
#[local] Hint Resolve handles_bread handles_bwrite handles_brelse : handledb.

(** ** The log *)
Lemma handles_readsb d : handles o (readsb d).
Proof. unfold readsb. fs_walk. Qed.
Lemma handles_install_trans : handles o install_trans.
Proof. unfold install_trans, for_log, copy_block. fs_walk. Qed.
Lemma handles_read_head : handles o read_head.
Proof. unfold read_head, for_log. fs_walk. Qed.
Lemma handles_write_head : handles o write_head.
Proof. unfold write_head, for_log. fs_walk. Qed.
#[local] Hint Resolve handles_readsb handles_install_trans handles_read_head handles_write_head : handledb.

Lemma handles_initlog d : handles o (Log.initlog d).
Proof. unfold Log.initlog, recover_from_log. fs_walk. Qed.
Lemma handles_begin_op : handles o Log.begin_op.
Proof.
  unfold Log.begin_op. generalize wakeups. intros n.
  assert (Hl : forall f, handles o (begin_op_loop f)) by (induction f; simpl; fs_walk).
  fs_walk.
Qed.
Lemma handles_commit : handles o commit.
Proof. unfold commit, write_log, for_log, copy_block. fs_walk. Qed.
#[local] Hint Resolve handles_commit : handledb.
Lemma handles_end_op : handles o Log.end_op.
Proof. unfold Log.end_op. fs_walk. Qed.
Lemma handles_log_write b : handles o (log_write b).
Proof. unfold log_write. fs_walk. Qed.
#[local] Hint Resolve handles_begin_op handles_end_op handles_log_write : handledb.

(** ** Inodes *)
Lemma handles_bzero d b : handles o (bzero d b).
Proof. unfold bzero. fs_walk. Qed.
#[local] Hint Resolve handles_bzero : handledb.
Lemma handles_balloc d : handles o (balloc d).
Proof. unfold balloc. fs_walk. Qed.
Lemma handles_bfree d b : handles o (bfree d b).
Proof. unfold bfree. fs_walk. Qed.
Lemma handles_iinit d : handles o (Fs.iinit d).
Proof. unfold Fs.iinit. fs_walk. Qed.
Lemma handles_ialloc d t : handles o (ialloc d t).
Proof. unfold ialloc. fs_walk. Qed.
Lemma handles_iupdate i : handles o (iupdate i).
Proof. unfold iupdate. fs_walk. Qed.
Lemma handles_ilock i : handles o (ilock i).
Proof. unfold ilock. fs_walk. Qed.
Lemma handles_iunlock i : handles o (iunlock i).
Proof. unfold iunlock. fs_walk. Qed.
#[local] Hint Resolve handles_balloc handles_bfree handles_ialloc handles_iupdate handles_ilock
  handles_iunlock : handledb.

Lemma handles_bmap i n : handles o (bmap i n).
Proof. unfold bmap, addr_or_alloc, set_addr. fs_walk. Qed.
Lemma handles_itrunc i : handles o (itrunc i).
Proof. unfold itrunc, set_addr. fs_walk. Qed.
#[local] Hint Resolve handles_bmap handles_itrunc : handledb.
Lemma handles_iput i : handles o (Fs.iput i).
Proof. unfold Fs.iput. fs_walk. Qed.
#[local] Hint Resolve handles_iput : handledb.
Lemma handles_iunlockput i : handles o (iunlockput i).
Proof. unfold iunlockput. fs_walk. Qed.
Lemma quiet_stati i : quiet (stati i).
Proof. unfold stati. quiet_walk. Qed.
#[local] Hint Resolve handles_iunlockput : handledb.
#[local] Hint Resolve quiet_stati : quietdb.

(** ** The console *)
Lemma handles_console_char c : handles o (console_char c).
Proof. unfold console_char, in_char, rubout. fs_walk. Qed.
#[local] Hint Resolve handles_console_char : handledb.

Lemma handles_consoleintr getc data : (forall d, handles o (getc d)) -> handles o (consoleintr getc data).
Proof.
  intros Hg. unfold consoleintr.
  assert (Hl : forall l b, handles o (consoleintr_loop getc l b)).
  { induction l; intros b; simpl; fs_walk. }
  fs_walk.
Qed.
Lemma handles_kbdintr l : handles o (Kbd.kbdintr l).
Proof. apply handles_consoleintr. intros [d|]; unfold kbdgetc; fs_walk. Qed.
Lemma handles_uartintr u l : handles o (ConsoleDev.uartintr u l).
Proof. apply handles_consoleintr. intros d. unfold uartgetc. fs_walk. Qed.

Lemma handles_consoleread i n : handles o (consoleread i n).
Proof.
  unfold consoleread. assert (Hw : forall f, handles o (input_wait f)) by (induction f; simpl; fs_walk).
  assert (Hl : forall k b, handles o (consoleread_loop k b)).
  { induction k as [|k IH]; intros b; cbn [consoleread_loop]; fs_walk. }
  fs_walk.
Qed.
Lemma handles_consolewrite i l : handles o (consolewrite i l).
Proof. unfold consolewrite. fs_walk. Qed.
#[local] Hint Resolve handles_consoleread handles_consolewrite : handledb.

(** ** Contents, directories, paths *)
Lemma handles_readi i off n : handles o (readi i off n).
Proof.
  unfold readi. assert (Hl : forall f t off n, handles o (readi_loop f i t off n)).
  { induction f; intros; simpl; fs_walk. }
  simpl. fs_walk.
Qed.
Lemma handles_writei i l off n : handles o (writei i l off n).
Proof.
  unfold writei. assert (Hl : forall f l t off n, handles o (writei_loop f i l t off n)).
  { induction f; intros; simpl; fs_walk. }
  simpl. fs_walk.
Qed.
#[local] Hint Resolve handles_readi handles_writei : handledb.
Lemma handles_read_dirent d off m : handles o (read_dirent d off m).
Proof. unfold read_dirent. fs_walk. Qed.
Lemma quiet_namecmp a b : quiet (namecmp a b).
Proof. unfold namecmp. quiet_walk. Qed.
#[local] Hint Resolve handles_read_dirent : handledb.
#[local] Hint Resolve quiet_namecmp : quietdb.
Lemma handles_dirlookup d n : handles o (dirlookup d n).
Proof. unfold dirlookup. fs_walk. Qed.
#[local] Hint Resolve handles_dirlookup : handledb.
Lemma handles_dirlink d n i : handles o (dirlink d n i).
Proof. unfold dirlink. fs_walk. Qed.
Lemma handles_namex p b n : handles o (namex p b n).
Proof.
  unfold namex. assert (Hl : forall f i p n, handles o (namex_loop f i p n b)).
  { induction f; intros; simpl; fs_walk. }
  fs_walk.
Qed.
#[local] Hint Resolve handles_dirlink handles_namex : handledb.
Lemma handles_namei p : handles o (Fs.namei p).
Proof. unfold Fs.namei. fs_walk. Qed.
Lemma handles_nameiparent p : handles o (nameiparent p).
Proof. unfold nameiparent. fs_walk. Qed.
#[local] Hint Resolve handles_namei handles_nameiparent : handledb.

(** ** Pipes and files *)
Lemma handles_pipeclose p w : handles o (pipeclose p w).
Proof. unfold pipeclose. fs_walk. Qed.
Lemma handles_pipewrite p l : handles o (pipewrite p l).
Proof.
  unfold pipewrite. assert (Hw : forall f, handles o (pipewrite_wait f p)) by (induction f; simpl; fs_walk).
  assert (Hl : handles o (pipewrite_loop p l)) by (induction l; simpl; fs_walk).
  fs_walk.
Qed.
Lemma handles_piperead p n : handles o (piperead p n).
Proof.
  unfold piperead. assert (Hw : forall f, handles o (piperead_wait f p)) by (induction f; simpl; fs_walk).
  assert (Hl : forall k, handles o (piperead_loop k p)) by (induction k; simpl; fs_walk).
  fs_walk.
Qed.
#[local] Hint Resolve handles_pipeclose handles_pipewrite handles_piperead : handledb.

Lemma handles_fileclose f : handles o (File.fileclose f).
Proof. unfold File.fileclose. fs_walk. Qed.
Lemma handles_filestat f : handles o (filestat f).
Proof. unfold filestat. fs_walk. Qed.
Lemma handles_fileread f n : handles o (fileread f n).
Proof. unfold fileread. fs_walk. Qed.
Lemma handles_filewrite f l : handles o (filewrite f l).
Proof.
  unfold filewrite. assert (Hl : forall k f ip l w n, handles o (filewrite_loop k f ip l w n)).
  { induction k; intros; simpl; fs_walk. }
  fs_walk.
Qed.
#[local] Hint Resolve handles_fileclose handles_filestat handles_fileread handles_filewrite : handledb.
Lemma handles_pipealloc : handles o pipealloc.
Proof. unfold pipealloc, pipealloc_bad. fs_walk. Qed.
End fs_ops.

#[export] Hint Resolve handles_ideintr handles_readsb handles_initlog handles_begin_op handles_end_op
  handles_iinit handles_ialloc handles_iupdate handles_ilock handles_iunlock handles_iput
  handles_iunlockput handles_readi handles_writei handles_read_dirent handles_dirlookup
  handles_dirlink handles_namei handles_nameiparent handles_fileclose handles_filestat
  handles_fileread handles_filewrite handles_pipealloc handles_kbdintr handles_uartintr : handledb.
#[export] Hint Resolve quiet_stati quiet_namecmp : quietdb.
