(* ===== verification/SysfileOps.v ===== *)
(** exec.c and sysfile.c keep the scheduler invariant; with FsOps.v the file
    system and the devices implement the interfaces of proc.c and trap.c. *)
From stdpp Require Import base tactics list numbers strings gmap.
From S2P Require Import Prelude CString FsTypes State Spinlock Console Kalloc Vm Sched Process Args Sysproc Trap Sleeplock Ide Bio Log Fs Pipe File ConsoleDev Kbd Exec Sysfile SchedInv Sample SchedOps ProcessOps TrapOps FsOps.

#[local] Open Scope Z_scope.

(** ** Program loading *)
Lemma quiet_clearpteu pg va : quiet (clearpteu pg va).
Proof. unfold clearpteu. quiet_walk. Qed.
Lemma quiet_uva2ka pg va : quiet (uva2ka pg va).
Proof. unfold uva2ka. quiet_walk. Qed.
#[export] Hint Resolve quiet_clearpteu quiet_uva2ka : quietdb.
Lemma quiet_copyout pg va l : quiet (copyout pg va l).
Proof.
  unfold copyout. generalize page_fuel. intros f. revert va l.
  induction f as [|f IH]; intros va [|c l]; cbn [copyout_loop]; quiet_walk.
Qed.
#[export] Hint Resolve quiet_copyout : quietdb.
Lemma quiet_push_args pg argv argc sp : quiet (push_args pg argv argc sp).
Proof.
  revert argc sp. induction argv as [|s argv IH]; intros argc sp; cbn [push_args]; quiet_walk.
Qed.
#[export] Hint Resolve quiet_push_args : quietdb.

Section exec_ops.
Context {fl : Fuel}.

(** The process that calls [exec] is RUNNING: its new class is not counted yet. *)
Lemma handles_exec_class j :
  handles (Some j) (upd_proc j (fun p => p <| sched_class := 2 |> <| sched_level := 1 |>)).
Proof.
  intros s Hs. pose proof (hot_running _ _ _ Hs) as Hr. pose proof (inv_cur_lt _ _ _ _ Hs) as Hj.
  cbn [upd_proc modify Prelude.exec]. apply (inv_upd_class zero); try done.
  - right. right. split; [done|by left].
  - intros q. rewrite !ready_not by (simpl; congruence). done.
Qed.

Lemma handles_exec_commit j path pg sz entry sp : handles (Some j) (exec_commit j path pg sz entry sp).
Proof. unfold exec_commit. pose proof (handles_exec_class j). fs_walk. Qed.

Lemma handles_exec_bad o pg ip : handles o (exec_bad pg ip).
Proof. unfold exec_bad. fs_walk. Qed.
#[local] Hint Resolve handles_exec_commit handles_exec_bad : handledb.

Lemma handles_exec_stack j path argv pg sz entry : handles (Some j) (exec_stack j path argv pg sz entry).
Proof. unfold exec_stack. fs_walk. Qed.

Lemma handles_readi_struct o ip off n : handles o (readi_struct ip off n).
Proof. unfold readi_struct. fs_walk. Qed.
#[local] Hint Resolve handles_exec_stack handles_readi_struct : handledb.

Lemma handles_loaduvm o pg a ip off n : handles o (loaduvm pg a ip off n).
Proof.
  unfold loaduvm. assert (Hl : forall f i, handles o (loaduvm_loop f pg a ip off i n)).
  { induction f; intros; simpl; fs_walk. }
  fs_walk.
Qed.
#[local] Hint Resolve handles_loaduvm : handledb.
Lemma handles_load_segments o n pg ip off sz : handles o (load_segments n pg ip off sz).
Proof. revert off sz. induction n; intros; simpl; fs_walk. Qed.
#[local] Hint Resolve handles_load_segments : handledb.

Lemma handles_exec o path argv : handles o (Exec.exec path argv).
Proof.
  intros s Hs. unfold Exec.exec. apply exec_bind. eapply wlp_curproc; [exact Hs|].
  intros j s1 -> H1 _. revert s1 H1. match goal with |- forall s1, _ -> Prelude.exec _ _ _ _ (?m s1) =>
    change (handles (Some j) m) end. fs_walk.
Qed.
End exec_ops.
#[export] Hint Resolve handles_exec : handledb.

(** ** System calls *)
Lemma quiet_uread pg va n : quiet (uread pg va n).
Proof. revert va. induction n; intros; simpl; quiet_walk. Qed.
Lemma quiet_uwrite pg va l : quiet (uwrite pg va l).
Proof. revert va. induction l; intros; simpl; quiet_walk. Qed.
Lemma quiet_upgdir : quiet upgdir.
Proof. unfold upgdir. quiet_walk. Qed.
Lemma quiet_argfd n : quiet (argfd n).
Proof. unfold argfd. quiet_walk. Qed.
Lemma quiet_fetch_argv n u i : quiet (fetch_argv n u i).
Proof.
  revert i. induction n as [|n IH]; intros; simpl; [quiet_walk|].
  apply quiet_bind; [quiet_walk|]. intros [v|]; [|quiet_walk]. destruct (_ =? 0); [quiet_walk|].
  apply quiet_bind; [quiet_walk|]. intros [[a l]|]; quiet_walk.
Qed.
#[export] Hint Resolve quiet_uread quiet_uwrite quiet_upgdir quiet_argfd quiet_fetch_argv : quietdb.

Section sys_ops.
Context {fl : Fuel} (o : option nat).

Lemma handles_or_fail {A} (m : K (option A)) k :
  handles o m -> (forall a, handles o (k a)) -> handles o (or_fail m k).
Proof. intros Hm Hk. unfold or_fail. fs_walk. Qed.

Lemma handles_fdalloc f : handles o (fdalloc f).
Proof. unfold fdalloc. fs_walk. Qed.
#[local] Hint Resolve handles_fdalloc : handledb.

Lemma handles_add_nlink i d : handles o (add_nlink i d).
Proof. unfold add_nlink. fs_walk. Qed.
#[local] Hint Resolve handles_add_nlink : handledb.
Lemma handles_isdirempty d : handles o (isdirempty d).
Proof. unfold isdirempty. fs_walk. Qed.
Lemma handles_create p t ma mi : handles o (create p t ma mi).
Proof. unfold create, create_new. fs_walk. Qed.
#[local] Hint Resolve handles_isdirempty handles_create : handledb.
Lemma handles_open_inode p m : handles o (open_inode p m).
Proof. unfold open_inode. fs_walk. Qed.
Lemma handles_created x : handles o (created x).
Proof. unfold created. fs_walk. Qed.
#[local] Hint Resolve handles_open_inode handles_created : handledb.

Ltac sys_walk := repeat first [ progress intros | apply handles_or_fail
  | lazymatch goal with |- handles _ ((fun _ => _) _) => cbv beta end | progress fs_walk ].

Lemma handles_sys_dup : handles o Sysfile.sys_dup.
Proof. unfold Sysfile.sys_dup. sys_walk. Qed.
Lemma handles_sys_read : handles o Sysfile.sys_read.
Proof. unfold Sysfile.sys_read. sys_walk. Qed.
Lemma handles_sys_write : handles o Sysfile.sys_write.
Proof. unfold Sysfile.sys_write. sys_walk. Qed.
Lemma handles_sys_close : handles o Sysfile.sys_close.
Proof. unfold Sysfile.sys_close. sys_walk. Qed.
Lemma handles_sys_fstat : handles o Sysfile.sys_fstat.
Proof. unfold Sysfile.sys_fstat. sys_walk. Qed.
Lemma handles_sys_link : handles o Sysfile.sys_link.
Proof. unfold Sysfile.sys_link, link_bad. sys_walk. Qed.
Lemma handles_sys_unlink : handles o Sysfile.sys_unlink.
Proof. unfold Sysfile.sys_unlink, unlink_entry, unlink_bad. sys_walk. Qed.
Lemma handles_sys_open : handles o Sysfile.sys_open.
Proof. unfold Sysfile.sys_open. sys_walk. Qed.
Lemma handles_sys_mkdir : handles o Sysfile.sys_mkdir.
Proof. unfold Sysfile.sys_mkdir. sys_walk. Qed.
Lemma handles_sys_mknod : handles o Sysfile.sys_mknod.
Proof. unfold Sysfile.sys_mknod. sys_walk. Qed.
Lemma handles_sys_chdir : handles o Sysfile.sys_chdir.
Proof. unfold Sysfile.sys_chdir. sys_walk. Qed.
Lemma handles_sys_exec : handles o Sysfile.sys_exec.
Proof. unfold Sysfile.sys_exec. sys_walk. Qed.
Lemma handles_sys_pipe : handles o Sysfile.sys_pipe.
Proof. unfold Sysfile.sys_pipe. sys_walk. Qed.
End sys_ops.

(** ** The implementations of the interfaces *)
#[export] Instance fs_impl `{Fuel} : FileSys := {|
  Process.filedup := File.filedup; Process.fileclose := File.fileclose; Process.idup := Fs.idup; Process.iput := Fs.iput;
  Process.begin_op := Log.begin_op; Process.end_op := Log.end_op; Process.namei := Fs.namei; Process.iinit := Fs.iinit;
  Process.initlog := Log.initlog |}.

#[export] Instance sysfile_impl `{Fuel} : SysFiles := {|
  Trap.sys_pipe := Sysfile.sys_pipe; Trap.sys_read := Sysfile.sys_read; Trap.sys_exec := Sysfile.sys_exec;
  Trap.sys_fstat := Sysfile.sys_fstat; Trap.sys_chdir := Sysfile.sys_chdir; Trap.sys_dup := Sysfile.sys_dup;
  Trap.sys_open := Sysfile.sys_open; Trap.sys_write := Sysfile.sys_write; Trap.sys_mknod := Sysfile.sys_mknod;
  Trap.sys_unlink := Sysfile.sys_unlink; Trap.sys_link := Sysfile.sys_link; Trap.sys_mkdir := Sysfile.sys_mkdir;
  Trap.sys_close := Sysfile.sys_close |}.

(** What the devices hold when an interrupt comes: whether the disk reports no
    error, whether there is a serial port, and the bytes waiting in the keyboard
    controller and the serial port. *)
Record devin := Devin { disk_ok : bool; has_uart : bool; kbd_data : list Z; uart_data : list Z }.
Definition dev_impl (d : devin) : Devices := {|
  Trap.ideintr := Ide.ideintr (disk_ok d);
  Trap.kbdintr := Kbd.kbdintr (kbd_data d);
  Trap.uartintr := ConsoleDev.uartintr (has_uart d) (uart_data d) |}.

(** [namei("/")] needs no disk: the root inode's entry is found or made. *)
Lemma quiet_namei_root `{Fuel} : quiet (Fs.namei (codes "/")).
Proof.
  intros s. change (Fs.namei (codes "/")) with
    (r ← ((ip ← (i ← iget ROOTDEV ROOTINO; mret (Some i));
      match ip with None => fault "namex" | Some i => mret (Some i, replicate DIRSIZ 0) end)
      : K (option nat * list Z)); mret r.1).
  revert s. change (quiet (r ← ((ip ← (i ← iget ROOTDEV ROOTINO; mret (Some i));
      match ip with None => fault "namex" | Some i => mret (Some i, replicate DIRSIZ 0) end)
      : K (option nat * list Z)); mret r.1)). quiet_walk.
Qed.

#[export] Instance fs_impl_ok `{Fuel} : FileSysOk fs_impl.
Proof.
  constructor; intros; simpl; first [apply quiet_namei_root | solve [eauto with quietdb handledb]].
Qed.

#[export] Instance sysfile_impl_ok `{Fuel} : SysFilesOk sysfile_impl.
Proof.
  constructor; simpl; auto using handles_sys_pipe, handles_sys_read, handles_sys_exec, handles_sys_fstat,
    handles_sys_chdir, handles_sys_dup, handles_sys_open, handles_sys_write, handles_sys_mknod,
    handles_sys_unlink, handles_sys_link, handles_sys_mkdir, handles_sys_close.
Qed.

#[export] Instance dev_impl_ok d : DevicesOk (dev_impl d).
Proof. constructor; intros; simpl; eauto with handledb. Qed.
