(* ===== verification/Policy.v ===== *)
(** The scheduling policy of proc.c: what the three selection loops of
    [scheduler] choose, against a declarative specification. *)
From stdpp Require Import base tactics list numbers strings gmap.
From S2P Require Import Prelude CString State Spinlock Console Kalloc Vm Sched SchedInv SchedOps.

#[local] Open Scope Z_scope.

(** ** Specifications *)

(** [c] is the first of the candidates in [l] whose key is least. *)
Definition first_min (ok : proc -> bool) (key : proc -> Z) (pt : list proc) (l : list nat)
    (c : nat) : Prop :=
  ok (pt !!! c) = true /\
  exists l1 l2, l = l1 ++ c :: l2 /\
    (forall i, i ∈ l1 -> ok (pt !!! i) = true -> key (pt !!! c) < key (pt !!! i)) /\
    (forall i, i ∈ l2 -> ok (pt !!! i) = true -> key (pt !!! c) <= key (pt !!! i)).

Definition min_choice (ok : proc -> bool) (key : proc -> Z) (pt : list proc) (l : list nat)
    (r : option nat) : Prop :=
  match r with
  | Some c => first_min ok key pt l c
  | None => forall i, i ∈ l -> ok (pt !!! i) = false
  end.

(** The slot [k] steps after [st], and the number of steps from [st] to [j], in
    the cyclic order of the table. *)
Definition rr_slot (st k : nat) : nat := if (st + k <? NPROC)%nat then (st + k)%nat else (st + k - NPROC)%nat.
Definition rr_dist (st j : nat) : nat := if (st <=? j)%nat then (j - st)%nat else (j + NPROC - st)%nat.

(** [j] is the first candidate met going round from [st]. *)
Definition rr_first (pt : list proc) (st j : nat) : Prop :=
  (j < NPROC)%nat /\ is_rr_cand (pt !!! j) = true /\
  forall i, (i < NPROC)%nat -> (rr_dist st i < rr_dist st j)%nat -> is_rr_cand (pt !!! i) = false.

(** ** The loops meet their specifications *)
Lemma min_choice_snoc_skip ok key pt l r i :
  min_choice ok key pt l r -> ok (pt !!! i) = false -> min_choice ok key pt (l ++ [i]) r.
Proof.
  destruct r as [c|]; simpl.
  - intros (Hc & l1 & l2 & -> & H1 & H2) Hi. split; [done|]. exists l1, (l2 ++ [i]).
    split; [by rewrite <-app_assoc|]. split; [done|]. intros j [Hj|Hj]%elem_of_app Hok; [auto|].
    apply list_elem_of_singleton in Hj as ->. congruence.
  - intros H Hi j [Hj|Hj]%elem_of_app; [auto|]. by apply list_elem_of_singleton in Hj as ->.
Qed.

Lemma min_choice_snoc_keep ok key pt l c i :
  min_choice ok key pt l (Some c) -> key (pt !!! c) <= key (pt !!! i) ->
  min_choice ok key pt (l ++ [i]) (Some c).
Proof.
  intros (Hc & l1 & l2 & -> & H1 & H2) Hi. split; [done|]. exists l1, (l2 ++ [i]).
  split; [by rewrite <-app_assoc|]. split; [done|]. intros j [Hj|Hj]%elem_of_app Hok; [auto|].
  by apply list_elem_of_singleton in Hj as ->.
Qed.

Lemma min_choice_snoc_take ok key pt l r i :
  min_choice ok key pt l r -> ok (pt !!! i) = true ->
  (forall c, r = Some c -> key (pt !!! i) < key (pt !!! c)) ->
  min_choice ok key pt (l ++ [i]) (Some i).
Proof.
  intros Hr Hi Hlt. split; [done|]. exists l, []. split; [done|]. split; [|set_solver].
  intros j Hj Hok. destruct r as [c|]; simpl in Hr.
  - specialize (Hlt c eq_refl). destruct Hr as (_ & l1 & l2 & -> & H1 & H2).
    apply elem_of_app in Hj as [Hj|[->|Hj]%elem_of_cons]; [|done|].
    + specialize (H1 j Hj Hok). lia.
    + specialize (H2 j Hj Hok). lia.
  - rewrite Hr in Hok by done. done.
Qed.

Lemma edf_loop_spec pt l l0 r :
  min_choice is_edf deadline pt l0 r -> min_choice is_edf deadline pt (l0 ++ l) (edf_loop pt l r).
Proof.
  revert l0 r. induction l as [|i l IH]; intros l0 r Hr; simpl; [by rewrite app_nil_r|].
  replace (l0 ++ i :: l) with ((l0 ++ [i]) ++ l) by (by rewrite <-app_assoc). apply IH.
  destruct (is_edf (pt !!! i)) eqn:Ei; [|by apply min_choice_snoc_skip].
  destruct r as [c|]; [destruct (deadline (pt !!! i) <? deadline (pt !!! c)) eqn:E|].
  - apply Z.ltb_lt in E. eapply min_choice_snoc_take; [done..|]. by intros ? [= <-].
  - apply Z.ltb_ge in E. by apply min_choice_snoc_keep.
  - by eapply min_choice_snoc_take.
Qed.

(** Two tables that agree on what the choice depends on. *)
Lemma min_choice_ext ok key pt pt' l r :
  (forall i, ok (pt' !!! i) = ok (pt !!! i) /\ key (pt' !!! i) = key (pt !!! i)) ->
  min_choice ok key pt l r -> min_choice ok key pt' l r.
Proof.
  intros He. destruct r as [c|]; simpl.
  - intros (Hc & l1 & l2 & -> & H1 & H2). split; [by rewrite (proj1 (He c))|].
    exists l1, l2. split; [done|]. split; intros i Hi; rewrite (proj1 (He i)), (proj2 (He i)), (proj2 (He c)); auto.
  - intros H i Hi. rewrite (proj1 (He i)). auto.
Qed.

Definition bump (p : proc) : proc := p <| waited_ticks ::= Z.add 1 |>.

Lemma bump_same (pt : list proc) i j :
  is_fcfs (alter bump i pt !!! j) = is_fcfs (pt !!! j) /\
  arrival_time (alter bump i pt !!! j) = arrival_time (pt !!! j).
Proof.
  destruct (decide (i = j)) as [->|Hne]; [|by rewrite lookup_total_alter_ne].
  destruct (decide (j < length pt)%nat).
  - by rewrite lookup_total_alter_eq.
  - rewrite list_alter_none; [done|]. apply lookup_ge_None. lia.
Qed.

Lemma fcfs_loop_choice pt l l0 r :
  min_choice is_fcfs arrival_time pt l0 r ->
  min_choice is_fcfs arrival_time pt (l0 ++ l) (fcfs_loop pt l r).2.
Proof.
  revert pt l0 r. induction l as [|i l IH]; intros pt l0 r Hr; simpl; [by rewrite app_nil_r|].
  replace (l0 ++ i :: l) with ((l0 ++ [i]) ++ l) by (by rewrite <-app_assoc).
  destruct (is_fcfs (pt !!! i)) eqn:Ei; [|apply IH; by apply min_choice_snoc_skip].
  change (fun p : proc => p <| waited_ticks ::= Z.add 1 |>) with bump.
  eapply (min_choice_ext _ _ (alter bump i pt)); [intros j; destruct (bump_same pt i j); done|].
  apply IH. assert (Hr' : min_choice is_fcfs arrival_time (alter bump i pt) l0 r).
  { eapply min_choice_ext; [|exact Hr]. apply bump_same. }
  rewrite <-(proj1 (bump_same pt i i)) in Ei.
  destruct r as [c|]; [destruct (_ <? _) eqn:E|].
  - apply Z.ltb_lt in E. eapply min_choice_snoc_take; [done..|]. by intros ? [= <-].
  - apply Z.ltb_ge in E. by apply min_choice_snoc_keep.
  - by eapply min_choice_snoc_take.
Qed.

(** The FCFS loop counts a waiting turn for every candidate, and changes nothing
    else. *)
Definition fcfs_waited (l : list nat) (j : nat) (p : proc) : proc :=
  if decide (j ∈ l) then if is_fcfs p then bump p else p else p.

Lemma fcfs_loop_table pt l r j :
  NoDup l -> (forall i, i ∈ l -> (i < length pt)%nat) ->
  length (fcfs_loop pt l r).1 = length pt /\
  (fcfs_loop pt l r).1 !!! j = fcfs_waited l j (pt !!! j).
Proof.
  revert pt r. induction l as [|i l IH]; intros pt r Hnd Hlt; simpl; [done|].
  apply NoDup_cons in Hnd as [Hi Hnd].
  assert (Hil : (i < length pt)%nat) by (apply Hlt; set_solver).
  destruct (is_fcfs (pt !!! i)) eqn:Ei.
  - change (fun p : proc => p <| waited_ticks ::= Z.add 1 |>) with bump.
    edestruct IH as [E1 E2]; [exact Hnd| |rewrite E1, E2; rewrite length_alter; split; [done|]].
    { intros k Hk. rewrite length_alter. apply Hlt. set_solver. }
    unfold fcfs_waited. rewrite (lookup_total_alter pt i j bump) by done.
    destruct (decide (i = j)) as [<-|Hne].
    + by rewrite (decide_False (P:=i ∈ l)), decide_True, Ei by set_solver.
    + destruct (decide (j ∈ l)); [rewrite decide_True|rewrite decide_False]; set_solver.
  - edestruct IH as [E1 E2]; [exact Hnd| |rewrite E1, E2; split; [done|]].
    { intros k Hk. apply Hlt. set_solver. }
    unfold fcfs_waited. destruct (decide (i = j)) as [<-|Hne].
    + by rewrite (decide_False (P:=i ∈ l)), decide_True, Ei by set_solver.
    + destruct (decide (j ∈ l)); [rewrite decide_True|rewrite decide_False]; set_solver.
Qed.

(** *** The round-robin loop *)
Lemma rr_slot_lt st k : (st < NPROC)%nat -> (k < NPROC)%nat -> (rr_slot st k < NPROC)%nat.
Proof. unfold rr_slot. intros. destruct (Nat.ltb_spec (st + k) NPROC); lia. Qed.

Lemma rr_slot_next st k :
  (st < NPROC)%nat -> (S k < NPROC)%nat -> next_slot (rr_slot st k) = rr_slot st (S k).
Proof.
  unfold rr_slot, next_slot. intros.
  destruct (Nat.ltb_spec (st + k) NPROC), (Nat.ltb_spec (st + S k) NPROC);
    destruct (Nat.eqb_spec (S (st + k)) NPROC); destruct (Nat.eqb_spec (S (st + k - NPROC)) NPROC); lia.
Qed.

Lemma rr_slot_dist st k : (st < NPROC)%nat -> (k < NPROC)%nat -> rr_dist st (rr_slot st k) = k.
Proof.
  unfold rr_slot, rr_dist. intros. destruct (Nat.ltb_spec (st + k) NPROC).
  - destruct (Nat.leb_spec st (st + k)); lia.
  - destruct (Nat.leb_spec st (st + k - NPROC)); lia.
Qed.

Lemma rr_dist_slot st j : (st < NPROC)%nat -> (j < NPROC)%nat ->
  (rr_dist st j < NPROC)%nat /\ rr_slot st (rr_dist st j) = j.
Proof.
  unfold rr_slot, rr_dist. intros. destruct (Nat.leb_spec st j); split; try lia.
  - destruct (Nat.ltb_spec (st + (j - st)) NPROC); lia.
  - destruct (Nat.ltb_spec (st + (j + NPROC - st)) NPROC); lia.
Qed.

Lemma rr_slot_wrap st : (st < NPROC)%nat -> next_slot (rr_slot st (NPROC - 1)) = st.
Proof.
  unfold rr_slot, next_slot. intros.
  destruct (Nat.ltb_spec (st + (NPROC - 1)) NPROC).
  - destruct (Nat.eqb_spec (S (st + (NPROC - 1))) NPROC); lia.
  - destruct (Nat.eqb_spec (S (st + (NPROC - 1) - NPROC)) NPROC); lia.
Qed.

(** [NPROC] iterations are enough: the loop ends, with the first candidate after
    the cursor if there is one. *)
Lemma rr_loop_from pt st n k :
  (st < NPROC)%nat -> (n + k = NPROC)%nat -> (0 < n)%nat ->
  (forall i, (i < NPROC)%nat -> (rr_dist st i < k)%nat -> is_rr_cand (pt !!! i) = false) ->
  exists r, rr_loop n pt st (rr_slot st k) = Some r /\
    match r with
    | Some (j, nx) => rr_first pt st j /\ nx = next_slot j
    | None => forall i, (i < NPROC)%nat -> is_rr_cand (pt !!! i) = false
    end.
Proof.
  intros Hst. revert k. induction n as [|n IH]; intros k Hn Hpos Hk; [lia|]. cbn [rr_loop].
  assert (Hk' : (k < NPROC)%nat) by lia.
  destruct (is_rr_cand (pt !!! rr_slot st k)) eqn:E; simpl.
  - eexists. split; [done|]. split; [|done]. split; [by apply rr_slot_lt|]. split; [done|].
    intros i Hi. rewrite rr_slot_dist by done. auto.
  - assert (Hnext : forall i, (i < NPROC)%nat -> (rr_dist st i < S k)%nat ->
      is_rr_cand (pt !!! i) = false).
    { intros i Hi Hd. destruct (decide (rr_dist st i = k)) as [Hd'|Hd']; [|apply Hk; lia].
      destruct (rr_dist_slot st i Hst Hi) as [_ Hs]. by rewrite <-Hs, Hd'. }
    destruct (decide (S k = NPROC)) as [Hend|Hend].
    + replace k with (NPROC - 1)%nat by lia. rewrite rr_slot_wrap, Nat.eqb_refl by done.
      eexists. split; [done|]. simpl. intros i Hi. apply Hnext; [done|].
      destruct (rr_dist_slot st i Hst Hi). lia.
    + rewrite rr_slot_next by lia.
      destruct (Nat.eqb_spec (rr_slot st (S k)) st) as [Hc|_]; [|apply IH; [lia..|done]].
      pose proof (rr_slot_dist st (S k) Hst ltac:(lia)) as Hd. rewrite Hc in Hd.
      unfold rr_dist in Hd. rewrite Nat.leb_refl in Hd. lia.
Qed.

Lemma rr_loop_spec pt st :
  (st < NPROC)%nat ->
  exists r, rr_loop NPROC pt st st = Some r /\
    match r with
    | Some (j, nx) => rr_first pt st j /\ nx = next_slot j
    | None => forall i, (i < NPROC)%nat -> is_rr_cand (pt !!! i) = false
    end.
Proof.
  intros Hst. assert (E : rr_slot st 0 = st).
  { unfold rr_slot. destruct (Nat.ltb_spec (st + 0) NPROC); lia. }
  destruct (rr_loop_from pt st NPROC 0 Hst) as (r & Hr & Hs); [lia|unfold NPROC; lia|lia|].
  rewrite E in Hr. eauto.
Qed.

(** ** The choice of the scheduler *)
Definition none_ready (pt : list proc) (q : queue) : Prop :=
  forall i, (i < NPROC)%nat -> ready q (pt !!! i) = false.

(** EDF processes first, by deadline; then round robin from the cursor; then FCFS
    by arrival; and nothing only if nothing is RUNNABLE. *)
Definition policy_choice (pt : list proc) (cursor : nat) (r : option nat) : Prop :=
  match r with
  | Some j =>
      first_min (ready Q_EDF) deadline pt procs j \/
      none_ready pt Q_EDF /\ ready Q_RR (pt !!! j) = true /\ rr_first pt cursor j \/
      none_ready pt Q_EDF /\ none_ready pt Q_RR /\ first_min (ready Q_FCFS) arrival_time pt procs j
  | None => forall i, (i < NPROC)%nat -> state (pt !!! i) <> RUNNABLE
  end.

Lemma is_fcfs_ready p : is_fcfs p = ready Q_FCFS p.
Proof. unfold is_fcfs, ready, in_queue. by rewrite andb_assoc. Qed.

Lemma count_pos (pt : list proc) q :
  length pt = NPROC -> 0 < count_if (ready q) pt -> exists i, (i < NPROC)%nat /\ ready q (pt !!! i) = true.
Proof.
  intros Hl (i & x & Hi & Hx)%count_if_pos_exists. exists i.
  split; [rewrite <-Hl; by eapply lookup_lt_Some|]. by rewrite (list_lookup_total_correct _ _ _ Hi).
Qed.

Lemma count_zero (pt : list proc) q : length pt = NPROC -> ~ 0 < count_if (ready q) pt -> none_ready pt q.
Proof.
  intros Hl Hc i Hi. destruct (ready q (pt !!! i)) eqn:E; [|done]. exfalso. apply Hc.
  eapply count_if_pos; [|exact E]. by apply ptab_lookup.
Qed.

Lemma ready_some p : proc_wf p -> state p = RUNNABLE -> exists q, ready q p = true.
Proof.
  unfold ready, in_queue. intros [Hw|[[Hc Hv]|[Hc [Hv|Hv]]]] Hs; [congruence|..]; rewrite Hs.
  - exists Q_EDF. by rewrite Hc.
  - exists Q_RR. by rewrite Hc, Hv.
  - exists Q_FCFS. by rewrite Hc, Hv.
Qed.

(** In a well-formed table the level alone identifies round-robin processes. *)
Lemma is_rr_cand_ready p : proc_wf p -> is_rr_cand p = ready Q_RR p.
Proof.
  unfold is_rr_cand, ready, in_queue. intros [Hw|[[Hc Hv]|[Hc [Hv|Hv]]]].
  - by rewrite Hw.
  - rewrite Hc, Hv. by destruct (bool_decide _).
  - rewrite Hc, Hv. by destruct (bool_decide _).
  - rewrite Hc, Hv. by destruct (bool_decide _).
Qed.

Lemma min_choice_some ok key pt l r i :
  min_choice ok key pt l r -> i ∈ l -> ok (pt !!! i) = true -> exists j, r = Some j.
Proof. destruct r as [j|]; [eauto|]. simpl. intros H Hi. rewrite H by done. done. Qed.

Lemma inv_fcfs_loop δ ex o s l r :
  inv δ ex o s -> inv δ ex o (s <| ptab := (fcfs_loop (ptab s) l r).1 |>).
Proof.
  revert s r. induction l as [|i l IH]; intros s r Hs; [by destruct s|]. simpl.
  destruct (is_fcfs _); [|by apply IH].
  pose proof (IH (s <| ptab ::= alter bump i |>)) as HX. apply HX.
  apply inv_upd_key; [by intros []|done].
Qed.
