(* ===== verification/Fair.v ===== *)
(** Round-robin turns do not starve a process. *)
From stdpp Require Import base tactics list numbers strings gmap.
From S2P Require Import Prelude CString State Spinlock Console Kalloc Vm Sched SchedInv Sample SchedOps Policy.

#[local] Open Scope Z_scope.

(** The processes chosen in successive round-robin turns of one CPU's scheduler,
    when the process table at turn [k] is element [k] of [pts]. *)
Fixpoint rr_turns (pts : list (list proc)) (cursor : nat) : option (list nat) :=
  match pts with
  | [] => Some []
  | pt :: rest =>
      match rr_loop NPROC pt cursor cursor with
      | Some (Some (j, nx)) => cons j <$> rr_turns rest nx
      | _ => None
      end
  end.

Lemma next_slot_lt j : (j < NPROC)%nat -> (next_slot j < NPROC)%nat.
Proof. unfold next_slot. destruct (Nat.eqb_spec (S j) NPROC); lia. Qed.

Lemma elem_of_take_mono {A} (x : A) a b l : (a <= b)%nat -> x ∈ take a l -> x ∈ take b l.
Proof.
  intros Hab. rewrite <-(Nat.min_l a b Hab) at 1. rewrite <-take_take. apply subseteq_take.
Qed.

(** A turn that serves another process brings the cursor closer. *)
Lemma rr_dist_next st j j' :
  (st < NPROC)%nat -> (j < NPROC)%nat -> (j' < NPROC)%nat -> (rr_dist st j' < rr_dist st j)%nat ->
  (rr_dist (next_slot j') j < rr_dist st j)%nat.
Proof.
  unfold rr_dist, next_slot. intros ? ? ?.
  destruct (Nat.leb_spec st j'), (Nat.leb_spec st j), (Nat.eqb_spec (S j') NPROC);
    repeat match goal with |- context [(?a <=? ?b)%nat] => destruct (Nat.leb_spec a b) end; lia.
Qed.

Lemma rr_dist_inj st i j :
  (st < NPROC)%nat -> (i < NPROC)%nat -> (j < NPROC)%nat -> rr_dist st i = rr_dist st j -> i = j.
Proof.
  intros Hs Hi Hj E. destruct (rr_dist_slot st i Hs Hi) as [_ <-], (rr_dist_slot st j Hs Hj) as [_ <-].
  by rewrite E.
Qed.

Lemma rr_turns_some pts cursor j :
  (cursor < NPROC)%nat -> (j < NPROC)%nat ->
  Forall (fun pt => is_rr_cand (pt !!! j) = true) pts ->
  exists l, rr_turns pts cursor = Some l /\
    ((rr_dist cursor j < length pts)%nat -> j ∈ take (S (rr_dist cursor j)) l).
Proof.
  intros Hc Hj. revert cursor Hc. induction pts as [|pt pts IH]; intros cursor Hc Hall; cbn [rr_turns length].
  { exists []. split; [done|lia]. }
  inversion Hall as [|?? Hcand Hrest]; subst.
  destruct (rr_loop_spec pt cursor Hc) as (r & -> & Hr). destruct r as [[j' nx]|].
  2: { rewrite Hr in Hcand by done. done. }
  destruct Hr as [(Hj' & _ & Hfirst) ->]. simpl.
  destruct (IH (next_slot j') (next_slot_lt _ Hj') Hrest) as (l & -> & Hl). simpl.
  exists (j' :: l). split; [done|]. intros Hlen. destruct (decide (j' = j)) as [->|Hne].
  { simpl. set_solver. }
  assert (Hlt : (rr_dist cursor j' < rr_dist cursor j)%nat).
  { destruct (decide (rr_dist cursor j < rr_dist cursor j')%nat) as [Hd|Hd].
    - by rewrite (Hfirst j Hj Hd) in Hcand.
    - assert (rr_dist cursor j' <> rr_dist cursor j) by (intros E; by apply Hne, (rr_dist_inj cursor)).
      lia. }
  pose proof (rr_dist_next cursor j j' Hc Hj Hj' Hlt) as Hd. right.
  eapply elem_of_take_mono; [|apply Hl; lia]. lia.
Qed.

(** C8: A process that stays RUNNABLE at level 1 is chosen within [NPROC] round-robin
    turns, whatever the other processes do: every turn finds somebody, and the
    process is among the first [NPROC] that are served. *)
Theorem rr_bounded_waiting (pts : list (list proc)) (cursor j : nat) :
  (cursor < NPROC)%nat -> (j < NPROC)%nat -> (NPROC <= length pts)%nat ->
  Forall (fun pt => state (pt !!! j) = RUNNABLE /\ sched_level (pt !!! j) = 1) pts ->
  exists l, rr_turns pts cursor = Some l /\ length l = length pts /\ j ∈ take NPROC l.
Proof.
  intros Hc Hj Hlen Hall.
  destruct (rr_turns_some pts cursor j Hc Hj) as (l & E & Hl).
  { eapply Forall_impl; [exact Hall|]. simpl. intros pt [Hs Hv]. unfold is_rr_cand.
    rewrite Hs, Hv. done. }
  destruct (rr_dist_slot cursor j Hc Hj) as [Hd _]. exists l. split; [done|]. split.
  - clear -E. revert cursor l E. induction pts as [|pt pts IH]; cbn [rr_turns length]; intros cursor l.
    { by intros [= <-]. }
    destruct (rr_loop _ _ _ _) as [[[j' nx]|]|]; try done.
    destruct (rr_turns pts nx) as [l'|] eqn:E'; simpl; [|done]. intros [= <-]. simpl.
    f_equal. by eapply IH.
  - eapply elem_of_take_mono; [|apply Hl; lia]. lia.
Qed.

(** 64 turns on the sample machine: its one level-1 process is in slot 3. *)
Lemma rr_bounded_waiting_witness :
  exists l, rr_turns (replicate 64 sample_table) 10 = Some l /\ 3%nat ∈ take NPROC l.
Proof.
  destruct (rr_bounded_waiting (replicate 64 sample_table) 10 3) as (l & E & _ & H).
  - unfold NPROC. lia.
  - unfold NPROC. lia.
  - rewrite length_replicate. unfold NPROC. lia.
  - apply Forall_replicate. split; reflexivity.
  - exists l. split; [exact E|exact H].
Defined.
