(* ===== verification/Dispatch.v ===== *)
(** The scheduler thread of proc.c: one turn of its loop chooses by the policy of
    Policy.v, hands the CPU over and takes it back, and keeps the invariant. *)
From stdpp Require Import base tactics list numbers strings gmap.
From S2P Require Import Prelude CString State Spinlock Console Kalloc Vm Sched SchedInv Sample SchedOps Policy.

#[local] Open Scope Z_scope.

(** ** CPU entries *)
Lemma this_cpu_alter l c f :
  (forall x, apicid (f x) = apicid x) -> this_cpu (l <| cpus ::= alter f c |>) = this_cpu l.
Proof.
  intros Hf. unfold this_cpu. simpl. apply find_cpu_ext. rewrite !fmap_take. f_equal.
  apply list_eq. intros j. rewrite !list_lookup_fmap. destruct (decide (c = j)) as [->|Hne].
  - rewrite list_lookup_alter_eq. destruct (cpus l !! j); simpl; by rewrite ?Hf.
  - by rewrite list_lookup_alter_ne.
Qed.

Lemma running_alter l c f c' j :
  running_on (l <| cpus ::= alter f c |>) c' j <->
  if decide (c = c') then exists x, cpus l !! c = Some x /\ cpu_proc (f x) = Some j
  else running_on l c' j.
Proof.
  unfold running_on. simpl. case_decide as E; [subst c'; rewrite list_lookup_alter_eq|
    by rewrite list_lookup_alter_ne].
  destruct (cpus l !! c) as [x|]; simpl; naive_solver.
Qed.

Lemma nextrrp_alter l c f :
  (forall x, nextrrp (f x) = nextrrp x \/ nextrrp (f x) < NPROC)%nat ->
  Forall (fun n => n < NPROC)%nat (nextrrp <$> cpus l) ->
  Forall (fun n => n < NPROC)%nat (nextrrp <$> cpus (l <| cpus ::= alter f c |>)).
Proof.
  intros Hf. rewrite !Forall_fmap. simpl. intros H. apply Forall_alter; [done|].
  intros x Hx Hn. simpl in *. destruct (Hf x) as [->|]; done.
Qed.

Lemma inv_upd_cpu δ ex o s c f :
  (forall x, apicid (f x) = apicid x) ->
  (forall x, nextrrp (f x) = nextrrp x \/ nextrrp (f x) < NPROC)%nat ->
  (forall x, cpus (klk s) !! c = Some x -> cpu_proc (f x) = cpu_proc x) ->
  inv δ ex o s -> inv δ ex o (s <| klk ::= fun l => l <| cpus ::= alter f c |> |>).
Proof.
  intros Ha Hn Hp (Hd & (H1 & H2 & H3 & H4) & Hc).
  assert (Hr : forall c' j, running_on ((klk s) <| cpus ::= alter f c |>) c' j <-> running_on (klk s) c' j).
  { intros c' j. rewrite running_alter. case_decide as E; [subst c'|done].
    unfold running_on. split; intros (x & Hx & Hy); exists x; (split; [done|]).
    - by rewrite <-Hp. - by rewrite Hp. }
  assert (Ht : this_cpu ((klk s) <| cpus ::= alter f c |>) = this_cpu (klk s)) by (by apply this_cpu_alter).
  split; [done|]. split; [split; [|split; [|split]]|].
  - intros c' j. simpl. rewrite Hr, Ht. apply H1.
  - intros c1 c2 j. simpl. rewrite !Hr. apply H2.
  - intros j Hj Hs. destruct (H3 j Hj Hs) as [c' Hc']. exists c'. simpl. by apply Hr.
  - by apply nextrrp_alter.
  - rewrite <-Hc. apply option_eq. intros j. rewrite !cur_running. simpl. rewrite Ht.
    by setoid_rewrite Hr.
Qed.

Lemma inv_upd_rr δ ex o s c nx :
  (nx < NPROC)%nat -> inv δ ex o s ->
  inv δ ex o (s <| klk ::= fun l => l <| cpus ::= alter (fun x => x <| nextrrp := nx |>) c |> |>).
Proof. intros Hnx. apply inv_upd_cpu; [done| |done]. by right. Qed.

(** The scheduler takes a process that is not RUNNING anywhere. *)
Lemma inv_take δ s c j :
  inv δ false None s -> this_cpu (klk s) = Some c -> (j < NPROC)%nat ->
  state (ptab s !!! j) <> RUNNING ->
  inv δ true (Some j) (s <| klk ::= fun l => l <| cpus ::= alter (fun x => x <| cpu_proc := Some j |>) c |> |>).
Proof.
  intros (Hd & (H1 & H2 & H3 & H4) & Hc) Ht Hj Hn.
  set (f := fun x : cpu => x <| cpu_proc := Some j |>).
  assert (Ht' : this_cpu ((klk s) <| cpus ::= alter f c |>) = Some c) by (by rewrite this_cpu_alter).
  assert (Hnone : forall c', ~ running_on (klk s) c' j).
  { intros c' Hr. destruct (H1 _ _ Hr) as [_ Hx]. apply Hn, Hx. by intros []. }
  assert (Hcur : forall j', ~ running_on (klk s) c j').
  { intros j' Hr. enough (cur (klk s) = Some j') by congruence. apply cur_running. eauto. }
  destruct (this_cpu_lookup _ _ Ht) as [x Hx].
  split; [done|]. split; [split; [|split; [|split]]|].
  - intros c' j'. simpl. rewrite running_alter, Ht'. case_decide as E; [subst c'|].
    + intros (y & Hy & [= <-]). split; [done|]. naive_solver.
    + intros Hr. destruct (H1 _ _ Hr) as [Hlt Hiff]. split; [done|]. rewrite Hiff. naive_solver.
  - intros c1 c2 j'. simpl. rewrite !running_alter. repeat case_decide; subst; try done; [..|by apply H2].
    + intros (y & Hy & [= <-]) Hr. by apply Hnone in Hr.
    + intros Hr (y & Hy & [= <-]). by apply Hnone in Hr.
  - intros j' Hj' Hs. destruct (H3 j' Hj' Hs) as [c' Hc']. exists c'. simpl. rewrite running_alter.
    case_decide; [subst; by apply Hcur in Hc'|done].
  - apply nextrrp_alter; [|done]. by left.
  - apply cur_running. simpl. exists c. split; [done|]. apply running_alter.
    rewrite decide_True by done. by exists x.
Qed.

(** The scheduler drops a process that has left the CPU. *)
Lemma inv_drop δ s c j :
  inv δ true (Some j) s -> this_cpu (klk s) = Some c ->
  inv δ false None (s <| klk ::= fun l => l <| cpus ::= alter (fun x => x <| cpu_proc := None |>) c |> |>).
Proof.
  intros (Hd & (H1 & H2 & H3 & H4) & Hc) Ht. set (f := fun x : cpu => x <| cpu_proc := None |>).
  assert (Ht' : this_cpu ((klk s) <| cpus ::= alter f c |>) = Some c) by (by rewrite this_cpu_alter).
  split; [done|]. split; [split; [|split; [|split]]|].
  - intros c' j'. simpl. rewrite running_alter, Ht'. case_decide as E; [by intros (y & _ & ?)|].
    intros Hr. destruct (H1 _ _ Hr) as [Hlt Hiff]. split; [done|]. rewrite Hiff. naive_solver.
  - intros c1 c2 j'. simpl. rewrite !running_alter. repeat case_decide; subst; try done; [..|by apply H2].
    + by intros (y & Hy & ?).
    + by intros _ (y & Hy & ?).
  - intros j' Hj' Hs. destruct (H3 j' Hj' Hs) as [c' Hc']. exists c'. simpl. rewrite running_alter.
    case_decide; [subst|done]. destruct (H1 _ _ Hc') as [_ Hiff]. naive_solver.
  - apply nextrrp_alter; [|done]. by left.
  - apply eq_None_not_Some. intros [j' (c' & Ht2 & Hr)%cur_running]. simpl in *.
    rewrite Ht' in Ht2. injection Ht2 as <-. apply running_alter in Hr.
    rewrite decide_True in Hr by done. by destruct Hr as (? & _ & ?).
Qed.

(** The process just taken starts RUNNING. *)
Lemma run_ok_start l pt j f :
  length pt = NPROC -> run_ok true l pt -> cur l = Some j -> state (f (pt !!! j)) = RUNNING ->
  run_ok false l (alter f j pt).
Proof.
  intros Hl (H1 & H2 & H3 & H4) Hc Hf. apply cur_running in Hc as (c0 & Ht & Hr0).
  destruct (H1 _ _ Hr0) as [Hj _]. split; [|split; [done|split; [|done]]].
  - intros c j' Hr. destruct (H1 c j' Hr) as [Hj' Hiff]. split; [done|].
    rewrite lookup_total_alter by lia. case_decide as E; [subst j'|].
    + naive_solver.
    + rewrite Hiff, Ht. split; [by intros _ [? _]|]. intros _ [_ [= <-]].
      destruct Hr0 as (x & Hx & ?), Hr as (y & Hy & ?). congruence.
  - intros j' Hj'. rewrite lookup_total_alter by lia. case_decide; [subst; eauto|]. by apply H3.
Qed.

(** ** Choosing *)
Lemma inv_count δ ex o s q : inv δ ex o s -> cnt (view s) q = count_if (ready q) (ptab s) + δ q.
Proof. intros (((_ & _ & Hc) & _) & _). apply Hc. Qed.

Lemma inv_cursor δ ex o s c x :
  inv δ ex o s -> cpus (klk s) !! c = Some x -> (nextrrp x < NPROC)%nat.
Proof.
  intros (_ & (_ & _ & _ & Hn) & _) Hx. rewrite Forall_forall in Hn. apply Hn.
  apply list_elem_of_fmap. exists x. split; [done|]. by eapply list_elem_of_lookup_2.
Qed.

Lemma policy_none pt cursor :
  Forall proc_wf pt -> length pt = NPROC -> (forall q, none_ready pt q) ->
  policy_choice pt cursor None.
Proof.
  intros Hw Hl Hn i Hi Hs. rewrite Forall_forall in Hw.
  destruct (ready_some (pt !!! i)) as [q Hq]; [|done|by rewrite Hn in Hq].
  apply Hw, list_elem_of_lookup_total_2. lia.
Qed.

Definition turns_only (s s' : kst) : Prop :=
  forall j, exists w, ptab s' !!! j = (ptab s !!! j) <| waited_ticks := w |>.
Definition rr_moved (s s' : kst) (c : nat) : Prop :=
  klk s' = klk s \/
  exists nx, klk s' = (klk s) <| cpus ::= alter (fun x => x <| nextrrp := nx |>) c |>.

(** What a choice leaves behind: the table changes by waiting turns only, the CPU
    by its cursor only. *)
Definition chosen_ok (s s' : kst) (c : nat) (r : option nat) : Prop :=
  policy_choice (ptab s) (nextrrp (cpus (klk s) !!! c)) r /\
  inv zero false None s' /\ turns_only s s' /\ rr_moved s s' c /\
  (forall j, r = Some j -> (j < NPROC)%nat /\ state (ptab s' !!! j) = RUNNABLE).

Lemma turns_refl s : turns_only s s.
Proof. intros j. exists (waited_ticks (ptab s !!! j)). by destruct (ptab s !!! j). Qed.

Lemma ready_runnable q p : ready q p = true -> state p = RUNNABLE.
Proof. unfold ready. intros [H _]%andb_true_iff. by apply bool_decide_eq_true in H. Qed.

Lemma first_min_runnable q key pt j :
  first_min (ready q) key pt procs j -> (j < NPROC)%nat /\ state (pt !!! j) = RUNNABLE.
Proof.
  intros (Hr & l1 & l2 & Hl & _). split; [|by eapply ready_runnable].
  apply in_procs. rewrite Hl. set_solver.
Qed.

Section choose.
Context (s : kst) (c : nat).
Hypothesis Hs : inv zero false None s.
Let pt := ptab s.

Lemma choose_edf :
  0 < count_if (ready Q_EDF) pt -> chosen_ok s s c (edf_loop pt procs None).
Proof.
  intros Hc. destruct (count_pos pt Q_EDF (inv_length _ _ _ _ Hs) Hc) as (i & Hi & Hr).
  assert (Hm : min_choice (ready Q_EDF) deadline pt procs (edf_loop pt procs None)).
  { apply (edf_loop_spec pt procs [] None). simpl. set_solver. }
  destruct (min_choice_some _ _ _ _ _ i Hm) as [j Hj]; [by apply in_procs|done|].
  rewrite Hj in Hm |- *. split; [by left|]. split; [done|]. split; [apply turns_refl|]. split; [by left|].
  intros ? [= <-]. by eapply first_min_runnable.
Qed.

Lemma choose_rr x :
  cpus (klk s) !! c = Some x -> none_ready pt Q_EDF -> 0 < count_if (ready Q_RR) pt ->
  exists j nx, rr_loop NPROC pt (nextrrp x) (nextrrp x) = Some (Some (j, nx)) /\
    chosen_ok s (s <| klk ::= fun l => l <| cpus ::= alter (fun x => x <| nextrrp := nx |>) c |> |>)
      c (Some j).
Proof.
  intros Hx Hne Hc. destruct (count_pos pt Q_RR (inv_length _ _ _ _ Hs) Hc) as (i & Hi & Hr).
  destruct (rr_loop_spec pt (nextrrp x)) as (r & Hl & Hspec); [by eapply inv_cursor|].
  assert (Hcand : forall k, (k < NPROC)%nat -> is_rr_cand (pt !!! k) = ready Q_RR (pt !!! k)).
  { intros k Hk. apply is_rr_cand_ready. by eapply inv_wf. }
  destruct r as [[j nx]|]; [|by rewrite <-Hcand, Hspec in Hr].
  destruct Hspec as [Hf ->]. destruct (Hf) as (Hj & Hcj & _). exists j, (next_slot j). split; [done|].
  rewrite Hcand in Hcj by done. split; [|split; [|split; [exact (turns_refl s)|split; [by right; eexists|]]]].
  - right. left. rewrite (list_lookup_total_correct _ _ _ Hx). done.
  - apply inv_upd_rr; [|done]. unfold next_slot. destruct (Nat.eqb_spec (S j) NPROC); lia.
  - intros ? [= <-]. split; [done|]. by eapply ready_runnable.
Qed.

Lemma choose_fcfs :
  none_ready pt Q_EDF -> none_ready pt Q_RR -> 0 < count_if (ready Q_FCFS) pt ->
  chosen_ok s (s <| ptab := (fcfs_loop pt procs None).1 |>) c (fcfs_loop pt procs None).2.
Proof.
  intros Hne Hnr Hc. pose proof (inv_length _ _ _ _ Hs) as Hl. fold pt in Hl.
  destruct (count_pos pt Q_FCFS Hl Hc) as (i & Hi & Hr).
  assert (Hm : min_choice is_fcfs arrival_time pt procs (fcfs_loop pt procs None).2).
  { apply (fcfs_loop_choice pt procs [] None). intros k. by rewrite elem_of_nil. }
  assert (Htab : forall k, (fcfs_loop pt procs None).1 !!! k = fcfs_waited procs k (pt !!! k)).
  { intros k. apply fcfs_loop_table; [apply NoDup_seq|]. intros k' Hk'%in_procs. lia. }
  pose proof (inv_fcfs_loop _ _ _ s procs None Hs) as Hinv. fold pt in Hinv.
  destruct (fcfs_loop pt procs None) as [pt' r]. cbn [fst snd] in *.
  destruct (min_choice_some _ _ _ _ _ i Hm) as [j ->]; [by apply in_procs|by rewrite is_fcfs_ready|].
  assert (Hm' : first_min (ready Q_FCFS) arrival_time pt procs j).
  { destruct Hm as (Hj' & l1 & l2 & E & H1 & H2). rewrite is_fcfs_ready in Hj'. split; [done|].
    exists l1, l2. split; [done|]. split; intros k Hk; rewrite <-is_fcfs_ready; auto. }
  assert (Hk : turns_only s (s <| ptab := pt' |>)).
  { intros k. simpl. rewrite Htab. unfold fcfs_waited. fold pt.
    destruct (decide _); [|apply turns_refl]. destruct (is_fcfs _); [by eexists|apply turns_refl]. }
  split; [by right; right|]. split; [exact Hinv|]. split; [exact Hk|]. split; [by left|].
  intros ? [= <-]. destruct (first_min_runnable _ _ _ _ Hm') as [Hlt Hst]. split; [done|].
  destruct (Hk j) as [w ->]. done.
Qed.
End choose.

Lemma sched_choose_spec s c :
  inv zero false None s -> this_cpu (klk s) = Some c ->
  exists r s', sched_choose c s = Ret r s' /\ chosen_ok s s' c r.
Proof.
  intros Hs Ht. destruct (this_cpu_lookup _ _ Ht) as [x Hx].
  pose proof (inv_length _ _ _ _ Hs) as Hl.
  assert (Hcnt : forall q, cnt (view s) q = count_if (ready q) (ptab s)).
  { intros q. rewrite (inv_count _ _ _ _ q Hs). unfold zero. lia. }
  pose proof (Hcnt Q_EDF) as Ce. pose proof (Hcnt Q_RR) as Cr. pose proof (Hcnt Q_FCFS) as Cf.
  unfold cnt, view in Ce, Cr, Cf. simpl in Ce, Cr, Cf.
  unfold sched_choose, cpu_at, mbind, M_bind, gets. cbn [obind]. rewrite Ce.
  destruct (Z.ltb_spec 0 (count_if (ready Q_EDF) (ptab s))) as [He|He].
  { eexists _, _. split; [done|]. by apply choose_edf. }
  pose proof (count_zero _ Q_EDF Hl ltac:(lia)) as Ne.
  cbn [obind]. rewrite Cr. destruct (Z.ltb_spec 0 (count_if (ready Q_RR) (ptab s))) as [Hr|Hr].
  { cbn [obind]. rewrite (list_lookup_total_correct _ _ _ Hx).
    destruct (choose_rr s c Hs x Hx Ne Hr) as (j & nx & -> & Hok). eexists _, _. by split. }
  pose proof (count_zero _ Q_RR Hl ltac:(lia)) as Nr.
  cbn [obind]. rewrite Cf. destruct (Z.ltb_spec 0 (count_if (ready Q_FCFS) (ptab s))) as [Hf|Hf].
  { pose proof (choose_fcfs s c Hs Ne Nr Hf) as Hok.
    cbn [obind]. destruct (fcfs_loop (ptab s) procs None) as [pt' r]. eexists _, _. by split. }
  pose proof (count_zero _ Q_FCFS Hl ltac:(lia)) as Nf.
  eexists None, s. split; [done|]. split; [|split; [done|split; [apply turns_refl|split; [by left|done]]]].
  apply policy_none; [apply Hs|done|]. by intros [].
Qed.

(** ** Handing the CPU over and taking it back *)
Lemma this_cpu_view s s' : view s' = view s -> this_cpu (klk s') = this_cpu (klk s).
Proof. intros E. apply cpus_view_this. exact (f_equal v_cpus E). Qed.

Lemma wlp_sched_run s c j Out In :
  inv zero false None s -> this_cpu (klk s) = Some c -> (j < NPROC)%nat ->
  state (ptab s !!! j) = RUNNABLE ->
  wlp Out In (fun _ => hot (Some j)) (sched_run c j s).
Proof.
  intros Hs Ht Hj Hst. unfold sched_run. apply exec_bind.
  assert (H1 := inv_take zero s c j Hs Ht Hj ltac:(congruence)).
  change (upd_cpu c ?f s) with (Ret tt (s <| klk ::= fun l => l <| cpus ::= alter f c |> |>)).
  cbn [exec]. set (s1 := s <| klk ::= _ |>) in *. assert (Hst1 : state (ptab s1 !!! j) = RUNNABLE) by exact Hst.
  clearbody s1. clear s Hs Ht Hst. rename H1 into Hs. qstep Hs s2 E2.
  apply (f_equal v_ptab) in E2. simpl in E2. rewrite <-E2 in Hst1. clear E2 s1.
  pose proof (inv_length _ _ _ _ Hs) as Hl. apply exec_bind. simpl.
  set (f := fun p : proc => p <| state := RUNNING |>).
  assert (H3 : inv (fun q => b2z (in_queue q (f (ptab s2 !!! j)))) false (Some j)
    (s2 <| ptab ::= alter f j |>)).
  { eapply inv_ext; [|apply (inv_upd_state zero true false (Some j) s2 j); try done; [congruence|]].
    - intros q. rewrite Hst1. simpl. unfold zero.
      change (in_queue q (f (ptab s2 !!! j))) with (in_queue q (ptab s2 !!! j)). lia.
    - apply run_ok_start; [done|apply Hs..|done]. }
  apply exec_bind. eapply wlp_count_dec; [exact H3| |].
  { simpl. by rewrite lookup_total_alter_eq by lia. }
  intros s4 H4 _ _. kstep H4 s5 K5. eapply wlp_keyed; [|exact H4|done]. eauto with quietdb.
Qed.

Lemma wlp_scheduler_pick s c Out In :
  hot None s -> this_cpu (klk s) = Some c -> wlp Out In (fun r => hot r) (scheduler_pick c s).
Proof.
  intros Hs Ht. unfold scheduler_pick, sti. qstep Hs s1 E1. qstep Hs s2 E2. apply exec_bind.
  assert (Ht2 : this_cpu (klk s2) = Some c) by (by rewrite (this_cpu_view _ _ E2), (this_cpu_view _ _ E1)).
  destruct (sched_choose_spec s2 c Hs Ht2) as (r & s3 & -> & _ & H3 & _ & Hm & Hj). cbn [exec].
  destruct r as [j|].
  - destruct (Hj j eq_refl) as [Hlt Hst]. apply exec_bind.
    eapply exec_mono; [|apply wlp_sched_run; [exact H3| |done..]]; [by intros [] ?|].
    destruct Hm as [->|[nx ->]]; [done|]. by rewrite this_cpu_alter.
  - qstep H3 s4 E4. done.
Qed.

Lemma wlp_scheduler_back s c j Out In :
  leaving (Some j) s -> this_cpu (klk s) = Some c ->
  wlp Out In (fun _ => hot None) (scheduler_back c s).
Proof.
  intros Hs Ht. unfold scheduler_back. qstep Hs s1 E1. apply exec_bind.
  assert (Ht1 : this_cpu (klk s1) = Some c) by (by rewrite (this_cpu_view _ _ E1)).
  pose proof (inv_drop _ _ _ _ Hs Ht1) as H2. cbn [upd_cpu modify exec].
  eapply wlp_quiet_inv; [|exact H2|done]. eauto with quietdb.
Qed.

(** Starting the scheduler on a CPU that runs no process. *)
Lemma wlp_scheduler_start s Out In :
  hot None s -> wlp Out In (fun _ => hot None) (scheduler_start s).
Proof.
  intros Hs. unfold scheduler_start. apply exec_bind, wlp_mycpu. intros c Ht. apply exec_bind.
  cbn [upd_cpu modify exec]. apply inv_upd_cpu; [done| | |done].
  - intros x. right. simpl. unfold NPROC. lia.
  - intros x Hx. simpl. destruct Hs as (_ & _ & Hc). unfold cur in Hc. rewrite Ht in Hc. simpl in Hc.
    by rewrite Hx in Hc.
Qed.

(** ** Total correctness of a turn, on a CPU that finds its locks free *)
Lemma cpu_ok_upd_cpu l i n c f :
  (forall x, apicid (f x) = apicid x /\ ncli (f x) = ncli x) ->
  cpu_ok l i n -> cpu_ok (l <| cpus ::= alter f c |>) i n.
Proof.
  intros Hf [Ht (x & Hx & Hn) H0 HI]. split.
  - rewrite this_cpu_alter; [done|]. apply Hf.
  - simpl. destruct (decide (c = i)) as [->|Hne].
    + exists (f x). rewrite list_lookup_alter_eq, Hx. split; [done|]. by rewrite (proj2 (Hf x)).
    + exists x. by rewrite list_lookup_alter_ne.
  - done.
  - done.
Qed.

Lemma lctx_upd_cpu l i n H c f :
  (forall x, apicid (f x) = apicid x /\ ncli (f x) = ncli x) ->
  lctx l i n H -> lctx (l <| cpus ::= alter f c |>) i n H.
Proof. intros Hf [HC Hl Ho]. split; [by apply cpu_ok_upd_cpu|done..]. Qed.

Lemma wp_switchuvm Out In s i n H j (Q : unit -> kst -> Prop) :
  lctx (klk s) i n H -> kstack (ptab s !!! j) <> 0 -> pgdir (ptab s !!! j) <> 0 ->
  (forall l, lctx l i n H -> Q tt (s <| klk := l |>)) ->
  wp Out In Q (switchuvm (Some j) s).
Proof.
  intros HL Hk Hp HQ. unfold switchuvm. apply exec_bind. simpl.
  apply Z.eqb_neq in Hk, Hp. rewrite Hk, Hp. apply exec_bind.
  destruct (cpu_ok_pushcli s i n) as (l1 & -> & C1 & _ & K1); [by destruct HL|]. simpl.
  assert (Hn : 0 < n + 1) by (pose proof (lctx_nonneg _ _ _ _ HL); lia).
  apply exec_bind. rewrite (cpu_ok_mycpu _ i (n + 1)) by done. cbn [exec].
  apply exec_bind. cbn [upd_cpu modify exec]. apply exec_bind. cbn [modify exec].
  set (s2 := _ <| klk ::= _ |>).
  assert (C2 : cpu_ok (klk s2) i (n + 1)).
  { assert (C1' := cpu_ok_upd_cpu l1 i (n + 1) i
      (fun c => c <| ts_esp0 := u32 (kstack (ptab s !!! j) + KSTACKSIZE) |>) ltac:(done) C1).
    destruct C1'. by split. }
  destruct (cpu_ok_popcli _ i (n + 1) C2 Hn) as (l3 & -> & C3 & _ & K3). cbn [exec].
  apply HQ. replace (n + 1 - 1) with n in C3 by lia. eapply lctx_same_locks; [exact HL|done|].
  by rewrite K3, <-K1.
Qed.

Lemma wp_add_count Out In d p s (Q : unit -> kst -> Prop) :
  (forall s', ptab s' = ptab s -> klk s' = klk s -> Q tt s') -> wp Out In Q (add_count d p s).
Proof.
  intros HQ. unfold add_count.
  destruct (sched_class p =? 1), (sched_class p =? 2), (sched_level p =? 1), (sched_level p =? 2);
    simpl; by apply HQ.
Qed.

Lemma wp_with_ticks Out In s i n H j f (Q : unit -> kst -> Prop) :
  lctx (klk s) i n H -> tickslock ∉ H ->
  (forall l, lctx l i n H -> lk_static l = lk_static (klk s) ->
    Q tt (s <| klk := l |> <| ptab ::= alter (f (i32 (ticks s))) j |>)) ->
  wp Out In Q (with_ticks j f s).
Proof.
  intros HL Hk HQ. unfold with_ticks. apply exec_bind. eapply wp_acquire; [exact HL|done|].
  intros l1 L1 S1. apply exec_bind. simpl. apply exec_bind. simpl.
  eapply wp_release_top; [exact L1|done|by eapply lctx_nonneg|]. intros l2 L2 S2.
  apply (HQ l2 L2). by rewrite S2.
Qed.

Lemma wp_sched_run Out In s c H j :
  lctx (klk s) c 1 H -> tickslock ∉ H ->
  kstack (ptab s !!! j) <> 0 -> pgdir (ptab s !!! j) <> 0 ->
  wp Out In (fun _ s' => lctx (klk s') c 1 H) (sched_run c j s).
Proof.
  intros HL Hk Hks Hpg. unfold sched_run. apply exec_bind. cbn [upd_cpu modify exec].
  apply exec_bind. eapply wp_switchuvm; [by apply lctx_upd_cpu|done..|]. intros l1 L1.
  apply exec_bind. cbn [upd_proc modify exec]. apply exec_bind.
  apply wp_add_count. intros s2 _ E2. apply exec_bind. cbn [upd_proc modify exec].
  eapply wp_with_ticks; [|done|]; [|by intros l L _].
  simpl. rewrite E2. exact L1.
Qed.

Lemma cursor_static l1 l2 c :
  lk_static l1 = lk_static l2 -> nextrrp (cpus l1 !!! c) = nextrrp (cpus l2 !!! c).
Proof.
  unfold lk_static. intros [= _ _ Hc _]. apply (f_equal (fun k => k !! c)) in Hc.
  rewrite !list_lookup_fmap in Hc. rewrite !list_lookup_total_alt.
  destruct (cpus l1 !! c), (cpus l2 !! c); simplify_eq/=; [|done]. unfold cpu_static in Hc. congruence.
Qed.

(** Every process that could be chosen has a kernel stack and a page table. *)
Definition runnable_mapped (pt : list proc) : Prop :=
  forall j, (j < NPROC)%nat -> state (pt !!! j) = RUNNABLE ->
    kstack (pt !!! j) <> 0 /\ pgdir (pt !!! j) <> 0.

Lemma wp_scheduler_pick Out In s c :
  hot None s -> lctx (klk s) c 0 ∅ -> runnable_mapped (ptab s) ->
  wp Out In (fun r s' => policy_choice (ptab s) (nextrrp (cpus (klk s) !!! c)) r /\
    lctx (klk s') c (if r is Some _ then 1 else 0) (if r is Some _ then {[ptable_lock]} else ∅)) (scheduler_pick c s).
Proof.
  intros Hs HL Hmap. unfold scheduler_pick. apply exec_bind. cbn [sti set_IF modify exec].
  set (s1 := s <| klk ::= _ |>).
  assert (L1 : lctx (klk s1) c 0 ∅) by (destruct HL as [[] ? ?]; split; [split|..]; done).
  assert (E1 : view s1 = view s) by done.
  apply exec_bind. eapply wp_acquire; [exact L1|set_solver|]. intros l2 L2 S2.
  set (s2 := s1 <| klk := l2 |>).
  assert (H2 : hot None s2).
  { eapply inv_view; [|exact Hs]. rewrite <-E1. unfold view. simpl. f_equal. by apply cpus_view_static. }
  replace ({[ptable_lock]} ∪ ∅) with ({[ptable_lock]} : gset lockid) in L2 by set_solver.
  destruct (sched_choose_spec s2 c H2) as (r & s3 & E3 & Hpol & H3 & Ht & Hrr & Hj); [apply L2|].
  apply exec_bind. rewrite E3. cbn [exec].
  assert (L3 : lctx (klk s3) c 1 {[ptable_lock]}).
  { destruct Hrr as [->|[nx ->]]; [exact L2|]. by apply lctx_upd_cpu. }
  assert (Hpol' : policy_choice (ptab s) (nextrrp (cpus (klk s) !!! c)) r).
  { rewrite <-(cursor_static l2 (klk s) c) by (by rewrite S2). exact Hpol. }
  destruct r as [j|].
  - apply exec_bind. destruct (Hj j eq_refl) as [Hlt Hst]. destruct (Ht j) as [w Hw].
    rewrite Hw in Hst. destruct (Hmap j Hlt Hst) as [Hks Hpg].
    eapply exec_mono; [|eapply wp_sched_run; [exact L3|set_solver|by rewrite Hw..]].
    by intros [] s4 H4.
  - apply exec_bind. eapply (wp_release_top _ _ _ _ 0 ∅); [|set_solver|done|].
    + by replace ({[ptable_lock]} ∪ ∅) with ({[ptable_lock]} : gset lockid) by set_solver.
    + by intros l4 L4 _.
Qed.

(** ** Properties *)

(** C1: one turn of the scheduler on a CPU whose locks are free always completes. It
    selects the RUNNABLE process the policy prescribes (an EDF process of least
    deadline, else the next round-robin process after the cursor, else the FCFS
    process of earliest arrival, ties to the lower slot), and selects none only when
    no process is RUNNABLE. It keeps the scheduler invariant, and enters the process
    holding exactly [ptable.lock]. *)
Theorem scheduler_pick_policy (s : kst) (c : nat) :
  hot None s -> lctx (klk s) c 0 ∅ -> runnable_mapped (ptab s) ->
  exists r s', scheduler_pick c s = Ret r s' /\
    policy_choice (ptab s) (nextrrp (cpus (klk s) !!! c)) r /\ hot r s' /\
    lctx (klk s') c (if r is Some _ then 1 else 0) (if r is Some _ then {[ptable_lock]} else ∅).
Proof.
  intros Hs HL Hm.
  assert (Hw := exec_conj (fun _ => False) (fun _ => True) _ (fun r => hot r) (scheduler_pick c s)
    (wp_scheduler_pick _ _ s c Hs HL Hm)).
  destruct (wp_returns _ _ _ (Hw (wlp_scheduler_pick s c _ _ Hs (cpu_ok_this _ _ _ (lctx_ok _ _ _ _ HL)))))
    as (r & s' & E & [Hp HL'] & Hh).
  exists r, s'. done.
Qed.

Lemma sample_mapped h : runnable_mapped (ptab (sample h)).
Proof.
  intros j Hj Hst. change (ptab (sample h)) with sample_table in *.
  assert (Hall : forallb (fun p => negb (bool_decide (state p = RUNNABLE)) ||
    negb (kstack p =? 0) && negb (pgdir p =? 0)) sample_table = true) by (by vm_compute).
  rewrite forallb_forall in Hall. specialize (Hall (sample_table !!! j)).
  rewrite bool_decide_eq_true_2 in Hall by done. cbn [negb orb] in Hall.
  lapply Hall; [rewrite andb_true_iff, !negb_true_iff, !Z.eqb_neq; done|].
  apply list_elem_of_In, list_elem_of_lookup_total_2. exact Hj.
Qed.

Lemma scheduler_pick_policy_witness :
  exists r s', scheduler_pick 0 (sample 0) = Ret r s' /\ policy_choice sample_table 0 r /\ hot r s'.
Proof.
  destruct (scheduler_pick_policy (sample 0) 0 sample_idle (sample_lctx 0 0 eq_refl) (sample_mapped 0))
    as (r & s' & E & Hp & Hh & _).
  exists r, s'. split; [exact E|]. split; [exact Hp|exact Hh].
Defined.
