(* ===== verification/Calls.v ===== *)
(** Total-correctness rules for the calls that kernel code makes everywhere, on a
    CPU whose locks are free ([lctx]): printing, becoming RUNNABLE, searching the
    process table, leaving the CPU. *)
From stdpp Require Import base tactics list numbers strings gmap.
From S2P Require Import Prelude CString State Spinlock Console Kalloc Vm Sched SchedInv SchedOps Policy Dispatch.

#[local] Open Scope Z_scope.

(** What none of these calls changes. *)
Definition rest (s : kst) : _ :=
  (nextpid s, initproc s, ticks s, use_lock s, freelist s, mem s, sym_end s, sym_data s, kpgdir s, fss s).

(** The outcome of code that must leave the CPU. *)
Lemma wp_leaves {A} (Out : kst -> Prop) (o : outcome kst A) :
  wp Out (fun _ => False) (fun _ _ => False) o -> exists s k, o = Swtch s k /\ Out s.
Proof. destruct o; simpl; try done. intros [? _]. eauto. Qed.

(** ** Printing *)
Lemma for_all_consputc out s : for_all out consputc s = Ret tt (s <| screen ::= fun o => o ++ out |>).
Proof.
  revert s. induction out as [|c out IH]; intros s; simpl.
  - destruct s; unfold upd; simpl. by rewrite app_nil_r.
  - unfold mbind, M_bind. simpl. rewrite IH. unfold upd. simpl. by rewrite <-app_assoc.
Qed.

Lemma wp_cprintf Out In s i n H fmt args out (Q : unit -> kst -> Prop) :
  lctx (klk s) i n H -> cons_lock ∉ H -> cformat (codes fmt) args = Some out ->
  (forall l, lctx l i n H -> lk_static l = lk_static (klk s) ->
    Q tt (s <| klk := l |> <| screen ::= fun o => o ++ out |>)) ->
  wp Out In Q (cprintf fmt args s).
Proof.
  intros HL Hk Hf HQ. unfold cprintf. apply exec_bind. simpl. apply exec_bind.
  eapply wp_acquire_when; [exact HL|done|]. intros l1 L1 S1. apply exec_bind. rewrite Hf.
  rewrite for_all_consputc. cbn [exec].
  eapply wp_release_when; [exact L1|done|by eapply lctx_nonneg|]. intros l2 L2 S2.
  apply (HQ l2 L2). by rewrite S2.
Qed.

(** ** Counters *)
Definition bump (d : Z) (p : proc) (s : kst) : kst :=
  if sched_class p =? 1 then s <| count_edf ::= Z.add d |>
  else if (sched_class p =? 2) && (sched_level p =? 1) then s <| count_rr ::= Z.add d |>
  else if (sched_class p =? 2) && (sched_level p =? 2) then s <| count_fcfs ::= Z.add d |>
  else s.

Lemma add_count_eq d p s : add_count d p s = Ret tt (bump d p s).
Proof.
  unfold add_count, bump. destruct (sched_class p =? 1), (sched_class p =? 2), (sched_level p =? 1),
    (sched_level p =? 2); done.
Qed.

Lemma bump_ptab d p s : ptab (bump d p s) = ptab s.
Proof. unfold bump. by repeat case_match. Qed.
Lemma bump_klk d p s : klk (bump d p s) = klk s.
Proof. unfold bump. by repeat case_match. Qed.
Lemma bump_rest d p s : rest (bump d p s) = rest s.
Proof. unfold bump. by repeat case_match. Qed.
Lemma bump_cnt d p s q : cnt (view (bump d p s)) q = cnt (view s) q + d * b2z (in_queue q p).
Proof.
  unfold bump. destruct (sched_class p =? 1) eqn:E1.
  - apply Z.eqb_eq in E1. destruct q; unfold cnt, in_queue; simpl; rewrite E1; simpl; lia.
  - destruct (sched_class p =? 2) eqn:E2, (sched_level p =? 1) eqn:E3, (sched_level p =? 2) eqn:E4;
      destruct q; unfold cnt, in_queue; simpl; rewrite ?E1, ?E2, ?E3, ?E4; simpl; try lia.
Qed.

(** ** Becoming RUNNABLE *)
Definition woken_up (t : Z) (p : proc) : proc :=
  p <| state := RUNNABLE |> <| arrival_time := t |> <| waited_ticks := 0 |>.

Lemma wp_make_runnable Out In s i n H j (Q : unit -> kst -> Prop) :
  lctx (klk s) i n H -> tickslock ∉ H -> (j < length (ptab s))%nat ->
  (forall l, lctx l i n H -> lk_static l = lk_static (klk s) ->
    Q tt (bump 1 (ptab s !!! j) (s <| klk := l |> <| ptab ::= alter (woken_up (i32 (ticks s))) j |>))) ->
  wp Out In Q (make_runnable j s).
Proof.
  intros HL Hk Hj HQ. unfold make_runnable. apply exec_bind. cbn [upd_proc modify exec].
  apply exec_bind. eapply wp_with_ticks; [exact HL|done|]. intros l L S1. unfold count_inc, proc_at.
  apply exec_bind. cbn [gets exec]. rewrite add_count_eq. cbn [exec].
  pose proof (HQ l L S1) as HX. simpl in HX |- *. rewrite !lookup_total_alter_eq by (rewrite ?length_alter; done).
  unfold upd in *; simpl in *. rewrite list_alter_alter. exact HX.
Qed.

(** ** Walking the table *)
Lemma seq_split N l1 i l2 : seq 0 N = l1 ++ i :: l2 -> i = length l1 /\ (i < N)%nat.
Proof.
  intros E. assert (L : seq 0 N !! length l1 = Some i) by (by rewrite E, list_lookup_middle).
  apply lookup_seq in L. lia.
Qed.

(** [f] applied to the first [k] elements. *)
Definition map_first {A} (f : A -> A) (k : nat) (l : list A) : list A := (f <$> take k l) ++ drop k l.

Lemma map_first_lookup {A} (f : A -> A) k l : map_first f k l !! k = l !! k.
Proof.
  unfold map_first. destruct (decide (k < length l)%nat) as [Hk|Hk].
  - rewrite lookup_app_r; rewrite length_fmap, length_take, Nat.min_l by lia; [|lia].
    rewrite Nat.sub_diag, lookup_drop. f_equal. lia.
  - rewrite !lookup_ge_None_2; [done|lia|]. rewrite length_app, length_fmap, length_take, length_drop. lia.
Qed.

Lemma map_first_length {A} (f : A -> A) k l : length (map_first f k l) = length l.
Proof. unfold map_first. rewrite length_app, length_fmap, length_take, length_drop. lia. Qed.

Lemma map_first_step {A} (f : A -> A) k l :
  (k < length l)%nat -> alter f k (map_first f k l) = map_first f (S k) l.
Proof.
  intros Hk. destruct (lookup_lt_is_Some_2 l k Hk) as [x Hx]. unfold map_first.
  assert (Hl : length (f <$> take k l) = k) by (rewrite length_fmap, length_take; lia).
  rewrite alter_app_r_alt by lia. rewrite Hl, Nat.sub_diag.
  rewrite (drop_S l x k Hx), (take_S_r l k x Hx), fmap_app, <-app_assoc. done.
Qed.

Lemma map_first_skip {A} (f : A -> A) k l x :
  l !! k = Some x -> f x = x -> map_first f k l = map_first f (S k) l.
Proof.
  intros Hx Hf. unfold map_first. rewrite (drop_S l x k Hx), (take_S_r l k x Hx), fmap_app, <-app_assoc.
  simpl. by rewrite Hf.
Qed.

Lemma map_first_all {A} (f : A -> A) l : map_first f (length l) l = f <$> l.
Proof. unfold map_first. by rewrite take_ge, drop_ge, app_nil_r. Qed.

Lemma count_if_take_S {A} (f : A -> bool) l k x :
  l !! k = Some x -> count_if f (take (S k) l) = count_if f (take k l) + b2z (f x).
Proof. intros Hx. rewrite (take_S_r l k x Hx), count_if_app. simpl. lia. Qed.
