(* ===== verification/WakeSpec.v ===== *)
(** What [wakeup] does, exactly, and what the clock interrupt does to sleepers. *)
From stdpp Require Import base tactics list numbers strings gmap.
From S2P Require Import Prelude CString FsTypes State Spinlock Console Kalloc Vm Sched Process Args Sysproc Trap SchedInv Sample SchedOps Policy Dispatch Calls.

#[local] Open Scope Z_scope.

Definition sleeps_on (ch : chan_t) (p : proc) : bool :=
  bool_decide (state p = SLEEPING) && bool_decide (chan p = ch).
(** A process after a wakeup of [ch] at time [t]. *)
Definition woken (ch : chan_t) (t : Z) (p : proc) : proc :=
  if sleeps_on ch p then woken_up t p else p.

Section wake.
Context (Out In : kst -> Prop) (s : kst) (c : nat) (n : Z) (H : gset lockid) (ch : chan_t).
Hypothesis HL : lctx (klk s) c n H.
Hypothesis Ht : tickslock ∉ H.
Hypothesis Hlen : length (ptab s) = NPROC.

(** The state after the first [k] slots. *)
Definition wake_inv (k : nat) (s1 : kst) : Prop :=
  lctx (klk s1) c n H /\ rest s1 = rest s /\
  ptab s1 = map_first (woken ch (i32 (ticks s))) k (ptab s) /\
  lk_static (klk s1) = lk_static (klk s) /\
  forall q, cnt (view s1) q =
    cnt (view s) q + count_if (fun p => sleeps_on ch p && in_queue q p) (take k (ptab s)).

Lemma wp_wakeup1 :
  wp Out In (fun _ s' => wake_inv NPROC s') (wakeup1 ch s).
Proof.
  unfold wakeup1, procs. eapply exec_mono with (Q := fun _ s' => wake_inv (length (seq 0 NPROC)) s').
  { intros _ s'. by rewrite length_seq. }
  apply (exec_for_all _ _ _ _ (fun l1 => wake_inv (length l1))).
  { split; [exact HL|]. split; [done|]. split; [done|]. split; [done|]. intros q. simpl. lia. }
  intros l1 i l2 s1 E (L1 & R1 & P1 & S1 & C1). destruct (seq_split _ _ _ _ E) as [-> Hi].
  rewrite length_app. cbn [length]. rewrite Nat.add_1_r. set (k := length l1) in *.
  destruct (lookup_lt_is_Some_2 (ptab s) k) as [p Hp]; [lia|].
  assert (Hp1 : ptab s1 !!! k = p).
  { apply list_lookup_total_correct. by rewrite P1, map_first_lookup. }
  assert (Htk : ticks s1 = ticks s) by (unfold rest in R1; congruence).
  apply exec_bind. cbn [proc_at gets exec]. rewrite Hp1.
  fold (sleeps_on ch p). destruct (sleeps_on ch p) eqn:Es; cbn [mwhen].
  - eapply wp_make_runnable; [exact L1|done| |].
    { rewrite P1, map_first_length. lia. }
    intros l L S2. rewrite Hp1, Htk. split; [by rewrite bump_klk|]. split; [by rewrite bump_rest|]. split; [|split].
    + rewrite bump_ptab. simpl. rewrite P1, <-map_first_step by lia.
      rewrite !(list_alter_as_insert _ _ _ p) by (by rewrite map_first_lookup).
      unfold woken. by rewrite Es.
    + rewrite bump_klk. simpl. by rewrite S2.
    + intros q. rewrite bump_cnt, (count_if_take_S _ _ _ _ Hp), Es.
      change (cnt (view (s1 <| klk := l |> <| ptab ::= alter (woken_up (i32 (ticks s))) k |>)) q)
        with (cnt (view s1) q).
      rewrite C1. simpl. lia.
  - split; [done|]. split; [done|]. split; [|split; [done|]].
    + rewrite P1. eapply map_first_skip; [exact Hp|]. unfold woken. by rewrite Es.
    + intros q. rewrite C1, (count_if_take_S _ _ _ _ Hp), Es. simpl. lia.
Qed.
End wake.

Lemma wp_wakeup Out In s c n H ch (Q : unit -> kst -> Prop) :
  lctx (klk s) c n H -> ptable_lock ∉ H -> tickslock ∉ H -> length (ptab s) = NPROC ->
  (forall s', wake_inv s c n H ch NPROC s' -> Q tt s') -> wp Out In Q (wakeup ch s).
Proof.
  intros HL Hp Ht Hlen HQ. unfold wakeup. apply exec_bind. eapply wp_acquire; [exact HL|done|].
  intros l L S0. apply exec_bind. eapply exec_mono; [|apply (wp_wakeup1 _ _ (s <| klk := l |>) c (n + 1)
    ({[ptable_lock]} ∪ H) ch); [exact L|set_solver|exact Hlen]].
  intros [] s1 (L1 & R1 & P1 & S1 & C1).
  eapply wp_release_top; [exact L1|done|by eapply lctx_nonneg|]. intros l2 L2 S2. apply HQ.
  split; [done|]. split; [done|]. split; [done|]. split; [|exact C1]. etrans; [exact S2|]. etrans; [exact S1|exact S0].
Qed.

(** C11: [wakeup] returns, gives back its locks, and makes RUNNABLE exactly the
    processes that sleep on the channel: each gets the current time as its arrival
    time and no waiting time, is added to the counter of its queue, and nothing else
    changes. *)
Theorem wakeup_exact (s : kst) (c : nat) (n : Z) (H : gset lockid) (ch : chan_t) :
  lctx (klk s) c n H -> ptable_lock ∉ H -> tickslock ∉ H -> length (ptab s) = NPROC ->
  exists s', wakeup ch s = Ret tt s' /\ lctx (klk s') c n H /\ rest s' = rest s /\
    ptab s' = woken ch (i32 (ticks s)) <$> ptab s /\
    forall q, cnt (view s') q =
      cnt (view s) q + count_if (fun p => sleeps_on ch p && in_queue q p) (ptab s).
Proof.
  intros HL Hp Ht Hlen.
  assert (Hw : wp (fun _ => False) (fun _ => False) (fun _ s' => wake_inv s c n H ch NPROC s')
    (wakeup ch s)) by (by eapply wp_wakeup).
  destruct (wp_returns _ _ _ Hw) as ([] & s' & E & L' & R' & P' & _ & C'). exists s'.
  split; [done|]. split; [done|]. split; [done|].
  rewrite <-Hlen in P', C'. rewrite map_first_all in P'. rewrite take_ge in C' by lia. done.
Qed.

(** On the sample machine: the process in slot 0 sleeps on its own address. *)
Lemma wakeup_exact_witness :
  exists s', wakeup (ch_proc 0) (sample 1) = Ret tt s' /\
    ptab s' = woken (ch_proc 0) 900 <$> sample_table /\ state (ptab s' !!! 0%nat) = RUNNABLE.
Proof.
  destruct (wakeup_exact (sample 1) 1 0 ∅ (ch_proc 0) (sample_lctx 1 1 eq_refl)) as (s' & E & _ & _ & P & _).
  - set_solver.
  - set_solver.
  - vm_compute. reflexivity.
  - exists s'. split; [exact E|]. split; [exact P|]. rewrite P. vm_compute. reflexivity.
Defined.

(** ** The clock interrupt *)

(** A wakeup of a sleeper while the clock's lock is held stops the kernel. *)
Lemma make_runnable_deadlock (s : kst) (c : nat) (n : Z) (H : gset lockid) i :
  lctx (klk s) c n H -> tickslock ∈ H -> exists s', make_runnable i s = Panic "acquire" s'.
Proof.
  intros HL Ht. unfold make_runnable, with_ticks.
  set (s1 := s <| ptab ::= alter (fun p => p <| state := RUNNABLE |>) i |>).
  assert (L1 : lctx (klk s1) c n H) by exact HL.
  destruct (cpu_ok_acquire_test s1 c n tickslock) as (l' & _ & _ & _ & E); [by destruct L1|].
  rewrite (lctx_locks _ _ _ _ L1), (lctx_owner _ _ _ _ L1 _ Ht) in E.
  rewrite (bool_decide_true _ Ht), (bool_decide_true (Some c = Some c)) in E by done. simpl in E.
  exists (s1 <| klk := l' |>). rewrite (bind_ret _ _ s tt s1) by done.
  by do 2 (rewrite (bind_panic _ _ _ "acquire" (s1 <| klk := l' |>)); [done|]).
Qed.

Lemma for_all_cons {J} (i : J) l (body : J -> K unit) s :
  for_all (i :: l) body s = obind (fun _ => for_all l body) (body i s).
Proof. done. Qed.

Lemma wakeup1_deadlock (s : kst) (c : nat) (n : Z) (H : gset lockid) ch j :
  lctx (klk s) c n H -> tickslock ∈ H -> (j < NPROC)%nat -> sleeps_on ch (ptab s !!! j) = true ->
  exists s', wakeup1 ch s = Panic "acquire" s'.
Proof.
  intros HL Ht Hj%in_procs Hs. unfold wakeup1. induction procs as [|i l IH]; [by apply elem_of_nil in Hj|].
  rewrite for_all_cons. destruct (make_runnable_deadlock s c n H i HL Ht) as (s' & E).
  change ((p ← proc_at i; mwhen (bool_decide (state p = SLEEPING) && bool_decide (chan p = ch))
    (make_runnable i)) s) with (mwhen (sleeps_on ch (ptab s !!! i)) (make_runnable i) s).
  destruct (sleeps_on ch (ptab s !!! i)) eqn:Es; cbn [mwhen].
  - rewrite E. simpl. eauto.
  - cbn [mret M_ret obind]. apply IH. apply elem_of_cons in Hj as [->|Hj]; [congruence|done].
Qed.

(** C35: The clock interrupt panics as soon as a process sleeps on the clock:
    [trap] calls [wakeup(&ticks)] with [tickslock] held, and [wakeup1] acquires
    [tickslock] again for every process it wakes. *)
Theorem tick_panics_on_sleeper (s : kst) (n : Z) (H : gset lockid) (j : nat) :
  lctx (klk s) 0 n H -> IFof (klk s) = false -> tickslock ∉ H -> ptable_lock ∉ H ->
  (j < NPROC)%nat -> state (ptab s !!! j) = SLEEPING -> chan (ptab s !!! j) = ch_ticks ->
  exists s', tick s = Panic "acquire" s'.
Proof.
  intros HL HF Ht Hp Hj Hs Hc. unfold tick.
  rewrite (bind_ret cpuid _ s 0 s).
  2: { unfold cpuid. rewrite (bind_ret mycpu _ s 0%nat s); [done|].
    by apply mycpu_eq; [|apply (lctx_ok _ _ _ _ HL)]. }
  cbv beta. change (0 =? 0) with true. cbv iota.
  destruct (lctx_acquire s 0 n H tickslock HL Ht) as (l1 & E1 & L1 & _). rewrite (bind_ret _ _ _ _ _ E1).
  set (s2 := (s <| klk := l1 |>) <| ticks ::= fun t => u32 (t + 1) |>).
  assert (E : exists s', wakeup ch_ticks s2 = Panic "acquire" s').
  { unfold wakeup.
    destruct (lctx_acquire s2 0 (n + 1) ({[tickslock]} ∪ H) ptable_lock) as (l3 & E3 & L3 & _);
      [exact L1|set_solver|]. rewrite (bind_ret _ _ _ _ _ E3).
    set (s3 := s2 <| klk := l3 |>) in *.
    destruct (wakeup1_deadlock s3 0 (n + 1 + 1) _ ch_ticks j L3) as (s' & E); [set_solver|done| |].
    - unfold sleeps_on. simpl. rewrite Hs, Hc. done.
    - rewrite (bind_panic _ _ _ _ _ E). eauto. }
  destruct E as (s' & E). exists s'. rewrite (bind_ret _ _ _ tt s2) by done.
  rewrite (bind_ret _ _ _ (ticks s2) s2) by done. by rewrite (bind_panic _ _ _ _ _ E).
Qed.

(** The sample machine with the process of slot 0 in [sleep(10)]. *)
Definition sleeper : kst := (sample 0) <| ptab ::= alter (fun p => p <| chan := ch_ticks |>) 0%nat |>.

Lemma tick_panics_on_sleeper_witness : exists s', tick sleeper = Panic "acquire" s'.
Proof.
  apply (tick_panics_on_sleeper sleeper 0 ∅ 0).
  - exact (sample_lctx 0 0 eq_refl).
  - vm_compute. reflexivity.
  - set_solver.
  - set_solver.
  - unfold NPROC. lia.
  - vm_compute. reflexivity.
  - vm_compute. reflexivity.
Defined.
