(* ===== verification/LevelSpec.v ===== *)
(** The system calls that change a process's scheduling parameters, exactly; and
    where they go wrong. *)
From stdpp Require Import base tactics list numbers strings gmap.
From S2P Require Import Prelude CString FsTypes State Spinlock Console Kalloc Vm Sched Process Args Sysproc Trap SchedInv Sample SchedOps Policy Dispatch Calls.

#[local] Open Scope Z_scope.

(** ** The search for a pid *)
Definition find_pid (pd : Z) (pt : list proc) : option nat :=
  List.find (fun i => pid (pt !!! i) =? pd) procs.

Lemma find_first {A} (f : A -> bool) l1 x l2 :
  (forall y, y ∈ l1 -> f y = false) -> f x = true -> List.find f (l1 ++ x :: l2) = Some x.
Proof.
  induction l1 as [|y l1 IH]; intros H1 Hx; simpl; [by rewrite Hx|].
  rewrite H1 by set_solver. apply IH; [|done]. set_solver.
Qed.

Lemma find_pid_Some pd pt i : find_pid pd pt = Some i -> (i < NPROC)%nat /\ pid (pt !!! i) = pd.
Proof.
  intros [Hi Hp]%List.find_some. apply list_elem_of_In, in_procs in Hi. by apply Z.eqb_eq in Hp.
Qed.

Lemma wp_for_pid Out In s c n H pd body (Q : Z -> kst -> Prop) :
  lctx (klk s) c n H -> ptable_lock ∉ H ->
  (forall i l, find_pid pd (ptab s) = Some i -> lctx l c (n + 1) ({[ptable_lock]} ∪ H) ->
    wp Out In Q (body i (ptab s !!! i) (s <| klk := l |>))) ->
  (forall l, find_pid pd (ptab s) = None -> lctx l c n H -> Q (-1) (s <| klk := l |>)) ->
  wp Out In Q (for_pid pd body s).
Proof.
  intros HL Hp Hb Hn. unfold for_pid. apply exec_bind. eapply wp_acquire; [exact HL|done|].
  intros l L S1. set (s1 := s <| klk := l |>).
  assert (Hno : (forall i, i ∈ procs -> (pid (ptab s !!! i) =? pd) = false) ->
    find_pid pd (ptab s) = None).
  { intros Hall. unfold find_pid. destruct (List.find _ procs) as [i|] eqn:E; [|done].
    apply List.find_some in E as [Hi Hpid]. apply list_elem_of_In in Hi. by rewrite Hall in Hpid. }
  apply exec_bind.
  eapply exec_mono with (Q := fun r s' => match r with Some v => Q v s'
    | None => s' = s1 /\ find_pid pd (ptab s) = None end).
  - intros [v|] s'; [done|]. intros [-> Hf]. apply exec_bind.
    eapply wp_release_top; [exact L|done|by eapply lctx_nonneg|]. intros l2 L2 _. by apply Hn.
  - apply (exec_for_each _ _ _ _ (fun l1 s' => s' = s1 /\
      forall i, i ∈ l1 -> (pid (ptab s !!! i) =? pd) = false)).
    + split; [done|]. intros i Hi. by apply elem_of_nil in Hi.
    + intros s' [-> Hall]. split; [done|]. by apply Hno.
    + intros l1 i l2 s' El [-> Hall]. apply exec_bind. cbn [proc_at gets exec].
      change (ptab s1) with (ptab s). destruct (pid (ptab s !!! i) =? pd) eqn:Epid.
      * apply exec_bind. eapply exec_mono; [|apply Hb; [|exact L]].
        { by intros v s'. }
        unfold find_pid. rewrite El. by apply find_first.
      * simpl. split; [done|]. intros i' [Hi|Hi]%elem_of_app; [by apply Hall|].
        apply list_elem_of_singleton in Hi. by subst.
Qed.

(** ** Moving a process between the two levels of the normal class *)
Definition level_queue (lv : Z) : queue := if lv =? 2 then Q_FCFS else Q_RR.
#[global] Instance queue_eq_dec : EqDecision queue.
Proof. solve_decision. Defined.

(** The state after process [i] has been moved to level [lv]. *)
Definition level_moved (s : kst) (lv : Z) (i : nat) (s' : kst) : Prop :=
  rest s' = rest s /\ ptab s' = alter (fun p => p <| sched_level := lv |>) i (ptab s) /\
  forall q, cnt (view s') q = cnt (view s) q +
    b2z (bool_decide (state (ptab s !!! i) = RUNNABLE)) *
    (b2z (bool_decide (q = level_queue lv)) - b2z (bool_decide (q = level_queue (3 - lv)))).

Lemma wp_change_level Out In s c n H pd lv i (Q : Z -> kst -> Prop) :
  lctx (klk s) c n H -> ptable_lock ∉ H -> cons_lock ∉ H -> lv = 1 \/ lv = 2 ->
  find_pid pd (ptab s) = Some i -> sched_level (ptab s !!! i) = 3 - lv ->
  (forall s', lctx (klk s') c n H -> level_moved s lv i s' -> Q 0 s') ->
  wp Out In Q (change_sched_level pd lv s).
Proof.
  intros HL Hp Hc Hlv Hf Hl HQ.
  unfold change_sched_level.
  replace (negb (lv =? 1) && negb (lv =? 2)) with false by (destruct Hlv; by subst).
  eapply wp_for_pid; [exact HL|done| |congruence].
  intros j l Hj L. replace j with i in * by congruence. set (p := ptab s !!! i) in *.
  replace (sched_level p =? lv) with false by (symmetry; apply Z.eqb_neq; lia).
  set (s1 := s <| klk := l |>). apply exec_bind.
  set (de := if lv =? 2 then -1 else 1).
  set (s2 := if bool_decide (state p = RUNNABLE)
    then s1 <| count_rr ::= Z.add de |> <| count_fcfs ::= Z.add (- de) |> else s1).
  eapply exec_mono with (Q := fun _ s' => s' = s2).
  2: { unfold s2, de. destruct (bool_decide _); [|done]. rewrite Hl. simpl.
    destruct Hlv as [-> | ->]; reflexivity. }
  intros [] ? ->. assert (L2 : lctx (klk s2) c (n + 1) ({[ptable_lock]} ∪ H)).
  { unfold s2. by destruct (bool_decide _). }
  apply exec_bind. eapply wp_cprintf; [exact L2|set_solver|reflexivity|]. intros l3 L3 _.
  apply exec_bind. cbn [upd_proc modify exec]. apply exec_bind.
  eapply wp_release_top; [exact L3|done|by eapply lctx_nonneg|]. intros l4 L4 _. cbn [exec mret M_ret].
  apply HQ; [done|]. unfold level_moved. fold p. split; [unfold s2; by destruct (bool_decide _)|].
  replace (if lv =? 2 then 2 else 1) with lv by (destruct Hlv; by subst).
  split; [unfold s2; by destruct (bool_decide _)|].
  intros q. unfold s2, de, level_queue. destruct (bool_decide (state p = RUNNABLE)); [|simpl; unfold cnt; simpl; lia].
  destruct Hlv as [-> | ->]; destruct q; unfold cnt; simpl; lia.
Qed.

(** C12: [change_sched_level] moves a normal process to the other level: the level is
    set, a RUNNABLE process moves from the counter of its old queue to that of the
    new one, the locks are given back, and nothing else changes. *)
Theorem change_level_moves (s : kst) (c : nat) (n : Z) (H : gset lockid) (pd lv : Z) (i : nat) :
  lctx (klk s) c n H -> ptable_lock ∉ H -> cons_lock ∉ H -> lv = 1 \/ lv = 2 ->
  find_pid pd (ptab s) = Some i -> sched_level (ptab s !!! i) = 3 - lv ->
  exists s', change_sched_level pd lv s = Ret 0 s' /\ lctx (klk s') c n H /\ rest s' = rest s /\
    ptab s' = alter (fun p => p <| sched_level := lv |>) i (ptab s) /\
    forall q, cnt (view s') q = cnt (view s) q +
      b2z (bool_decide (state (ptab s !!! i) = RUNNABLE)) *
      (b2z (bool_decide (q = level_queue lv)) - b2z (bool_decide (q = level_queue (3 - lv)))).
Proof.
  intros HL Hp Hc Hlv Hf Hl.
  enough (Hw : wp (fun _ => False) (fun _ => False) (fun r s' => r = 0 /\ lctx (klk s') c n H /\
    level_moved s lv i s') (change_sched_level pd lv s)).
  { destruct (wp_returns _ _ _ Hw) as (r & s' & E & -> & L & HH). by exists s'. }
  by eapply wp_change_level.
Qed.

(** On the sample machine: the FCFS process with pid 5 becomes interactive. *)
Lemma change_level_moves_witness :
  exists s', change_sched_level 5 1 (sample 1) = Ret 0 s' /\ count_rr s' = 2 /\ count_fcfs s' = 0.
Proof.
  destruct (change_level_moves (sample 1) 1 0 ∅ 5 1 4 (sample_lctx 1 1 eq_refl)) as (s' & E & _ & _ & _ & C).
  - set_solver.
  - set_solver.
  - left. reflexivity.
  - vm_compute. reflexivity.
  - vm_compute. reflexivity.
  - exists s'. split; [exact E|]. pose proof (C Q_RR) as Cr. pose proof (C Q_FCFS) as Cf.
    vm_compute in Cr, Cf. split; [exact Cr|exact Cf].
Defined.

(** C36: When the process already is in the level asked for, [change_sched_level]
    returns -1 without releasing [ptable.lock]: the caller goes on with the lock held
    and interrupts off. *)
Theorem change_level_same_keeps_lock (s : kst) (c : nat) (n : Z) (H : gset lockid) (pd lv : Z) (i : nat) :
  lctx (klk s) c n H -> ptable_lock ∉ H -> cons_lock ∉ H -> lv = 1 \/ lv = 2 ->
  find_pid pd (ptab s) = Some i -> sched_level (ptab s !!! i) = lv ->
  exists s', change_sched_level pd lv s = Ret (-1) s' /\
    lctx (klk s') c (n + 1) ({[ptable_lock]} ∪ H) /\ ptab s' = ptab s.
Proof.
  intros HL Hp Hc Hlv Hf Hl.
  enough (Hw : wp (fun _ => False) (fun _ => False) (fun r s' => r = -1 /\
    lctx (klk s') c (n + 1) ({[ptable_lock]} ∪ H) /\ ptab s' = ptab s) (change_sched_level pd lv s)).
  { destruct (wp_returns _ _ _ Hw) as (r & s' & E & -> & HH). eauto. }
  unfold change_sched_level.
  replace (negb (lv =? 1) && negb (lv =? 2)) with false by (destruct Hlv; by subst).
  eapply wp_for_pid; [exact HL|done| |congruence].
  intros j l Hj L. replace j with i in * by congruence. rewrite Hl, Z.eqb_refl.
  apply exec_bind. eapply wp_cprintf; [exact L|set_solver|reflexivity|]. intros l3 L3 _. done.
Qed.

(** On the sample machine: asking for level 2 for the process with pid 5, and the
    next system call that needs the lock. *)
Lemma change_level_same_keeps_lock_witness :
  exists s', change_sched_level 5 2 (sample 1) = Ret (-1) s' /\
    lctx (klk s') 1 1 ({[ptable_lock]} ∪ ∅) /\ exists s'', kill 5 s' = Panic "acquire" s''.
Proof.
  destruct (change_level_same_keeps_lock (sample 1) 1 0 ∅ 5 2 4 (sample_lctx 1 1 eq_refl)) as (s' & E & L & _).
  - set_solver.
  - set_solver.
  - right. reflexivity.
  - vm_compute. reflexivity.
  - vm_compute. reflexivity.
  - exists s'. split; [exact E|]. split; [exact L|].
    destruct (cpu_ok_acquire_test s' 1 (0 + 1) ptable_lock (lctx_ok _ _ _ _ L)) as (l' & _ & _ & _ & Ea).
    rewrite (lctx_locks _ _ _ _ L), (lctx_owner _ _ _ _ L) in Ea by set_solver.
    rewrite bool_decide_true in Ea by set_solver.
    rewrite (bool_decide_true (Some 1%nat = Some 1%nat)) in Ea by reflexivity. simpl in Ea.
    exists (s' <| klk := l' |>). unfold kill, for_pid. exact (bind_panic _ _ _ _ _ Ea).
Defined.
