(* ===== verification/EdfLevel.v ===== *)
(** What [change_sched_level] and [kill] do to processes they were not meant for. *)
From stdpp Require Import base tactics list numbers strings gmap.
From S2P Require Import Prelude CString FsTypes State Spinlock Console Kalloc Vm Sched Process SchedInv Sample SchedOps Policy Dispatch Calls LevelSpec.

#[local] Open Scope Z_scope.

(** Changing the level of a RUNNABLE EDF process breaks the ready counters: the
    process stays in the EDF class, yet one process is taken from the FCFS counter
    and one added to the RR counter, which then differ from the numbers of
    processes in those queues. *)
Theorem change_level_edf_miscounts (s : kst) (o : option nat) (c : nat) (n : Z) (H : gset lockid)
    (pd lv : Z) (i : nat) :
  hot o s -> lctx (klk s) c n H -> ptable_lock ∉ H -> cons_lock ∉ H -> lv = 1 \/ lv = 2 ->
  find_pid pd (ptab s) = Some i -> state (ptab s !!! i) = RUNNABLE -> sched_class (ptab s !!! i) = 1 ->
  exists s', change_sched_level pd lv s = Ret 0 s' /\
    count_rr s' = count_if (ready Q_RR) (ptab s') + 1 /\
    count_fcfs s' = count_if (ready Q_FCFS) (ptab s') - 1.
Proof.
  intros Hs HL Hp Hc Hlv Hf Hst Hcl.
  pose proof (inv_count _ _ _ _ Q_RR Hs) as Crr. pose proof (inv_count _ _ _ _ Q_FCFS Hs) as Cf.
  unfold zero, cnt in Crr, Cf. simpl in Crr, Cf.
  assert (Hlev : sched_level (ptab s !!! i) = 0).
  { destruct (find_pid_Some _ _ _ Hf) as [Hi _].
    destruct (inv_wf _ _ _ _ i Hs Hi) as [E|[[_ E]|[E _]]]; congruence. }
  set (f := fun p : proc => p <| sched_level := if lv =? 2 then 2 else 1 |>).
  enough (Hw : wp (fun _ => False) (fun _ => False) (fun r s' => r = 0 /\ ptab s' = alter f i (ptab s) /\
    count_rr s' = count_rr s + 1 /\ count_fcfs s' = count_fcfs s - 1) (change_sched_level pd lv s)).
  { destruct (wp_returns _ _ _ Hw) as (r & s' & E & -> & P & C1 & C2). exists s'. split; [done|].
    rewrite P, C1, C2, Crr, Cf.
    assert (Hsame : forall q, q <> Q_EDF -> count_if (ready q) (alter f i (ptab s)) = count_if (ready q) (ptab s)).
    { intros q Hq. apply count_if_alter_same. intros p Hi. apply list_lookup_total_correct in Hi.
      rewrite Hi in Hcl. unfold ready, in_queue. destruct q; [done|..]; unfold f; simpl; by rewrite Hcl. }
    rewrite !Hsame by done. lia. }
  unfold change_sched_level.
  replace (negb (lv =? 1) && negb (lv =? 2)) with false by (destruct Hlv; by subst).
  eapply wp_for_pid; [exact HL|done| |congruence].
  intros j l Hj L. replace j with i in * by congruence. rewrite Hlev, Hst.
  replace (0 =? lv) with false by (destruct Hlv; by subst).
  apply exec_bind. simpl. apply exec_bind.
  eapply wp_cprintf; [exact L|set_solver|reflexivity|]. intros l3 L3 _.
  apply exec_bind. cbn [upd_proc modify exec]. apply exec_bind.
  eapply wp_release_top; [exact L3|done|by eapply lctx_nonneg|]. intros l4 L4 _. simpl.
  split; [done|]. split; [done|]. lia.
Qed.

(** A machine with three CPUs: CPU 1 runs the process in slot 2; an EDF process
    (slot 0) and an FCFS process (slot 1) are RUNNABLE. *)
Definition trio (h : Z) : kst := (sample 0)
  <| klk := Lstate [Cpu 0 true 0 false None 0 0; Cpu 1 true 0 false (Some 2%nat) 0 0;
                    Cpu 2 true 0 false None 0 0] 3 h ∅ ∅ ∅ |>
  <| ptab := [sample_proc 1 RUNNABLE 1 0 5 0; sample_proc 2 RUNNABLE 2 2 1000000000 1;
              sample_proc 3 RUNNING 2 2 1000000000 2] ++ replicate 61 proc0 |>
  <| count_edf := 1 |> <| count_rr := 0 |> <| count_fcfs := 1 |>.

Lemma trio_lctx : lctx (klk (trio 1)) 1 0 ∅.
Proof.
  split; [split|..]; [done| |done|done| |]; [|by intros k|by intros k Hk; set_solver].
  eexists. split; reflexivity.
Qed.

Lemma change_level_edf_miscounts_witness :
  exists s', change_sched_level 1 2 (trio 1) = Ret 0 s' /\
    count_rr s' = count_if (ready Q_RR) (ptab s') + 1 /\
    count_fcfs s' = count_if (ready Q_FCFS) (ptab s') - 1.
Proof.
  apply (change_level_edf_miscounts (trio 1) (Some 2%nat) 1 0 ∅ 1 2 0).
  - apply hotb_sound. vm_compute. reflexivity.
  - exact trio_lctx.
  - set_solver.
  - set_solver.
  - right. reflexivity.
  - vm_compute. reflexivity.
  - vm_compute. reflexivity.
  - vm_compute. reflexivity.
Defined.

(** The executing CPU is the one with APIC id [h]. *)
Definition on_cpu (h : Z) (s : kst) : kst := s <| klk ::= fun l => l <| here := h |> |>.

(** The states of the scenario below. *)
Definition moved : kst := state_of (change_sched_level 1 2 (trio 1)).
Definition edf_runs : kst := state_of (scheduler_pick 0 (on_cpu 0 moved)).
Definition edf_user : kst := state_of (release ptable_lock edf_runs).


(** The sample machine with one free page. *)
Definition with_page : kst := (sample 1) <| freelist := KERNBASE + 0x400000 |>.
Definition killed0 : kst := state_of (kill 0 with_page).
Definition newborn : kst := state_of (allocproc killed0).

(** [kill(0)] succeeds while the table has a free slot, and marks it killed:
    the process that is next created there starts its life killed. *)
Theorem kill_zero_marks_newborn :
  kill 0 with_page = Ret 0 killed0 /\ state (ptab killed0 !!! 6%nat) = UNUSED /\
  allocproc killed0 = Ret (Some 6%nat) newborn /\
  state (ptab newborn !!! 6%nat) = EMBRYO /\ killed (ptab newborn !!! 6%nat) = true.
Proof.
  split; [vm_compute; reflexivity|]. split; [vm_compute; reflexivity|].
  split; [vm_compute; reflexivity|]. split; vm_compute; reflexivity.
Qed.
