(* ===== verification/AgingSpec.v ===== *)
(** Aging: what [update_wait_time] does at a clock tick (proc.c). *)
From stdpp Require Import base tactics list numbers strings gmap.
From S2P Require Import Prelude CString FsTypes State Spinlock Console Kalloc Vm Sched Process Args Sysproc Trap SchedInv Sample SchedOps Policy Dispatch Calls LevelSpec.

#[local] Open Scope Z_scope.

(** A waiting FCFS process that has waited long enough. *)
Definition ages (t : Z) (p : proc) : bool :=
  bool_decide (state p = RUNNABLE) && (sched_class p =? 2) && (sched_level p =? 2) &&
  (AGING_THRESHOLD <=? i32 (t - arrival_time p)).
(** A process after the tick at time [t]. *)
Definition aged (t : Z) (p : proc) : proc :=
  let p' := if bool_decide (state p = RUNNABLE) then p <| waited_ticks := i32 (t - arrival_time p) |> else p in
  if ages t p then p' <| sched_level := 1 |> <| arrival_time := t |> else p'.

Lemma aged_pid t p : pid (aged t p) = pid p.
Proof. unfold aged. by destruct (bool_decide _), (ages t p). Qed.

(** Pids of used slots are unique. *)
Definition own_pids (pt : list proc) : Prop :=
  forall i j p q, pt !! i = Some p -> pt !! j = Some q -> pid p = pid q -> state p <> UNUSED -> i = j.

Lemma find_pid_own pt pt' i p :
  own_pids pt -> length pt = NPROC -> pid <$> pt' = pid <$> pt -> pt !! i = Some p -> state p <> UNUSED ->
  find_pid (pid p) pt' = Some i.
Proof.
  intros Ho Hlen Hpid Hp Hst. unfold find_pid.
  assert (Hk : forall k, (k < NPROC)%nat -> exists q, pt !! k = Some q /\ pid (pt' !!! k) = pid q).
  { intros k Hk. destruct (lookup_lt_is_Some_2 pt k) as [q Hq]; [lia|]. exists q. split; [done|].
    apply (f_equal (fun l => l !! k)) in Hpid. rewrite !list_lookup_fmap, Hq in Hpid.
    destruct (pt' !! k) as [q'|] eqn:Eq; [|done]. simpl in Hpid.
    rewrite (list_lookup_total_correct _ _ _ Eq). congruence. }
  destruct (List.find _ procs) as [j|] eqn:E.
  - apply List.find_some in E as [Hj%list_elem_of_In%in_procs Hpj%Z.eqb_eq].
    destruct (Hk j Hj) as (q & Hq & Eq). f_equal. symmetry. eapply Ho; [exact Hp|exact Hq|congruence|done].
  - exfalso. assert (Hi : (i < NPROC)%nat) by (rewrite <-Hlen; by eapply lookup_lt_Some).
    destruct (Hk i Hi) as (q & Hq & Eq). simplify_eq.
    pose proof (List.find_none _ _ E i (proj1 (list_elem_of_In _ _) (proj2 (in_procs _) Hi))) as Hn.
    simpl in Hn. apply Z.eqb_neq in Hn. congruence.
Qed.

Section aging.
Context (Out In : kst -> Prop) (s : kst) (c : nat) (n : Z) (H : gset lockid) (t : Z).
Hypothesis HL : lctx (klk s) c n H.
Hypothesis Hp : ptable_lock ∉ H.
Hypothesis Hc : cons_lock ∉ H.
Hypothesis Hlen : length (ptab s) = NPROC.
Hypothesis Hown : own_pids (ptab s).

(** The state after the first [k] slots. *)
Definition age_inv (k : nat) (s1 : kst) : Prop :=
  lctx (klk s1) c (n + 1) ({[ptable_lock]} ∪ H) /\ rest s1 = rest s /\
  ptab s1 = map_first (aged t) k (ptab s) /\
  forall q, cnt (view s1) q = cnt (view s) q +
    count_if (ages t) (take k (ptab s)) * (b2z (bool_decide (q = Q_RR)) - b2z (bool_decide (q = Q_FCFS))).

Lemma map_first_pids k : pid <$> map_first (aged t) k (ptab s) = pid <$> ptab s.
Proof.
  unfold map_first. rewrite fmap_app, <-list_fmap_compose.
  rewrite (list_fmap_ext _ pid) by (intros; apply aged_pid). rewrite <-fmap_app, take_drop. done.
Qed.

(** One slot. *)
Lemma wp_age_slot k s1 : (k < NPROC)%nat -> age_inv k s1 ->
  wp Out In (fun _ => age_inv (S k))
    ((p ← proc_at k;
      mwhen (bool_decide (state p = RUNNABLE))
        (upd_proc k (fun p => p <| waited_ticks := i32 (t - arrival_time p) |>);;
         p ← proc_at k;
         mwhen ((sched_class p =? 2) && (sched_level p =? 2) && (AGING_THRESHOLD <=? waited_ticks p))
           (release ptable_lock;;
            _ ← change_sched_level (pid p) 1;
            acquire ptable_lock;;
            upd_proc k (fun p => p <| arrival_time := t |>)))) s1).
Proof.
  intros Hk (L1 & R1 & P1 & C1). destruct (lookup_lt_is_Some_2 (ptab s) k) as [p Hpk]; [lia|].
  assert (Hl1 : ptab s1 !! k = Some p) by (by rewrite P1, map_first_lookup).
  assert (Hlt : (k < length (ptab s1))%nat) by (rewrite P1, map_first_length; lia).
  apply exec_bind. cbn [proc_at gets exec]. rewrite (list_lookup_total_correct _ _ _ Hl1).
  assert (Eag : ages t p = bool_decide (state p = RUNNABLE) && ((sched_class p =? 2) && (sched_level p =? 2) &&
    (AGING_THRESHOLD <=? i32 (t - arrival_time p)))) by (unfold ages; by rewrite !andb_assoc).
  destruct (bool_decide (state p = RUNNABLE)) eqn:Es; cbn [mwhen andb] in Eag |- *.
  2: { cbn [mret M_ret exec]. split; [done|]. split; [done|]. split.
    - rewrite P1. eapply map_first_skip; [exact Hpk|]. unfold aged. by rewrite Es, Eag.
    - intros q. rewrite C1, (count_if_take_S _ _ _ _ Hpk), Eag. simpl. lia. }
  apply exec_bind. cbn [upd_proc modify exec]. apply exec_bind. cbn [proc_at gets exec].
  set (s2 := s1 <| ptab ::= alter (fun p => p <| waited_ticks := i32 (t - arrival_time p) |>) k |>).
  set (p2 := p <| waited_ticks := i32 (t - arrival_time p) |>).
  assert (P2 : ptab s2 = <[k := p2]> (ptab s1)) by (exact (list_alter_as_insert
    (fun p => p <| waited_ticks := i32 (t - arrival_time p) |>) _ _ p Hl1)).
  assert (Hl2 : ptab s2 !! k = Some p2) by (rewrite P2; by apply list_lookup_insert_eq).
  rewrite (list_lookup_total_correct _ _ _ Hl2). change (sched_class p2) with (sched_class p).
  change (sched_level p2) with (sched_level p). change (waited_ticks p2) with (i32 (t - arrival_time p)).
  change (pid p2) with (pid p). rewrite <-Eag. destruct (ages t p) eqn:Ea; cbn [mwhen].
  - symmetry in Eag. apply andb_true_iff in Eag as [[_ Elv]%andb_true_iff _]. apply Z.eqb_eq in Elv.
    apply bool_decide_eq_true in Es.
    apply exec_bind. eapply (wp_release_top _ _ s2); [exact L1|done|by eapply lctx_nonneg|]. intros l3 L3 _.
    apply exec_bind. eapply (wp_change_level _ _ (s2 <| klk := l3 |>) c n H (pid p) 1 k);
      [exact L3|done|done|by left| |by change (ptab (s2 <| klk := l3 |>)) with (ptab s2); rewrite (list_lookup_total_correct _ _ _ Hl2)|].
    { apply (find_pid_own (ptab s)); [done|done| |done|by rewrite Es].
      change (ptab (s2 <| klk := l3 |>)) with (ptab s2). rewrite P2, list_fmap_insert, list_insert_id.
      - rewrite P1. apply map_first_pids.
      - by rewrite list_lookup_fmap, Hl1. }
    intros s4 L4 (R4 & P4 & C4). apply exec_bind. eapply wp_acquire; [exact L4|done|]. intros l5 L5 _.
    cbn [upd_proc modify exec]. split; [exact L5|]. split; [by rewrite <-R1; exact R4|]. split.
    + simpl. rewrite P4. change (ptab (s2 <| klk := l3 |>)) with (ptab s2).
      rewrite list_alter_alter, P2, (list_alter_as_insert _ _ _ p2) by (by apply list_lookup_insert_eq).
      rewrite list_insert_insert_eq. rewrite P1, <-map_first_step by lia.
      rewrite (list_alter_as_insert _ _ _ p) by (by rewrite map_first_lookup).
      unfold aged. rewrite Ea. by rewrite (bool_decide_true _ Es).
    + intros q. change (cnt (view s4) q = cnt (view s) q + count_if (ages t) (take (S k) (ptab s)) *
        (b2z (bool_decide (q = Q_RR)) - b2z (bool_decide (q = Q_FCFS)))).
      rewrite C4. change (ptab (s2 <| klk := l3 |>)) with (ptab s2).
      rewrite (list_lookup_total_correct _ _ _ Hl2), (bool_decide_true (state p2 = RUNNABLE)) by done.
      change (cnt (view (s2 <| klk := l3 |>)) q) with (cnt (view s1) q).
      rewrite C1, (count_if_take_S _ _ _ _ Hpk), Ea. unfold level_queue. simpl. destruct q; simpl; lia.
  - cbn [mret M_ret exec]. split; [done|]. split; [done|]. split.
    + rewrite P2, P1, <-map_first_step by lia. rewrite (list_alter_as_insert _ _ _ p) by (by rewrite map_first_lookup).
      unfold aged. by rewrite Ea, Es.
    + intros q. change (cnt (view s2) q) with (cnt (view s1) q).
      rewrite C1, (count_if_take_S _ _ _ _ Hpk), Ea. simpl. lia.
Qed.
End aging.

(** C10: At a clock tick [update_wait_time] brings the waiting time of every RUNNABLE
    process up to date and promotes to the round-robin level exactly the FCFS
    processes that have waited 800 ticks or more, restarting their wait; the
    counters of the two queues follow, and nothing else changes. *)
Theorem update_wait_time_exact (s : kst) (c : nat) (n : Z) (H : gset lockid) (t : Z)
    (HL : lctx (klk s) c n H) (Hp : ptable_lock ∉ H) (Hc : cons_lock ∉ H)
    (Hlen : length (ptab s) = NPROC) (Hown : own_pids (ptab s)) :
  exists s', update_wait_time t s = Ret 0 s' /\ lctx (klk s') c n H /\ rest s' = rest s /\
    ptab s' = aged t <$> ptab s /\
    forall q, cnt (view s') q = cnt (view s) q +
      count_if (ages t) (ptab s) * (b2z (bool_decide (q = Q_RR)) - b2z (bool_decide (q = Q_FCFS))).
Proof.
  match goal with |- exists s', _ = _ /\ @?P s' =>
    destruct (wp_returns (fun _ => True) (fun r s' => r = 0 /\ P s') (update_wait_time t s)) as (r & s' & E & -> & HQ);
      [|exists s'; by split] end.
  unfold update_wait_time. apply exec_bind. eapply wp_acquire; [exact HL|done|]. intros l L _. apply exec_bind.
  eapply exec_mono with (Q := fun _ => age_inv s c n H t (length (seq 0 NPROC))).
  - rewrite length_seq. intros [] s1 (L1 & R1 & P1 & C1). apply exec_bind.
    eapply wp_release_top; [exact L1|done|by eapply lctx_nonneg|]. intros l2 L2 _.
    rewrite <-Hlen in P1, C1. rewrite map_first_all in P1. rewrite take_ge in C1 by lia. done.
  - apply (exec_for_all _ _ _ _ (fun l1 => age_inv s c n H t (length l1))).
    + split; [exact L|]. split; [done|]. split; [done|]. intros q. symmetry. apply Z.add_0_r.
    + intros l1 i l2 s1 Ei HI. destruct (seq_split _ _ _ _ Ei) as [-> Hi].
      rewrite length_app, Nat.add_1_r. by apply wp_age_slot.
Qed.

(** On the sample machine at tick 1000, with a process that has waited since 7. *)
Lemma update_wait_time_exact_witness :
  exists s', update_wait_time 1000 (sample 1) = Ret 0 s' /\ sched_level (ptab s' !!! 4%nat) = 1 /\
    count_rr s' = 2 /\ count_fcfs s' = 0.
Proof.
  destruct (update_wait_time_exact (sample 1) 1 0 ∅ 1000 (sample_lctx 1 1 eq_refl)) as (s' & E & _ & _ & P & C).
  - set_solver.
  - set_solver.
  - vm_compute. reflexivity.
  - intros i j p q Hi Hj Epid Hst.
    assert (Hv : forallb (fun ip => forallb (fun jq => bool_decide (state (ip : nat * proc).2 = UNUSED) ||
      negb (pid ip.2 =? pid (jq : nat * proc).2) || (ip.1 =? jq.1)%nat) (slots sample_table)) (slots sample_table) = true)
      by (vm_compute; reflexivity).
    rewrite forallb_forall in Hv. specialize (Hv (i, p) (proj1 (list_elem_of_In _ _) (proj2 (slots_elem _ _ _) Hi))).
    rewrite forallb_forall in Hv. specialize (Hv (j, q) (proj1 (list_elem_of_In _ _) (proj2 (slots_elem _ _ _) Hj))).
    simpl in Hv. rewrite (bool_decide_false _ Hst), Epid, Z.eqb_refl in Hv. by apply Nat.eqb_eq in Hv.
  - exists s'. split; [exact E|]. split; [rewrite P; vm_compute; reflexivity|].
    split; [exact (C Q_RR)|exact (C Q_FCFS)].
Defined.
