(* ===== verification/QuantumSpec.v ===== *)
(** Preemption at a clock tick, and leaving the CPU. *)
From stdpp Require Import base tactics list numbers strings gmap.
From S2P Require Import Prelude CString FsTypes State Spinlock Console Kalloc Vm Sched Process Args Sysproc Trap SchedInv Sample SchedOps Policy Dispatch Calls.

#[local] Open Scope Z_scope.

(** ** [sched] reaches its [swtch] *)
Lemma wp_sched {In Q} Out s c H j :
  lctx (klk s) c 1 H -> ptable_lock ∈ H -> cur (klk s) = Some j -> state (ptab s !!! j) <> RUNNING ->
  (forall l, lctx l c 1 H -> Out (s <| klk := l |>)) ->
  (forall s' : kst, In s' -> False) -> wp Out In Q (sched s).
Proof.
  intros HL Hp Hc Hst HO HI. unfold sched. apply exec_bind. eapply wp_myproc; [exact HL|].
  intros l1 L1 _. rewrite Hc. set (s1 := s <| klk := l1 |>). apply exec_bind.
  destruct (lctx_holding s1 c 1 H ptable_lock L1) as (l2 & -> & L2 & _). cbn [exec].
  rewrite bool_decide_true by done. cbn [negb]. set (s2 := s1 <| klk := l2 |>).
  apply exec_bind. rewrite (cpu_ok_mycpu s2 c 1 (lctx_ok _ _ _ _ L2)) by lia. cbn [exec].
  destruct (cpu_ok_ncli _ _ _ (lctx_ok _ _ _ _ L2)) as (x & Hx & Hn).
  apply exec_bind. cbn [cpu_at gets exec]. rewrite (list_lookup_total_correct _ _ _ Hx), Hn. cbn [Z.eqb negb].
  change (1 =? 1) with true. cbn [negb]. apply exec_bind. cbn [deref mret M_ret exec].
  apply exec_bind. cbn [proc_at gets exec]. rewrite decide_False by done.
  apply exec_bind. unfold readeflags_IF. cbn [gets exec].
  pose proof (cpu_ok_IF_off _ _ _ (lctx_ok _ _ _ _ L2) ltac:(lia)) as HF. unfold IFof in HF.
  change (klk s2) with l2. rewrite HF. apply exec_bind. cbn [swtch exec].
  split; [apply (HO l2 L2)|]. intros s' Hs'. by apply HI in Hs'.
Qed.

(** The process that has left the CPU at time [t]. *)
Definition yielded_at (t : Z) (p : proc) : proc :=
  p <| state := RUNNABLE |> <| arrival_time := t |> <| waited_ticks := 0 |> <| consecutive_run := 0 |>.

Lemma wp_yield {Q} s c H j :
  lctx (klk s) c 0 H -> ptable_lock ∉ H -> tickslock ∉ H -> cur (klk s) = Some j ->
  (j < length (ptab s))%nat ->
  wp (fun s' => ptab s' = alter (yielded_at (i32 (ticks s))) j (ptab s) /\ rest s' = rest s /\
      lctx (klk s') c 1 ({[ptable_lock]} ∪ H)) (fun _ => False) Q (yield s).
Proof.
  intros HL Hp Ht Hc Hj. unfold yield. apply exec_bind. eapply wp_acquire; [exact HL|done|].
  intros l1 L1 S1. set (s1 := s <| klk := l1 |>). apply exec_bind. eapply wp_myproc; [exact L1|].
  intros l2 L2 S2. change (klk s1) with l1. rewrite (cur_static _ _ S1), Hc.
  apply exec_bind. cbn [deref mret M_ret exec]. apply exec_bind. cbn [upd_proc modify exec].
  set (s2 := (s1 <| klk := l2 |>) <| ptab ::= alter (fun p => p <| state := RUNNABLE |>) j |>).
  apply exec_bind.
  assert (Hl2 : lk_static (klk s2) = lk_static (klk s)) by (simpl; by rewrite S2).
  unfold with_ticks. apply exec_bind. eapply wp_acquire; [exact L2|set_solver|]. intros l3 L3 S3.
  apply exec_bind. cbn [gets exec]. apply exec_bind. cbn [upd_proc modify exec].
  eapply wp_release_top; [exact L3|set_solver|lia|]. intros l4 L4 S4.
  apply exec_bind. unfold count_inc. apply exec_bind. cbn [proc_at gets exec].
  rewrite add_count_eq. cbn [exec]. apply exec_bind.
  set (s4 := bump _ _ _).
  assert (P4 : ptab s4 = alter (yielded_at (i32 (ticks s))) j (ptab s)).
  { unfold s4. rewrite bump_ptab. simpl. rewrite list_alter_alter. done. }
  assert (K4 : klk s4 = l4) by (unfold s4; by rewrite bump_klk).
  eapply (wp_sched _ s4 c ({[ptable_lock]} ∪ H) j).
  - rewrite K4. exact L4.
  - set_solver.
  - rewrite K4, (cur_static _ (klk s)); [done|]. rewrite S4. simpl. by rewrite S3.
  - rewrite P4, lookup_total_alter_eq by done. done.
  - intros l L. split; [exact P4|]. split; [|done].
    change (rest (s4 <| klk := l |>)) with (rest s4). unfold s4. by rewrite bump_rest.
  - done.
Qed.

(** ** The clock tick of a running process *)

(** What every tick adds to the account of the process. *)
Definition accounted (p : proc) : proc :=
  let p := p <| consecutive_run ::= Z.add 1 |> <| runnig_time ::= Z.add 1 |> in
  if max_consecutive_run p <? consecutive_run p then p <| max_consecutive_run := consecutive_run p |> else p.
Definition is_rr (p : proc) : bool := (sched_class p =? 2) && (sched_level p =? 1).
Definition clock_ticked (p : proc) : proc :=
  let p := accounted p in if is_rr p then p <| rr_ticks ::= Z.add 1 |> else p.

(** Whether the process has to leave the CPU. *)
Definition gives_up (s : kst) (p : proc) : bool :=
  if is_rr p then 3 <=? rr_ticks p + 1
  else if (sched_class p =? 2) && (sched_level p =? 2) then (0 <? count_edf s) || (0 <? count_rr s)
  else false.

Section quantum.
Context (s : kst) (c : nat) (H : gset lockid) (j : nat).
Hypothesis HL : lctx (klk s) c 0 H.
Hypothesis Hp : ptable_lock ∉ H.
Hypothesis Ht : tickslock ∉ H.
Hypothesis Hcons : cons_lock ∉ H.
Hypothesis Hc : cur (klk s) = Some j.
Hypothesis Hj : (j < length (ptab s))%nat.

Lemma accounted_key p : sched_class (accounted p) = sched_class p /\ sched_level (accounted p) = sched_level p /\
  rr_ticks (accounted p) = rr_ticks p.
Proof. unfold accounted. by destruct (_ <? _). Qed.

Definition quantum_end (r : unit) (s' : kst) : Prop :=
  gives_up s (ptab s !!! j) = false /\ ptab s' = alter clock_ticked j (ptab s) /\ lctx (klk s') c 0 H.
Definition quantum_left (s' : kst) : Prop :=
  gives_up s (ptab s !!! j) = true /\
  ptab s' = alter (fun p => yielded_at (i32 (ticks s)) (clock_ticked p)) j (ptab s) /\
  rest s' = rest s.

Lemma wp_quantum : wp quantum_left (fun _ => False) quantum_end (quantum s).
Proof.
  unfold quantum. apply exec_bind. unfold curproc. apply exec_bind. eapply wp_myproc; [exact HL|].
  intros l1 L1 S1. rewrite Hc. cbn [deref mret M_ret exec].
  apply exec_bind. cbn [upd_proc modify exec]. apply exec_bind. cbn [upd_proc modify exec].
  apply exec_bind. cbn [upd_proc modify exec]. apply exec_bind. cbn [proc_at gets exec].
  set (s2 := (((s <| klk := l1 |>) <| ptab ::= _ |>) <| ptab ::= _ |>) <| ptab ::= _ |>).
  assert (P2 : ptab s2 = alter accounted j (ptab s)).
  { unfold s2. unfold upd. simpl. by rewrite !list_alter_alter. }
  assert (C2 : cur (klk s2) = Some j) by (by rewrite <-Hc; apply cur_static).
  assert (L2 : lctx (klk s2) c 0 H) by exact L1.
  assert (Hr2 : rest s2 = rest s) by done.
  assert (Hn2 : count_edf s2 = count_edf s /\ count_rr s2 = count_rr s) by done.
  clearbody s2. rewrite P2, lookup_total_alter_eq by done.
  destruct (accounted_key (ptab s !!! j)) as (Kc & Kl & Kr).
  set (p := ptab s !!! j) in *.
  assert (Hj2 : (j < length (ptab s2))%nat) by (by rewrite P2, length_alter).
  assert (Htk : ticks s2 = ticks s) by (unfold rest in Hr2; congruence).
  assert (Hpl : ptab s !! j = Some p) by (by apply list_lookup_lookup_total_lt).
  assert (Ek : is_rr (accounted p) = is_rr p) by (unfold is_rr; by rewrite Kc, Kl).
  fold (is_rr (accounted p)). rewrite Ek. destruct (is_rr p) eqn:Er.
  - apply exec_bind. cbn [upd_proc modify exec]. apply exec_bind. cbn [proc_at gets exec].
    set (s3 := s2 <| ptab ::= alter (fun p => p <| rr_ticks ::= Z.add 1 |>) j |>).
    assert (P3 : ptab s3 = alter clock_ticked j (ptab s)).
    { unfold s3. unfold upd. simpl. rewrite P2, list_alter_alter.
      rewrite !(list_alter_as_insert _ _ _ p) by done. unfold clock_ticked. by rewrite Ek. }
    assert (L3 : lctx (klk s3) c 0 H) by exact L2. assert (R3 : rest s3 = rest s) by exact Hr2.
    assert (C3 : cur (klk s3) = Some j) by exact C2. clearbody s3.
    assert (Hv : rr_ticks (ptab s3 !!! j) = rr_ticks p + 1).
    { rewrite P3, lookup_total_alter_eq by done. fold p. unfold clock_ticked. rewrite Ek.
      simpl. rewrite Kr. lia. }
    change (Z.quot Time_Quantum Unit_Quantum_length_ms) with 3. rewrite Hv.
    destruct (3 <=? rr_ticks p + 1) eqn:Eq; cbn [mwhen].
    + apply exec_bind. eapply wp_cprintf; [exact L3|done|reflexivity|]. intros l4 L4 S4.
      set (s4 := (s3 <| klk := l4 |>) <| screen ::= _ |>).
      eapply exec_mono_out; [|eapply (wp_yield s4 c H j); try done].
      * intros s' (P' & R' & _). split; [unfold gives_up; fold p; by rewrite Er|]. split; [|by rewrite R'].
        rewrite P'. change (ptab s4) with (ptab s3). change (ticks s4) with (ticks s3).
        assert (ticks s3 = ticks s) as -> by (unfold rest in R3; congruence).
        by rewrite P3, list_alter_alter.
      * rewrite <-C3. by apply cur_static.
      * change (ptab s4) with (ptab s3). by rewrite P3, length_alter.
    + split; [unfold gives_up; fold p; by rewrite Er|]. done.
  - assert (P3 : alter accounted j (ptab s) = alter clock_ticked j (ptab s)).
    { rewrite !(list_alter_as_insert _ _ _ p) by done. unfold clock_ticked. by rewrite Ek. }
    rewrite P3 in P2. rewrite Kc, Kl. destruct Hn2 as [Hn2 Hn2'].
    destruct ((sched_class p =? 2) && (sched_level p =? 2)) eqn:Ef.
    + apply exec_bind. unfold is_higher_waiting. apply exec_bind. cbn [gets exec]. apply exec_bind.
      cbn [gets exec]. rewrite Hn2, Hn2'. destruct ((0 <? count_edf s) || (0 <? count_rr s)) eqn:Eh.
      * apply exec_bind. eapply exec_mono_out; [|eapply (wp_yield s2 c H j); done].
        intros s' (P' & R' & _). split; [unfold gives_up; fold p; by rewrite Er, Ef|].
        split; [|by rewrite R']. by rewrite P', Htk, P2, list_alter_alter.
      * cbn [mwhen exec mret M_ret Z.eqb negb]. split; [unfold gives_up; fold p; by rewrite Er, Ef|]. done.
    + split; [unfold gives_up; fold p; by rewrite Er, Ef|]. done.
Qed.
End quantum.

(** C9: A clock tick of a running process is charged to it; then a round-robin
    process leaves the CPU exactly when this was its third tick, an FCFS process
    exactly when an EDF or round-robin process is RUNNABLE, an EDF process never.
    Who leaves is RUNNABLE, with the current time as its arrival time. *)
Theorem quantum_exact (s : kst) (c : nat) (H : gset lockid) (j : nat) :
  lctx (klk s) c 0 H -> ptable_lock ∉ H -> tickslock ∉ H -> cons_lock ∉ H ->
  cur (klk s) = Some j -> (j < length (ptab s))%nat ->
  if gives_up s (ptab s !!! j)
  then exists s' k, quantum s = Swtch s' k /\
    ptab s' = alter (fun p => yielded_at (i32 (ticks s)) (clock_ticked p)) j (ptab s)
  else exists s', quantum s = Ret tt s' /\ ptab s' = alter clock_ticked j (ptab s) /\
    lctx (klk s') c 0 H.
Proof.
  intros HL Hp Ht Hcons Hc Hj. pose proof (wp_quantum s c H j HL Hp Ht Hcons Hc Hj) as Hw.
  destruct (quantum s) as [[] s'| | | |s' k|]; simpl in Hw; try done.
  - destruct Hw as (-> & P & L). eauto.
  - destruct Hw as [(-> & P & _) _]. eauto.
Qed.

(** The process running on CPU 1 of the sample machine is FCFS, and others wait. *)
Lemma quantum_exact_witness :
  exists s' k, quantum (sample 1) = Swtch s' k /\
    ptab s' = alter (fun p => yielded_at (i32 (ticks (sample 1))) (clock_ticked p)) 5%nat (ptab (sample 1)).
Proof.
  pose proof (quantum_exact (sample 1) 1 ∅ 5 (sample_lctx 1 1 eq_refl)) as Hq.
  assert (Eg : gives_up (sample 1) (ptab (sample 1) !!! 5%nat) = true) by (vm_compute; reflexivity).
  rewrite Eg in Hq. apply Hq.
  - set_solver.
  - set_solver.
  - set_solver.
  - vm_compute. reflexivity.
  - vm_compute. lia.
Defined.
