(* ===== verification/DataSpec.v ===== *)
(** The contracts of the string, formatting and number routines: string.c,
    [printint] of console.c and [digitcount] of utils.c. *)
From stdpp Require Import base tactics list numbers strings gmap.
From Stdlib Require Import Ascii.
From S2P Require Import Prelude CString State Spinlock Console.

#[local] Open Scope Z_scope.

(** ** memset, memmove *)

(** [memset], by words or by bytes, fills exactly the range with the low
    byte of [c]. *)
Theorem memset_exact (m : memory) (dst c n b : Z) (Hn : 0 <= n) :
  ld8 (memset m dst c n) b = if decide (dst <= b < dst + n) then c mod 256 else ld8 m b.
Proof. by apply ld8_memset. Qed.

Lemma memset_exact_witness : ld8 (memset ∅ 0x1000 0x1FF 8) 0x1007 = 255.
Proof. rewrite (memset_exact ∅ 0x1000 0x1FF 8 0x1007); [reflexivity|lia]. Defined.

(** [memmove] copies the bytes the source range had before the call, also
    when the two ranges overlap, and changes nothing else. *)
Theorem memmove_exact (m : memory) (dst src n b : Z) (Hm : mem_ok m) (Hn : 0 <= n) :
  ld8 (memmove m dst src n) b =
    if decide (dst <= b < dst + n) then ld8 m (src + (b - dst)) else ld8 m b.
Proof. by apply ld8_memmove. Qed.

Lemma memmove_exact_witness :
  let m := st_list ∅ 0x100 [1; 2; 3; 4] in ld8 (memmove m 0x102 0x100 4) 0x105 = 4.
Proof.
  intros m. rewrite (memmove_exact m 0x102 0x100 4 0x105); [reflexivity| |lia].
  unfold m. cbn [st_list]. repeat apply mem_ok_st8. exact mem_ok_empty.
Defined.

(** ** safestrcpy *)
Lemma safestrcpy_loop_spec k s body rest :
  Forall (fun c => c <> 0) body -> (k < length s)%nat ->
  exists r, safestrcpy_loop s (body ++ 0 :: rest) k = Some (take k body ++ 0 :: r) /\
    length (take k body ++ 0 :: r) = length s /\
    drop (S k) (take k body ++ 0 :: r) = drop (S k) s.
Proof.
  revert s body. induction k as [|k IH]; intros [|a s] body Hb Hk; simpl in Hk; try lia.
  - exists s. done.
  - destruct body as [|c body]; simpl.
    + destruct s as [|a' s]; simpl in Hk; [lia|]. by exists (0 :: s).
    + inversion Hb; subst. rewrite (proj2 (Z.eqb_neq _ _)) by done.
      destruct (IH s body) as (r & Hr & Hl & Hd); [done|lia|]. rewrite Hr. exists r.
      simpl. rewrite Hl. done.
Qed.

Lemma strlen_app body r : Forall (fun c => c <> 0) body ->
  strlen (body ++ 0 :: r) = Some (Z.of_nat (length body)).
Proof.
  induction 1 as [|c body Hc _ IH]; [done|]. cbn [app strlen].
  rewrite (proj2 (Z.eqb_neq _ _)) by done. rewrite IH. cbn [fmap option_fmap option_map length].
  f_equal. lia.
Qed.

(** C40: [safestrcpy] into an array of at least [n > 0] bytes stays within its
    first [n] bytes, and leaves there the longest prefix of the source that fits,
    always terminated. *)
Theorem safestrcpy_bounded (s body rest : list Z) (n : Z)
    (Hb : Forall (fun c => c <> 0) body) (Hn : 0 < n <= Z.of_nat (length s)) :
  exists r, safestrcpy s (body ++ 0 :: rest) n = Some r /\
    length r = length s /\ drop (Z.to_nat n) r = drop (Z.to_nat n) s /\
    strlen r = Some (Z.min (n - 1) (Z.of_nat (length body))) /\
    take (Z.to_nat (n - 1)) body `prefix_of` r.
Proof.
  unfold safestrcpy. rewrite (proj2 (Z.leb_gt _ _)) by lia.
  destruct (safestrcpy_loop_spec (Z.to_nat (n - 1)) s body rest) as (r & Hr & Hl & Hd); [done|lia|].
  eexists. split; [exact Hr|]. split; [exact Hl|]. split.
  { by replace (Z.to_nat n) with (S (Z.to_nat (n - 1))) by lia. }
  split; [|by eexists]. rewrite strlen_app by (by apply Forall_take).
  rewrite length_take. f_equal. lia.
Qed.

Lemma safestrcpy_bounded_witness :
  exists r, safestrcpy [9; 9; 9; 9; 9] ([105; 110; 105; 116] ++ 0 :: []) 4 = Some r /\
    length r = 5%nat /\ drop 4 r = [9] /\ strlen r = Some 3 /\ [105; 110; 105] `prefix_of` r.
Proof.
  apply (safestrcpy_bounded [9; 9; 9; 9; 9] [105; 110; 105; 116] [] 4);
    [repeat constructor; lia|simpl; lia].
Defined.

(** ** printint *)

(** The value of a digit, and of a sequence of digits, least significant first. *)
Definition digit_value (c : Z) : Z := if c <? 58 then c - 48 else c - 87.
Fixpoint value_of (base : Z) (l : list Z) : Z :=
  match l with
  | [] => 0
  | c :: l' => digit_value c + base * value_of base l'
  end.
(** Reading a number back: an optional sign, then the digits. *)
Definition read_int (base : Z) (l : list Z) : Z :=
  match l with
  | [] => 0
  | c :: l' => if c =? 45 then - value_of base (rev l') else value_of base (rev l)
  end.

Lemma digits_value d : 0 <= d < 16 -> digit_value (digits !!! Z.to_nat d) = d /\ digits !!! Z.to_nat d <> 45.
Proof.
  intros Hd. assert (Hin : In d (seqZ 0 16)) by (by apply list_elem_of_In, elem_of_seqZ).
  assert (Hall : forallb (fun d => (digit_value (digits !!! Z.to_nat d) =? d) &&
    negb (digits !!! Z.to_nat d =? 45)) (seqZ 0 16) = true) by (vm_compute; reflexivity).
  rewrite forallb_forall in Hall. specialize (Hall d Hin). apply andb_true_iff in Hall as [H1 H2].
  apply Z.eqb_eq in H1. apply negb_true_iff, Z.eqb_neq in H2. done.
Qed.

Section itoa.
Context (base : Z) (Hbase : 2 <= base <= 16).

Lemma itoa_value fuel x : 0 <= x < base ^ Z.of_nat fuel -> value_of base (itoa fuel x base) = x.
Proof.
  revert x. induction fuel as [|f IH]; intros x Hx; [simpl in *; lia|].
  cbn [itoa value_of]. pose proof (Z.mod_pos_bound x base ltac:(lia)).
  destruct (digits_value (x mod base)) as [-> _]; [lia|].
  pose proof (Z.div_mod x base ltac:(lia)) as Hdm.
  destruct (Z.eqb_spec (x / base) 0) as [E|E]; simpl; [lia|].
  rewrite IH; [lia|]. rewrite Nat2Z.inj_succ, Z.pow_succ_r in Hx by lia.
  split; [apply Z.div_pos; lia|]. apply Z.div_lt_upper_bound; lia.
Qed.

Lemma itoa_no_sign fuel x c : c ∈ itoa fuel x base -> c <> 45.
Proof.
  revert x. induction fuel as [|f IH]; intros x; simpl; [by intros ?%elem_of_nil|].
  pose proof (Z.mod_pos_bound x base ltac:(lia)).
  intros [-> | Hc]%elem_of_cons; [by apply digits_value; lia|].
  destruct (_ =? 0); [by apply elem_of_nil in Hc|]. by eapply IH.
Qed.

(** The digits of a number below [base ^ n] are at most [n]. *)
Lemma itoa_length n fuel x : 0 <= x < base ^ Z.of_nat (S n) -> (length (itoa fuel x base) <= S n)%nat.
Proof.
  revert fuel x. induction n as [|n IH]; intros [|f] x Hx; simpl itoa; simpl length; try lia.
  - assert (x / base = 0) as -> by (apply Z.div_small; lia). simpl. lia.
  - destruct (_ =? 0); simpl; [lia|]. apply le_n_S, IH.
    rewrite Nat2Z.inj_succ, Z.pow_succ_r in Hx by lia.
    split; [apply Z.div_pos; lia|]. apply Z.div_lt_upper_bound; lia.
Qed.
End itoa.

Lemma read_unsigned base l : (forall c, c ∈ l -> c <> 45) -> read_int base (rev l) = value_of base l.
Proof.
  intros Hl. unfold read_int. destruct (rev l) as [|c l'] eqn:E.
  - by rewrite <-(rev_involutive l), E.
  - assert (Hc : c <> 45). { apply Hl. rewrite <-(rev_involutive l), E. simpl. set_solver. }
    rewrite (proj2 (Z.eqb_neq _ _)) by done. by rewrite <-E, rev_involutive.
Qed.

Lemma pow_base_32 base : 10 <= base -> 2^32 <= base ^ 16.
Proof.
  intros Hb. transitivity (10 ^ 16); [vm_compute; discriminate|]. by apply Z.pow_le_mono_l.
Qed.

(** [printint] prints a number that reads back as itself, INT_MIN included,
    and its digits and sign fit in the 16 bytes of [buf]. *)
Theorem printint_roundtrip (xx : Z) (Hx : in_i32 xx) :
  read_int 10 (printint xx 10 true) = xx /\ read_int 16 (printint xx 16 false) = u32 xx /\
  (length (printint xx 10 true) <= 11)%nat /\ (length (printint xx 16 false) <= 8)%nat.
Proof.
  unfold in_i32 in Hx. pose proof (u32_range xx) as Hu. pose proof (u32_range (- xx)) as Hu'.
  unfold in_u32 in *. pose proof (pow_base_32 10 ltac:(lia)). pose proof (pow_base_32 16 ltac:(lia)).
  assert (Hv : forall base x, 10 <= base <= 16 -> 0 <= x < 2^32 ->
    read_int base (rev (itoa 16 x base)) = x).
  { intros base x Hb ?. rewrite read_unsigned by (intros c; apply itoa_no_sign; lia).
    apply itoa_value; [lia|]. pose proof (pow_base_32 base ltac:(lia)). lia. }
  unfold printint. cbn [andb]. rewrite app_nil_r. repeat apply conj.
  - destruct (Z.ltb_spec xx 0).
    + rewrite rev_app_distr. change (rev [ch "-"%char]) with [45]. cbn [app read_int Z.eqb Pos.eqb].
      rewrite rev_involutive, itoa_value by lia. rewrite u32_small; [lia|unfold in_u32; lia].
    + rewrite app_nil_r, Hv by lia. rewrite u32_small; [done|unfold in_u32; lia].
  - rewrite Hv; lia.
  - rewrite length_rev, length_app. pose proof (itoa_length 10 ltac:(lia) 9 16) as HL.
    assert (2^32 <= 10 ^ Z.of_nat 10) by (vm_compute; discriminate).
    destruct (xx <? 0); cbn [length]; [pose proof (HL (u32 (- xx)))|pose proof (HL (u32 xx))]; lia.
  - rewrite length_rev. apply itoa_length; [lia|]. change (16 ^ Z.of_nat 8) with (2^32). lia.
Qed.

Lemma printint_roundtrip_witness :
  read_int 10 (printint (- 2^31) 10 true) = - 2^31 /\ read_int 16 (printint (- 2^31) 16 false) = 2^31 /\
  (length (printint (- 2^31) 10 true) <= 11)%nat /\ (length (printint (- 2^31) 16 false) <= 8)%nat.
Proof. apply (printint_roundtrip (- 2^31)). unfold in_i32. lia. Defined.

(** ** digitcount *)
Lemma digitcount_itoa fuel1 fuel2 x cnt :
  0 < x < 10 ^ Z.of_nat fuel1 -> x < 10 ^ Z.of_nat fuel2 ->
  digitcount_loop fuel1 x cnt = cnt + Z.of_nat (length (itoa fuel2 x 10)).
Proof.
  revert fuel2 x cnt. induction fuel1 as [|f1 IH]; intros f2 x cnt Hx Hx2; [simpl in Hx; lia|].
  destruct f2 as [|f2]; [simpl in Hx2; lia|].
  rewrite Nat2Z.inj_succ, Z.pow_succ_r in Hx, Hx2 by lia.
  cbn [digitcount_loop itoa length]. rewrite (proj2 (Z.eqb_neq x 0)) by lia.
  rewrite Z.quot_div_nonneg by lia.
  destruct (Z.eqb_spec (x / 10) 0) as [E|E].
  - rewrite E. destruct f1; simpl; lia.
  - assert (0 < x / 10) by (pose proof (Z.div_pos x 10); lia).
    rewrite (IH f2); [|split; [lia|apply Z.div_lt_upper_bound; lia]|apply Z.div_lt_upper_bound; lia].
    lia.
Qed.

(** [digitcount] is the number of characters [cprintf] prints for a
    non-negative [int], so the columns of [print_sched_info] line up. *)
Theorem digitcount_printint (x : Z) (Hx : 0 <= x < 2^31) :
  digitcount x = Z.of_nat (length (printint x 10 true)).
Proof.
  unfold digitcount, printint. destruct (Z.eqb_spec x 0) as [->|Hne]; [reflexivity|].
  rewrite (proj2 (Z.ltb_ge x 0)) by lia. cbn [andb]. rewrite app_nil_r, length_rev.
  rewrite u32_small by (unfold in_u32; lia).
  assert (2^31 <= 10 ^ Z.of_nat 11) by (vm_compute; discriminate).
  assert (2^31 <= 10 ^ Z.of_nat 16) by (vm_compute; discriminate).
  rewrite (digitcount_itoa 11 16); lia.
Qed.

Lemma digitcount_printint_witness : digitcount 2147483647 = Z.of_nat (length (printint 2147483647 10 true)).
Proof. apply (digitcount_printint 2147483647). lia. Defined.
