(* ===== verification/LockSpec.v ===== *)
(** The contracts of spinlock.c: what [acquire] does with a lock in each state, and
    that nested [pushcli]/[popcli] mask interrupts and give back the flag. *)
From stdpp Require Import base tactics list numbers strings gmap.
From S2P Require Import Prelude CString FsTypes State Spinlock Console Kalloc Vm Sched SchedInv Sample SchedOps.

#[local] Open Scope Z_scope.

(** ** acquire *)
Inductive lock_state := Free | Mine | Other.
Definition lock_seen (l : lstate) (i : nat) (k : lockid) : lock_state :=
  if locked (lock_of l k) then if decide (lk_cpu (lock_of l k) = Some i) then Mine else Other else Free.

(** C31: On a CPU, [acquire] of a lock that CPU holds panics, of a lock another
    CPU holds spins, and of a free lock takes it for this CPU; in each case
    interrupts are off and one deeper in nesting, and no other lock changes. *)
Theorem acquire_three_way (s : kst) (i : nat) (n : Z) (k : lockid) (HC : cpu_ok (klk s) i n) :
  exists l', cpu_ok l' i (n + 1) /\ IFof l' = false /\
    (forall k', k' <> k -> lock_of l' k' = lock_of (klk s) k') /\
    match lock_seen (klk s) i k with
    | Mine => acquire k s = Panic "acquire" (s <| klk := l' |>)
    | Other => acquire k s = Spin k (s <| klk := l' |>)
    | Free => acquire k s = Ret tt (s <| klk := l' |>) /\
        locked (lock_of l' k) = true /\ lk_cpu (lock_of l' k) = Some i
    end.
Proof.
  destruct (cpu_ok_acquire_test s i n k HC) as (l1 & C1 & S1 & K1 & E).
  assert (HF : IFof l1 = false) by (eapply cpu_ok_IF_off; [done|destruct HC; lia]).
  unfold lock_seen. destruct (locked (lock_of (klk s) k)) eqn:El.
  - exists l1. split; [done|]. split; [done|]. split; [unfold lock_of; by rewrite K1|].
    rewrite E. case_decide; [by rewrite bool_decide_true by done|by rewrite bool_decide_false by done].
  - eexists. split; [apply cpu_ok_set_lock, C1|]. split; [exact HF|]. split; [|split; [exact E|]].
    + intros k' Hk. unfold lock_of. simpl. by rewrite lookup_insert_ne, K1 by done.
    + unfold lock_of. simpl. by rewrite lookup_insert_eq.
Qed.

Lemma sample_cpu_ok h i : this_cpu (klk (sample h)) = Some i -> cpu_ok (klk (sample h)) i 0.
Proof. intros Hi. apply (lctx_ok _ _ _ _ (sample_lctx h i Hi)). Qed.

Lemma acquire_three_way_witness :
  exists l', cpu_ok l' 1 1 /\ IFof l' = false /\
    (forall k', k' <> tickslock -> lock_of l' k' = lock_of (klk (sample 1)) k') /\
    acquire tickslock (sample 1) = Ret tt ((sample 1) <| klk := l' |>) /\
    locked (lock_of l' tickslock) = true /\ lk_cpu (lock_of l' tickslock) = Some 1%nat.
Proof. exact (acquire_three_way (sample 1) 1 0 tickslock (sample_cpu_ok 1 1 eq_refl)). Defined.

(** ** Nested interrupt masking *)
Inductive cli_op := Push | Pop.
Definition do_op (o : cli_op) : K unit := match o with Push => pushcli | Pop => popcli end.
Definition depth_after (o : cli_op) (d : Z) : Z := match o with Push => d + 1 | Pop => d - 1 end.
(** The nesting after the calls [l], if no [popcli] comes without its [pushcli]. *)
Fixpoint depth (l : list cli_op) (d : Z) : option Z :=
  match l with
  | [] => Some d
  | o :: l' => if depth_after o d <? 0 then None else depth l' (depth_after o d)
  end.

(** CPU [i] is [d] deep, [e] being the interrupt flag outside. *)
Definition masked (l : lstate) (i : nat) (d : Z) (e : bool) : Prop :=
  this_cpu l = Some i /\ 0 <= d /\ IFof l = (if d =? 0 then e else false) /\
  exists c, cpus l !! i = Some c /\ ncli c = d /\ (0 < d -> intena c = e).

Lemma masked_push s i d e : masked (klk s) i d e ->
  exists s', pushcli s = Ret tt s' /\ masked (klk s') i (d + 1) e.
Proof.
  intros (Ht & Hd & HF & c & Hc & Hn & He). eexists. split; [by apply pushcli_eq|]. simpl.
  split; [rewrite <-Ht; apply (this_cpu_insert (klk s) i c); [done|apply push_c_apicid]|].
  split; [lia|]. rewrite (proj2 (Z.eqb_neq (d + 1) 0)) by lia.
  split; [unfold IFof; simpl; by rewrite lookup_insert_eq|].
  exists (push_c (IFof (klk s)) c). split; [|split].
  - simpl. apply list_lookup_insert_eq. by eapply lookup_lt_Some.
  - rewrite push_c_ncli. lia.
  - intros _. unfold push_c. rewrite Hn. destruct (Z.eqb_spec d 0); [done|]. apply He. lia.
Qed.

Lemma masked_pop s i d e : masked (klk s) i d e -> 0 < d ->
  exists s', popcli s = Ret tt s' /\ masked (klk s') i (d - 1) e.
Proof.
  intros (Ht & Hd & HF & c & Hc & Hn & He) Hp. rewrite (proj2 (Z.eqb_neq d 0)) in HF by lia.
  eexists. split; [apply popcli_eq; [done|done|done|lia]|]. simpl.
  assert (Hin : <[i := pop_c c]> (cpus (klk s)) !! i = Some (pop_c c)).
  { apply list_lookup_insert_eq. by eapply lookup_lt_Some. }
  unfold popped. rewrite Hn, He by done. replace (Z.pred d) with (d - 1) by lia.
  destruct ((d - 1 =? 0) && e) eqn:E.
  - apply andb_true_iff in E as [E ->]. unfold masked. rewrite E. split; [|split; [lia|split]].
    + rewrite <-Ht. by apply (this_cpu_insert (klk s) i c).
    + unfold IFof. simpl. by rewrite lookup_insert_eq.
    + exists (pop_c c). split; [done|]. simpl. split; [lia|]. intros. by apply He.
  - split; [|split; [lia|split]].
    + rewrite <-Ht. by apply (this_cpu_insert (klk s) i c).
    + change (IFof (klk s) = if d - 1 =? 0 then e else false).
      rewrite HF. by destruct (d - 1 =? 0), e.
    + exists (pop_c c). split; [done|]. simpl. split; [lia|]. intros. by apply He.
Qed.

Lemma masked_run l s i d e d' : masked (klk s) i d e -> depth l d = Some d' ->
  exists s', for_all l do_op s = Ret tt s' /\ masked (klk s') i d' e.
Proof.
  revert s d. induction l as [|o l IH]; intros s d Hm Hd; simpl in Hd; simplify_eq; [by exists s|].
  destruct (Z.ltb_spec (depth_after o d) 0); [done|]. cbn [for_all].
  assert (Ho : exists s1, do_op o s = Ret tt s1 /\ masked (klk s1) i (depth_after o d) e).
  { destruct o; [by apply masked_push|]. simpl in *. apply masked_pop; [done|lia]. }
  destruct Ho as (s1 & E1 & H1). rewrite (bind_ret _ _ _ _ _ E1). by eapply IH.
Qed.

(** C32: Any sequence of [pushcli] and [popcli] without a [popcli] too many runs
    through; interrupts are off as long as a [pushcli] is open, and the flag the
    CPU had before is back when none is. One [popcli] more panics. *)
Theorem cli_nesting (s : kst) (i : nat) (c : cpu) (l : list cli_op) (d : Z)
    (Hi : this_cpu (klk s) = Some i) (Hc : cpus (klk s) !! i = Some c) (H0 : ncli c = 0)
    (Hd : depth l 0 = Some d) :
  exists s', for_all l do_op s = Ret tt s' /\
    IFof (klk s') = (if d =? 0 then IFof (klk s) else false) /\
    (d = 0 -> exists msg s2, popcli s' = Panic msg s2).
Proof.
  destruct (masked_run l s i 0 (IFof (klk s)) d) as (s' & E & Hm).
  { split; [done|]. split; [lia|]. split; [done|]. exists c. split; [done|]. split; [done|lia]. }
  { done. }
  exists s'. split; [exact E|]. destruct Hm as (Ht & Hd' & HF & c' & Hc' & Hn & _).
  split; [done|]. intros ->. change (0 =? 0) with true in HF.
  unfold popcli. destruct (IFof (klk s')) eqn:EF.
  - rewrite (bind_ret readeflags_IF _ _ true s'); [by eexists _, _|]. unfold readeflags_IF, gets.
    unfold IFof in EF. by rewrite EF.
  - rewrite (bind_ret readeflags_IF _ _ false s').
    2: { unfold readeflags_IF, gets. unfold IFof in EF. by rewrite EF. }
    rewrite (bind_ret _ _ _ i s') by (by apply mycpu_eq).
    unfold mbind, M_bind. simpl. rewrite (list_alter_as_insert _ _ _ c' Hc').
    rewrite (list_lookup_total_correct _ _ (c' <| ncli ::= Z.pred |>))
      by (apply list_lookup_insert_eq; by eapply lookup_lt_Some).
    simpl. rewrite Hn. by eexists _, _.
Qed.

(** CPU 1 of the sample machine with interrupts on, as in user mode. *)
Definition sample_on : kst := (sample 1) <| klk ::= fun l => l <| ifl := {[1 := true]} |> |>.

Lemma cli_nesting_witness :
  exists s', for_all [Push; Push; Pop; Pop] do_op sample_on = Ret tt s' /\ IFof (klk s') = true /\
    (0 = 0 -> exists msg s2, popcli s' = Panic msg s2).
Proof.
  apply (cli_nesting sample_on 1 (Cpu 1 true 0 false (Some 5%nat) 0 0) [Push; Push; Pop; Pop] 0);
    vm_compute; reflexivity.
Defined.
