(* ===== verification/MemSpec.v ===== *)
(** The contracts of the page allocator, kalloc.c. *)
From stdpp Require Import base tactics list numbers strings gmap.
From S2P Require Import Prelude CString FsTypes State Spinlock Console Kalloc Vm Sched SchedInv Sample SchedOps.

#[local] Open Scope Z_scope.

(** ** A machine with free pages *)
Definition pg (k : Z) : Z := KERNBASE + 0x400000 + PGSIZE * k.
Fixpoint link_pages (m : memory) (l : list Z) : memory :=
  match l with
  | [] => m
  | p :: l' => st32 (link_pages m l') p (default 0 (head l'))
  end.
Definition with_pages (s : kst) (l : list Z) : kst :=
  s <| mem ::= fun m => link_pages m l |> <| freelist := default 0 (head l) |>.

Lemma mem_ok_link m l : mem_ok m -> mem_ok (link_pages m l).
Proof. intros Hm. induction l; simpl; [done|]. by apply mem_ok_st32. Qed.

Lemma flist_link m l e : NoDup l -> Forall (page_ok e) l -> flist (link_pages m l) (default 0 (head l)) l.
Proof.
  induction l as [|p l IH]; intros Hnd Hp; [done|]. simpl. split; [done|].
  inversion Hnd as [|?? Hn Hnd']; subst. inversion Hp as [|?? Hpp Hps]; subst.
  rewrite ld32_st32_eq. fold (u32 (default 0 (head l))). rewrite u32_small.
  - eapply flist_frame; [|by apply IH]. intros q b Hq Hb.
    assert (Hqp : page_ok e q) by (by eapply (proj1 (Forall_forall _ _))).
    apply ld8_st32_ne. destruct (pages_disjoint p q) as [|]; [apply Hpp|apply Hqp|set_solver|..];
      unfold PGSIZE in *; lia.
  - destruct l as [|q l]; simpl; [unfold in_u32; lia|]. inversion Hps as [|?? Hqp]; subst.
    destruct (page_ok_range _ _ Hqp). unfold in_u32, PGSIZE in *. lia.
Qed.

Lemma free_pages_with s l : mem_ok (mem s) -> KERNBASE <= sym_end s -> NoDup l ->
  Forall (page_ok (sym_end s)) l -> free_pages (with_pages s l) l.
Proof.
  intros Hm He Hnd Hp. split; simpl; try done; [by eapply flist_link|by apply mem_ok_link].
Qed.

(** CPU 1 of the sample machine and three free pages. *)
Definition sample_pages : kst := with_pages (sample 1) [pg 2; pg 0; pg 1].
Lemma sample_free_pages : free_pages sample_pages [pg 2; pg 0; pg 1].
Proof.
  apply free_pages_with; [exact mem_ok_empty|vm_compute; discriminate| |].
  - repeat constructor; vm_compute; set_solver.
  - repeat (apply Forall_cons; split; [unfold page_ok; vm_compute; intuition (discriminate || reflexivity)|]).
    by apply Forall_nil.
Qed.

(** ** kalloc, kfree *)
Section allocator.
Context (s : kst) (i : nat) (n : Z) (H : gset lockid) (l : list Z).
Hypothesis HL : lctx (klk s) i n H.
Hypothesis Hk : kmem_lock ∉ H.
Hypothesis HF : free_pages s l.

(** [kalloc] returns the first page of the free list and takes it off, or
    returns 0 when there is none; it writes no memory and holds no lock after. *)
Theorem kalloc_exact :
  exists s', kalloc s = Ret (default 0 (head l)) s' /\ free_pages s' (tail l) /\
    mem s' = mem s /\ lctx (klk s') i n H.
Proof.
  edestruct (wp_returns (fun _ => True) (fun r s' => r = default 0 (head l) /\
    free_pages s' (tail l) /\ mem s' = mem s /\ lctx (klk s') i n H) (kalloc s)) as (r & s' & -> & -> & ?).
  - eapply wp_kalloc; [exact HL|exact Hk|exact HF|..].
    + intros lk L _ F Hl. pose proof (fp_list _ _ HF) as Hf. destruct l as [|p l']; [done|].
      destruct Hf as [Hf _]. done.
    + intros lk L _ ->. split; [done|]. split; [|done]. by destruct HF.
  - by exists s'.
Qed.

(** A page given back is the next one handed out; every byte of it but the
    link has been overwritten with 1, and the other free pages are as they were. *)
Theorem kfree_kalloc_roundtrip (v : Z) (Hv : page_ok (sym_end s) v) (Hn : v ∉ l) :
  exists s', (kfree v;; kalloc) s = Ret v s' /\ free_pages s' l /\ lctx (klk s') i n H /\
    (forall b, v + 4 <= b < v + PGSIZE -> ld8 (mem s') b = 1) /\
    (forall b, b < v \/ v + PGSIZE <= b -> ld8 (mem s') b = ld8 (mem s) b).
Proof.
  edestruct (wp_returns (fun _ => True) (fun r s' => r = v /\ free_pages s' l /\ lctx (klk s') i n H /\
    mem s' = freed_mem (mem s) v (freelist s)) ((kfree v;; kalloc) s)) as (r & s' & E & -> & F & L & M).
  - apply exec_bind. eapply wp_kfree; [exact HL|exact Hk|exact HF|done|done|].
    intros lk L _ s1 F1. eapply (wp_kalloc _ _ s1); [exact L|exact Hk|exact F1|..].
    + intros lk2 L2 _ F2 _. done.
    + done.
  - exists s'. split; [exact E|]. split; [done|]. split; [done|]. rewrite M. split; intros b Hb.
    + unfold freed_mem. rewrite ld8_st32_ne by lia. unfold PGSIZE in *.
      rewrite ld8_memset by lia. rewrite decide_True by lia. done.
    + by apply ld8_freed.
Qed.
End allocator.

Lemma sample_pages_lctx : lctx (klk sample_pages) 1 0 ∅.
Proof. exact (sample_lctx 1 1 eq_refl). Qed.

Lemma kalloc_exact_witness :
  exists s', kalloc sample_pages = Ret (pg 2) s' /\ free_pages s' [pg 0; pg 1] /\
    mem s' = mem sample_pages /\ lctx (klk s') 1 0 ∅.
Proof.
  apply (kalloc_exact sample_pages 1 0 ∅ [pg 2; pg 0; pg 1] sample_pages_lctx);
    [set_solver|exact sample_free_pages].
Defined.

Lemma kfree_kalloc_roundtrip_witness :
  exists s', (kfree (pg 7);; kalloc) sample_pages = Ret (pg 7) s' /\
    free_pages s' [pg 2; pg 0; pg 1] /\ lctx (klk s') 1 0 ∅ /\
    (forall b, pg 7 + 4 <= b < pg 7 + PGSIZE -> ld8 (mem s') b = 1) /\
    (forall b, b < pg 7 \/ pg 7 + PGSIZE <= b -> ld8 (mem s') b = ld8 (mem sample_pages) b).
Proof.
  apply (kfree_kalloc_roundtrip sample_pages 1 0 ∅ [pg 2; pg 0; pg 1] sample_pages_lctx).
  - set_solver.
  - exact sample_free_pages.
  - unfold page_ok. vm_compute. intuition (discriminate || reflexivity).
  - vm_compute. set_solver.
Defined.

(** [kfree] of an address that is not page-aligned, lies in the kernel image
    or beyond the physical memory panics before it has changed anything. *)
Theorem kfree_rejects (s : kst) (v : Z) (He : KERNBASE <= sym_end s) (Hu : in_u32 v)
    (Hv : ~ page_ok (sym_end s) v) : kfree v s = Panic "kfree" s.
Proof. by apply kfree_bad. Qed.

Lemma kfree_rejects_witness : kfree (pg 1 + 8) sample_pages = Panic "kfree" sample_pages.
Proof.
  apply kfree_rejects; [vm_compute; discriminate|unfold in_u32; vm_compute; intuition discriminate|].
  unfold page_ok. vm_compute. intros [? _]. discriminate.
Defined.

(** ** freerange *)
Lemma pages_from_elem p cnt q : p mod PGSIZE = 0 ->
  q ∈ pages_from p cnt <-> q mod PGSIZE = 0 /\ p <= q < p + PGSIZE * Z.of_nat cnt.
Proof.
  revert p. induction cnt as [|c IH]; intros p Hp.
  - simpl. rewrite elem_of_nil. lia.
  - cbn [pages_from]. rewrite elem_of_cons, IH.
    + unfold PGSIZE in *. pose proof (Z.div_mod p 4096 ltac:(lia)).
      pose proof (Z.div_mod q 4096 ltac:(lia)). pose proof (Z.mod_pos_bound q 4096 ltac:(lia)).
      split; [intros [-> | ?]; lia|]. intros [? ?]. destruct (decide (q = p)); [by left|right]. lia.
    + unfold PGSIZE in *. rewrite <-Zplus_mod_idemp_r. rewrite Z.mod_same by lia. by rewrite Z.add_0_r.
Qed.

(** C30: [freerange] terminates and adds to the free list exactly the whole pages
    of the range, each once. *)
Theorem freerange_exact (s : kst) (i : nat) (n : Z) (H : gset lockid) (l : list Z) (a b : Z)
    (HL : lctx (klk s) i n H) (Hk : kmem_lock ∉ H) (HF : free_pages s l)
    (Ha : sym_end s <= a) (Hab : a <= b) (Hb : b <= KERNBASE + PHYSTOP)
    (Hfresh : forall q, q ∈ l -> q + PGSIZE <= a \/ b <= q) :
  exists s' l', freerange a b s = Ret tt s' /\ free_pages s' l' /\ lctx (klk s') i n H /\
    forall q, q ∈ l' <-> q ∈ l \/ (q mod PGSIZE = 0 /\ a <= q /\ q + PGSIZE <= b).
Proof.
  pose proof (fp_end _ _ HF) as He. unfold KERNBASE, PHYSTOP in *.
  destruct (PGROUNDUP_spec a) as [Hr Hm]; [lia|unfold PGSIZE; lia|].
  set (p := PGROUNDUP a) in *. set (cnt := Z.to_nat ((b - p) / PGSIZE)).
  assert (Hcnt : p <= b -> p + PGSIZE * Z.of_nat cnt <= b < p + PGSIZE * Z.of_nat cnt + PGSIZE).
  { intros Hp. unfold cnt. rewrite Z2Nat.id by (apply Z.div_pos; unfold PGSIZE in *; lia).
    pose proof (Z.div_mod (b - p) PGSIZE ltac:(done)).
    pose proof (Z.mod_pos_bound (b - p) PGSIZE ltac:(done)). lia. }
  destruct (Z.le_gt_cases p b) as [Hp|Hp].
  - specialize (Hcnt Hp). assert (Hel := fun q => pages_from_elem p cnt q Hm).
    edestruct (wp_returns (fun _ => True) (fun _ s' => lctx (klk s') i n H /\
      free_pages s' (rev (pages_from p cnt) ++ l)) (freerange a b s)) as ([] & s' & E & L & F).
    + unfold freerange. fold p. eapply (wp_freerange_loop cnt); [exact HL|exact Hk|exact HF| |exact Hcnt| |].
      * apply Forall_forall. intros q [Hq1 Hq2]%Hel. unfold page_ok, KERNBASE, PHYSTOP, PGSIZE in *.
        pose proof (Z.div_mod q 4096 ltac:(lia)). pose proof (Z.div_mod p 4096 ltac:(lia)).
        split; [lia|]. intros Hql. specialize (Hfresh q Hql). lia.
      * unfold cnt. apply Z2Nat.inj_le; [apply Z.div_pos; unfold PGSIZE; lia|lia|].
        apply Z.div_le_upper_bound; unfold PGSIZE; lia.
      * intros s' L _ _ _ _ F. done.
    + exists s', (rev (pages_from p cnt) ++ l). split; [exact E|]. split; [exact F|]. split; [exact L|].
      intros q. rewrite elem_of_app, (list_elem_of_In (rev _)), <-in_rev, <-list_elem_of_In, Hel. unfold PGSIZE in *.
      pose proof (Z.div_mod q 4096 ltac:(lia)). pose proof (Z.div_mod p 4096 ltac:(lia)).
      clear -Hr Hm Hcnt H0 H1. assert (Hq : q mod 4096 = 0 -> (p <= q <-> a <= q)) by lia.
      assert (q mod 4096 = 0 -> (q < p + 4096 * Z.of_nat cnt <-> q + 4096 <= b)) by lia. tauto.
  - exists s, l. split; [|split; [exact HF|split; [exact HL|]]].
    + unfold freerange. fold p. destruct (Z.to_nat (2 ^ 20)); simpl;
        rewrite (proj2 (Z.leb_gt _ _)) by (unfold PGSIZE; lia); done.
    + intros q. split; [by left|]. intros [?|(Hq & ? & ?)]; [done|]. unfold PGSIZE in *.
      pose proof (Z.div_mod q 4096 ltac:(lia)). pose proof (Z.div_mod p 4096 ltac:(lia)). lia.
Qed.

Lemma freerange_exact_witness :
  exists s' l', freerange (pg 8 + 1) (pg 10 + 5) sample_pages = Ret tt s' /\ free_pages s' l' /\
    lctx (klk s') 1 0 ∅ /\
    forall q, q ∈ l' <-> q ∈ [pg 2; pg 0; pg 1] \/
      (q mod PGSIZE = 0 /\ pg 8 + 1 <= q /\ q + PGSIZE <= pg 10 + 5).
Proof.
  apply (freerange_exact sample_pages 1 0 ∅ [pg 2; pg 0; pg 1] (pg 8 + 1) (pg 10 + 5) sample_pages_lctx).
  - set_solver.
  - exact sample_free_pages.
  - vm_compute. discriminate.
  - vm_compute. discriminate.
  - vm_compute. discriminate.
  - intros q Hq. left. unfold pg, PGSIZE, KERNBASE in *. set_solver by lia.
Defined.
