(* ===== verification/VmOps.v ===== *)
(** Page tables as finite maps: what walking and mapping do to the translation a
    page directory defines (vm.c). *)
From stdpp Require Import base tactics list numbers strings gmap.
From S2P Require Import Prelude CString FsTypes State Spinlock Console Kalloc Vm.

#[local] Open Scope Z_scope.

(** ** Address arithmetic *)
Lemma PDX_eq va : in_u32 va -> PDX va = va / 2^22.
Proof.
  intros Hv. unfold PDX. change 0x3FF with (Z.ones 10). rewrite Z.land_ones, Z.shiftr_div_pow2 by lia.
  apply Z.mod_small. unfold in_u32 in Hv. split; [apply Z.div_pos; lia|apply Z.div_lt_upper_bound; lia].
Qed.
Lemma PTX_eq va : PTX va = va / 2^12 mod 2^10.
Proof.
  unfold PTX. change 0x3FF with (Z.ones 10). by rewrite Z.land_ones, Z.shiftr_div_pow2 by lia.
Qed.
Lemma PDX_range va : 0 <= PDX va < 1024.
Proof.
  unfold PDX. change 0x3FF with (Z.ones 10). rewrite Z.land_ones by lia. apply Z.mod_pos_bound. lia.
Qed.
Lemma PTX_range va : 0 <= PTX va < 1024.
Proof. rewrite PTX_eq. change 1024 with (2^10). apply Z.mod_pos_bound. lia. Qed.

(** The two indices are the page number. *)
Lemma page_number va : in_u32 va -> va / PGSIZE = 1024 * PDX va + PTX va.
Proof.
  intros Hv. rewrite (PDX_eq va Hv), PTX_eq. change PGSIZE with (2^12).
  replace (va / 2^22) with (va / 2^12 / 2^10) by (by rewrite Z.div_div by lia).
  apply (Z.div_mod (va / 2^12) (2^10)). lia.
Qed.

Lemma lor_add x f : x mod PGSIZE = 0 -> 0 <= f < PGSIZE -> Z.lor x f = x + f.
Proof.
  intros Hx Hf. rewrite <-Z.lxor_lor, Z.add_nocarry_lxor; [done|..];
    (apply Z.bits_inj'; intros i Hi; rewrite Z.land_spec, Z.bits_0;
     destruct (Z.ltb_spec i 12);
     [ apply andb_false_intro1; rewrite <-(Z.mod_pow2_bits_low x 12) by lia;
       change (2^12) with PGSIZE; rewrite Hx; apply Z.bits_0
     | apply andb_false_intro2; rewrite <-(Z.mod_small f (2^12)) by (unfold PGSIZE in Hf; lia);
       apply Z.mod_pow2_bits_high; lia ]).
Qed.

Lemma PTE_ADDR_add x f : x mod PGSIZE = 0 -> 0 <= f < PGSIZE -> PTE_ADDR (x + f) = x.
Proof.
  intros Hx Hf. unfold PTE_ADDR. change 0xFFF with (PGSIZE - 1). rewrite land_lnot_4095.
  rewrite <-Z.add_mod_idemp_l, Hx, Z.mod_small by (try done; lia). lia.
Qed.

Lemma flag_P x : flag x PTE_P = negb (x mod 2 =? 0).
Proof. unfold flag, PTE_P. change 1 with (Z.ones 1). by rewrite Z.land_ones by lia. Qed.

Lemma flag_P_add x f : x mod PGSIZE = 0 -> flag (x + f) PTE_P = negb (f mod 2 =? 0).
Proof.
  intros Hx. rewrite flag_P. unfold PGSIZE in Hx. pose proof (Z.div_mod x 4096 ltac:(lia)).
  do 2 f_equal. rewrite H, Hx. replace (4096 * (x / 4096) + 0 + f) with (f + (2048 * (x / 4096)) * 2) by lia.
  apply Z.mod_add. lia.
Qed.

Lemma lor_P_odd f : 0 <= f -> Z.lor f PTE_P mod 2 = 1.
Proof.
  intros Hf. rewrite <-Z.bit0_mod. unfold PTE_P. rewrite Z.lor_spec, orb_true_r. done.
Qed.

Lemma lor_P_range f : 0 <= f < PGSIZE -> 0 <= Z.lor f PTE_P < PGSIZE.
Proof.
  intros Hf. assert (H : 0 <= Z.lor f PTE_P) by (apply Z.lor_nonneg; unfold PTE_P; lia).
  split; [done|]. change PGSIZE with (2^12) in *. destruct (Z.eq_dec (Z.lor f PTE_P) 0) as [->|]; [lia|].
  apply Z.log2_lt_pow2; [lia|]. rewrite Z.log2_lor by (unfold PTE_P; lia).
  destruct (Z.eq_dec f 0) as [->|]; [simpl; lia|].
  apply Z.max_lub_lt; [apply Z.log2_lt_pow2; lia|simpl; lia].
Qed.

(** ** The translation a page directory defines *)

(** The table of a slot of the directory, and the entry for a virtual address
    (0 where there is no table). *)
Definition tab (m : memory) (d x : Z) : option Z :=
  if flag (ld32 m (d + 4 * x)) PTE_P then Some (P2V (PTE_ADDR (ld32 m (d + 4 * x)))) else None.
Definition ent (m : memory) (d va : Z) : Z :=
  match tab m d (PDX va) with
  | Some t => ld32 m (t + 4 * PTX va)
  | None => 0
  end.

Definition in_page (p b : Z) : Prop := p <= b < p + PGSIZE.

(** The directory and its tables are distinct pages, none of them free. *)
Record pt_ok (m : memory) (e : Z) (l : list Z) (d : Z) : Prop := {
  pt_dir : page_ok e d;
  pt_dir_used : d ∉ l;
  pt_tab : forall x t, 0 <= x < 1024 -> tab m d x = Some t -> page_ok e t /\ (t ∉ l) /\ t <> d;
  pt_inj : forall x y t, 0 <= x < 1024 -> 0 <= y < 1024 ->
    tab m d x = Some t -> tab m d y = Some t -> x = y
}.

(** The pages a page table occupies. *)
Definition of_table (m : memory) (d p : Z) : Prop :=
  p = d \/ exists x, 0 <= x < 1024 /\ tab m d x = Some p.

Lemma pages_apart e p q b : page_ok e p -> page_ok e q -> p <> q -> in_page p b -> ~ in_page q b.
Proof.
  intros [Hp _] [Hq _] Hne. unfold in_page.
  destruct (pages_disjoint p q Hp Hq Hne); lia.
Qed.

(** Memory that agrees on the pages of the table defines the same table. *)
Lemma tab_frame m m' d : (forall b, in_page d b -> ld8 m' b = ld8 m b) ->
  forall x, 0 <= x < 1024 -> tab m' d x = tab m d x.
Proof.
  intros Hm x Hx. unfold tab.
  rewrite (ld32_ext m' m); [done|]. intros b Hb. apply Hm. unfold in_page, PGSIZE. lia.
Qed.

Lemma ent_frame m m' d va : (forall p b, of_table m d p -> in_page p b -> ld8 m' b = ld8 m b) ->
  ent m' d va = ent m d va.
Proof.
  intros Hm. unfold ent. pose proof (PDX_range va) as Hx. pose proof (PTX_range va).
  rewrite (tab_frame m m' d) by (try done; intros b; apply Hm; by left).
  destruct (tab m d (PDX va)) as [t|] eqn:E; [|done]. apply ld32_ext. intros b Hb.
  apply (Hm t); [right; by exists (PDX va)|]. unfold in_page, PGSIZE. lia.
Qed.

Lemma pt_ok_frame m m' e l l' d : pt_ok m e l d -> (forall p, p ∈ l' -> p ∈ l) ->
  (forall b, in_page d b -> ld8 m' b = ld8 m b) -> pt_ok m' e l' d.
Proof.
  intros [Hd Hn Ht Hi] Hl Hm. pose proof (tab_frame m m' d Hm) as Hf.
  split; [done|intros ?%Hl; by apply Hn|..].
  - intros x t Hx. rewrite Hf by done. intros E. destruct (Ht x t Hx E) as (?&?&?).
    split; [done|]. split; [intros ?%Hl; done|done].
  - intros x y t Hx Hy. rewrite !Hf by done. by apply Hi.
Qed.

(** Storing a word in one slot of the directory. *)
Lemma tab_store m d x v : 0 <= x < 1024 -> in_u32 v -> forall y, 0 <= y < 1024 ->
  tab (st32 m (d + 4 * x) v) d y =
    if decide (x = y) then if flag v PTE_P then Some (P2V (PTE_ADDR v)) else None else tab m d y.
Proof.
  intros Hx Hv y Hy. unfold tab. case_decide as E.
  - subst y. rewrite ld32_st32_eq. fold (u32 v). by rewrite u32_small.
  - rewrite ld32_st32_ne by lia. done.
Qed.

(** ** What an operation on page tables may change *)

(** Only memory and the free list: *)
Definition vm_only (s s' : kst) : Prop :=
  exists lk m f, s' = s <| klk := lk |> <| mem := m |> <| freelist := f |> /\ lk_static lk = lk_static (klk s).

Lemma vm_only_refl s : vm_only s s.
Proof. exists (klk s), (mem s), (freelist s). by destruct s. Qed.
Lemma vm_only_trans s1 s2 s3 : vm_only s1 s2 -> vm_only s2 s3 -> vm_only s1 s3.
Proof. intros (lk & m & f & -> & E) (lk' & m' & f' & -> & E'). exists lk', m', f'. split; [done|]. by rewrite E'. Qed.
Lemma vm_only_end s s' : vm_only s s' -> sym_end s' = sym_end s.
Proof. by intros (lk & m & f & -> & _). Qed.

(** The page table of [d] grew by pages taken from the free list [l]: *)
Record grown (d : Z) (s : kst) (l : list Z) (s' : kst) (l' : list Z) : Prop := {
  gr_only : vm_only s s';
  gr_free : free_pages s' l';
  gr_taken : exists u, l = u ++ l';
  gr_pt : pt_ok (mem s') (sym_end s') l' d;
  gr_frame : forall b, (forall p, (p ∈ l /\ p ∉ l') \/ of_table (mem s) d p -> ~ in_page p b) ->
    ld8 (mem s') b = ld8 (mem s) b;
  gr_pages : forall p, of_table (mem s') d p -> of_table (mem s) d p \/ (p ∈ l /\ p ∉ l');
  gr_used : forall p, of_table (mem s) d p \/ (p ∈ l /\ p ∉ l') -> of_table (mem s') d p
}.

Lemma taken_fresh {A} (u l : list A) p : NoDup (u ++ l) -> p ∈ u -> p ∉ l.
Proof. intros (_ & H & _)%NoDup_app. auto. Qed.

Lemma grown_refl d s l : free_pages s l -> pt_ok (mem s) (sym_end s) l d -> grown d s l s l.
Proof.
  intros HF HP. split; [apply vm_only_refl|done|by exists []|done|done|..]; intros p Hp; [by left|]. by destruct Hp as [|[]].
Qed.

Lemma grown_trans d s1 l1 s2 l2 s3 l3 :
  grown d s1 l1 s2 l2 -> grown d s2 l2 s3 l3 -> grown d s1 l1 s3 l3.
Proof.
  intros [O1 F1 (u1 & ->) P1 M1 T1 U1] [O2 F2 (u2 & ->) P2 M2 T2 U2].
  assert (Hm : forall p, (p ∈ u2 ++ l3 /\ p ∉ l3) \/ of_table (mem s2) d p ->
    (p ∈ u1 ++ u2 ++ l3 /\ p ∉ l3) \/ of_table (mem s1) d p).
  { intros p [[Hp Hn]|Hp]; [left; set_solver|]. destruct (T1 p Hp) as [?|[? ?]]; [by right|left; set_solver]. }
  split; [by eapply vm_only_trans|done|exists (u1 ++ u2); by rewrite app_assoc|done|..].
  - intros b Hb. rewrite M2, M1; [done|..].
    + intros p [[Hp Hn]|Hp]; apply Hb; [left; set_solver|by right].
    + intros p Hp. by apply Hb, Hm.
  - intros p Hp. destruct (T2 p Hp) as [H|[H ?]].
    + apply T1 in H as [?|[? ?]]; [by left|right; set_solver].
    + right. set_solver.
  - intros p Hp. apply U2. destruct Hp as [Hp|[Hp Hn]]; [left; apply U1; by left|].
    destruct (decide (p ∈ u2 ++ l3)); [by right|]. left. apply U1. by right.
Qed.

(** ** walkpgdir *)
Section walk.
Context (d va : Z).
Let x := PDX va.

Lemma pde_value p e : page_ok e p ->
  let v := Z.lor (Z.lor (Z.lor (V2P p) PTE_P) PTE_W) PTE_U in
  in_u32 v /\ flag v PTE_P = true /\ P2V (PTE_ADDR v) = p.
Proof.
  intros Hp v. destruct (page_ok_V2P _ _ Hp) as [EV HV]. destruct Hp as (Hm & _ & Hr).
  assert (Hm' : V2P p mod PGSIZE = 0).
  { rewrite EV. unfold KERNBASE, PGSIZE in *. rewrite Zminus_mod, Hm. done. }
  assert (Ev : v = V2P p + 7).
  { unfold v. rewrite <-!Z.lor_assoc. change (Z.lor PTE_P (Z.lor PTE_W PTE_U)) with 7.
    apply lor_add; [done|unfold PGSIZE; lia]. }
  rewrite Ev. split; [unfold in_u32, PHYSTOP in *; lia|]. split; [by rewrite flag_P_add|].
  rewrite PTE_ADDR_add by (try done; unfold PGSIZE; lia). rewrite EV. unfold P2V.
  rewrite u32_small; [lia|]. unfold in_u32, KERNBASE, PHYSTOP in *. lia.
Qed.

(** The memory after a new table has been hung into slot [x] of [d]. *)
Definition new_table (m : memory) (p : Z) : memory :=
  st32 (memset m p 0 PGSIZE) (d + 4 * x) (Z.lor (Z.lor (Z.lor (V2P p) PTE_P) PTE_W) PTE_U).

Section new_table.
Context (m : memory) (e p : Z) (l : list Z).
Hypothesis HP : pt_ok m e (p :: l) d.
Hypothesis Hp : page_ok e p.
Hypothesis HN : NoDup (p :: l).
Hypothesis Hx : tab m d x = None.

Lemma new_table_apart : p <> d.
Proof. intros ->. destruct HP. set_solver. Qed.

Lemma new_table_ld8 b : ~ in_page p b -> ~ in_page d b -> ld8 (new_table m p) b = ld8 m b.
Proof.
  pose proof (PDX_range va : 0 <= x < 1024). unfold in_page, PGSIZE. intros Hb Hd. unfold new_table, PGSIZE.
  rewrite ld8_st32_ne by lia. rewrite ld8_memset by lia. by rewrite decide_False by lia.
Qed.

Lemma new_table_tab y : 0 <= y < 1024 ->
  tab (new_table m p) d y = if decide (x = y) then Some p else tab m d y.
Proof.
  intros Hy. destruct (pde_value p e Hp) as (Hv & HF & HA). unfold new_table.
  rewrite tab_store by (try done; apply PDX_range). rewrite HF, HA. case_decide; [done|].
  apply tab_frame; [|done]. intros b Hb. rewrite ld8_memset by done. rewrite decide_False; [done|].
  intros Hb'. eapply (pages_apart e d p b); [apply HP|done|by apply not_eq_sym, new_table_apart|done|done].
Qed.

Lemma new_table_pt_ok : pt_ok (new_table m p) e l d.
Proof.
  pose proof new_table_apart as Hne. pose proof HP as [Hd Hn Ht Hi].
  apply not_elem_of_cons in Hn as [_ Hn]. pose proof HN as [Hpl _]%NoDup_cons. split; [done|done|..].
  - intros y t Hy. rewrite new_table_tab by done. case_decide; intros E; simplify_eq; [done|].
    destruct (Ht y t Hy E) as (? & [_ ?]%not_elem_of_cons & ?). done.
  - intros y z t Hy Hz. rewrite !new_table_tab by done.
    destruct (decide (x = y)), (decide (x = z)); intros E1 E2; [congruence|..].
    + injection E1 as <-. destruct (Ht z p Hz E2) as (_ & ? & _). set_solver.
    + injection E2 as <-. destruct (Ht y p Hy E1) as (_ & ? & _). set_solver.
    + by eapply Hi.
Qed.

(** The new table is empty, so no address changes its translation. *)
Lemma new_table_ent va' : ent (new_table m p) d va' = ent m d va'.
Proof.
  pose proof (PDX_range va') as Hy. pose proof (PTX_range va') as Hz.
  pose proof new_table_apart as Hne. unfold ent. rewrite new_table_tab by done. case_decide as E.
  - rewrite <-E, Hx. assert (H0 : forall b, in_page p b -> ld8 (new_table m p) b = 0).
    { intros b Hb. pose proof (pages_apart e p d b Hp (pt_dir _ _ _ _ HP) Hne Hb) as Hd.
      pose proof (PDX_range va : 0 <= x < 1024). unfold in_page, PGSIZE in *. unfold new_table, PGSIZE.
      rewrite ld8_st32_ne by lia. rewrite ld8_memset by lia. by rewrite decide_True by lia. }
    unfold ld32. rewrite !H0 by (unfold in_page, PGSIZE; lia). done.
  - destruct (tab m d (PDX va')) as [t|] eqn:Et; [|done].
    destruct (pt_tab _ _ _ _ HP _ _ Hy Et) as (Htp & Htl & Htd). apply ld32_ext. intros b Hb.
    assert (Hbt : in_page t b) by (unfold in_page, PGSIZE; lia).
    apply new_table_ld8; eapply pages_apart; try exact Hbt; try done; [set_solver|apply HP].
Qed.
End new_table.
End walk.

Section walk_spec.
Context (Out In : kst -> Prop) (d : Z) (s : kst) (i : nat) (n : Z) (H : gset lockid) (l : list Z).
Hypothesis HL : lctx (klk s) i n H.
Hypothesis Hk : kmem_lock ∉ H.
Hypothesis HF : free_pages s l.
Hypothesis HP : pt_ok (mem s) (sym_end s) l d.

(** Without [alloc], the address of the entry if there is a table. *)
Lemma wp_walk_find va (Q : Z -> kst -> Prop) :
  Q (match tab (mem s) d (PDX va) with Some t => t + 4 * PTX va | None => 0 end) s ->
  wp Out In Q (walkpgdir d va false s).
Proof.
  intros HQ. unfold walkpgdir. apply exec_bind. cbn [load32 gets exec]. unfold tab in HQ.
  by destruct (flag _ _).
Qed.

Lemma grown_new_table va p l' lk :
  l = p :: l' -> tab (mem s) d (PDX va) = None -> lctx lk i n H -> lk_static lk = lk_static (klk s) ->
  grown d s l (s <| klk := lk |> <| freelist := ld32 (mem s) (freelist s) |>
    <| mem := new_table d va (mem s) p |>) l'.
Proof.
  intros -> Hx L S1. pose proof HF as [Hfl Hnd Hpg Hm He]. destruct Hfl as [Hh Hfl].
  inversion Hpg as [|?? Hpp Hpl]; subst. set (p := freelist s) in *.
  assert (Hld : forall b, ~ in_page p b -> ~ in_page d b ->
    ld8 (new_table d va (mem s) p) b = ld8 (mem s) b) by (intros; by apply new_table_ld8).
  split.
  - by exists lk, (new_table d va (mem s) p), (ld32 (mem s) p).
  - split; simpl; try done; [|by inversion Hnd|by apply mem_ok_st32, mem_ok_memset].
    eapply flist_frame; [|exact Hfl]. intros q b Hq Hb.
    assert (Hqp : page_ok (sym_end s) q) by (by eapply (proj1 (Forall_forall _ _))).
    assert (Hqb : in_page q b) by (unfold in_page, PGSIZE; lia).
    apply Hld; eapply pages_apart; try exact Hqb; try done; try apply HP.
    + intros ->. inversion Hnd; set_solver.
    + intros ->. destruct HP. set_solver.
  - by exists [p].
  - by apply new_table_pt_ok.
  - intros b Hb. apply Hld.
    + apply Hb. left. split; [set_solver|]. by inversion Hnd.
    + apply Hb. right. by left.
  - intros q [->|(y & Hy & Hq)]; [left; by left|]. simpl in Hq.
    rewrite (new_table_tab d va _ (sym_end s) _ l') in Hq by done. case_decide; simplify_eq.
    + right. split; [set_solver|by inversion Hnd].
    + left. right. by exists y.
  - intros q [[->|(y & Hy & Hq)]|[Hq Hn]]; [by left|..]; right; simpl.
    + exists y. split; [done|]. rewrite (new_table_tab d va _ (sym_end s) _ l') by done.
      rewrite decide_False; [done|]. intros <-. congruence.
    + exists (PDX va). split; [apply PDX_range|]. rewrite (new_table_tab d va _ (sym_end s) _ l') by (try done; apply PDX_range).
      rewrite decide_True by done. f_equal. set_solver.
Qed.

(** With [alloc], the address of the entry, in a table that may be new; 0 when
    there is no page for it. *)
Lemma wp_walk_alloc va (Q : Z -> kst -> Prop) :
  (forall s' l' t, grown d s l s' l' -> lctx (klk s') i n H ->
    (forall va', ent (mem s') d va' = ent (mem s) d va') ->
    tab (mem s') d (PDX va) = Some t -> Q (t + 4 * PTX va) s') ->
  (forall s', grown d s l s' [] -> lctx (klk s') i n H ->
    (forall va', ent (mem s') d va' = ent (mem s) d va') -> Q 0 s') ->
  wp Out In Q (walkpgdir d va true s).
Proof.
  intros Hsome Hnone. unfold walkpgdir. apply exec_bind. cbn [load32 gets exec].
  destruct (flag _ PTE_P) eqn:E.
  - cbn [mret M_ret exec]. eapply (Hsome s l); [by apply grown_refl|done|done|]. unfold tab. by rewrite E.
  - assert (Hx : tab (mem s) d (PDX va) = None) by (unfold tab; by rewrite E).
    cbn [negb]. apply exec_bind. eapply wp_kalloc; [exact HL|exact Hk|exact HF|..].
    + intros lk L S1 _ Hl. assert (El : exists l', l = freelist s :: l').
      { pose proof (fp_list _ _ HF) as Hh. clear -Hl Hh. destruct l as [|p l']; [done|].
        destruct Hh as [-> _]. by eexists. }
      destruct El as [l' El].
      assert (Hpp : page_ok (sym_end s) (freelist s)).
      { pose proof (fp_pages _ _ HF) as Hpg. rewrite El in Hpg. by inversion Hpg. }
      pose proof (fp_nodup _ _ HF) as Hnd. rewrite El in Hnd.
      pose proof HP as HP'. rewrite El in HP'.
      rewrite (proj2 (Z.eqb_neq _ _)) by (destruct (page_ok_range _ _ Hpp); lia).
      apply exec_bind. cbn [set_mem modify exec]. apply exec_bind. cbn [store32 set_mem modify exec mret M_ret].
      pose proof (grown_new_table va (freelist s) l' lk El Hx L S1) as G.
      set (s' := s <| klk := lk |> <| freelist := ld32 (mem s) (freelist s) |>
        <| mem := new_table d va (mem s) (freelist s) |>) in G.
      enough (Q (freelist s + 4 * PTX va) s') as HQ by exact HQ.
      apply (Hsome s' l' (freelist s)); [exact G|exact L|..].
      * intros va'. by eapply new_table_ent.
      * simpl. rewrite (new_table_tab d va _ (sym_end s) _ l') by (try done; apply PDX_range).
        by rewrite decide_True.
    + intros lk L S1 El. cbn [Z.eqb]. cbn [mret M_ret exec].
      apply (Hnone (s <| klk := lk |>)); [|done|done].
      pose proof HP as HP'. pose proof HF as HF'. rewrite El in HP', HF'. rewrite El.
      split; [exists lk, (mem s), (freelist s); split; [by destruct s|done]| |by exists []|done|done|..].
      * by destruct HF'.
      * intros p Hp. by left.
      * intros p [?|[? _]]; [done|set_solver].
Qed.
End walk_spec.

(** ** Writing an entry *)
Section set_ent.
Context (d va t v : Z) (s : kst) (l : list Z).
Hypothesis HF : free_pages s l.
Hypothesis HP : pt_ok (mem s) (sym_end s) l d.
Hypothesis Hva : in_u32 va.
Hypothesis Hv : in_u32 v.
Hypothesis Ht : tab (mem s) d (PDX va) = Some t.
Let m' := st32 (mem s) (t + 4 * PTX va) v.

Lemma set_ent_table : page_ok (sym_end s) t /\ (t ∉ l) /\ t <> d.
Proof. exact (pt_tab _ _ _ _ HP _ _ (PDX_range va) Ht). Qed.

Lemma set_ent_ld8 b : ~ in_page t b -> ld8 m' b = ld8 (mem s) b.
Proof.
  intros Hb. pose proof (PTX_range va). unfold in_page, PGSIZE in Hb. unfold m'.
  rewrite ld8_st32_ne by lia. done.
Qed.

Lemma set_ent_tab x : 0 <= x < 1024 -> tab m' d x = tab (mem s) d x.
Proof.
  destruct set_ent_table as (Hp & _ & Hne). apply tab_frame. intros b Hb. apply set_ent_ld8.
  eapply (pages_apart _ d t b); [apply HP|done|by apply not_eq_sym|done].
Qed.

Lemma set_ent_ent va' : in_u32 va' ->
  ent m' d va' = if decide (va' / PGSIZE = va / PGSIZE) then v else ent (mem s) d va'.
Proof.
  intros Hva'. rewrite !page_number by done. pose proof (PDX_range va'). pose proof (PTX_range va').
  pose proof (PDX_range va). pose proof (PTX_range va). destruct set_ent_table as (Hp & _ & Hne).
  unfold ent. rewrite set_ent_tab by done. case_decide as E.
  - assert (PDX va' = PDX va) as -> by lia. assert (PTX va' = PTX va) as -> by lia.
    rewrite Ht. unfold m'. rewrite ld32_st32_eq. fold (u32 v). by rewrite u32_small.
  - destruct (tab (mem s) d (PDX va')) as [t'|] eqn:Et; [|done].
    destruct (decide (PDX va' = PDX va)) as [Ex|Ex].
    + rewrite Ex, Ht in Et. injection Et as <-. unfold m'. rewrite ld32_st32_ne by lia. done.
    + assert (t' <> t). { intros ->. apply Ex. eapply (pt_inj _ _ _ _ HP); done. }
      destruct (pt_tab _ _ _ _ HP _ _ (PDX_range va') Et) as (Hp' & _ & _).
      apply ld32_ext. intros b Hb. apply set_ent_ld8. eapply (pages_apart _ t' t); [done..|].
      unfold in_page, PGSIZE. lia.
Qed.

Lemma grown_set_ent : grown d s l (s <| mem := m' |>) l.
Proof.
  destruct set_ent_table as (Hp & Hn & Hne). pose proof HF as [Hfl Hnd Hpg Hm He]. split.
  - exists (klk s), m', (freelist s). by destruct s.
  - split; simpl; try done; [|by apply mem_ok_st32]. eapply flist_frame; [|exact Hfl].
    intros q b Hq Hb. apply set_ent_ld8.
    assert (Hqp : page_ok (sym_end s) q) by (by eapply (proj1 (Forall_forall _ _))).
    eapply (pages_apart _ q t); [done|done|intros ->; done|unfold in_page, PGSIZE; lia].
  - by exists [].
  - eapply pt_ok_frame; [exact HP|done|]. intros b Hb. apply set_ent_ld8.
    eapply (pages_apart _ d t); [apply HP|done|by apply not_eq_sym|done].
  - intros b Hb. apply set_ent_ld8, Hb. right. right. exists (PDX va). split; [apply PDX_range|done].
  - intros p [->|(x & Hx & E)]; left; [by left|]. simpl in E. rewrite set_ent_tab in E by done.
    right. by exists x.
  - intros p [[->|(x & Hx & E)]|[? ?]]; [by left|right|done]. exists x. split; [done|]. simpl. by rewrite set_ent_tab.
Qed.
End set_ent.

(** ** mappages *)
Definition pte_of (pa perm : Z) : Z := Z.lor (Z.lor pa perm) PTE_P.

Lemma pte_of_eq pa perm : pa mod PGSIZE = 0 -> 0 <= perm < PGSIZE -> pte_of pa perm = pa + Z.lor perm PTE_P.
Proof.
  intros. unfold pte_of. rewrite <-Z.lor_assoc. apply lor_add; [done|by apply lor_P_range].
Qed.

Lemma pte_of_range pa perm : pa mod PGSIZE = 0 -> 0 <= perm < PGSIZE -> 0 <= pa -> pa + PGSIZE <= 2^32 ->
  in_u32 (pte_of pa perm).
Proof.
  intros Hm Hp H0 H1. rewrite pte_of_eq by done. pose proof (lor_P_range perm Hp).
  unfold in_u32, PGSIZE in *. lia.
Qed.

Lemma aligned_add a k : a mod PGSIZE = 0 -> (a + PGSIZE * k) mod PGSIZE = 0.
Proof. intros. rewrite Z.mul_comm, Z.mod_add by done. done. Qed.

Lemma same_page_aligned a va : a mod PGSIZE = 0 -> va / PGSIZE = a / PGSIZE <-> a <= va < a + PGSIZE.
Proof.
  unfold PGSIZE. intros Ha. pose proof (Z.div_mod a 4096 ltac:(lia)).
  pose proof (Z.div_mod va 4096 ltac:(lia)). pose proof (Z.mod_pos_bound va 4096 ltac:(lia)). lia.
Qed.

Lemma PGROUNDDOWN_in a va : a mod PGSIZE = 0 -> a <= va < a + PGSIZE -> PGROUNDDOWN va = a.
Proof.
  intros Ha Hva. pose proof (PGROUNDDOWN_mod va) as Hm. pose proof (PGROUNDDOWN_bounds va).
  unfold PGSIZE in *. pose proof (Z.div_mod a 4096 ltac:(lia)).
  pose proof (Z.div_mod (PGROUNDDOWN va) 4096 ltac:(lia)). lia.
Qed.

(** One page: the body of the loop, before its test. *)
Lemma wp_map_page Out In d s i n H l a v (f : K Z) (Q : Z -> kst -> Prop) :
  lctx (klk s) i n H -> kmem_lock ∉ H -> free_pages s l -> pt_ok (mem s) (sym_end s) l d ->
  in_u32 a -> in_u32 v -> flag (ent (mem s) d a) PTE_P = false ->
  (forall s' l', grown d s l s' l' -> lctx (klk s') i n H ->
    (forall va, in_u32 va -> ent (mem s') d va =
      if decide (va / PGSIZE = a / PGSIZE) then v else ent (mem s) d va) -> wp Out In Q (f s')) ->
  (forall s', grown d s l s' [] -> lctx (klk s') i n H ->
    (forall va, ent (mem s') d va = ent (mem s) d va) -> Q (-1) s') ->
  wp Out In Q ((pte ← walkpgdir d a true;
    if pte =? 0 then mret (-1)
    else
      e ← load32 pte;
      if flag e PTE_P then panic "remap" else store32 pte v;; f) s).
Proof.
  intros HL Hk HF HP Ha Hv Hun HQ HN. apply exec_bind.
  eapply wp_walk_alloc; [exact HL|exact Hk|exact HF|exact HP|..].
  - intros s1 l1 t G1 L1 E1 Ht.
    destruct (pt_tab _ _ _ _ (gr_pt _ _ _ _ _ G1) _ _ (PDX_range a) Ht) as (Hp & _).
    pose proof (PTX_range a). destruct (page_ok_range _ _ Hp).
    rewrite (proj2 (Z.eqb_neq _ _)) by lia. apply exec_bind. cbn [load32 gets exec].
    assert (He : ld32 (mem s1) (t + 4 * PTX a) = ent (mem s1) d a) by (unfold ent; by rewrite Ht).
    rewrite He, E1, Hun. apply exec_bind. cbn [store32 set_mem modify exec].
    pose proof (grown_set_ent d a t v s1 l1 (gr_free _ _ _ _ _ G1) (gr_pt _ _ _ _ _ G1) Ht) as G2.
    eapply HQ; [eapply grown_trans; [exact G1|exact G2]|exact L1|].
    intros va Hva. simpl. rewrite <-E1.
    exact (set_ent_ent d a t v s1 l1 (gr_pt _ _ _ _ _ G1) Ha Hv Ht va Hva).
  - intros s1 G1 L1 E1. cbn [Z.eqb]. by apply HN.
Qed.

Lemma wp_mappages_loop k fuel Out In d s i n H l a pa perm (Q : Z -> kst -> Prop) :
  lctx (klk s) i n H -> kmem_lock ∉ H -> free_pages s l -> pt_ok (mem s) (sym_end s) l d ->
  0 <= a -> a mod PGSIZE = 0 -> a + PGSIZE * Z.of_nat (S k) <= 2^32 ->
  0 <= pa -> pa mod PGSIZE = 0 -> pa + PGSIZE * Z.of_nat (S k) <= 2^32 -> 0 <= perm < PGSIZE ->
  (k < fuel)%nat ->
  (forall va, a <= va < a + PGSIZE * Z.of_nat (S k) -> flag (ent (mem s) d va) PTE_P = false) ->
  (forall s' l', grown d s l s' l' -> lctx (klk s') i n H ->
    (forall va, in_u32 va -> ent (mem s') d va =
      if decide (a <= va < a + PGSIZE * Z.of_nat (S k)) then pte_of (pa + (PGROUNDDOWN va - a)) perm
      else ent (mem s) d va) -> Q 0 s') ->
  (forall s', grown d s l s' [] -> lctx (klk s') i n H ->
    (forall va, in_u32 va -> ~ (a <= va < a + PGSIZE * Z.of_nat (S k)) -> ent (mem s') d va = ent (mem s) d va) ->
    Q (-1) s') ->
  wp Out In Q (mappages_loop fuel d a (a + PGSIZE * Z.of_nat k) pa perm s).
Proof.
  revert fuel s l a pa. induction k as [|k IH];
    intros fuel s l a pa HL Hk HF HP Ha0 Ha Ha1 Hp0 Hpm Hp1 Hperm Hfuel Hun HQ HN;
    (destruct fuel as [|fuel]; [lia|]); cbn [mappages_loop];
    (eapply wp_map_page; [exact HL|exact Hk|exact HF|exact HP|unfold in_u32, PGSIZE in *; lia
      |apply pte_of_range; unfold PGSIZE in *; try done; lia|apply Hun; unfold PGSIZE; lia| |]).
  - intros s1 l1 G1 L1 E1. rewrite Z.mul_0_r, Z.add_0_r, Z.eqb_refl. apply (HQ s1 l1); [done|done|].
    intros va Hva. rewrite E1 by done. pose proof (same_page_aligned a va Ha) as Hs.
    change (PGSIZE * Z.of_nat 1) with PGSIZE. repeat case_decide; try tauto.
    rewrite (PGROUNDDOWN_in a va) by done. by rewrite Z.sub_diag, Z.add_0_r.
  - intros s1 G1 L1 E1. apply HN; [done|done|]. intros. apply E1.
  - intros s1 l1 G1 L1 E1. rewrite (proj2 (Z.eqb_neq _ _)) by (unfold PGSIZE; lia).
    assert (Hs : forall va, va / PGSIZE = a / PGSIZE <-> a <= va < a + PGSIZE)
      by (intros; by apply same_page_aligned).
    rewrite !u32_small by (unfold in_u32, PGSIZE in *; lia).
    replace (a + PGSIZE * Z.of_nat (S k)) with (a + PGSIZE + PGSIZE * Z.of_nat k) in * by lia.
    assert (Em : forall x, x mod PGSIZE = 0 -> (x + PGSIZE) mod PGSIZE = 0).
    { intros x Hx. pose proof (aligned_add x 1 Hx) as E. by rewrite Z.mul_1_r in E. }
    eapply (IH fuel s1 l1); [exact L1|exact Hk|apply G1|apply G1|unfold PGSIZE; lia|by apply Em|lia
      |unfold PGSIZE; lia|by apply Em|lia|done|lia|..].
    + intros va Hva. rewrite E1 by (unfold in_u32, PGSIZE in *; lia).
      rewrite decide_False by (rewrite Hs; lia). apply Hun. unfold PGSIZE in *. lia.
    + intros s2 l2 G2 L2 E2. apply (HQ s2 l2); [by eapply grown_trans|done|].
      intros va Hva. rewrite E2, E1 by done. pose proof (Hs va) as Hsv.
      destruct (decide (a <= va < a + PGSIZE)).
      * rewrite decide_False, decide_True, decide_True by (rewrite ?Hsv; unfold PGSIZE in *; lia).
        rewrite (PGROUNDDOWN_in a va) by done. by rewrite Z.sub_diag, Z.add_0_r.
      * destruct (decide (a + PGSIZE <= va < a + PGSIZE + PGSIZE * Z.of_nat (S k))).
        -- rewrite decide_True by (unfold PGSIZE in *; lia). f_equal. lia.
        -- rewrite !decide_False by (rewrite ?Hsv; unfold PGSIZE in *; lia). done.
    + intros s2 G2 L2 E2. apply HN; [by eapply grown_trans|done|]. intros va Hva Hn.
      rewrite E2, E1 by (try done; unfold PGSIZE in *; lia).
      rewrite decide_False by (rewrite Hs; unfold PGSIZE in *; lia). done.
  - intros s1 G1 L1 E1. apply HN; [done|done|]. intros. apply E1.
Qed.

(** Any range of bytes: the pages that hold one of them. *)
Lemma page_span va size : 0 <= va -> 0 < size -> va + size <= 2^32 ->
  exists k, PGROUNDDOWN (u32 (va + size - 1)) = PGROUNDDOWN va + PGSIZE * Z.of_nat k /\
    PGROUNDDOWN va + PGSIZE * Z.of_nat k <= va + size - 1 < PGROUNDDOWN va + PGSIZE * Z.of_nat (S k) /\
    PGROUNDDOWN va + PGSIZE * Z.of_nat (S k) <= 2^32 /\ 0 <= PGROUNDDOWN va /\ (k < page_fuel)%nat.
Proof.
  intros H0 H1 H2. rewrite u32_small by (unfold in_u32; lia).
  pose proof (PGROUNDDOWN_mod va) as Ma. pose proof (PGROUNDDOWN_mod (va + size - 1)) as Mb.
  pose proof (PGROUNDDOWN_bounds va). pose proof (PGROUNDDOWN_bounds (va + size - 1)).
  set (a := PGROUNDDOWN va) in *. set (b := PGROUNDDOWN (va + size - 1)) in *.
  unfold PGSIZE in *. pose proof (Z.div_mod a 4096 ltac:(lia)). pose proof (Z.div_mod b 4096 ltac:(lia)).
  assert (0 <= a). { pose proof (Z.div_pos va 4096). unfold a. rewrite PGROUNDDOWN_eq.
    pose proof (Z.mod_le va 4096 ltac:(lia) ltac:(lia)). unfold PGSIZE. lia. }
  exists (Z.to_nat (b / 4096 - a / 4096)). assert (a / 4096 <= b / 4096) by lia.
  rewrite !Nat2Z.inj_succ, Z2Nat.id by lia. split; [lia|]. split; [lia|]. split; [lia|]. split; [lia|].
  unfold page_fuel. apply Z2Nat.inj_lt; lia.
Qed.

Section mappages_spec.
Context (Out In : kst -> Prop) (d : Z) (s : kst) (i : nat) (n : Z) (H : gset lockid) (l : list Z).
Context (va size pa perm : Z).
Hypothesis HL : lctx (klk s) i n H.
Hypothesis Hk : kmem_lock ∉ H.
Hypothesis HF : free_pages s l.
Hypothesis HP : pt_ok (mem s) (sym_end s) l d.
Hypothesis Hva : 0 <= va.
Hypothesis Hsize : 0 < size.
Hypothesis Hend : va + size <= 2^32.
Hypothesis Hpa : 0 <= pa.
Hypothesis Hpm : pa mod PGSIZE = 0.
Hypothesis Hpend : pa + (PGROUNDDOWN (va + size - 1) - PGROUNDDOWN va) + PGSIZE <= 2^32.
Hypothesis Hperm : 0 <= perm < PGSIZE.

(** The addresses on the pages of the range. *)
Definition on_pages (a : Z) : Prop := PGROUNDDOWN va <= a < PGROUNDDOWN (va + size - 1) + PGSIZE.
#[local] Instance on_pages_dec a : Decision (on_pages a).
Proof. unfold on_pages. apply _. Defined.

Hypothesis Hun : forall a, on_pages a -> flag (ent (mem s) d a) PTE_P = false.

Lemma wp_mappages (Q : Z -> kst -> Prop) :
  (forall s' l', grown d s l s' l' -> lctx (klk s') i n H ->
    (forall a, in_u32 a -> ent (mem s') d a =
      if decide (on_pages a) then pte_of (pa + (PGROUNDDOWN a - PGROUNDDOWN va)) perm
      else ent (mem s) d a) -> Q 0 s') ->
  (forall s', grown d s l s' [] -> lctx (klk s') i n H ->
    (forall a, in_u32 a -> ~ on_pages a -> ent (mem s') d a = ent (mem s) d a) -> Q (-1) s') ->
  wp Out In Q (mappages d va size pa perm s).
Proof.
  intros HQ HN. destruct (page_span va size Hva Hsize Hend) as (k & E & Hk1 & Hk2 & Hk3 & Hk4).
  unfold mappages. rewrite E. assert (E' := E). rewrite u32_small in E' by (unfold in_u32; lia).
  assert (Ho : forall a, on_pages a <-> PGROUNDDOWN va <= a < PGROUNDDOWN va + PGSIZE * Z.of_nat (S k)).
  { intros a. unfold on_pages. rewrite E'. unfold PGSIZE. lia. }
  apply (wp_mappages_loop k) with (i := i) (n := n) (H := H) (l := l); try done.
  - apply PGROUNDDOWN_mod.
  - rewrite E' in Hpend. unfold PGSIZE in *. lia.
  - intros a Ha. by apply Hun, Ho.
  - intros s' l' G L En. apply (HQ s' l'); [done|done|]. intros a Ha. rewrite En by done.
    pose proof (Ho a). repeat case_decide; tauto.
  - intros s' G L En. apply HN; [done|done|]. intros a Ha Hn. apply En; [done|]. by rewrite <-Ho.
Qed.
End mappages_spec.
