(* ===== verification/VmSpec.v ===== *)
(** The contracts of vm.c: what a range of pages translates to once it has been
    mapped, and what becomes of every other address. *)
From stdpp Require Import base tactics list numbers strings gmap.
From S2P Require Import Prelude CString FsTypes State Spinlock Console Kalloc Vm Sched SchedInv Sample SchedOps MemSpec VmOps.

#[local] Open Scope Z_scope.

(** ** An empty page directory beside the free pages of the sample machine *)
Lemma ld8_link m l b : (forall p, p ∈ l -> ~ in_page p b) -> ld8 (link_pages m l) b = ld8 m b.
Proof.
  induction l as [|p l IH]; intros Hb; [done|]. simpl. rewrite ld8_st32_ne.
  - apply IH. intros q Hq. apply Hb. set_solver.
  - pose proof (Hb p ltac:(set_solver)) as Hp. unfold in_page, PGSIZE in Hp. lia.
Qed.

Lemma sample_pt_zero b : in_page (pg 5) b -> ld8 (mem sample_pages) b = 0.
Proof.
  intros Hb. change (ld8 (link_pages ∅ [pg 2; pg 0; pg 1]) b = 0). rewrite ld8_link; [reflexivity|].
  intros p Hp Hb'. unfold in_page, pg, PGSIZE, KERNBASE in *. set_solver by lia.
Qed.

Lemma sample_pt_tab x : 0 <= x < 1024 -> tab (mem sample_pages) (pg 5) x = None.
Proof.
  intros Hx. unfold tab, ld32. rewrite !sample_pt_zero by (unfold in_page, PGSIZE; lia). done.
Qed.

Lemma sample_pt_ok : pt_ok (mem sample_pages) (sym_end sample_pages) [pg 2; pg 0; pg 1] (pg 5).
Proof.
  split.
  - unfold page_ok. vm_compute. intuition (discriminate || reflexivity).
  - vm_compute. set_solver.
  - intros x t Hx. by rewrite sample_pt_tab.
  - intros x y t Hx _. by rewrite sample_pt_tab.
Qed.

Lemma sample_pt_ent a : ent (mem sample_pages) (pg 5) a = 0.
Proof. unfold ent. by rewrite sample_pt_tab by apply PDX_range. Qed.

(** ** mappages *)

(** C21: [mappages] on a range of pages that are not mapped returns 0 and from then
    on every address on these pages translates to its place in physical memory
    with the permissions given, every other address translates as before, and the
    page table has only grown by pages of the free list; or it returns -1, the free
    list being exhausted, and no address outside the range is affected. *)
Theorem mappages_exact (d : Z) (s : kst) (i : nat) (n : Z) (H : gset lockid) (l : list Z)
    (va size pa perm : Z)
    (HL : lctx (klk s) i n H) (Hk : kmem_lock ∉ H) (HF : free_pages s l)
    (HP : pt_ok (mem s) (sym_end s) l d)
    (Hva : 0 <= va) (Hsize : 0 < size) (Hend : va + size <= 2^32)
    (Hpa : 0 <= pa) (Hpm : pa mod PGSIZE = 0)
    (Hpend : pa + (PGROUNDDOWN (va + size - 1) - PGROUNDDOWN va) + PGSIZE <= 2^32)
    (Hperm : 0 <= perm < PGSIZE)
    (Hun : forall a, on_pages va size a -> flag (ent (mem s) d a) PTE_P = false) :
  exists r s' l', mappages d va size pa perm s = Ret r s' /\ grown d s l s' l' /\ lctx (klk s') i n H /\
    (forall a, in_u32 a -> ~ on_pages va size a -> ent (mem s') d a = ent (mem s) d a) /\
    ((r = 0 /\ forall a, in_u32 a -> on_pages va size a ->
        PTE_ADDR (ent (mem s') d a) + (a - PGROUNDDOWN a) = pa + (a - PGROUNDDOWN va) /\
        PTE_FLAGS (ent (mem s') d a) = Z.lor perm PTE_P)
     \/ (r = -1 /\ l' = [])).
Proof.
  match goal with |- exists r s' l', _ = _ /\ @?P r s' l' =>
    destruct (wp_returns (fun _ => True) (fun r s' => exists l', P r s' l') (mappages d va size pa perm s))
      as (r & s' & E & l' & HQ); [|exists r, s', l'; by split] end.
  eapply wp_mappages; [exact HL|exact Hk|exact HF|exact HP|done..| |].
  - intros s' l' G L En. exists l'. split; [done|]. split; [done|]. split.
    { intros a Ha Hn. rewrite En by done. by rewrite decide_False. }
    left. split; [done|]. intros a Ha Ho. rewrite En by done. rewrite decide_True by done.
    assert (Hm : (pa + (PGROUNDDOWN a - PGROUNDDOWN va)) mod PGSIZE = 0).
    { rewrite Z.add_mod, Zminus_mod, !PGROUNDDOWN_mod, Hpm by done. done. }
    rewrite pte_of_eq by done. pose proof (lor_P_range perm Hperm).
    rewrite PTE_ADDR_add by done. split; [lia|]. unfold PTE_FLAGS. change 0xFFF with (Z.ones 12).
    rewrite Z.land_ones by lia. change (2^12) with PGSIZE. rewrite <-Z.add_mod_idemp_l, Hm by done.
    apply Z.mod_small. lia.
  - intros s' G L En. exists []. split; [done|]. split; [done|]. split; [done|]. by right.
Qed.

(** Two pages at 0x3FF800, which need two page tables. *)
Lemma mappages_exact_witness :
  exists r s' l', mappages (pg 5) 0x3FF800 0x1000 0x10000 (Z.lor PTE_W PTE_U) sample_pages = Ret r s' /\
    grown (pg 5) sample_pages [pg 2; pg 0; pg 1] s' l' /\ lctx (klk s') 1 0 ∅ /\
    (forall a, in_u32 a -> ~ on_pages 0x3FF800 0x1000 a ->
      ent (mem s') (pg 5) a = ent (mem sample_pages) (pg 5) a) /\
    ((r = 0 /\ forall a, in_u32 a -> on_pages 0x3FF800 0x1000 a ->
        PTE_ADDR (ent (mem s') (pg 5) a) + (a - PGROUNDDOWN a) = 0x10000 + (a - PGROUNDDOWN 0x3FF800) /\
        PTE_FLAGS (ent (mem s') (pg 5) a) = Z.lor (Z.lor PTE_W PTE_U) PTE_P)
     \/ (r = -1 /\ l' = [])).
Proof.
  apply (mappages_exact (pg 5) sample_pages 1 0 ∅ [pg 2; pg 0; pg 1] 0x3FF800 0x1000 0x10000
    (Z.lor PTE_W PTE_U) sample_pages_lctx).
  - set_solver.
  - exact sample_free_pages.
  - exact sample_pt_ok.
  - lia.
  - lia.
  - lia.
  - lia.
  - reflexivity.
  - vm_compute. discriminate.
  - vm_compute. split; [discriminate|reflexivity].
  - intros a _. by rewrite sample_pt_ent.
Defined.

Lemma PGROUNDDOWN_page va : PGROUNDDOWN va / PGSIZE = va / PGSIZE.
Proof. symmetry. apply same_page_aligned; [apply PGROUNDDOWN_mod|apply PGROUNDDOWN_bounds]. Qed.

Lemma PDX_PGROUNDDOWN va : PDX (PGROUNDDOWN va) = PDX va.
Proof.
  unfold PDX. f_equal. rewrite !Z.shiftr_div_pow2 by lia. change (2^22) with (PGSIZE * 2^10).
  rewrite <-!Z.div_div by done. by rewrite PGROUNDDOWN_page.
Qed.
Lemma PTX_PGROUNDDOWN va : PTX (PGROUNDDOWN va) = PTX va.
Proof. rewrite !PTX_eq. change (2^12) with PGSIZE. by rewrite PGROUNDDOWN_page. Qed.

(** Mapping an address that is mapped already stops the kernel, and nothing
    has been written. *)
Theorem mappages_remap (d : Z) (s : kst) (va size pa perm t : Z)
    (Ht : tab (mem s) d (PDX va) = Some t) (Hnz : t + 4 * PTX va <> 0)
    (Hp : flag (ent (mem s) d va) PTE_P = true) :
  mappages d va size pa perm s = Panic "remap" s.
Proof.
  unfold mappages. assert (Hf : (0 < page_fuel)%nat) by (unfold page_fuel; lia).
  destruct page_fuel as [|f]; [lia|]. cbn [mappages_loop].
  unfold ent in Hp. rewrite Ht in Hp. unfold tab in Ht.
  destruct (flag (ld32 (mem s) (d + 4 * PDX va)) PTE_P) eqn:E; [|done]. injection Ht as Ht.
  rewrite (bind_ret _ _ s (t + 4 * PTX va) s).
  - rewrite (proj2 (Z.eqb_neq _ _)) by done.
    rewrite (bind_ret _ _ s (ld32 (mem s) (t + 4 * PTX va)) s) by done. by rewrite Hp.
  - unfold walkpgdir. rewrite PDX_PGROUNDDOWN, PTX_PGROUNDDOWN.
    rewrite (bind_ret _ _ s (ld32 (mem s) (d + 4 * PDX va)) s) by done. by rewrite E, <-Ht.
Qed.

(** The state after the page at 0x3000 has been mapped. *)
Definition sample_mapped_page : kst :=
  state_of (mappages (pg 5) 0x3000 PGSIZE 0x20000 PTE_U sample_pages).

Lemma mappages_remap_witness :
  mappages (pg 5) 0x3123 0x10 0x70000 PTE_W sample_mapped_page = Panic "remap" sample_mapped_page.
Proof.
  apply (mappages_remap (pg 5) sample_mapped_page 0x3123 0x10 0x70000 PTE_W (pg 2));
    vm_compute; congruence.
Defined.
