(* ===== verification/VmFree.v ===== *)
(** Releasing address spaces: what [deallocuvm] and [freevm] of vm.c give back. *)
From stdpp Require Import base tactics list numbers strings gmap.
From S2P Require Import Prelude CString FsTypes State Spinlock Console Kalloc Vm VmOps.

#[local] Open Scope Z_scope.

(** ** User address spaces *)
Definition present (m : memory) (d a : Z) : Prop := flag (ent m d a) PTE_P = true.
(** The kernel address of the page that [a] is on. *)
Definition frame (m : memory) (d a : Z) : Z := P2V (PTE_ADDR (ent m d a)).
#[global] Instance present_dec m d a : Decision (present m d a).
Proof. unfold present. apply _. Defined.

(** The directory, its tables and the pages of the user are different pages, none of
    them free. *)
Record uspace (m : memory) (e : Z) (l : list Z) (d : Z) : Prop := {
  us_pt : pt_ok m e l d;
  us_frame : forall a, 0 <= a < KERNBASE -> present m d a ->
    page_ok e (frame m d a) /\ (frame m d a ∉ l) /\ ~ of_table m d (frame m d a) /\ PTE_ADDR (ent m d a) <> 0;
  us_inj : forall a b, 0 <= a < KERNBASE -> 0 <= b < KERNBASE -> present m d a -> present m d b ->
    frame m d a = frame m d b -> a / PGSIZE = b / PGSIZE
}.

Lemma ent_page m d a b : in_u32 a -> in_u32 b -> a / PGSIZE = b / PGSIZE -> ent m d a = ent m d b.
Proof.
  intros Ha Hb. rewrite !page_number by done. intros E.
  pose proof (PDX_range a). pose proof (PTX_range a). pose proof (PDX_range b). pose proof (PTX_range b).
  unfold ent. assert (PDX a = PDX b) as -> by lia. assert (PTX a = PTX b) as -> by lia. done.
Qed.

(** The pages of the user in a range of addresses. *)
Definition frames_in (m : memory) (d lo hi p : Z) : Prop :=
  exists b, lo <= b < hi /\ present m d b /\ frame m d b = p.

Lemma of_table_page m e l d p : pt_ok m e l d -> of_table m d p -> page_ok e p /\ p ∉ l.
Proof.
  intros HP [->|(x & Hx & E)]; [by destruct HP|]. by destruct (pt_tab _ _ _ _ HP x p Hx E) as (? & ? & _).
Qed.

(** ** The pages in a range have been freed *)
Record shrunk (d : Z) (s : kst) (l : list Z) (s' : kst) (l' : list Z) (lo hi : Z) : Prop := {
  sh_only : vm_only s s';
  sh_free : free_pages s' l';
  sh_list : forall q, q ∈ l' <-> q ∈ l \/ frames_in (mem s) d lo hi q;
  sh_space : uspace (mem s') (sym_end s') l' d;
  sh_tab : forall x, 0 <= x < 1024 -> tab (mem s') d x = tab (mem s) d x;
  sh_ent : forall b, in_u32 b ->
    ent (mem s') d b = if decide (lo <= b < hi /\ present (mem s) d b) then 0 else ent (mem s) d b;
  sh_frame : forall b, (forall p, of_table (mem s) d p \/ frames_in (mem s) d lo hi p -> ~ in_page p b) ->
    ld8 (mem s') b = ld8 (mem s) b
}.

Lemma shrunk_none d s l lo hi : free_pages s l -> uspace (mem s) (sym_end s) l d ->
  (forall b, lo <= b < hi -> ~ present (mem s) d b) -> shrunk d s l s l lo hi.
Proof.
  intros HF HU Hn. split; [apply vm_only_refl|done| |done|done| |done].
  - intros q. split; [by left|]. intros [?|(b & Hb & Hp & _)]; [done|]. by destruct (Hn b).
  - intros b Hb. rewrite decide_False; [done|]. intros [? ?]. by apply (Hn b).
Qed.

(** Addresses that are not mapped can be left out of the range. *)
Lemma shrunk_skip d s l s' l' lo mid hi : (forall b, lo <= b < mid -> b < hi -> ~ present (mem s) d b) -> lo <= mid ->
  shrunk d s l s' l' mid hi -> shrunk d s l s' l' lo hi.
Proof.
  intros Hn Hle [O F L S T E M].
  assert (Hfr : forall p, frames_in (mem s) d lo hi p <-> frames_in (mem s) d mid hi p).
  { intros p. split; intros (b & Hb & Hp & <-); exists b; (split; [|done]); [|lia].
    destruct (decide (mid <= b)); [lia|]. by destruct (Hn b ltac:(lia) ltac:(lia)). }
  split; try done.
  - intros q. by rewrite Hfr.
  - intros b Hb. rewrite E by done. destruct (decide (mid <= b)); repeat case_decide; try done; try (exfalso; naive_solver lia).
  - intros b Hb. apply M. intros p. rewrite <-Hfr. apply Hb.
Qed.

Lemma shrunk_of_table d s l s' l' lo hi p : shrunk d s l s' l' lo hi -> of_table (mem s') d p <-> of_table (mem s) d p.
Proof.
  intros G. unfold of_table. split; (intros [?|(x & Hx & E)]; [by left|right]; exists x; split; [done|]).
  - by rewrite (sh_tab _ _ _ _ _ _ _ G) in E.
  - by rewrite (sh_tab _ _ _ _ _ _ _ G).
Qed.

Lemma shrunk_trans d s1 l1 s2 l2 s3 l3 lo mid hi : 0 <= lo -> lo <= mid <= hi -> hi <= 2^32 ->
  shrunk d s1 l1 s2 l2 lo mid -> shrunk d s2 l2 s3 l3 mid hi -> shrunk d s1 l1 s3 l3 lo hi.
Proof.
  intros H0 Hmid Hhi G1 G2.
  assert (He : forall b, mid <= b < hi -> ent (mem s2) d b = ent (mem s1) d b).
  { intros b Hb. rewrite (sh_ent _ _ _ _ _ _ _ G1) by (unfold in_u32; lia). rewrite decide_False; [done|lia]. }
  assert (Hfr : forall p, frames_in (mem s1) d lo hi p <-> frames_in (mem s1) d lo mid p \/ frames_in (mem s2) d mid hi p).
  { intros p. unfold frames_in, present, frame. split.
    - intros (b & Hb & Hp & E). destruct (decide (b < mid)); [left; exists b; split; [lia|done]|].
      right. exists b. rewrite He by lia. split; [lia|done].
    - intros [(b & Hb & Hp)|(b & Hb & Hp)]; exists b; [split; [lia|done]|]. rewrite He in Hp by done. split; [lia|done]. }
  split.
  - eapply vm_only_trans; [apply G1|apply G2].
  - apply G2.
  - intros q. rewrite (sh_list _ _ _ _ _ _ _ G2), (sh_list _ _ _ _ _ _ _ G1), Hfr. tauto.
  - apply G2.
  - intros x Hx. by rewrite (sh_tab _ _ _ _ _ _ _ G2), (sh_tab _ _ _ _ _ _ _ G1).
  - intros b Hb. rewrite (sh_ent _ _ _ _ _ _ _ G2) by done.
    assert (Hpr : mid <= b < hi -> present (mem s2) d b <-> present (mem s1) d b).
    { intros Hm. unfold present. by rewrite (He b Hm). }
    case_decide as E2; [rewrite decide_True by (split; [lia|tauto]); done|].
    rewrite (sh_ent _ _ _ _ _ _ _ G1) by done. case_decide as E1; [by rewrite decide_True by (split; [lia|tauto])|].
    rewrite decide_False; [done|]. intros [Hlo Hp]. destruct (decide (mid <= b)); [apply E2|apply E1]; (split; [lia|tauto]).
  - intros b Hb. rewrite (sh_frame _ _ _ _ _ _ _ G2), (sh_frame _ _ _ _ _ _ _ G1); [done|..].
    + intros p Hp. apply Hb. rewrite Hfr. tauto.
    + intros p Hp. apply Hb. rewrite Hfr, <-(shrunk_of_table _ _ _ _ _ _ _ p G1). tauto.
Qed.

(** ** Freeing one page *)
Section free_page.
Context (d a t : Z) (s : kst) (l : list Z) (lk : lstate).
Hypothesis HU : uspace (mem s) (sym_end s) l d.
Hypothesis Ha : 0 <= a < KERNBASE.
Hypothesis Hm : a mod PGSIZE = 0.
Hypothesis Ht : tab (mem s) d (PDX a) = Some t.
Hypothesis Hp : present (mem s) d a.
Let f := frame (mem s) d a.
Let s1 := s <| klk := lk |> <| mem ::= fun m => freed_mem m f (freelist s) |> <| freelist := f |>.
Hypothesis HF : free_pages s1 (f :: l).
Hypothesis Hlk : lk_static lk = lk_static (klk s).
Let s2 := s1 <| mem := st32 (mem s1) (t + 4 * PTX a) 0 |>.

Lemma free_table_ld8 p b : of_table (mem s) d p -> in_page p b -> ld8 (mem s1) b = ld8 (mem s) b.
Proof.
  intros Ho Hb. destruct (us_frame _ _ _ _ HU a Ha Hp) as (Hf & _ & Hn & _).
  apply ld8_freed. destruct (of_table_page _ _ _ _ _ (us_pt _ _ _ _ HU) Ho) as [Hpp _].
  assert (p <> f) by (intros ->; done). pose proof (pages_apart _ p f b Hpp Hf H Hb). unfold in_page in *. lia.
Qed.

Lemma free_tab x : 0 <= x < 1024 -> tab (mem s1) d x = tab (mem s) d x.
Proof. apply tab_frame. intros b. apply free_table_ld8. by left. Qed.
Lemma free_ent b : ent (mem s1) d b = ent (mem s) d b.
Proof. apply ent_frame. intros p b'. apply free_table_ld8. Qed.

Lemma free_pt_ok : pt_ok (mem s1) (sym_end s) (f :: l) d.
Proof.
  destruct (us_frame _ _ _ _ HU a Ha Hp) as (Hf & _ & Hn & _). pose proof (us_pt _ _ _ _ HU) as HP.
  split; [apply HP|..].
  - apply not_elem_of_cons. split; [intros E; apply Hn; by left|apply HP].
  - intros x p Hx. rewrite free_tab by done. intros E. destruct (pt_tab _ _ _ _ HP x p Hx E) as (? & ? & ?).
    split; [done|]. split; [|done]. apply not_elem_of_cons. split; [|done]. intros ->. apply Hn. right. by exists x.
  - intros x y p Hx Hy. rewrite !free_tab by done. by apply HP.
Qed.

Lemma free_ent2 b : in_u32 b -> ent (mem s2) d b = if decide (a <= b < a + PGSIZE) then 0 else ent (mem s) d b.
Proof.
  intros Hb. pose proof (set_ent_ent d a t 0 s1 (f :: l) free_pt_ok) as E.
  change (mem s2) with (st32 (mem s1) (t + 4 * PTX a) 0). rewrite E; [|unfold in_u32, KERNBASE in *; lia|by vm_compute| |done].
  - rewrite free_ent. pose proof (same_page_aligned a b Hm). repeat case_decide; tauto.
  - by rewrite free_tab by apply PDX_range.
Qed.

Lemma free_ent_page b : a <= b < a + PGSIZE -> ent (mem s) d b = ent (mem s) d a.
Proof.
  intros Hb. apply ent_page; [unfold in_u32, KERNBASE, PGSIZE in *; lia..|]. by apply same_page_aligned.
Qed.

Lemma free_grown : grown d s1 (f :: l) s2 (f :: l).
Proof. apply grown_set_ent; [done|apply free_pt_ok|]. by rewrite free_tab by apply PDX_range. Qed.

Lemma free_tab2 x : 0 <= x < 1024 -> tab (mem s2) d x = tab (mem s) d x.
Proof.
  intros Hx. rewrite <-free_tab by done.
  apply (set_ent_tab d a t 0 s1 (f :: l) free_pt_ok); [|done]. by rewrite free_tab by apply PDX_range.
Qed.

Lemma free_frames p : frames_in (mem s) d a (a + PGSIZE) p <-> p = f.
Proof.
  split.
  - intros (b & Hb & _ & <-). unfold frame. by rewrite free_ent_page.
  - intros ->. exists a. split; [unfold PGSIZE; lia|done].
Qed.

Lemma free_uspace : uspace (mem s2) (sym_end s) (f :: l) d.
Proof.
  assert (Hent : forall b, 0 <= b < KERNBASE -> present (mem s2) d b ->
    ent (mem s2) d b = ent (mem s) d b /\ present (mem s) d b /\ ~ (a <= b < a + PGSIZE)).
  { intros b Hb. unfold present. rewrite free_ent2 by (unfold in_u32, KERNBASE in *; lia). by case_decide. }
  split; [apply free_grown|..].
  - intros b Hb Hpb. destruct (Hent b Hb Hpb) as (E & Hpb' & Hne).
    destruct (us_frame _ _ _ _ HU b Hb Hpb') as (F1 & F2 & F3 & F4).
    unfold frame. rewrite E. split; [done|]. split; [|split; [|done]].
    + apply not_elem_of_cons. split; [|done]. intros Ef. apply Hne. apply same_page_aligned; [done|].
      by apply (us_inj _ _ _ _ HU).
    + intros [Eo|(x & Hx & Eo)]; apply F3; [by left|right]. exists x. split; [done|]. by rewrite <-free_tab2.
  - intros b c Hb Hc Hpb Hpc. destruct (Hent b Hb Hpb) as (Eb & Pb & _). destruct (Hent c Hc Hpc) as (Ec & Pc & _).
    unfold frame. rewrite Eb, Ec. by apply (us_inj _ _ _ _ HU).
Qed.

Lemma free_shrunk : shrunk d s l s2 (f :: l) a (a + PGSIZE).
Proof.
  split.
  - by exists lk, (mem s2), f.
  - apply free_grown.
  - intros q. rewrite free_frames. set_solver.
  - exact free_uspace.
  - exact free_tab2.
  - intros b Hb. rewrite free_ent2 by done. case_decide as E1; case_decide as E2; try done; [|tauto].
    exfalso. apply E2. split; [done|]. unfold present. by rewrite free_ent_page.
  - intros b Hb. rewrite (gr_frame _ _ _ _ _ free_grown).
    + apply ld8_freed. pose proof (Hb f) as Hbf. unfold in_page in Hbf. pose proof (proj2 (free_frames f) eq_refl).
      specialize (Hbf ltac:(by right)). lia.
    + intros p [[? ?]|Hpt]; [done|]. apply Hb. left. destruct Hpt as [?|(x & Hx & E)]; [by left|right].
      exists x. split; [done|]. by rewrite <-free_tab.
Qed.
End free_page.

(** ** deallocuvm *)

(** The next table, where the code goes when there is none. *)
Lemma next_table a : 0 <= a < KERNBASE ->
  u32 (u32 (PGADDR (PDX a + 1) 0 0 - PGSIZE) + PGSIZE) = 2^22 * (PDX a + 1) /\ a < 2^22 * (PDX a + 1) <= KERNBASE.
Proof.
  intros Ha. assert (Hx : PDX a = a / 2^22) by (apply PDX_eq; unfold in_u32, KERNBASE in *; lia).
  pose proof (Z.div_mod a (2^22) ltac:(lia)). pose proof (Z.mod_pos_bound a (2^22) ltac:(lia)).
  assert (0 <= a / 2^22 < 512) by (split; [apply Z.div_pos; lia|apply Z.div_lt_upper_bound; unfold KERNBASE in *; lia]).
  unfold PGADDR. rewrite Z.shiftl_0_l, !Z.lor_0_r, Z.shiftl_mul_pow2 by lia. rewrite Hx.
  rewrite (u32_small ((a / 2^22 + 1) * 2^22)) by (unfold in_u32; lia). unfold KERNBASE, PGSIZE in *.
  rewrite (u32_small (_ - 4096)) by (unfold in_u32; lia). rewrite u32_small by (unfold in_u32; lia). lia.
Qed.

Lemma no_table_absent m d a b : 0 <= a < KERNBASE -> tab m d (PDX a) = None -> a <= b < 2^22 * (PDX a + 1) -> ~ present m d b.
Proof.
  intros Ha Hn Hb. destruct (next_table a Ha) as (_ & _ & Hk).
  assert (Hx : PDX a = a / 2^22) by (apply PDX_eq; unfold in_u32, KERNBASE in *; lia).
  assert (Hy : PDX b = b / 2^22) by (apply PDX_eq; unfold in_u32, KERNBASE in *; lia).
  pose proof (Z.div_mod a (2^22) ltac:(lia)). pose proof (Z.mod_pos_bound a (2^22) ltac:(lia)).
  assert (PDX b = PDX a). { rewrite Hx, Hy in *. symmetry. apply (Z.div_unique_pos _ _ _ (b - 2^22 * (a / 2^22))); lia. }
  unfold present, ent. by rewrite H1, Hn.
Qed.

Lemma wp_deallocuvm_loop Out In d oldsz i n H (Q : unit -> kst -> Prop) : 0 <= oldsz <= KERNBASE -> kmem_lock ∉ H ->
  forall fuel s l a, lctx (klk s) i n H -> free_pages s l -> uspace (mem s) (sym_end s) l d ->
  a mod PGSIZE = 0 -> 0 <= a <= KERNBASE -> PGROUNDUP oldsz - a <= PGSIZE * Z.of_nat fuel ->
  (forall s' l', shrunk d s l s' l' a (PGROUNDUP oldsz) -> lctx (klk s') i n H -> Q tt s') ->
  wp Out In Q (deallocuvm_loop fuel d a oldsz s).
Proof.
  intros Ho Hk. destruct (PGROUNDUP_spec oldsz) as [Hr Hrm]; [lia|unfold KERNBASE, PGSIZE in *; lia|].
  assert (Hhi : PGROUNDUP oldsz <= KERNBASE).
  { unfold PGSIZE, KERNBASE in *. pose proof (Z.div_mod (PGROUNDUP oldsz) 4096 ltac:(lia)). lia. }
  induction fuel as [|fuel IH]; intros s l a HL HF HU Hm Ha Hfuel HQ; cbn [deallocuvm_loop];
    (destruct (Z.ltb_spec a oldsz) as [Hlt|Hge];
      [|apply (HQ s l); [|done]; apply shrunk_none; [done|done|];
        unfold PGSIZE in *; pose proof (Z.div_mod a 4096 ltac:(lia)); pose proof (Z.div_mod (PGROUNDUP oldsz) 4096 ltac:(lia)); lia]).
  { unfold PGSIZE in *. lia. }
  assert (Hak : 0 <= a < KERNBASE) by lia. apply exec_bind.
  apply wp_walk_find. destruct (tab (mem s) d (PDX a)) as [t|] eqn:Ht.
  - destruct (pt_tab _ _ _ _ (us_pt _ _ _ _ HU) _ _ (PDX_range a) Ht) as (Htp & _).
    pose proof (PTX_range a). destruct (page_ok_range _ _ Htp). rewrite (proj2 (Z.eqb_neq _ _)) by lia.
    assert (He : ld32 (mem s) (t + 4 * PTX a) = ent (mem s) d a) by (unfold ent; by rewrite Ht).
    assert (Hnext : a + PGSIZE <= PGROUNDUP oldsz).
    { unfold PGSIZE in *. pose proof (Z.div_mod a 4096 ltac:(lia)). pose proof (Z.div_mod (PGROUNDUP oldsz) 4096 ltac:(lia)). lia. }
    assert (Hu : u32 (a + PGSIZE) = a + PGSIZE) by (apply u32_small; unfold in_u32, KERNBASE, PGSIZE in *; lia).
    assert (Hm' : (a + PGSIZE) mod PGSIZE = 0) by (pose proof (aligned_add a 1 Hm) as E; by rewrite Z.mul_1_r in E).
    apply exec_bind. apply exec_bind. cbn [load32 gets exec]. rewrite He.
    destruct (flag (ent (mem s) d a) PTE_P) eqn:Hp.
    + destruct (us_frame _ _ _ _ HU a Hak Hp) as (F1 & F2 & _ & F4). rewrite (proj2 (Z.eqb_neq _ _) F4).
      apply exec_bind. eapply wp_kfree; [exact HL|exact Hk|exact HF|exact F1|exact F2|].
      intros lk L S1 s1 HF1. apply exec_bind. cbn [store32 set_mem modify exec mret M_ret]. rewrite Hu.
      pose proof (free_shrunk d a t s l lk HU Hak Hm Ht Hp HF1 S1) as G1.
      eapply IH; [exact L|apply G1|apply G1|done|unfold KERNBASE, PGSIZE in *; lia|unfold PGSIZE in *; lia|].
      intros s' l' G2 L2. apply (HQ s' l'); [|done]. eapply shrunk_trans; [| | |exact G1|exact G2]; unfold PGSIZE, KERNBASE in *; lia.
    + cbn [mret M_ret exec]. rewrite Hu.
      apply (IH s l); [done|done|done|done|unfold KERNBASE, PGSIZE in *; lia|unfold PGSIZE in *; lia|].
      intros s' l' G L'. apply (HQ s' l'); [|done]. apply (shrunk_skip _ _ _ _ _ _ (a + PGSIZE)); [|unfold PGSIZE; lia|done].
      intros b Hb _. unfold present. rewrite free_ent_page with (a := a) by done. by rewrite Hp.
  - cbn [Z.eqb]. apply exec_bind. cbn [mret M_ret exec]. destruct (next_table a Hak) as (-> & Hn1 & Hn2).
    assert (Hm' : (2^22 * (PDX a + 1)) mod PGSIZE = 0).
    { unfold PGSIZE. rewrite Z.mul_comm. replace ((PDX a + 1) * 2^22) with (((PDX a + 1) * 1024) * 4096) by lia. apply Z.mod_mul. lia. }
    apply (IH s l); [done|done|done|done|lia| |].
    + unfold PGSIZE in *. pose proof (Z.div_mod a 4096 ltac:(lia)). pose proof (Z.div_mod (2^22 * (PDX a + 1)) 4096 ltac:(lia)). lia.
    + intros s' l' G L'. apply (HQ s' l'); [|done]. eapply shrunk_skip; [| |exact G]; [|lia].
      intros b Hb _. by apply (no_table_absent _ _ a).
Qed.

(** ** freevm *)

(** The tables of the first [k] slots have been freed. *)
Record tables_freed (d : Z) (s : kst) (l : list Z) (s' : kst) (l' : list Z) (k : Z) : Prop := {
  tf_only : vm_only s s';
  tf_free : free_pages s' l';
  tf_list : forall q, q ∈ l' <-> q ∈ l \/ exists x, 0 <= x < k /\ tab (mem s) d x = Some q;
  tf_frame : forall b, (forall p x, 0 <= x < k -> tab (mem s) d x = Some p -> ~ in_page p b) ->
    ld8 (mem s') b = ld8 (mem s) b
}.

Lemma tables_freed_tab d s l s' l' k x : pt_ok (mem s) (sym_end s) l d -> 0 <= k <= 1024 -> 0 <= x < 1024 ->
  tables_freed d s l s' l' k -> tab (mem s') d x = tab (mem s) d x.
Proof.
  intros HP Hk Hx G. apply tab_frame; [|done]. intros b Hb. apply (tf_frame _ _ _ _ _ _ G). intros p y Hy E.
  destruct (pt_tab _ _ _ _ HP y p ltac:(lia) E) as (Hpp & _ & Hne).
  eapply pages_apart; [apply HP|exact Hpp|by apply not_eq_sym|done].
Qed.

Lemma tables_freed_skip d s l s' l' k : 0 <= k -> tab (mem s) d k = None ->
  tables_freed d s l s' l' k -> tables_freed d s l s' l' (k + 1).
Proof.
  intros Hk Hn [O F L M]. split; [done|done|..].
  - intros q. rewrite L. split; (intros [?|(x & Hx & E)]; [by left|right]; exists x; split; [|done]); [lia|].
    destruct (decide (x = k)) as [->|]; [congruence|lia].
  - intros b Hb. apply M. intros p x Hx. apply Hb. lia.
Qed.

Lemma tables_freed_one d s l s' l' k t lk : 0 <= k -> tab (mem s) d k = Some t ->
  lk_static lk = lk_static (klk s') -> tables_freed d s l s' l' k ->
  let s2 := s' <| klk := lk |> <| mem ::= fun m => freed_mem m t (freelist s') |> <| freelist := t |> in
  free_pages s2 (t :: l') -> tables_freed d s l s2 (t :: l') (k + 1).
Proof.
  intros Hk Ht Hlk [O F L M] s2 HF. split; [|done|..].
  - eapply vm_only_trans; [exact O|]. by exists lk, (freed_mem (mem s') t (freelist s')), t.
  - intros q. rewrite elem_of_cons, L. split.
    + intros [->|[?|(x & Hx & E)]]; [right; exists k; split; [lia|done]|by left|right; exists x; split; [lia|done]].
    + intros [?|(x & Hx & E)]; [by right; left|]. destruct (decide (x = k)) as [->|]; [left; congruence|].
      right. right. exists x. split; [lia|done].
  - intros b Hb. change (ld8 (freed_mem (mem s') t (freelist s')) b = ld8 (mem s) b). rewrite ld8_freed.
    + apply M. intros p x Hx. apply Hb. lia.
    + pose proof (Hb t k ltac:(lia) Ht) as Hbt. unfold in_page in Hbt. lia.
Qed.

Lemma wp_free_tables Out In d s l i n H (Q : unit -> kst -> Prop) : pt_ok (mem s) (sym_end s) l d -> kmem_lock ∉ H ->
  forall c k s1 l1, (k + c = 1024)%nat -> lctx (klk s1) i n H -> tables_freed d s l s1 l1 (Z.of_nat k) ->
  (forall s' l', tables_freed d s l s' l' 1024 -> lctx (klk s') i n H -> Q tt s') ->
  wp Out In Q (for_all (seq k c) (fun i =>
    e ← load32 (d + 4 * Z.of_nat i);
    mwhen (flag e PTE_P) (kfree (P2V (PTE_ADDR e)))) s1).
Proof.
  intros HP Hk. induction c as [|c IH]; intros k s1 l1 Hkc HL G HQ; cbn [seq for_all].
  { apply (HQ s1 l1); [|done]. by replace 1024 with (Z.of_nat k) by lia. }
  apply exec_bind. apply exec_bind. cbn [load32 gets exec].
  pose proof (tables_freed_tab d s l s1 l1 (Z.of_nat k) (Z.of_nat k) HP ltac:(lia) ltac:(lia) G) as Et. unfold tab at 1 in Et.
  destruct (flag _ _); cbn [mwhen].
  - destruct (pt_tab _ _ _ _ HP (Z.of_nat k) _ ltac:(lia) (eq_sym Et)) as (Hp & Hl & _).
    assert (Es : sym_end s1 = sym_end s) by apply (vm_only_end _ _ (tf_only _ _ _ _ _ _ G)).
    eapply wp_kfree; [exact HL|exact Hk|apply G|by rewrite Es|..].
    + rewrite (tf_list _ _ _ _ _ _ G). intros [?|(x & Hx & E)]; [done|].
      pose proof (pt_inj _ _ _ _ HP x (Z.of_nat k) _ ltac:(lia) ltac:(lia) E (eq_sym Et)). lia.
    + intros lk L S1 s2 HF2. eapply (IH (S k) s2); [lia|exact L| |exact HQ].
      replace (Z.of_nat (S k)) with (Z.of_nat k + 1) by lia. by eapply tables_freed_one; [lia|..].
  - cbn [mret M_ret exec]. eapply (IH (S k) s1 l1); [lia|done| |exact HQ].
    replace (Z.of_nat (S k)) with (Z.of_nat k + 1) by lia. apply tables_freed_skip; [lia|done|done].
Qed.

(** All pages of the address space of [d] have become free, and nothing else. *)
Record released (d : Z) (s : kst) (l : list Z) (s' : kst) (l' : list Z) : Prop := {
  rl_only : vm_only s s';
  rl_free : free_pages s' l';
  rl_list : forall q, q ∈ l' <-> q ∈ l \/ of_table (mem s) d q \/ frames_in (mem s) d 0 KERNBASE q;
  rl_frame : forall b, (forall p, of_table (mem s) d p \/ frames_in (mem s) d 0 KERNBASE p -> ~ in_page p b) ->
    ld8 (mem s') b = ld8 (mem s) b
}.

Lemma released_dir d s l s1 l1 s2 l2 lk : shrunk d s l s1 l1 0 KERNBASE -> tables_freed d s1 l1 s2 l2 1024 ->
  lk_static lk = lk_static (klk s2) ->
  let s3 := s2 <| klk := lk |> <| mem ::= fun m => freed_mem m d (freelist s2) |> <| freelist := d |> in
  free_pages s3 (d :: l2) -> released d s l s3 (d :: l2).
Proof.
  intros G1 G2 Hlk s3 HF.
  assert (Ht : forall q, of_table (mem s) d q <-> q = d \/ exists x, 0 <= x < 1024 /\ tab (mem s1) d x = Some q).
  { intros q. by rewrite <-(shrunk_of_table _ _ _ _ _ _ _ q G1). }
  split; [|done|..].
  - eapply vm_only_trans; [apply G1|]. eapply vm_only_trans; [apply G2|].
    by exists lk, (freed_mem (mem s2) d (freelist s2)), d.
  - intros q. rewrite elem_of_cons, (tf_list _ _ _ _ _ _ G2), (sh_list _ _ _ _ _ _ _ G1), Ht. tauto.
  - intros b Hb. change (ld8 (freed_mem (mem s2) d (freelist s2)) b = ld8 (mem s) b). rewrite ld8_freed.
    + rewrite (tf_frame _ _ _ _ _ _ G2), (sh_frame _ _ _ _ _ _ _ G1); [done|done|].
      intros p x Hx E. apply Hb. left. apply Ht. right. by exists x.
    + pose proof (Hb d ltac:(left; by left)) as Hd. unfold in_page in Hd. lia.
Qed.

Section freevm.
Context (Out In : kst -> Prop) (d : Z) (s : kst) (i : nat) (n : Z) (H : gset lockid) (l : list Z).
Hypothesis HL : lctx (klk s) i n H.
Hypothesis Hk : kmem_lock ∉ H.
Hypothesis HF : free_pages s l.
Hypothesis HU : uspace (mem s) (sym_end s) l d.

Lemma wp_deallocuvm oldsz newsz (Q : Z -> kst -> Prop) : 0 <= newsz < oldsz -> oldsz <= KERNBASE ->
  (forall s' l', shrunk d s l s' l' (PGROUNDUP newsz) (PGROUNDUP oldsz) -> lctx (klk s') i n H -> Q newsz s') ->
  wp Out In Q (deallocuvm d oldsz newsz s).
Proof.
  intros H0 H1 HQ. unfold deallocuvm. rewrite (proj2 (Z.leb_gt _ _)) by lia.
  destruct (PGROUNDUP_spec newsz) as [Hr Hm]; [lia|unfold KERNBASE, PGSIZE in *; lia|].
  destruct (PGROUNDUP_spec oldsz) as [Hr' Hm']; [lia|unfold KERNBASE, PGSIZE in *; lia|].
  apply exec_bind. eapply wp_deallocuvm_loop; [|exact Hk|exact HL|exact HF|exact HU|exact Hm|..].
  - lia.
  - unfold KERNBASE, PGSIZE in *. pose proof (Z.div_mod (PGROUNDUP newsz) 4096 ltac:(lia)). lia.
  - unfold page_fuel, KERNBASE, PGSIZE in *. lia.
  - intros s' l' G L. by apply (HQ s' l').
Qed.

Lemma wp_freevm (Q : unit -> kst -> Prop) :
  (forall s' l', released d s l s' l' -> lctx (klk s') i n H -> Q tt s') -> wp Out In Q (freevm d s).
Proof.
  intros HQ. pose proof (pt_dir _ _ _ _ (us_pt _ _ _ _ HU)) as Hd. destruct (page_ok_range _ _ Hd).
  unfold freevm. rewrite (proj2 (Z.eqb_neq _ _)) by lia. apply exec_bind.
  apply wp_deallocuvm; [by vm_compute|by vm_compute|]. intros s1 l1 G1 L1.
  change (PGROUNDUP 0) with 0 in G1. change (PGROUNDUP KERNBASE) with KERNBASE in G1.
  apply exec_bind. assert (HP1 : pt_ok (mem s1) (sym_end s1) l1 d) by apply G1.
  eapply (wp_free_tables _ _ d s1 l1 _ _ _ _ HP1 Hk 1024 0 s1 l1); [done|exact L1|..].
  { split; [apply vm_only_refl|apply G1| |done]. intros q. split; [by left|]. intros [?|(x & Hx & _)]; [done|lia]. }
  intros s2 l2 G2 L2. assert (Es : sym_end s2 = sym_end s).
  { rewrite (vm_only_end _ _ (tf_only _ _ _ _ _ _ G2)). apply (vm_only_end _ _ (sh_only _ _ _ _ _ _ _ G1)). }
  eapply wp_kfree; [exact L2|exact Hk|apply G2|by rewrite Es|..].
  - rewrite (tf_list _ _ _ _ _ _ G2). intros [?|(x & Hx & E)]; [by apply (pt_dir_used _ _ _ _ HP1)|].
    by destruct (pt_tab _ _ _ _ HP1 x d Hx E) as (_ & _ & ?).
  - intros lk L3 S3 s3 HF3. apply (HQ s3 (d :: l2)); [|exact L3]. by eapply released_dir.
Qed.

End freevm.

(** C20: [freevm] gives back every page of the address space, the tables and the
    directory included, each once; all other memory is unchanged. *)
Theorem freevm_exact (d : Z) (s : kst) (i : nat) (n : Z) (H : gset lockid) (l : list Z)
    (HL : lctx (klk s) i n H) (Hk : kmem_lock ∉ H) (HF : free_pages s l) (HU : uspace (mem s) (sym_end s) l d) :
  exists s' l', freevm d s = Ret tt s' /\ free_pages s' l' /\ lctx (klk s') i n H /\
    (forall q, q ∈ l' <-> q ∈ l \/ of_table (mem s) d q \/ frames_in (mem s) d 0 KERNBASE q) /\
    (forall b, (forall p, of_table (mem s) d p \/ frames_in (mem s) d 0 KERNBASE p -> ~ in_page p b) ->
      ld8 (mem s') b = ld8 (mem s) b).
Proof.
  destruct (wp_returns (fun _ => True) (fun _ s' => exists l', released d s l s' l' /\ lctx (klk s') i n H) (freevm d s))
    as ([] & s' & E & l' & G & L).
  - apply (wp_freevm _ _ d s i n H l HL Hk HF HU). intros s' l' G L. by exists l'.
  - exists s', l'. split; [done|]. split; [apply G|]. split; [done|]. split; apply G.
Qed.
