(* ===== verification/VmCopy.v ===== *)
(** Address spaces for new processes: what [setupkvm] and [copyuvm] of vm.c build. *)
From stdpp Require Import base tactics list numbers strings gmap.
From Stdlib Require Import Sorting.Sorted.
From S2P Require Import Prelude CString FsTypes State Spinlock Console Kalloc Vm Sched SchedInv Sample SchedOps MemSpec VmOps VmSpec VmFree.

#[local] Open Scope Z_scope.

(** Steps of the program logic that do not compute what follows. *)
Lemma wp_set_mem Out In f s (Q : unit -> kst -> Prop) : Q tt (s <| mem ::= f |>) -> wp Out In Q (set_mem f s).
Proof. done. Qed.
Lemma wp_gets Out In {A} (f : kst -> A) s (Q : A -> kst -> Prop) : Q (f s) s -> wp Out In Q (gets f s).
Proof. done. Qed.
Lemma wp_ret Out In {A} (a : A) s (Q : A -> kst -> Prop) : Q a s -> wp Out In Q ((mret a : K A) s).
Proof. done. Qed.

(** The pages of an address space. *)
Definition owns (m : memory) (d p : Z) : Prop := of_table m d p \/ frames_in m d 0 KERNBASE p.

(** The address space of [d] is made of pages that were free before; the pages [held]
    have been allocated, but are not part of it yet. *)
Record building (held : list Z) (d : Z) (s : kst) (l : list Z) (s' : kst) (l' : list Z) : Prop := {
  fr_only : vm_only s s';
  fr_free : free_pages s' l';
  fr_list : forall q, q ∈ l <-> q ∈ held \/ q ∈ l' \/ owns (mem s') d q;
  fr_held : forall q, q ∈ held -> page_ok (sym_end s') q /\ (q ∉ l') /\ ~ owns (mem s') d q;
  fr_space : uspace (mem s') (sym_end s') l' d;
  fr_frame : forall b, (forall p, p ∈ l -> ~ in_page p b) -> ld8 (mem s') b = ld8 (mem s) b
}.

Abbreviation fresh := (building []).

(** ** Building an address space *)
Lemma uspace_grown d s1 l1 s2 l2 : uspace (mem s1) (sym_end s1) l1 d -> grown d s1 l1 s2 l2 ->
  (forall a, 0 <= a < KERNBASE -> ent (mem s2) d a = ent (mem s1) d a) -> uspace (mem s2) (sym_end s2) l2 d.
Proof.
  intros HU G E. destruct (gr_taken _ _ _ _ _ G) as (u & ->). split; [apply G|..].
  - intros a Ha. unfold present, frame. rewrite E by done. intros Hp.
    destruct (us_frame _ _ _ _ HU a Ha Hp) as (F1 & F2 & F3 & F4). rewrite (vm_only_end _ _ (gr_only _ _ _ _ _ G)).
    split; [done|]. split; [set_solver|]. split; [|done].
    intros [?|[? _]]%(gr_pages _ _ _ _ _ G); done.
  - intros a b Ha Hb. unfold present, frame. rewrite !E by done. by apply (us_inj _ _ _ _ HU).
Qed.

Lemma frames_in_ext m m' d lo hi p : (forall a, lo <= a < hi -> ent m' d a = ent m d a) ->
  frames_in m' d lo hi p <-> frames_in m d lo hi p.
Proof.
  intros E. unfold frames_in, present, frame. split; intros (b & Hb & Hp); exists b; (split; [done|]); rewrite E in * by done; done.
Qed.

Lemma owns_used m e l d p : uspace m e l d -> owns m d p -> page_ok e p /\ p ∉ l.
Proof.
  intros HU [Ho|(b & Hb & Hp & <-)]; [by eapply of_table_page; [apply HU|]|].
  by destruct (us_frame _ _ _ _ HU b Hb Hp) as (? & ? & _).
Qed.

Lemma building_grown h d s l s1 l1 s2 l2 : building h d s l s1 l1 -> grown d s1 l1 s2 l2 ->
  (forall a, 0 <= a < KERNBASE -> ent (mem s2) d a = ent (mem s1) d a) -> building h d s l s2 l2.
Proof.
  intros F G E. pose proof (uspace_grown _ _ _ _ _ (fr_space _ _ _ _ _ _ F) G E) as HU.
  destruct (gr_taken _ _ _ _ _ G) as (u & El).
  assert (Ho : forall q, (q ∈ l1 \/ owns (mem s1) d q) <-> (q ∈ l2 \/ owns (mem s2) d q)).
  { intros q. unfold owns. rewrite (frames_in_ext _ _ d 0 KERNBASE q E). split.
    + intros [Hq|[Hq|?]]; [|right; left; apply (gr_used _ _ _ _ _ G); by left|by right; right].
      destruct (decide (q ∈ l2)); [by left|]. right. left. apply (gr_used _ _ _ _ _ G). by right.
    + intros [Hq|[Hq|?]]; [left; rewrite El; set_solver| |by right; right].
      apply (gr_pages _ _ _ _ _ G) in Hq as [?|[? _]]; [by right; left|by left]. }
  split.
  - eapply vm_only_trans; [apply F|apply G].
  - apply G.
  - intros q. by rewrite (fr_list _ _ _ _ _ _ F), Ho.
  - intros q Hq. destruct (fr_held _ _ _ _ _ _ F q Hq) as (? & ? & ?). rewrite (vm_only_end _ _ (gr_only _ _ _ _ _ G)).
    pose proof (Ho q). tauto.
  - done.
  - intros b Hb. rewrite (gr_frame _ _ _ _ _ G); [by apply F|].
    intros p Hp. apply Hb. rewrite (fr_list _ _ _ _ _ _ F). right. destruct Hp as [[? _]|?]; [by left|by right; left].
Qed.

(** A new directory is a page of zeros. *)
Section new_dir.
Context (s : kst) (l : list Z) (d : Z) (lk : lstate) (fl : Z).
Let s0 := s <| klk := lk |> <| freelist := fl |>.
Hypothesis HF : free_pages s (d :: l).
Hypothesis HF0 : free_pages s0 l.
Hypothesis Hlk : lk_static lk = lk_static (klk s).
Let s1 := s0 <| mem ::= fun m => memset m d 0 PGSIZE |>.

Lemma new_dir_page : page_ok (sym_end s) d /\ d ∉ l.
Proof. destruct HF as [_ Hnd Hp _ _]. split; [by inversion Hp|by inversion Hnd]. Qed.

Lemma new_dir_ld8 b : ld8 (mem s1) b = if decide (in_page d b) then 0 else ld8 (mem s) b.
Proof. unfold s1. simpl. rewrite ld8_memset by done. unfold in_page. by repeat case_decide. Qed.

Lemma new_dir_tab x : 0 <= x < 1024 -> tab (mem s1) d x = None.
Proof.
  intros Hx. unfold tab. unfold ld32. rewrite !new_dir_ld8.
  rewrite !decide_True by (unfold in_page, PGSIZE; lia). done.
Qed.

Lemma new_dir_ent a : ent (mem s1) d a = 0.
Proof. unfold ent. by rewrite new_dir_tab by apply PDX_range. Qed.

Lemma zeroed_free_pages : free_pages s1 l.
Proof.
  destruct new_dir_page as [Hp Hn]. pose proof HF0 as [Hfl Hnd Hpg Hm He]. split; try done; [|by apply mem_ok_memset].
  eapply flist_frame; [|exact Hfl]. intros q b Hq Hb. rewrite new_dir_ld8, decide_False; [done|].
  eapply (pages_apart _ q d); [by eapply (proj1 (Forall_forall _ _))|exact Hp|by intros ->|unfold in_page, PGSIZE; lia].
Qed.

Lemma fresh_new_dir : fresh d s (d :: l) s1 l.
Proof.
  destruct new_dir_page as [Hp Hn].
  assert (Ho : forall q, owns (mem s1) d q <-> q = d).
  { intros q. split; [|intros ->; left; by left]. intros [[?|(x & Hx & E)]|(b & Hb & Hpr & _)]; [done|..].
    - by rewrite new_dir_tab in E.
    - unfold present in Hpr. by rewrite new_dir_ent in Hpr. }
  split.
  - by exists lk, (mem s1), fl.
  - exact zeroed_free_pages.
  - intros q. rewrite Ho. set_solver.
  - set_solver.
  - split; [|intros a Ha; unfold present; by rewrite new_dir_ent..].
    split; [done|done|..]; intros x; intros; by rewrite new_dir_tab in *.
  - intros b Hb. rewrite new_dir_ld8, decide_False; [done|]. apply Hb. set_solver.
Qed.
End new_dir.

(** ** The kernel's part of an address space *)
Definition ksize (k : kmap_t) : Z := u32 (phys_end k - phys_start k).

Record region_ok (k : kmap_t) : Prop := {
  rg_virt : KERNBASE <= virt k;
  rg_size : 0 < ksize k;
  rg_end : virt k + ksize k <= 2^32;
  rg_align : virt k mod PGSIZE = 0 /\ ksize k mod PGSIZE = 0 /\ phys_start k mod PGSIZE = 0;
  rg_phys : 0 <= phys_start k /\ phys_start k + ksize k <= 2^32;
  rg_perm : 0 <= perm k < PGSIZE
}.
Definition before (k k' : kmap_t) : Prop := virt k + ksize k <= virt k'.

(** Where the linker puts the data of the kernel. *)
Definition data_ok (data : Z) : Prop := data mod PGSIZE = 0 /\ KERNLINK < data < KERNBASE + PHYSTOP.

Lemma kmap_ok data : data_ok data -> Forall region_ok (kmap data) /\ StronglySorted before (kmap data).
Proof.
  intros [Hm Hd]. unfold kmap. unfold KERNLINK, KERNBASE, EXTMEM, PHYSTOP, DEVSPACE in *.
  assert (EV : V2P data = data - 0x80000000).
  { unfold V2P, KERNBASE. rewrite (u32_small data) by (unfold in_u32; lia). apply u32_small. unfold in_u32. lia. }
  assert (Hm' : (data - 0x80000000) mod 4096 = 0) by (unfold PGSIZE in Hm; by rewrite Zminus_mod, Hm).
  change (V2P (0x80000000 + 0x100000)) with 0x100000. rewrite EV.
  assert (E1 : u32 (data - 0x80000000 - 0x100000) = data - 0x80100000) by (rewrite u32_small; [lia|unfold in_u32; lia]).
  assert (E2 : u32 (0xE000000 - (data - 0x80000000)) = 0x8E000000 - data) by (rewrite u32_small; [lia|unfold in_u32; lia]).
  assert (R : forall v p e f sz, u32 (e - p) = sz -> KERNBASE <= v -> 0 < sz -> v + sz <= 2^32 -> v mod PGSIZE = 0 ->
    sz mod PGSIZE = 0 -> p mod PGSIZE = 0 -> 0 <= p -> p + sz <= 2^32 -> 0 <= f < PGSIZE -> region_ok (Kmap v p e f)).
  { intros v p e f sz <-. by constructor. }
  assert (M1 : (data - 0x80100000) mod PGSIZE = 0).
  { replace (data - 0x80100000) with (data - 0x80000000 - 256 * 4096) by lia. unfold PGSIZE. by rewrite Zminus_mod, Hm'. }
  assert (M2 : (0x8E000000 - data) mod PGSIZE = 0).
  { replace (0x8E000000 - data) with (57344 * 4096 - (data - 0x80000000)) by lia. unfold PGSIZE. by rewrite Zminus_mod, Hm'. }
  split.
  - apply Forall_cons; split; [|apply Forall_cons; split; [|apply Forall_cons; split; [|apply Forall_cons; split; [|by apply Forall_nil]]]].
    + apply (R _ _ _ _ 0x100000); by vm_compute.
    + apply (R _ _ _ _ (data - 0x80100000)); try done; lia.
    + apply (R _ _ _ _ (0x8E000000 - data)); try done; unfold KERNBASE; lia.
    + apply (R _ _ _ _ 0x2000000); by vm_compute.
  - repeat first [apply SSorted_nil | apply SSorted_cons | apply Forall_nil_2 | apply Forall_cons_2]; unfold before, ksize;
      cbn [virt phys_start phys_end]; rewrite ?E1, ?E2; change (u32 (0x100000 - 0)) with 0x100000; try lia; by vm_compute.
Qed.

Lemma region_pages k a : region_ok k -> on_pages (virt k) (ksize k) a <-> virt k <= a < virt k + ksize k.
Proof.
  intros [Hv Hs He (Ha & Hb & _) _ _]. unfold on_pages. unfold PGSIZE, KERNBASE in *.
  pose proof (Z.div_mod (ksize k) 4096 ltac:(lia)).
  rewrite (PGROUNDDOWN_in (virt k) (virt k)) by (unfold PGSIZE; try done; lia).
  rewrite (PGROUNDDOWN_in (virt k + ksize k - 4096)); [lia| |unfold PGSIZE; lia].
  unfold PGSIZE. rewrite Zminus_mod, Zplus_mod, Ha, Hb. done.
Qed.

Lemma sorted_after {A} (R : A -> A -> Prop) l1 x l2 : StronglySorted R (l1 ++ x :: l2) -> Forall (R x) l2.
Proof. induction l1 as [|y l1 IH]; simpl; intros Hs; inversion Hs; auto. Qed.

Lemma free_head s l : free_pages s l -> l <> [] -> exists l0, l = freelist s :: l0.
Proof. intros HF Hl. pose proof (fp_list _ _ HF) as Hh. destruct l as [|p l0]; [done|]. destruct Hh as [-> _]. by exists l0. Qed.

(** The same pages are free as before, and only these have been written. *)
Record same_free (s : kst) (l : list Z) (s' : kst) (l' : list Z) : Prop := {
  sf_only : vm_only s s';
  sf_free : free_pages s' l';
  sf_list : forall q, q ∈ l' <-> q ∈ l;
  sf_frame : forall b, (forall p, p ∈ l -> ~ in_page p b) -> ld8 (mem s') b = ld8 (mem s) b
}.

Lemma fresh_released d s l s1 l1 s' l' : fresh d s l s1 l1 -> released d s1 l1 s' l' -> same_free s l s' l'.
Proof.
  intros F R. split.
  - eapply vm_only_trans; [apply F|apply R].
  - apply R.
  - intros q. rewrite (rl_list _ _ _ _ _ R), (fr_list _ _ _ _ _ _ F), elem_of_nil. unfold owns. tauto.
  - intros b Hb. rewrite (rl_frame _ _ _ _ _ R); [by apply F|].
    intros p Hp. apply Hb. rewrite (fr_list _ _ _ _ _ _ F). by right; right.
Qed.

Section setupkvm.
Context (Out In : kst -> Prop) (s : kst) (i : nat) (n : Z) (H : gset lockid) (l : list Z).
Hypothesis HL : lctx (klk s) i n H.
Hypothesis Hk : kmem_lock ∉ H.
Hypothesis HF : free_pages s l.
Hypothesis Hdata : data_ok (sym_data s).

(** One region of the kernel; the entries below it are as they were. *)
Lemma wp_map_region d s1 l1 k (Q : Z -> kst -> Prop) : fresh d s l s1 l1 -> lctx (klk s1) i n H -> region_ok k ->
  (forall a, in_u32 a -> present (mem s1) d a -> a < virt k) ->
  (forall r s2 l2, (r = 0 \/ r = -1) -> fresh d s l s2 l2 -> lctx (klk s2) i n H ->
    (forall a, 0 <= a < KERNBASE -> ent (mem s2) d a = ent (mem s1) d a) ->
    (r = 0 -> forall a, in_u32 a -> present (mem s2) d a -> a < virt k + ksize k) -> Q r s2) ->
  wp Out In Q (mappages d (virt k) (ksize k) (phys_start k) (perm k) s1).
Proof.
  intros F L Hr Hlow HQ. pose proof Hr as [Hv Hs He (A1 & A2 & A3) [P1 P2] Hperm].
  assert (Hon : forall a, on_pages (virt k) (ksize k) a <-> virt k <= a < virt k + ksize k) by (intros; by apply region_pages).
  assert (Hend : PGROUNDDOWN (virt k + ksize k - 1) + PGSIZE = virt k + ksize k /\ PGROUNDDOWN (virt k) = virt k).
  { pose proof (Hon (PGROUNDDOWN (virt k + ksize k - 1) + PGSIZE)) as H1. pose proof (Hon (virt k + ksize k - 1)) as H2.
    pose proof (Hon (virt k)) as H3. pose proof (Hon (PGROUNDDOWN (virt k))) as H4. pose proof (Hon (virt k + ksize k)) as H5.
    pose proof (PGROUNDDOWN_bounds (virt k)). pose proof (PGROUNDDOWN_bounds (virt k + ksize k - 1)). unfold on_pages, PGSIZE in *. lia. }
  destruct Hend as [Hend Hst].
  apply (wp_mappages Out In d s1 i n H l1); try done; try (unfold KERNBASE, PGSIZE in *; lia); try apply F.
  - intros a Ha%Hon. destruct (flag (ent (mem s1) d a) PTE_P) eqn:E; [|done].
    pose proof (Hlow a ltac:(unfold in_u32, KERNBASE in *; lia) E). lia.
  - intros s2 l2 G L2 En. assert (Hus : forall a, 0 <= a < KERNBASE -> ent (mem s2) d a = ent (mem s1) d a).
    { intros a Ha. rewrite En by (unfold in_u32, KERNBASE in *; lia). rewrite decide_False; [done|]. rewrite Hon. lia. }
    apply (HQ 0 s2 l2); [by left|by eapply building_grown|done|done|]. intros _ a Ha. unfold present. rewrite En by done.
    case_decide as Ho; [apply Hon in Ho; lia|]. intros Hp. pose proof (Hlow a Ha Hp). lia.
  - intros s2 G L2 En. assert (Hus : forall a, 0 <= a < KERNBASE -> ent (mem s2) d a = ent (mem s1) d a).
    { intros a Ha. apply En; [unfold in_u32, KERNBASE in *; lia|]. rewrite Hon. lia. }
    apply (HQ (-1) s2 []); [by right|by eapply building_grown|done|done|done].
Qed.

(** What holds when the regions [ks] are still to be mapped. *)
Definition mapping (d : Z) (ks : list kmap_t) (s1 : kst) : Prop :=
  exists l1, fresh d s l s1 l1 /\ lctx (klk s1) i n H /\ (forall a, 0 <= a < KERNBASE -> ent (mem s1) d a = 0) /\
    (forall a k, in_u32 a -> present (mem s1) d a -> k ∈ ks -> a < virt k).

Lemma wp_kmap_loop d s0 (Q : option Z -> kst -> Prop) : mapping d (kmap (sym_data s)) s0 ->
  (forall s' l', fresh d s l s' l' -> lctx (klk s') i n H -> (forall a, 0 <= a < KERNBASE -> ent (mem s') d a = 0) -> Q None s') ->
  (forall s' l', same_free s l s' l' -> lctx (klk s') i n H -> Q (Some 0) s') ->
  wp Out In Q (for_each (kmap (sym_data s)) (fun k =>
    v ← mappages d (virt k) (u32 (phys_end k - phys_start k)) (phys_start k) (perm k);
    if v <? 0 then freevm d;; mret (Some 0) else mret None) s0).
Proof.
  intros H0 HQ HN. destruct (kmap_ok (sym_data s) Hdata) as [Hreg Hsort].
  apply exec_for_each with (J := fun l1 s1 => exists ks, kmap (sym_data s) = l1 ++ ks /\ mapping d ks s1).
  - by exists (kmap (sym_data s)).
  - intros s1 (ks & _ & l1 & F & L1 & E0 & _). by apply (HQ s1 l1).
  - intros l1 k l2 s1 Ek (ks & Ek' & lf & F & L1 & E0 & Hlow). rewrite Ek in Ek'. apply app_inv_head in Ek' as <-.
    rewrite Ek in Hreg, Hsort. apply Forall_app in Hreg as [_ Hreg]. inversion Hreg as [|?? Hk1 _]; subst.
    pose proof (sorted_after _ _ _ _ Hsort) as Hafter. apply exec_bind. fold (ksize k).
    eapply (wp_map_region d s1 lf k); [exact F|exact L1|exact Hk1|intros a Ha Hpr; apply Hlow; set_solver|].
    intros r s2 l3 Hr F2 L2 E2 Hup. destruct Hr as [-> | ->]; cbn [Z.ltb Z.compare].
    + cbn [mret M_ret exec]. exists l2. split; [by rewrite Ek, <-app_assoc|]. exists l3. split; [exact F2|]. split; [exact L2|].
      split; [intros a Ha; rewrite E2 by done; by apply E0|]. intros a k' Ha Hpr Hk'.
      pose proof (Hup eq_refl a Ha Hpr). pose proof (proj1 (Forall_forall _ _) Hafter k' Hk') as Hb. unfold before in Hb. lia.
    + apply exec_bind. eapply wp_freevm; [exact L2|exact Hk|apply F2|apply F2|]. intros s3 l4 R L3.
      cbn [mret M_ret exec]. apply (HN s3 l4); [|exact L3]. by eapply fresh_released.
Qed.

Lemma wp_setupkvm (Q : Z -> kst -> Prop) :
  (forall d s' l', fresh d s l s' l' -> lctx (klk s') i n H -> (forall a, 0 <= a < KERNBASE -> ent (mem s') d a = 0) -> Q d s') ->
  (forall s' l', same_free s l s' l' -> lctx (klk s') i n H -> Q 0 s') ->
  wp Out In Q (setupkvm s).
Proof.
  intros HQ HN. unfold setupkvm. apply exec_bind. eapply wp_kalloc; [exact HL|exact Hk|exact HF|..].
  2: { intros lk L S1 ->. cbn [Z.eqb mret M_ret exec]. apply (HN (s <| klk := lk |>) []); [|exact L].
    split; [exists lk, (mem s), (freelist s); split; [by destruct s|done]|by destruct HF|done|done]. }
  intros lk L S1 HF0 Hl. destruct (free_head s l HF Hl) as (l0 & El). set (p := freelist s) in *.
  pose proof HF as HF'. rewrite El in HF', HF0. cbn [tail] in HF0.
  destruct (new_dir_page s l0 p HF') as [Hp _]. destruct (page_ok_range _ _ Hp).
  rewrite (proj2 (Z.eqb_neq _ _)) by lia. apply exec_bind. apply wp_set_mem.
  change (DEVSPACE <? P2V PHYSTOP) with false. cbv iota. apply exec_bind. apply wp_gets. apply exec_bind.
  match goal with |- context [for_each (kmap ?x)] => change x with (sym_data s) end.
  apply wp_kmap_loop.
  - exists l0. rewrite El.
    pose proof (fresh_new_dir s l0 p lk (ld32 (mem s) p) HF' HF0 S1) as F. split; [exact F|]. split; [exact L|].
    pose proof (new_dir_ent s p lk (ld32 (mem s) p)) as E0. split; [intros a _; apply E0|].
    intros a k _ Ha. unfold present in Ha. by rewrite (E0 a) in Ha.
  - intros s1 l1 F L1 E0. by apply (HQ p s1 l1).
  - intros s1 l1 F L1. by apply (HN s1 l1).
Qed.
End setupkvm.

(** ** Pages on the way into an address space *)
Lemma uspace_frame m m' e l d : (forall p b, of_table m d p -> in_page p b -> ld8 m' b = ld8 m b) ->
  uspace m e l d -> uspace m' e l d /\ (forall a, ent m' d a = ent m d a) /\ (forall q, of_table m' d q <-> of_table m d q).
Proof.
  intros Hm HU. assert (Ht : forall x, 0 <= x < 1024 -> tab m' d x = tab m d x) by (apply tab_frame; intros b; apply Hm; by left).
  assert (He : forall a, ent m' d a = ent m d a) by (intros; by apply ent_frame).
  assert (Ho : forall q, of_table m' d q <-> of_table m d q).
  { intros q. unfold of_table. split; (intros [?|(x & Hx & E)]; [by left|right; exists x; split; [done|]]); by rewrite Ht in * by done. }
  split; [|done]. split.
  - eapply pt_ok_frame; [apply HU|done|]. intros b. apply Hm. by left.
  - intros a Ha. unfold present, frame. rewrite He, Ho. by apply (us_frame _ _ _ _ HU).
  - intros a b Ha Hb. unfold present, frame. rewrite !He. by apply (us_inj _ _ _ _ HU).
Qed.

Lemma uspace_list m e l l' d : uspace m e l d -> (forall q, q ∈ l' -> ~ owns m d q) -> uspace m e l' d.
Proof.
  intros [[P1 P2 P3 P4] F I] Hl. split; [|intros a Ha Hp|done].
  - split; [done|intros Hd; apply (Hl d Hd); left; by left| |done]. intros x t Hx E. destruct (P3 x t Hx E) as (? & _ & ?).
    split; [done|]. split; [|done]. intros Ht. apply (Hl t Ht). left. right. by exists x.
  - destruct (F a Ha Hp) as (? & _ & ? & ?). split; [done|]. split; [|done]. intros Hf. apply (Hl _ Hf). right. by exists a.
Qed.

(** Pages can move between the free list and [held], and be written. *)
Lemma building_change h h' d s l s1 l1 s2 l2 : building h d s l s1 l1 -> vm_only s1 s2 -> free_pages s2 l2 ->
  (forall b, (forall p, p ∈ h \/ p ∈ l1 -> ~ in_page p b) -> ld8 (mem s2) b = ld8 (mem s1) b) ->
  (forall q, (q ∈ h \/ q ∈ l1) <-> (q ∈ h' \/ q ∈ l2)) -> (forall q, q ∈ h' -> q ∉ l2) ->
  building h' d s l s2 l2 /\ (forall a, ent (mem s2) d a = ent (mem s1) d a).
Proof.
  intros F O HF M Hq Hd.
  assert (Hun : forall q, q ∈ h \/ q ∈ l1 -> page_ok (sym_end s1) q /\ ~ owns (mem s1) d q).
  { intros q [Hh|Hl]; [by destruct (fr_held _ _ _ _ _ _ F q Hh) as (? & _ & ?)|]. split.
    - pose proof (fp_pages _ _ (fr_free _ _ _ _ _ _ F)) as Hp. by apply (proj1 (Forall_forall _ _) Hp).
    - intros Ho. by destruct (owns_used _ _ _ _ _ (fr_space _ _ _ _ _ _ F) Ho). }
  destruct (uspace_frame (mem s1) (mem s2) (sym_end s1) l1 d) as (HU & He & Ho); [|apply F|].
  { intros p b Hp Hb. apply M. intros q Hqq. destruct (Hun q Hqq) as [Hpq Hno].
    destruct (of_table_page _ _ _ _ _ (us_pt _ _ _ _ (fr_space _ _ _ _ _ _ F)) Hp) as [Hpp _].
    eapply (pages_apart _ p q); [done|done|intros ->; apply Hno; by left|done]. }
  assert (Hown : forall q, owns (mem s2) d q <-> owns (mem s1) d q).
  { intros q. unfold owns. rewrite Ho. by rewrite (frames_in_ext (mem s1)) by (intros; apply He). }
  split; [|done]. split.
  - eapply vm_only_trans; [apply F|done].
  - done.
  - intros q. rewrite (fr_list _ _ _ _ _ _ F), Hown. pose proof (Hq q). tauto.
  - intros q Hq'. rewrite (vm_only_end _ _ O), Hown. destruct (Hun q) as [? ?]; [apply Hq; by left|]. auto.
  - rewrite (vm_only_end _ _ O). eapply uspace_list; [exact HU|]. intros q Hq2. rewrite Hown.
    apply (Hun q). apply Hq. by right.
  - intros b Hb. rewrite M; [by apply F|]. intros p Hp. apply Hb. rewrite (fr_list _ _ _ _ _ _ F). tauto.
Qed.

(** The page [p] becomes the page of the user at address [k]. *)
Section map_page.
Context (h : list Z) (p k fl : Z) (d : Z) (s : kst) (l : list Z) (s1 : kst) (l1 : list Z) (s2 : kst) (l2 : list Z).
Hypothesis F : building (p :: h) d s l s1 l1.
Hypothesis Hph : p ∉ h.
Hypothesis Hend : KERNBASE < sym_end s1.
Hypothesis G : grown d s1 l1 s2 l2.
Hypothesis Hk : 0 <= k < KERNBASE.
Hypothesis Hkm : k mod PGSIZE = 0.
Hypothesis Hfl : 0 <= fl < PGSIZE.
Hypothesis Hno : forall a, k <= a < k + PGSIZE -> ~ present (mem s1) d a.
Hypothesis E : forall a, in_u32 a -> ent (mem s2) d a = if decide (k <= a < k + PGSIZE) then pte_of (V2P p) fl else ent (mem s1) d a.

Lemma map_p : page_ok (sym_end s1) p /\ (p ∉ l1) /\ ~ owns (mem s1) d p.
Proof. apply (fr_held _ _ _ _ _ _ F). set_solver. Qed.

Lemma map_ent a : k <= a < k + PGSIZE ->
  present (mem s2) d a /\ frame (mem s2) d a = p /\ PTE_ADDR (ent (mem s2) d a) <> 0 /\ PTE_FLAGS (ent (mem s2) d a) = Z.lor fl PTE_P.
Proof.
  intros Ha. destruct map_p as (Hp & _ & _). destruct (page_ok_V2P _ _ Hp) as [EV HV]. destruct Hp as (Hm & He & Hr).
  assert (Hm' : V2P p mod PGSIZE = 0) by (rewrite EV; unfold KERNBASE, PGSIZE in *; by rewrite Zminus_mod, Hm).
  unfold present, frame. rewrite E by (unfold in_u32, KERNBASE, PGSIZE in *; lia). rewrite decide_True by done.
  rewrite pte_of_eq by done. pose proof (lor_P_range fl Hfl). rewrite PTE_ADDR_add by done. split; [|split; [|split]].
  - rewrite flag_P_add by done. by rewrite lor_P_odd by lia.
  - rewrite EV. unfold P2V. rewrite u32_small; [lia|]. unfold in_u32, KERNBASE, PHYSTOP in *. lia.
  - lia.
  - unfold PTE_FLAGS. change 0xFFF with (Z.ones 12). rewrite Z.land_ones by lia. change (2^12) with PGSIZE.
    rewrite <-Z.add_mod_idemp_l, Hm' by done. apply Z.mod_small. lia.
Qed.

Lemma map_ent_other a : 0 <= a < KERNBASE -> ~ (k <= a < k + PGSIZE) -> ent (mem s2) d a = ent (mem s1) d a.
Proof. intros Ha Hn. rewrite E by (unfold in_u32, KERNBASE in *; lia). by rewrite decide_False. Qed.

Lemma map_frames q : frames_in (mem s2) d 0 KERNBASE q <-> q = p \/ frames_in (mem s1) d 0 KERNBASE q.
Proof.
  split.
  - intros (a & Ha & Hp & <-). destruct (decide (k <= a < k + PGSIZE)) as [Hin|Hn]; [left; by apply map_ent|].
    right. exists a. unfold present, frame in *. by rewrite map_ent_other in * by done.
  - intros [->|(a & Ha & Hp & <-)].
    + exists k. split; [done|]. destruct (map_ent k) as (? & ? & _); [unfold PGSIZE; lia|done].
    + assert (~ (k <= a < k + PGSIZE)) by (intros Hin; by apply (Hno a)).
      exists a. unfold present, frame in *. by rewrite map_ent_other by done.
Qed.

Lemma map_tables q : of_table (mem s2) d q -> q <> p /\ (of_table (mem s1) d q \/ q ∈ l1 /\ q ∉ l2).
Proof.
  intros Hq%(gr_pages _ _ _ _ _ G). split; [|done]. intros ->. destruct map_p as (_ & ? & Ho).
  destruct Hq as [?|[? _]]; [apply Ho; by left|done].
Qed.

Lemma map_uspace : uspace (mem s2) (sym_end s2) l2 d.
Proof.
  pose proof (fr_space _ _ _ _ _ _ F) as HU. destruct map_p as (Hpp & Hpl & Hpo). destruct (gr_taken _ _ _ _ _ G) as (u & El).
  rewrite (vm_only_end _ _ (gr_only _ _ _ _ _ G)). split.
  - rewrite <-(vm_only_end _ _ (gr_only _ _ _ _ _ G)). apply G.
  - intros a Ha Hp. destruct (decide (k <= a < k + PGSIZE)) as [Hin|Hn].
    + destruct (map_ent a Hin) as (_ & -> & Hnz & _). split; [done|]. split; [set_solver|]. split; [|done].
      by intros [? _]%map_tables.
    + unfold present, frame in *. rewrite map_ent_other in * by done.
      destruct (us_frame _ _ _ _ HU a Ha Hp) as (F1 & F2 & F3 & F4). split; [done|]. split; [set_solver|]. split; [|done].
      intros [_ [?|[? _]]]%map_tables; done.
  - assert (Hnp : forall a, 0 <= a < KERNBASE -> present (mem s1) d a -> frame (mem s1) d a <> p).
    { intros a Ha Hp Ef. apply Hpo. right. by exists a. }
    intros a b Ha Hb Hpa Hpb Ef.
    destruct (decide (k <= a < k + PGSIZE)) as [Ia|Na]; destruct (decide (k <= b < k + PGSIZE)) as [Ib|Nb].
    + apply (same_page_aligned k a Hkm) in Ia. apply (same_page_aligned k b Hkm) in Ib. congruence.
    + destruct (map_ent a Ia) as (_ & Ea & _). unfold present, frame in *. rewrite (map_ent_other b) in * by done. by destruct (Hnp b Hb Hpb); congruence.
    + destruct (map_ent b Ib) as (_ & Eb & _). unfold present, frame in *. rewrite (map_ent_other a) in * by done. by destruct (Hnp a Ha Hpa); congruence.
    + unfold present, frame in *. rewrite !map_ent_other in * by done. by apply (us_inj _ _ _ _ HU).
Qed.

Lemma building_map : building h d s l s2 l2.
Proof.
  destruct map_p as (Hpp & Hpl & Hpo). destruct (gr_taken _ _ _ _ _ G) as (u & El). split.
  - eapply vm_only_trans; [apply F|apply G].
  - apply G.
  - intros q. rewrite (fr_list _ _ _ _ _ _ F), elem_of_cons. unfold owns. rewrite map_frames. split.
    + intros [[->|?]|[Hl|[Ht|?]]]; [tauto|tauto| |right; right; left; apply (gr_used _ _ _ _ _ G); by left|tauto].
      destruct (decide (q ∈ l2)); [tauto|]. right; right; left. apply (gr_used _ _ _ _ _ G). by right.
    + intros [?|[Hl|[Ht|[->|?]]]]; [tauto|right; left; set_solver| |tauto|tauto].
      apply map_tables in Ht as [_ [?|[? _]]]; tauto.
  - intros q Hq. destruct (fr_held _ _ _ _ _ _ F q) as (? & ? & Ho); [set_solver|].
    rewrite (vm_only_end _ _ (gr_only _ _ _ _ _ G)). split; [done|]. split; [set_solver|].
    intros [[_ [?|[? _]]]%map_tables|[->|?]%map_frames]; [apply Ho; by left|done|done|apply Ho; by right].
  - exact map_uspace.
  - intros b Hb. rewrite (gr_frame _ _ _ _ _ G); [by apply F|].
    intros q Hq. apply Hb. rewrite (fr_list _ _ _ _ _ _ F). right. destruct Hq as [[? _]|?]; [by left|by right; left].
Qed.
End map_page.

(** [mappages] of one page; when it fails no entry has changed. *)
Lemma wp_map_one Out In d s i n H l a pa perm (Q : Z -> kst -> Prop) :
  lctx (klk s) i n H -> kmem_lock ∉ H -> free_pages s l -> pt_ok (mem s) (sym_end s) l d ->
  0 <= a -> a mod PGSIZE = 0 -> a + PGSIZE <= 2^32 -> 0 <= pa -> pa mod PGSIZE = 0 -> pa + PGSIZE <= 2^32 -> 0 <= perm < PGSIZE ->
  flag (ent (mem s) d a) PTE_P = false ->
  (forall s' l', grown d s l s' l' -> lctx (klk s') i n H ->
    (forall va, in_u32 va -> ent (mem s') d va = if decide (a <= va < a + PGSIZE) then pte_of pa perm else ent (mem s) d va) -> Q 0 s') ->
  (forall s', grown d s l s' [] -> lctx (klk s') i n H -> (forall va, ent (mem s') d va = ent (mem s) d va) -> Q (-1) s') ->
  wp Out In Q (mappages d a PGSIZE pa perm s).
Proof.
  intros HL Hk HF HP H0 Hm He Hp0 Hpm Hpe Hperm Hun HQ HN. unfold mappages.
  rewrite u32_small by (unfold in_u32, PGSIZE in *; lia).
  rewrite (PGROUNDDOWN_in a a), (PGROUNDDOWN_in a (a + PGSIZE - 1)) by (try done; unfold PGSIZE; lia).
  assert (Hf : (0 < page_fuel)%nat) by (unfold page_fuel; lia). destruct page_fuel as [|f]; [lia|]. cbn [mappages_loop].
  eapply wp_map_page; [exact HL|exact Hk|exact HF|exact HP|unfold in_u32, PGSIZE in *; lia|by apply pte_of_range|exact Hun| |exact HN].
  intros s1 l1 G1 L1 E1. rewrite Z.eqb_refl. apply (HQ s1 l1); [done|done|].
  intros va Hva. rewrite E1 by done. pose proof (same_page_aligned a va Hm) as Hs. repeat case_decide; tauto.
Qed.

(** ** copyuvm *)
Lemma free_pages_write s l f : free_pages s l -> mem_ok (f (mem s)) ->
  (forall q b, q ∈ l -> in_page q b -> ld8 (f (mem s)) b = ld8 (mem s) b) -> free_pages (s <| mem ::= f |>) l.
Proof.
  intros [Hfl Hnd Hpg Hm He] Hm' Hf. split; try done. eapply flist_frame; [|exact Hfl].
  intros q b Hq Hb. apply (Hf q b Hq). unfold in_page, PGSIZE. lia.
Qed.

Lemma PTE_FLAGS_range e : 0 <= PTE_FLAGS e < PGSIZE.
Proof. unfold PTE_FLAGS. change 0xFFF with (Z.ones 12). rewrite Z.land_ones by lia. change PGSIZE with (2^12). apply Z.mod_pos_bound. lia. Qed.
Lemma PTE_FLAGS_P e : flag e PTE_P = true -> Z.lor (PTE_FLAGS e) PTE_P = PTE_FLAGS e.
Proof.
  intros Hp. assert (Hb : Z.testbit e 0 = true).
  { rewrite flag_P in Hp. pose proof (Z.bit0_mod e) as B. destruct (Z.testbit e 0); [done|]. by rewrite <-B in Hp. }
  apply Z.bits_inj'. intros j Hj. unfold PTE_FLAGS, PTE_P. rewrite Z.lor_spec, Z.land_spec.
  destruct (Z.eq_dec j 0) as [->|Hne]; [by rewrite Hb|]. rewrite (Z.bits_above_log2 1 j) by (simpl; lia). by rewrite orb_false_r.
Qed.

Section copyuvm.
Context (pgdir sz : Z) (s : kst) (i : nat) (n : Z) (H : gset lockid) (l : list Z).
Hypothesis Hk : kmem_lock ∉ H.
Hypothesis HF : free_pages s l.
Hypothesis HU : uspace (mem s) (sym_end s) l pgdir.
Hypothesis Hend : KERNBASE < sym_end s.
Hypothesis Hsz : 0 <= sz <= KERNBASE.
Hypothesis Hpres : forall a, 0 <= a < sz -> present (mem s) pgdir a.

(** The address space that is copied stays as it is. *)
Lemma parent_ld8 h d s1 l1 p b : building h d s l s1 l1 -> owns (mem s) pgdir p -> in_page p b -> ld8 (mem s1) b = ld8 (mem s) b.
Proof.
  intros F Ho Hb. destruct (owns_used _ _ _ _ _ HU Ho) as [Hp Hl]. apply (fr_frame _ _ _ _ _ _ F). intros q Hq.
  eapply (pages_apart _ p q); [exact Hp| |by intros ->|done]. by apply (proj1 (Forall_forall _ _) (fp_pages _ _ HF)).
Qed.

Lemma parent_ent h d s1 l1 a : building h d s l s1 l1 ->
  ent (mem s1) pgdir a = ent (mem s) pgdir a /\ tab (mem s1) pgdir (PDX a) = tab (mem s) pgdir (PDX a).
Proof.
  intros F. split.
  - apply ent_frame. intros p b Hp. apply (parent_ld8 h d s1 l1); [done|by left].
  - apply tab_frame; [|apply PDX_range]. intros b. apply (parent_ld8 h d s1 l1); [done|]. left. by left.
Qed.

(** The pages below [k] are copies. *)
Definition copied (d k : Z) (s1 : kst) : Prop := forall a, 0 <= a < KERNBASE ->
  (present (mem s1) d a <-> a < k) /\
  (a < k -> PTE_FLAGS (ent (mem s1) d a) = PTE_FLAGS (ent (mem s) pgdir a) /\
    ld8 (mem s1) (frame (mem s1) d a + a mod PGSIZE) = ld8 (mem s) (frame (mem s) pgdir a + a mod PGSIZE)).

Section step.
Context (d k p : Z) (s1 s3 s4 : kst) (l1 l4 : list Z).
Hypothesis F : building [] d s l s1 (p :: l1).
Hypothesis F3 : building [p] d s l s3 l1.
Hypothesis E3 : forall a, ent (mem s3) d a = ent (mem s1) d a.
Hypothesis G : grown d s3 l1 s4 l4.
Hypothesis Hks : 0 <= k < sz.
Hypothesis Hkm : k mod PGSIZE = 0.
Hypothesis HC : copied d k s1.
Hypothesis M3 : forall b, ld8 (mem s3) b = if decide (in_page p b) then ld8 (mem s1) (frame (mem s) pgdir k + (b - p)) else ld8 (mem s1) b.
Hypothesis E4 : forall a, in_u32 a -> ent (mem s4) d a =
  if decide (k <= a < k + PGSIZE) then pte_of (V2P p) (PTE_FLAGS (ent (mem s) pgdir k)) else ent (mem s3) d a.

Lemma step_end : KERNBASE < sym_end s3.
Proof. by rewrite (vm_only_end _ _ (fr_only _ _ _ _ _ _ F3)). Qed.
Lemma step_top : k + PGSIZE <= KERNBASE.
Proof. unfold KERNBASE, PGSIZE in *. pose proof (Z.div_mod k 4096 ltac:(lia)). lia. Qed.
Lemma step_no a : k <= a < k + PGSIZE -> ~ present (mem s3) d a.
Proof. intros Ha. pose proof step_top. unfold present. rewrite E3. intros Hp. apply HC in Hp; lia. Qed.

(** The owned pages are not written by [mappages]. *)
Lemma step_ld8 q b : page_ok (sym_end s3) q -> (q ∉ l1) -> ~ of_table (mem s3) d q -> in_page q b -> ld8 (mem s4) b = ld8 (mem s3) b.
Proof.
  intros Hq Hl Ho Hb. apply (gr_frame _ _ _ _ _ G). intros r Hr. eapply (pages_apart _ q r); [exact Hq| | |done].
  - destruct Hr as [[Hr _]|Hr]; [|by destruct (of_table_page _ _ _ _ _ (us_pt _ _ _ _ (fr_space _ _ _ _ _ _ F3)) Hr)].
    by apply (proj1 (Forall_forall _ _) (fp_pages _ _ (fr_free _ _ _ _ _ _ F3))).
  - intros ->. destruct Hr as [[? _]|?]; done.
Qed.

Lemma step_copied : copied d (k + PGSIZE) s4.
Proof.
  pose proof step_top as Htop. intros a Ha. destruct (fr_held _ _ _ _ _ _ F3 p) as (Hp & Hpl & Hpo); [set_solver|].
  pose proof (Z.mod_pos_bound a PGSIZE ltac:(done)) as Hmod.
  destruct (decide (k <= a < k + PGSIZE)) as [Hin|Hn].
  - destruct (map_ent [] p k _ d s l s3 l1 s4 l4 F3 (not_elem_of_nil _) step_end G ltac:(lia) Hkm (PTE_FLAGS_range _) step_no E4 a Hin)
      as (Hpr & Hfr & _ & Hfl).
    assert (Hea : ent (mem s) pgdir a = ent (mem s) pgdir k).
    { apply ent_page; [unfold in_u32, KERNBASE, PGSIZE in *; lia..|]. by apply same_page_aligned. }
    split; [split; [lia|done]|]. intros _. rewrite Hfl, Hea, PTE_FLAGS_P by (apply Hpres; lia). split; [done|].
    assert (Hb : in_page p (p + a mod PGSIZE)) by (unfold in_page; lia).
    unfold frame at 2. rewrite Hea. fold (frame (mem s) pgdir k). rewrite Hfr, (step_ld8 p) by (try done; intros ?; apply Hpo; by left).
    rewrite M3, decide_True by done. rewrite Z.add_simpl_l.
    apply (parent_ld8 [] d s1 (p :: l1) (frame (mem s) pgdir k)); [done| |unfold in_page; lia].
    right. exists k. split; [lia|]. split; [by apply Hpres|done].
  - assert (He : ent (mem s4) d a = ent (mem s1) d a).
    { rewrite E4 by (unfold in_u32, KERNBASE in *; lia). by rewrite decide_False, E3. }
    destruct (HC a Ha) as [HC1 HC2]. unfold present. rewrite He. split; [split; [intros ?%HC1; lia|intros ?; apply HC1; lia]|].
    intros Hlt. assert (Hak : a < k) by lia. destruct (HC2 Hak) as [-> HC3]. split; [done|]. rewrite <-HC3.
    assert (Hpr : present (mem s1) d a) by (by apply HC1). unfold frame at 1. rewrite He. fold (frame (mem s1) d a).
    destruct (us_frame _ _ _ _ (fr_space _ _ _ _ _ _ F) a Ha Hpr) as (Q1 & Q2 & Q3 & _). apply not_elem_of_cons in Q2 as [Qp Ql].
    set (q := frame (mem s1) d a) in *. assert (Hb : in_page q (q + a mod PGSIZE)) by (unfold in_page; lia).
    assert (Hes : sym_end s3 = sym_end s1) by (rewrite (vm_only_end _ _ (fr_only _ _ _ _ _ _ F3)); symmetry; apply (vm_only_end _ _ (fr_only _ _ _ _ _ _ F))).
    rewrite (step_ld8 q); [|by rewrite Hes|done| |done].
    + rewrite M3, decide_False; [done|]. eapply (pages_apart _ q p); [exact Q1|by rewrite <-Hes|done|done].
    + assert (Hq3 : present (mem s3) d a /\ frame (mem s3) d a = q) by (unfold present, frame; by rewrite E3).
      destruct Hq3 as [Hp3 Hf3]. destruct (us_frame _ _ _ _ (fr_space _ _ _ _ _ _ F3) a Ha Hp3) as (_ & _ & Q & _). by rewrite Hf3 in Q.
Qed.
End step.

(** The page is taken off the free list and filled. *)
Lemma take_page d s1 l1 k lk : fresh d s l s1 l1 -> l1 <> [] -> 0 <= k < sz ->
  let s2 := s1 <| klk := lk |> <| freelist := ld32 (mem s1) (freelist s1) |> in
  let s3 := s2 <| mem ::= fun m => memmove m (freelist s1) (frame (mem s) pgdir k) PGSIZE |> in
  lk_static lk = lk_static (klk s1) -> free_pages s2 (tail l1) ->
  l1 = freelist s1 :: tail l1 /\ building [freelist s1] d s l s3 (tail l1) /\
  (forall a, ent (mem s3) d a = ent (mem s1) d a) /\
  (forall b, ld8 (mem s3) b = if decide (in_page (freelist s1) b) then ld8 (mem s1) (frame (mem s) pgdir k + (b - freelist s1)) else ld8 (mem s1) b).
Proof.
  intros F Hl Hks s2 s3 Hlk HF2. pose proof (fr_free _ _ _ _ _ _ F) as HF1.
  destruct (free_head s1 l1 HF1 Hl) as (l0 & El). set (p := freelist s1) in *. rewrite El in *. cbn [tail] in *.
  assert (M3 : forall b, ld8 (mem s3) b = if decide (in_page p b) then ld8 (mem s1) (frame (mem s) pgdir k + (b - p)) else ld8 (mem s1) b).
  { intros b. change (mem s3) with (memmove (mem s1) p (frame (mem s) pgdir k) PGSIZE).
    rewrite ld8_memmove by (try done; apply HF1). unfold in_page. by repeat case_decide. }
  pose proof (fp_pages _ _ HF1) as Hpg. pose proof (fp_nodup _ _ HF1) as Hnd. inversion Hpg as [|?? Hp Hpl]; subst.
  inversion Hnd as [|?? Hpn _]; subst.
  assert (HF3 : free_pages s3 l0).
  { apply free_pages_write; [done|by apply mem_ok_memmove, HF1|]. intros q b Hq Hb. change (ld8 (mem s3) b = ld8 (mem s1) b).
    rewrite M3, decide_False; [done|]. eapply (pages_apart _ q p); [by apply (proj1 (Forall_forall _ _) Hpl)|exact Hp|by intros ->|done]. }
  destruct (building_change [] [p] d s l s1 (p :: l0) s3 l0) as [B E3]; [done| |done| |set_solver|set_solver|].
  - by exists lk, (mem s3), (ld32 (mem s1) p).
  - intros b Hb. rewrite M3, decide_False; [done|]. apply Hb. set_solver.
  - done.
Qed.

(** The page goes back to the free list. *)
Lemma give_page d s4 p lk : building [p] d s l s4 [] -> lk_static lk = lk_static (klk s4) ->
  let s5 := s4 <| klk := lk |> <| mem ::= fun m => freed_mem m p (freelist s4) |> <| freelist := p |> in
  free_pages s5 [p] -> fresh d s l s5 [p].
Proof.
  intros F Hlk s5 HF5. apply (building_change [p] [] d s l s4 [] s5 [p]); [done| |done| |set_solver|set_solver].
  - by exists lk, (mem s5), p.
  - intros b Hb. change (ld8 (freed_mem (mem s4) p (freelist s4)) b = ld8 (mem s4) b). apply ld8_freed.
    pose proof (Hb p ltac:(set_solver)) as Hp. unfold in_page in Hp. lia.
Qed.

Lemma wp_copy_page Out In d k p s1 l1 s3 (rest : K bool) (Q : bool -> kst -> Prop) :
  fresh d s l s1 (p :: l1) -> building [p] d s l s3 l1 -> (forall a, ent (mem s3) d a = ent (mem s1) d a) ->
  (forall b, ld8 (mem s3) b = if decide (in_page p b) then ld8 (mem s1) (frame (mem s) pgdir k + (b - p)) else ld8 (mem s1) b) ->
  lctx (klk s3) i n H -> copied d k s1 -> 0 <= k < sz -> k mod PGSIZE = 0 ->
  (forall s4 l4, fresh d s l s4 l4 -> lctx (klk s4) i n H -> copied d (k + PGSIZE) s4 -> wp Out In Q (rest s4)) ->
  (forall s' l', fresh d s l s' l' -> lctx (klk s') i n H -> Q false s') ->
  wp Out In Q ((r ← mappages d k PGSIZE (V2P p) (PTE_FLAGS (ent (mem s) pgdir k));
    if r <? 0 then kfree p;; mret false else rest) s3).
Proof.
  intros F F3 E3 M3 L HC Hks Hm HQ HN. destruct (fr_held _ _ _ _ _ _ F3 p) as (Hp & Hpl & _); [set_solver|].
  destruct (page_ok_V2P _ _ Hp) as [EV HV]. apply exec_bind.
  assert (Hm' : V2P p mod PGSIZE = 0).
  { rewrite EV. destruct Hp as (Hpm & _). unfold KERNBASE, PGSIZE in *. by rewrite Zminus_mod, Hpm. }
  eapply wp_map_one; [exact L|exact Hk|apply F3|apply F3|lia|exact Hm|unfold KERNBASE, PGSIZE in *; lia|lia|exact Hm'
    |unfold PHYSTOP, PGSIZE in *; lia|apply PTE_FLAGS_range|..].
  - apply not_true_is_false. eapply (step_no d k s1 s3); [done|done|done|done|unfold PGSIZE; lia].
  - intros s4 l4 G L4 E4. cbn [Z.ltb Z.compare]. apply (HQ s4 l4); [|exact L4|].
    + eapply building_map; [exact F3|apply not_elem_of_nil| |exact G| |exact Hm|apply PTE_FLAGS_range| |exact E4]; [|lia|].
      * by rewrite (vm_only_end _ _ (fr_only _ _ _ _ _ _ F3)).
      * intros a. by eapply step_no.
    + by eapply (step_copied d k p s1 s3 s4 l1 l4).
  - intros s4 G L4 E4. cbn [Z.ltb Z.compare].
    pose proof (building_grown [p] d s l s3 l1 s4 [] F3 G (fun a _ => E4 a)) as F4. apply exec_bind.
    destruct (fr_held _ _ _ _ _ _ F4 p) as (Hp4 & _); [set_solver|].
    eapply wp_kfree; [exact L4|exact Hk|apply F4|exact Hp4|apply not_elem_of_nil|]. intros lk L5 S5 s5 HF5.
    apply wp_ret. apply (HN s5 [p]); [|exact L5]. by apply give_page.
Qed.

Lemma wp_copyuvm_loop Out In d (Q : bool -> kst -> Prop) :
  (forall s' l', fresh d s l s' l' -> lctx (klk s') i n H -> copied d (PGROUNDUP sz) s' -> Q true s') ->
  (forall s' l', fresh d s l s' l' -> lctx (klk s') i n H -> Q false s') ->
  forall fuel s1 l1 k, fresh d s l s1 l1 -> lctx (klk s1) i n H -> copied d k s1 -> k mod PGSIZE = 0 ->
  0 <= k <= PGROUNDUP sz -> PGROUNDUP sz - k <= PGSIZE * Z.of_nat fuel ->
  wp Out In Q (copyuvm_loop fuel d pgdir k sz s1).
Proof.
  intros HQ HN. destruct (PGROUNDUP_spec sz) as [Hr Hrm]; [lia|unfold KERNBASE, PGSIZE in *; lia|].
  assert (Hend' : forall k, k mod PGSIZE = 0 -> 0 <= k <= PGROUNDUP sz -> (k < sz -> k + PGSIZE <= PGROUNDUP sz) /\ (sz <= k -> k = PGROUNDUP sz)).
  { intros k Hm Hk'. unfold PGSIZE in *. pose proof (Z.div_mod k 4096 ltac:(lia)). pose proof (Z.div_mod (PGROUNDUP sz) 4096 ltac:(lia)). lia. }
  induction fuel as [|fuel IH]; intros s1 l1 k F L HC Hm Hkr Hfuel; cbn [copyuvm_loop];
    (destruct (Z.ltb_spec k sz) as [Hlt|Hge]; [|apply wp_ret; apply (HQ s1 l1); [done|done|]; by rewrite <-(proj2 (Hend' k Hm Hkr) Hge)]).
  { unfold PGSIZE in *. lia. }
  assert (Hks : 0 <= k < sz) by lia. pose proof (Hpres k Hks) as Hpk. destruct (parent_ent [] d s1 l1 k F) as [Ee Et].
  apply exec_bind. apply wp_walk_find. rewrite Et. unfold present, ent in Hpk.
  destruct (tab (mem s) pgdir (PDX k)) as [t|] eqn:Htab; [|done].
  destruct (pt_tab _ _ _ _ (us_pt _ _ _ _ HU) _ _ (PDX_range k) Htab) as (Htp & _). pose proof (PTX_range k).
  destruct (page_ok_range _ _ Htp). rewrite (proj2 (Z.eqb_neq _ _)) by lia. apply exec_bind. apply wp_gets.
  assert (Eld : ld32 (mem s1) (t + 4 * PTX k) = ent (mem s) pgdir k) by (rewrite <-Ee; unfold ent; by rewrite Et).
  rewrite Eld. rewrite (Hpres k Hks : flag _ _ = true). cbn [negb]. apply exec_bind.
  eapply wp_kalloc; [exact L|exact Hk|apply F|..].
  2: { intros lk L' S' ->. cbn [Z.eqb]. apply wp_ret. apply (HN _ []); [|exact L'].
    eapply building_change; [exact F| |by destruct (fr_free _ _ _ _ _ _ F)|done|done|set_solver].
    exists lk, (mem s1), (freelist s1). split; [by destruct s1|done]. }
  intros lk L' S' HF2 Hne. destruct (take_page d s1 l1 k lk F Hne Hks S' HF2) as (El & F3 & E3 & M3).
  destruct (fr_held _ _ _ _ _ _ F3 (freelist s1)) as (Hp & _); [set_solver|].
  destruct (page_ok_range _ _ Hp). rewrite (proj2 (Z.eqb_neq _ _)) by lia. apply exec_bind. apply wp_set_mem.
  rewrite El in F. pose proof (proj1 (Hend' k Hm Hkr) Hlt) as Hnext.
  eapply wp_copy_page; [exact F|exact F3|exact E3|exact M3|exact L'|exact HC|exact Hks|exact Hm| |exact HN].
  intros s4 l4 F4 L4 HC4. rewrite u32_small by (unfold in_u32, KERNBASE, PGSIZE in *; lia).
  apply (IH s4 l4); [done|done|done| |unfold PGSIZE in *; lia|unfold PGSIZE in *; lia].
  pose proof (aligned_add k 1 Hm) as Ea. by rewrite Z.mul_1_r in Ea.
Qed.
End copyuvm.

Lemma wp_copyuvm Out In pgdir sz s i n H l (Q : Z -> kst -> Prop) :
  lctx (klk s) i n H -> kmem_lock ∉ H -> free_pages s l -> uspace (mem s) (sym_end s) l pgdir ->
  data_ok (sym_data s) -> KERNBASE < sym_end s -> 0 <= sz <= KERNBASE ->
  (forall a, 0 <= a < sz -> present (mem s) pgdir a) ->
  (forall d s' l', fresh d s l s' l' -> lctx (klk s') i n H -> copied pgdir s d (PGROUNDUP sz) s' -> Q d s') ->
  (forall s' l', same_free s l s' l' -> lctx (klk s') i n H -> Q 0 s') ->
  wp Out In Q (copyuvm pgdir sz s).
Proof.
  intros HL Hk HF HU Hdata Hend Hsz Hpres HQ HN. unfold copyuvm. apply exec_bind.
  destruct (PGROUNDUP_spec sz) as [Hr _]; [lia|unfold KERNBASE, PGSIZE in *; lia|].
  eapply wp_setupkvm; [exact HL|exact Hk|exact HF|exact Hdata| |exact HN]. intros d s1 l1 F L E0.
  destruct (page_ok_range _ _ (pt_dir _ _ _ _ (us_pt _ _ _ _ (fr_space _ _ _ _ _ _ F)))) as [Hd _].
  rewrite (proj2 (Z.eqb_neq _ _)) by lia. apply exec_bind.
  eapply wp_copyuvm_loop; [exact Hk|exact HF|exact HU|exact Hend|exact Hsz|exact Hpres| | |exact F|exact L| |done|lia|].
  - intros s' l' F' L' C. apply wp_ret. by apply (HQ d s' l').
  - intros s' l' F' L'. apply exec_bind. eapply wp_freevm; [exact L'|exact Hk|apply F'|apply F'|].
    intros s2 l2 R L2. apply wp_ret. apply (HN s2 l2); [|exact L2]. by eapply fresh_released.
  - intros a Ha. unfold present. rewrite E0 by done. split; [split; [done|lia]|lia].
  - unfold page_fuel, KERNBASE, PGSIZE in *. lia.
Qed.

(** C19: The copy of an address space, as [fork] makes it: either [copyuvm] returns a
    directory whose address space consists of pages that were free, with the same
    addresses mapped, the same permissions and the same bytes; or it returns 0 and
    exactly the pages are free that were free before. The address space that is
    copied does not change. *)
Theorem copyuvm_copies (pgdir sz : Z) (s : kst) (i : nat) (n : Z) (H : gset lockid) (l : list Z)
    (HL : lctx (klk s) i n H) (Hk : kmem_lock ∉ H) (HF : free_pages s l) (HU : uspace (mem s) (sym_end s) l pgdir)
    (Hdata : data_ok (sym_data s)) (Hend : KERNBASE < sym_end s) (Hsz : 0 <= sz <= KERNBASE)
    (Hpres : forall a, 0 <= a < sz -> present (mem s) pgdir a) :
  exists d s' l', copyuvm pgdir sz s = Ret d s' /\ free_pages s' l' /\ lctx (klk s') i n H /\
    (forall p b, owns (mem s) pgdir p -> in_page p b -> ld8 (mem s') b = ld8 (mem s) b) /\
    ((uspace (mem s') (sym_end s') l' d /\ copied pgdir s d (PGROUNDUP sz) s' /\ (forall q, q ∈ l <-> q ∈ l' \/ owns (mem s') d q)) \/
     (d = 0 /\ forall q, q ∈ l' <-> q ∈ l)).
Proof.
  match goal with |- exists d s' l', _ = _ /\ @?P d s' l' =>
    destruct (wp_returns (fun _ => True) (fun d s' => exists l', P d s' l') (copyuvm pgdir sz s))
      as (d & s' & E & l' & HQ); [|exists d, s', l'; by split] end.
  apply (wp_copyuvm _ _ pgdir sz s i n H l); try done.
  - intros d s' l' F L C. exists l'. split; [apply F|]. split; [exact L|]. split; [intros p b; by eapply parent_ld8|].
    left. split; [apply F|]. split; [exact C|]. intros q. rewrite (fr_list _ _ _ _ _ _ F), elem_of_nil. tauto.
  - intros s' l' S L. exists l'. split; [apply S|]. split; [exact L|]. split; [|right; split; [done|apply S]].
    intros p b Ho Hb. destruct (owns_used _ _ _ _ _ HU Ho) as [Hp Hl]. apply (sf_frame _ _ _ _ S). intros q Hq.
    eapply (pages_apart _ p q); [exact Hp|by apply (proj1 (Forall_forall _ _) (fp_pages _ _ HF))|by intros ->|done].
Qed.

(** ** An address space of one page, on the sample machine *)
Lemma free_pages_tail s p l lk : free_pages s (p :: l) -> free_pages (s <| klk := lk |> <| freelist := ld32 (mem s) p |>) l.
Proof. intros [[_ Hfl] Hnd Hpg Hm He]. inversion Hnd; inversion Hpg; subst. by split. Qed.

Definition space_dir (s : kst) (d : Z) : kst :=
  s <| klk := klk s |> <| freelist := ld32 (mem s) d |> <| mem ::= fun m => memset m d 0 PGSIZE |>.
Definition space_held (s : kst) (d p : Z) : kst :=
  (space_dir s d) <| klk := klk (space_dir s d) |> <| freelist := ld32 (mem (space_dir s d)) p |>.

Lemma space_building s d p l : free_pages s (d :: p :: l) ->
  building [p] d s (d :: p :: l) (space_held s d p) l /\ forall a, ent (mem (space_held s d p)) d a = 0.
Proof.
  intros HF. assert (F : fresh d s (d :: p :: l) (space_dir s d) (p :: l)).
  { apply fresh_new_dir; [exact HF|by apply free_pages_tail|done]. }
  split; [|apply (new_dir_ent s d (klk s) (ld32 (mem s) d))].
  eapply building_change; [exact F|by exists (klk (space_dir s d)), (mem (space_dir s d)), (ld32 (mem (space_dir s d)) p)
    |apply free_pages_tail, F|done|set_solver|].
  intros q ->%list_elem_of_singleton. pose proof (fp_nodup _ _ (fr_free _ _ _ _ _ _ F)) as Hnd. by inversion Hnd.
Qed.

(** One page is mapped at address 0, if there is a page for the table. *)
Lemma space_mapped s d p l i n H r s' : free_pages s (d :: p :: l) -> lctx (klk s) i n H -> kmem_lock ∉ H -> KERNBASE < sym_end s ->
  mappages d 0 PGSIZE (V2P p) (Z.lor PTE_W PTE_U) (space_held s d p) = Ret r s' -> r = 0 ->
  exists l', fresh d s (d :: p :: l) s' l' /\ lctx (klk s') i n H /\ forall a, 0 <= a < PGSIZE -> present (mem s') d a.
Proof.
  intros HF HL Hk Hend E Hr. destruct (space_building s d p l HF) as [B Hno].
  destruct (fr_held _ _ _ _ _ _ B p) as (Hp & _); [set_solver|]. destruct (page_ok_V2P _ _ Hp) as [EV HV].
  assert (Hm' : V2P p mod PGSIZE = 0).
  { rewrite EV. destruct Hp as (Hpm & _). unfold KERNBASE, PGSIZE in *. by rewrite Zminus_mod, Hpm. }
  assert (W : wp (fun _ => False) (fun _ => True) (fun r s' => r = 0 -> exists l', fresh d s (d :: p :: l) s' l' /\
    lctx (klk s') i n H /\ forall a, 0 <= a < PGSIZE -> present (mem s') d a)
    (mappages d 0 PGSIZE (V2P p) (Z.lor PTE_W PTE_U) (space_held s d p))).
  { eapply (wp_map_one _ _ d _ i n H l); [exact HL|exact Hk|apply B|apply B|lia|done|done|lia|exact Hm'
      |unfold PHYSTOP, PGSIZE in *; lia|by vm_compute|by rewrite Hno| |done].
    intros s1 l1 G L E4 _. exists l1. split; [|split; [exact L|]].
    + eapply (building_map [] p 0 (Z.lor PTE_W PTE_U)); [exact B|apply not_elem_of_nil|exact Hend|exact G|done|done|by vm_compute| |exact E4].
      intros a _. unfold present. by rewrite Hno.
    + intros a Ha. destruct (map_ent [] p 0 (Z.lor PTE_W PTE_U) d s (d :: p :: l) (space_held s d p) l s1 l1 B (not_elem_of_nil _) Hend G
        ltac:(done) ltac:(done) ltac:(by vm_compute) (fun a _ => ltac:(unfold present; by rewrite Hno)) E4 a Ha) as [Hpr _]. exact Hpr. }
  rewrite E in W. by apply W.
Qed.

Definition is_zero (o : outcome kst Z) : bool := match o with Ret r _ => r =? 0 | _ => false end.
Lemma outcome_zero (o : outcome kst Z) : is_zero o = true -> exists s', o = Ret 0 s'.
Proof. destruct o as [r s'| | | | |]; try done. intros ->%Z.eqb_eq. by exists s'. Qed.

Lemma sample_maps :
  is_zero (mappages (pg 2) 0 PGSIZE (V2P (pg 0)) (Z.lor PTE_W PTE_U) (space_held sample_pages (pg 2) (pg 0))) = true.
Proof. vm_compute. reflexivity. Qed.

Lemma sample_space : exists s l, lctx (klk s) 1 0 ∅ /\ free_pages s l /\ uspace (mem s) (sym_end s) l (pg 2) /\
  data_ok (sym_data s) /\ KERNBASE < sym_end s /\ forall a, 0 <= a < PGSIZE -> present (mem s) (pg 2) a.
Proof.
  assert (Hk : kmem_lock ∉ (∅ : gset lockid)) by set_solver. assert (Hend : KERNBASE < sym_end sample_pages) by (by vm_compute).
  destruct (outcome_zero _ sample_maps) as (s' & E).
  destruct (space_mapped sample_pages (pg 2) (pg 0) [pg 1] 1 0 ∅ 0 s' sample_free_pages sample_pages_lctx Hk Hend E eq_refl) as (l' & F & L & Hp).
  exists s', l'. split; [exact L|]. split; [apply F|]. split; [apply F|]. split; [|split; [|exact Hp]].
  - destruct (fr_only _ _ _ _ _ _ F) as (lk & m & f & -> & _). change (data_ok (sym_data sample_pages)).
    vm_compute. intuition (discriminate || reflexivity).
  - by rewrite (vm_only_end _ _ (fr_only _ _ _ _ _ _ F)).
Qed.

Lemma copyuvm_copies_witness : exists s l d s' l', uspace (mem s) (sym_end s) l (pg 2) /\ present (mem s) (pg 2) 0 /\
  copyuvm (pg 2) PGSIZE s = Ret d s' /\ free_pages s' l' /\ lctx (klk s') 1 0 ∅ /\
  (forall p b, owns (mem s) (pg 2) p -> in_page p b -> ld8 (mem s') b = ld8 (mem s) b) /\
  ((uspace (mem s') (sym_end s') l' d /\ copied (pg 2) s d (PGROUNDUP PGSIZE) s' /\ (forall q, q ∈ l <-> q ∈ l' \/ owns (mem s') d q)) \/
   (d = 0 /\ forall q, q ∈ l' <-> q ∈ l)).
Proof.
  destruct sample_space as (s & l & L & F & U & D & E & P).
  assert (Hk : kmem_lock ∉ (∅ : gset lockid)) by set_solver. assert (Hsz : 0 <= PGSIZE <= KERNBASE) by (by vm_compute).
  destruct (copyuvm_copies (pg 2) PGSIZE s 1 0 ∅ l L Hk F U D E Hsz P) as (d & s' & l' & R).
  exists s, l, d, s', l'. split; [exact U|]. split; [apply P; by vm_compute|exact R].
Defined.

Lemma freevm_exact_witness : exists s l s' l', uspace (mem s) (sym_end s) l (pg 2) /\ present (mem s) (pg 2) 0 /\
  freevm (pg 2) s = Ret tt s' /\ free_pages s' l' /\ lctx (klk s') 1 0 ∅ /\
  (forall q, q ∈ l' <-> q ∈ l \/ of_table (mem s) (pg 2) q \/ frames_in (mem s) (pg 2) 0 KERNBASE q) /\
  (forall b, (forall p, of_table (mem s) (pg 2) p \/ frames_in (mem s) (pg 2) 0 KERNBASE p -> ~ in_page p b) ->
    ld8 (mem s') b = ld8 (mem s) b).
Proof.
  destruct sample_space as (s & l & L & F & U & _ & _ & P). assert (Hk : kmem_lock ∉ (∅ : gset lockid)) by set_solver.
  destruct (freevm_exact (pg 2) s 1 0 ∅ l L Hk F U) as (s' & l' & R).
  exists s, l, s', l'. split; [exact U|]. split; [apply P; by vm_compute|exact R].
Defined.
