(* ===== verification/PipeSpec.v ===== *)
(** A pipe is a first-in first-out queue of at most 512 bytes (pipe.c). *)
From stdpp Require Import base tactics list numbers strings gmap.
From S2P Require Import Prelude Ring CString FsTypes State Spinlock Console Kalloc Vm Sched Process Args Sleeplock Pipe SchedInv Sample SchedOps Policy Dispatch Calls WakeSpec MemSpec.

#[local] Open Scope Z_scope.

(** ** The ring buffer as a queue *)

(** [nwrite - nread], which the counters' wrap-around does not disturb. *)
Definition pipe_count (x : pipe) : Z := u32 (p_nwrite x - p_nread x).
Definition contents (x : pipe) : list Z :=
  ring PIPESIZE (p_data x) (p_nread x) (Z.to_nat (pipe_count x)).

Record pipe_ok (x : pipe) : Prop := {
  po_data : length (p_data x) = Z.to_nat PIPESIZE;
  po_nread : in_u32 (p_nread x);
  po_nwrite : in_u32 (p_nwrite x);
  po_count : pipe_count x <= PIPESIZE
}.

Lemma pipe_count_range x : 0 <= pipe_count x < 2^32.
Proof. apply u32_range. Qed.

Lemma contents_length x : Z.of_nat (length (contents x)) = pipe_count x.
Proof. unfold contents. rewrite length_ring. pose proof (pipe_count_range x). lia. Qed.

(** The tests of the code are tests on the queue. *)
Lemma pipe_full_iff x : pipe_ok x -> pipe_full x = (pipe_count x =? PIPESIZE).
Proof.
  intros [_ Hr Hw Hc]. unfold pipe_full. apply eq_true_iff_eq. rewrite !Z.eqb_eq.
  unfold pipe_count in *. rewrite u32_diff in * by done. rewrite u32_add by (try done; unfold PIPESIZE; lia).
  unfold PIPESIZE, in_u32 in *. destruct (Z.leb_spec (p_nread x) (p_nwrite x)), (Z.ltb_spec (p_nread x + 512) (2^32)); lia.
Qed.

Lemma pipe_empty_iff x : pipe_ok x -> (p_nread x =? p_nwrite x) = (pipe_count x =? 0).
Proof.
  intros [_ Hr Hw Hc]. apply eq_true_iff_eq. rewrite !Z.eqb_eq. unfold pipe_count in *.
  rewrite u32_diff in * by done. unfold in_u32 in *. destruct (Z.leb_spec (p_nread x) (p_nwrite x)); lia.
Qed.

Lemma push_count c x : pipe_ok x -> pipe_count x < PIPESIZE ->
  pipe_count (pipe_push c x) = pipe_count x + 1.
Proof.
  intros [_ Hr Hw Hc] Hlt. unfold pipe_count in *. simpl.
  rewrite !u32_diff in * by (try done; apply u32_range). rewrite !u32_add by (try done; lia).
  unfold PIPESIZE, in_u32 in *. repeat case_match; lia.
Qed.

Lemma pop_count x : pipe_ok x -> 0 < pipe_count x -> pipe_count (pipe_pop x) = pipe_count x - 1.
Proof.
  intros [_ Hr Hw Hc] Hlt. unfold pipe_count in *. simpl.
  rewrite !u32_diff in * by (try done; apply u32_range). rewrite !u32_add by (try done; lia).
  unfold PIPESIZE, in_u32 in *. repeat case_match; lia.
Qed.

Lemma pipe_ok_push c x : pipe_ok x -> pipe_count x < PIPESIZE -> pipe_ok (pipe_push c x).
Proof.
  intros Hx Hlt. pose proof (push_count c x Hx Hlt). destruct Hx as [Hd Hr Hw Hc].
  split; simpl; [by rewrite length_insert|done|apply u32_range|lia].
Qed.

Lemma pipe_ok_pop x : pipe_ok x -> 0 < pipe_count x -> pipe_ok (pipe_pop x).
Proof.
  intros Hx Hlt. pose proof (pop_count x Hx Hlt). destruct Hx as [Hd Hr Hw Hc].
  split; simpl; [done|apply u32_range|done|lia].
Qed.

Lemma pipe_mod x : u32 x mod PIPESIZE = x mod PIPESIZE.
Proof. apply u32_mod. by exists (2^23). Qed.

Lemma contents_push c x : pipe_ok x -> pipe_count x < PIPESIZE ->
  contents (pipe_push c x) = contents x ++ [c].
Proof.
  intros Hx Hlt. pose proof (pipe_count_range x). unfold contents. rewrite push_count by done.
  replace (Z.to_nat (pipe_count x + 1)) with (S (Z.to_nat (pipe_count x))) by lia.
  apply ring_push; [done|apply Hx| |lia]. rewrite Z2Nat.id by lia.
  rewrite (u32_dist (p_nwrite x) (p_nread x)) at 1 by apply Hx. apply pipe_mod.
Qed.

Lemma contents_pop x : pipe_ok x -> 0 < pipe_count x -> contents x = pipe_next x :: contents (pipe_pop x).
Proof.
  intros Hx Hlt. unfold contents. rewrite pop_count by done.
  replace (Z.to_nat (pipe_count x)) with (S (Z.to_nat (pipe_count x - 1))) by lia.
  rewrite ring_cons. f_equal. apply ring_ext; [done|]. symmetry. apply pipe_mod.
Qed.

(** ** The operations *)
Definition setp (p : Z) (x : pipe) (s : kst) : kst := s <| fss ::= fun f => f <| pipes ::= <[p := x]> |> |>.
Definition has_pipe (s : kst) (p : Z) (x : pipe) : Prop := pipes (fss s) !! p = Some x.

Lemma has_setp p x s : has_pipe (setp p x s) p x.
Proof. unfold has_pipe. simpl. apply lookup_insert_eq. Qed.
Lemma setp_setp p x y s : setp p y (setp p x s) = setp p y s.
Proof. unfold setp, upd. simpl. by rewrite insert_insert_eq. Qed.
Lemma setp_same p x s : has_pipe s p x -> setp p x s = s.
Proof.
  intros Hx. destruct s as [k1 k2 k3 k4 k5 k6 k7 k8 k9 k10 k11 k12 k13 k14 k15 k16 k17 []].
  unfold setp, has_pipe, upd in *. simpl in *. by rewrite insert_id.
Qed.

Lemma pipe_at_eq s p x : has_pipe s p x -> pipe_at p s = Ret x s.
Proof. intros Hx. unfold pipe_at, fsget, gets, mbind, M_bind. simpl. unfold has_pipe in Hx. by rewrite Hx. Qed.

Lemma upd_pipe_eq s p x g : has_pipe s p x -> upd_pipe p g s = Ret tt (setp p (g x) s).
Proof.
  intros Hx. unfold upd_pipe, fsmod, modify, setp, upd. simpl. do 3 f_equal.
  apply map_eq. intros q. destruct (decide (p = q)) as [<-|].
  - unfold has_pipe in Hx. by rewrite lookup_alter_eq, lookup_insert_eq, Hx.
  - by rewrite lookup_alter_ne, lookup_insert_ne.
Qed.

Section loops.
Context `{Fuel} (Out In : kst -> Prop) (p : Z).

Lemma wp_pipewrite_loop src s x (Q : bool -> kst -> Prop) :
  has_pipe s p x -> pipe_ok x -> pipe_count x + Z.of_nat (length src) <= PIPESIZE ->
  (forall x', pipe_ok x' -> contents x' = contents x ++ src -> p_readopen x' = p_readopen x ->
    p_writeopen x' = p_writeopen x -> Q true (setp p x' s)) ->
  wp Out In Q (pipewrite_loop p src s).
Proof.
  revert s x. induction src as [|c src IH]; intros s x Hx Ho Hc HQ.
  - cbn [pipewrite_loop mret M_ret exec]. rewrite <-(setp_same p x s) by done. apply HQ; try done.
    by rewrite app_nil_r.
  - cbn [pipewrite_loop length] in *. assert (Hlt : pipe_count x < PIPESIZE) by lia.
    rewrite (bind_ret _ _ s true s).
    + rewrite (bind_ret _ _ _ tt (setp p (pipe_push c x) s)) by (by apply upd_pipe_eq).
      apply (IH _ (pipe_push c x)); [apply has_setp|by apply pipe_ok_push|rewrite push_count by done; lia|].
      intros x' Ho' Hc' Hr Hw. rewrite setp_setp. apply HQ; [done| |done|done].
      rewrite Hc', contents_push by done. by rewrite <-app_assoc.
    + assert (Hf : pipe_full x = false) by (rewrite pipe_full_iff by done; apply Z.eqb_neq; lia).
      destruct wakeups; cbn [pipewrite_wait]; rewrite (bind_ret _ _ s x s) by (by apply pipe_at_eq); by rewrite Hf.
Qed.

Lemma wp_piperead_loop n s x (Q : list Z -> kst -> Prop) :
  has_pipe s p x -> pipe_ok x ->
  (forall x', pipe_ok x' -> contents x' = drop n (contents x) -> p_readopen x' = p_readopen x ->
    p_writeopen x' = p_writeopen x -> Q (take n (contents x)) (setp p x' s)) ->
  wp Out In Q (piperead_loop n p s).
Proof.
  revert s x Q. induction n as [|n IH]; intros s x Q Hx Ho HQ; cbn [piperead_loop].
  - cbn [mret M_ret exec]. rewrite <-(setp_same p x s) by done. by apply HQ.
  - rewrite (bind_ret _ _ s x s) by (by apply pipe_at_eq). rewrite pipe_empty_iff by done.
    pose proof (contents_length x). pose proof (pipe_count_range x). destruct (Z.eqb_spec (pipe_count x) 0).
    + destruct (contents x) as [|] eqn:E; [|simpl in *; lia]. cbn [mret M_ret exec].
      rewrite <-(setp_same p x s) by done. rewrite <-E in HQ.
      specialize (HQ x Ho). rewrite E in HQ. by apply HQ.
    + rewrite (bind_ret _ _ _ tt (setp p (pipe_pop x) s)) by (by apply upd_pipe_eq). apply exec_bind.
      eapply (IH _ (pipe_pop x)); [apply has_setp|apply pipe_ok_pop; [done|lia]|].
      intros x' Ho' Hc' Hr Hw. rewrite setp_setp. cbn [mret M_ret exec].
      rewrite (contents_pop x) in HQ by (try done; lia). cbn [take drop] in HQ. by apply HQ.
Qed.
End loops.

(** C23: Writing to a pipe that has room for all the bytes appends them to the
    queue, wakes the readers, and returns their number. *)
Theorem pipewrite_fifo `{Hf : Fuel} (s : kst) (c : nat) (n : Z) (H : gset lockid) (p : Z) (x : pipe) (src : list Z)
    (HL : lctx (klk s) c n H) (Hp : pipe_lock p ∉ H) (Hpt : ptable_lock ∉ H) (Ht : tickslock ∉ H)
    (Hlen : length (ptab s) = NPROC) (Hx : has_pipe s p x) (Ho : pipe_ok x)
    (Hroom : Z.of_nat (length (contents x)) + Z.of_nat (length src) <= PIPESIZE) :
  exists s' x', pipewrite p src s = Ret (Z.of_nat (length src)) s' /\
    has_pipe s' p x' /\ pipe_ok x' /\ contents x' = contents x ++ src /\ lctx (klk s') c n H /\
    ptab s' = woken (ch_pipe_r p) (i32 (ticks s)) <$> ptab s.
Proof.
  rewrite contents_length in Hroom.
  edestruct (wp_returns (fun _ => True) (fun r s' => exists x', r = Z.of_nat (length src) /\
    has_pipe s' p x' /\ pipe_ok x' /\ contents x' = contents x ++ src /\ lctx (klk s') c n H /\
    ptab s' = woken (ch_pipe_r p) (i32 (ticks s)) <$> ptab s) (pipewrite p src s))
    as (r & s' & E & x' & -> & HX); [|by exists s', x'].
  unfold pipewrite. apply exec_bind. eapply wp_acquire; [exact HL|done|]. intros l1 L1 S1.
  apply exec_bind. eapply (wp_pipewrite_loop _ _ p src (s <| klk := l1 |>) x); [done|done|done|].
  intros x' Ho' Hc' _ _. set (s2 := setp p x' (s <| klk := l1 |>)). apply exec_bind.
  eapply (wp_wakeup _ _ s2); [exact L1|set_solver|set_solver|exact Hlen|].
  intros s3 (L3 & R3 & P3 & _). apply exec_bind.
  eapply wp_release_top; [exact L3|done|by eapply lctx_nonneg|]. intros l4 L4 _. cbn [mret M_ret exec].
  exists x'. split; [done|]. split.
  { unfold has_pipe. change (fss (s3 <| klk := l4 |>)) with (fss s3).
    assert (fss s3 = fss s2) as -> by (unfold rest in R3; congruence). apply has_setp. }
  split; [done|]. split; [done|]. split; [done|].
  simpl. rewrite P3. rewrite <-Hlen. by rewrite map_first_all.
Qed.

(** C24: Reading up to [n] bytes from a pipe that has data, or whose write end is
    closed, returns the oldest ones in the order they were written, leaves the
    rest, and wakes the writers. *)
Theorem piperead_fifo `{Hf : Fuel} (s : kst) (c : nat) (n : Z) (H : gset lockid) (p k : Z) (x : pipe)
    (HL : lctx (klk s) c n H) (Hp : pipe_lock p ∉ H) (Hpt : ptable_lock ∉ H) (Ht : tickslock ∉ H)
    (Hlen : length (ptab s) = NPROC) (Hx : has_pipe s p x) (Ho : pipe_ok x)
    (Hdata : contents x <> [] \/ p_writeopen x = false) :
  exists s' x', piperead p k s = Ret (Some (take (Z.to_nat k) (contents x))) s' /\
    has_pipe s' p x' /\ pipe_ok x' /\ contents x' = drop (Z.to_nat k) (contents x) /\ lctx (klk s') c n H /\
    ptab s' = woken (ch_pipe_w p) (i32 (ticks s)) <$> ptab s.
Proof.
  edestruct (wp_returns (fun _ => True) (fun r s' => exists x', r = Some (take (Z.to_nat k) (contents x)) /\
    has_pipe s' p x' /\ pipe_ok x' /\ contents x' = drop (Z.to_nat k) (contents x) /\ lctx (klk s') c n H /\
    ptab s' = woken (ch_pipe_w p) (i32 (ticks s)) <$> ptab s) (piperead p k s))
    as (r & s' & E & x' & -> & HX); [|by exists s', x'].
  unfold piperead. apply exec_bind. eapply wp_acquire; [exact HL|done|]. intros l1 L1 S1.
  set (s1 := s <| klk := l1 |>). rewrite (bind_ret _ _ s1 true s1).
  2: { assert (Hg : (p_nread x =? p_nwrite x) && p_writeopen x = false).
    { rewrite pipe_empty_iff by done. pose proof (contents_length x). destruct Hdata as [Hd | ->]; [|apply andb_false_r].
      rewrite (proj2 (Z.eqb_neq _ _)); [done|]. destruct (contents x); simpl in *; [done|lia]. }
    destruct wakeups; cbn [piperead_wait]; rewrite (bind_ret _ _ s1 x s1) by (by apply pipe_at_eq); by rewrite Hg. }
  apply exec_bind. eapply (wp_piperead_loop _ _ p (Z.to_nat k) s1 x); [done|done|].
  intros x' Ho' Hc' _ _. set (s2 := setp p x' s1). apply exec_bind.
  eapply (wp_wakeup _ _ s2); [exact L1|set_solver|set_solver|exact Hlen|].
  intros s3 (L3 & R3 & P3 & _). apply exec_bind.
  eapply wp_release_top; [exact L3|done|by eapply lctx_nonneg|]. intros l4 L4 _. cbn [mret M_ret exec].
  exists x'. split; [done|]. split.
  { unfold has_pipe. change (fss (s3 <| klk := l4 |>)) with (fss s3).
    assert (fss s3 = fss s2) as -> by (unfold rest in R3; congruence). apply has_setp. }
  split; [done|]. split; [done|]. split; [done|].
  simpl. rewrite P3. rewrite <-Hlen. by rewrite map_first_all.
Qed.

(** A pipe of the sample machine that holds two bytes and whose counters are about
    to wrap around. *)
Definition sample_pipe : pipe := Pipe (replicate 510 0 ++ [65; 66]) (2^32 - 2) 0 true true.
Definition sample_with_pipe : kst := setp (pg 1) sample_pipe (sample 1).

Lemma sample_pipe_ok : pipe_ok sample_pipe.
Proof. split; unfold in_u32; vm_compute; intuition (discriminate || reflexivity). Qed.

Lemma pipewrite_fifo_witness :
  exists s' x', pipewrite (H := 0%nat) (pg 1) [67; 68] sample_with_pipe = Ret 2 s' /\
    has_pipe s' (pg 1) x' /\ pipe_ok x' /\ contents x' = contents sample_pipe ++ [67; 68] /\
    lctx (klk s') 1 0 ∅ /\
    ptab s' = woken (ch_pipe_r (pg 1)) (i32 (ticks sample_with_pipe)) <$> ptab sample_with_pipe.
Proof.
  apply (pipewrite_fifo (Hf := 0%nat) sample_with_pipe 1 0 ∅ (pg 1) sample_pipe [67; 68]).
  - exact (sample_lctx 1 1 eq_refl).
  - set_solver.
  - set_solver.
  - set_solver.
  - vm_compute. reflexivity.
  - vm_compute. reflexivity.
  - exact sample_pipe_ok.
  - vm_compute. discriminate.
Defined.

Lemma piperead_fifo_witness :
  exists s' x', piperead (H := 0%nat) (pg 1) 1 sample_with_pipe = Ret (Some (take 1 (contents sample_pipe))) s' /\
    has_pipe s' (pg 1) x' /\ pipe_ok x' /\ contents x' = drop 1 (contents sample_pipe) /\
    lctx (klk s') 1 0 ∅ /\
    ptab s' = woken (ch_pipe_w (pg 1)) (i32 (ticks sample_with_pipe)) <$> ptab sample_with_pipe.
Proof.
  apply (piperead_fifo (Hf := 0%nat) sample_with_pipe 1 0 ∅ (pg 1) 1 sample_pipe).
  - exact (sample_lctx 1 1 eq_refl).
  - set_solver.
  - set_solver.
  - set_solver.
  - vm_compute. reflexivity.
  - vm_compute. reflexivity.
  - exact sample_pipe_ok.
  - left. vm_compute. discriminate.
Defined.
