(* ===== verification/FsSpec.v ===== *)
(** Contracts of the file system's data structures: inodes on disk, the block
    bitmap, path names, the log's block list (fs.c, log.c). *)
From stdpp Require Import base tactics list numbers strings gmap.
From S2P Require Import Prelude CString FsTypes State Spinlock Console Kalloc Vm Sched Process Args Sleeplock Ide Bio Log Fs SchedInv Sample.

#[local] Open Scope Z_scope.

(** ** Words in blocks *)
Lemma byte_at_splice o l d k : (o + length l <= length d)%nat ->
  byte_at (splice o l d) k =
    if decide (o <= k < o + length l)%nat then byte_at l (k - o) else byte_at d k.
Proof.
  intros Hl. unfold byte_at, splice. assert (Ht : length (take o d) = o) by (rewrite length_take; lia).
  case_decide as E.
  - rewrite lookup_app_r by lia. rewrite Ht, lookup_app_l by lia. done.
  - destruct (decide (k < o)%nat).
    + rewrite lookup_app_l, lookup_take_lt by lia. done.
    + rewrite lookup_app_r, Ht, lookup_app_r, lookup_drop by lia. do 2 f_equal. lia.
Qed.

Lemma length_splice o l d : (o + length l <= length d)%nat -> length (splice o l d) = length d.
Proof. intros. unfold splice. rewrite !length_app, length_take, length_drop. lia. Qed.

(** Reading inside the spliced bytes, and outside of them. *)
Lemma rd16_splice_in o l d k : (o + length l <= length d)%nat -> (k + 2 <= length l)%nat ->
  rd16 (splice o l d) (o + k) = rd16 l k.
Proof.
  intros. unfold rd16. rewrite !byte_at_splice by done. rewrite !decide_True by lia.
  do 2 f_equal; f_equal; lia.
Qed.
Lemma rd32_splice_in o l d k : (o + length l <= length d)%nat -> (k + 4 <= length l)%nat ->
  rd32 (splice o l d) (o + k) = rd32 l k.
Proof.
  intros. unfold rd32. rewrite rd16_splice_in by lia. rewrite <-Nat.add_assoc, rd16_splice_in by lia. done.
Qed.
Lemma rd16_splice_out o l d k : (o + length l <= length d)%nat -> (k + 2 <= o \/ o + length l <= k)%nat ->
  rd16 (splice o l d) k = rd16 d k.
Proof. intros. unfold rd16. rewrite !byte_at_splice by done. by rewrite !decide_False by lia. Qed.
Lemma rd32_splice_out o l d k : (o + length l <= length d)%nat -> (k + 4 <= o \/ o + length l <= k)%nat ->
  rd32 (splice o l d) k = rd32 d k.
Proof. intros. unfold rd32. by rewrite !rd16_splice_out by lia. Qed.

Lemma half_bytes v : v mod 2^8 + 2^8 * (v / 2^8 mod 2^8) = v mod 2^16.
Proof. change (2^16) with (2^8 * 2^8). by rewrite Z.rem_mul_r. Qed.
Lemma word_halves v : v mod 2^16 + 2^16 * (v / 2^16 mod 2^16) = v mod 2^32.
Proof. change (2^32) with (2^16 * 2^16). by rewrite Z.rem_mul_r. Qed.

(** ** Inodes on disk *)
Definition in_i16 (v : Z) : Prop := - 2^15 <= v < 2^15.
Record dinode_ok (x : dinode) : Prop := {
  do_type : in_i16 (d_type x); do_major : in_i16 (d_major x);
  do_minor : in_i16 (d_minor x); do_nlink : in_i16 (d_nlink x);
  do_size : in_u32 (d_size x);
  do_addrs : length (d_addrs x) = 13%nat /\ Forall in_u32 (d_addrs x)
}.

Lemma i16_small v : in_i16 v -> i16 (v mod 2^16) = v.
Proof.
  unfold in_i16, i16. intros. rewrite Zplus_mod_idemp_l, Z.mod_small; lia.
Qed.

Lemma rd16_le16 l1 v l2 : rd16 (l1 ++ le16 v ++ l2) (length l1) = v mod 2^16.
Proof.
  unfold rd16, byte_at. rewrite !(lookup_app_r l1) by lia. rewrite Nat.sub_diag.
  replace (length l1 + 1 - length l1)%nat with 1%nat by lia. simpl. apply half_bytes.
Qed.
Lemma rd32_le32 l1 v l2 : rd32 (l1 ++ le32 v ++ l2) (length l1) = v mod 2^32.
Proof.
  unfold rd32, le32. rewrite <-app_assoc, rd16_le16.
  assert (E : (length l1 + 2)%nat = length (l1 ++ le16 v)) by (rewrite length_app; reflexivity).
  rewrite E, (app_assoc l1), rd16_le16. apply word_halves.
Qed.

Lemma length_words l : length (concat (le32 <$> l)) = (4 * length l)%nat.
Proof. induction l as [|v l IH]; [done|]. rewrite fmap_cons. cbn [concat]. rewrite length_app, IH. simpl. lia. Qed.

Lemma length_encode x : length (d_addrs x) = 13%nat -> length (encode_dinode x) = 64%nat.
Proof.
  intros Hx. unfold encode_dinode. rewrite !length_app, length_words, Hx. done.
Qed.

Lemma read_encode x : dinode_ok x -> read_dinode (encode_dinode x) 0 = x.
Proof.
  intros [Ht Hm Hi Hn Hs [Hl Ha]]. destruct x as [ty ma mi nl sz addrs]. simpl in *.
  unfold read_dinode, encode_dinode. simpl d_type. simpl d_major. simpl d_minor. simpl d_nlink. simpl d_size.
  simpl d_addrs. f_equal.
  - trans (i16 (ty mod 2^16)); [f_equal; exact (rd16_le16 [] ty _)|by apply i16_small].
  - trans (i16 (ma mod 2^16)); [f_equal; exact (rd16_le16 (le16 ty) ma _)|by apply i16_small].
  - trans (i16 (mi mod 2^16)); [f_equal; exact (rd16_le16 (le16 ty ++ le16 ma) mi _)|by apply i16_small].
  - trans (i16 (nl mod 2^16)); [f_equal; exact (rd16_le16 (le16 ty ++ le16 ma ++ le16 mi) nl _)|by apply i16_small].
  - trans (sz mod 2^32); [|by apply Z.mod_small].
    exact (rd32_le32 (le16 ty ++ le16 ma ++ le16 mi ++ le16 nl) sz _).
  - set (pre := le16 ty ++ le16 ma ++ le16 mi ++ le16 nl ++ le32 sz).
    assert (E : le16 ty ++ le16 ma ++ le16 mi ++ le16 nl ++ le32 sz ++ concat (le32 <$> addrs) =
      pre ++ concat (le32 <$> addrs)) by (unfold pre; by rewrite <-!app_assoc).
    rewrite E. assert (Hp : length pre = 12%nat) by reflexivity. clearbody pre. clear E.
    apply list_eq. intros k. rewrite list_lookup_fmap.
    destruct (decide (k < 13)%nat) as [Hk|Hk].
    + rewrite lookup_seq_lt by done. cbn [fmap option_fmap option_map]. destruct (lookup_lt_is_Some_2 addrs k) as [a Hak]; [lia|].
      rewrite Hak. f_equal. rewrite <-(take_drop_middle addrs k a Hak), fmap_app, concat_app.
      rewrite fmap_cons. cbn [concat]. rewrite app_assoc.
      assert (El : (0 + 12 + 4 * (0 + k) = length (pre ++ concat (le32 <$> take k addrs)))%nat).
      { rewrite length_app, Hp, length_concat, <-list_fmap_compose.
        rewrite (list_fmap_ext _ (fun _ => 4%nat)) by (intros; reflexivity).
        rewrite sum_list_fmap_const, length_take. lia. }
      rewrite El, rd32_le32. apply Z.mod_small. exact (proj1 (Forall_lookup _ _) Ha k a Hak).
    + rewrite lookup_seq_ge by lia. by rewrite lookup_ge_None_2 by lia.
Qed.

Lemma write_dinode_spec x d k k' :
  dinode_ok x -> length d = Z.to_nat BSIZE -> 0 <= k -> 0 <= k' ->
  let d' := write_dinode (dinode_off k) x d in
  length d' = length d /\ read_dinode d' (dinode_off k) = x /\
  (k mod IPB <> k' mod IPB -> read_dinode d' (dinode_off k') = read_dinode d (dinode_off k')).
Proof.
  intros Hx Hd Hk Hk' d'. pose proof (length_encode x (proj1 (do_addrs _ Hx))) as Hl.
  change (Z.to_nat BSIZE) with 512%nat in Hd.
  pose proof (Z.mod_pos_bound k IPB ltac:(done)). pose proof (Z.mod_pos_bound k' IPB ltac:(done)).
  unfold dinode_off in *. change IPB with 8 in *. change sizeof_dinode with 64 in *.
  set (o := Z.to_nat (k mod 8 * 64)) in *. set (o' := Z.to_nat (k' mod 8 * 64)).
  assert (Ho : (o + length (encode_dinode x) <= length d)%nat) by lia. split; [by apply length_splice|]. split.
  - trans (read_dinode (encode_dinode x) 0); [|by apply read_encode]. unfold d', write_dinode, read_dinode. f_equal;
      [pose proof (rd16_splice_in o (encode_dinode x) d 0) as E; rewrite Nat.add_0_r in E; by rewrite E by lia
      |by rewrite rd16_splice_in by lia..|by rewrite rd32_splice_in by lia|].
    apply list_fmap_ext. intros i j [-> Hj]%lookup_seq. rewrite <-Nat.add_assoc, rd32_splice_in by lia. done.
  - intros Hne. unfold d', write_dinode, read_dinode. f_equal;
      [by rewrite rd16_splice_out by lia..|by rewrite rd32_splice_out by lia|].
    apply list_fmap_ext. intros i j [-> Hj]%lookup_seq. by rewrite rd32_splice_out by lia.
Qed.

(** An inode that [iupdate] stores in its block is the one [ilock] reads back,
    and no other inode of the block changes. *)
Theorem dinode_roundtrip (x : dinode) (d : list Z) (k k' : Z)
    (Hx : dinode_ok x) (Hd : length d = Z.to_nat BSIZE) (Hk : 0 <= k) (Hk' : 0 <= k') :
  let d' := write_dinode (dinode_off k) x d in
  length d' = length d /\ read_dinode d' (dinode_off k) = x /\
  (k mod IPB <> k' mod IPB -> read_dinode d' (dinode_off k') = read_dinode d (dinode_off k')).
Proof. by apply write_dinode_spec. Qed.

Definition sample_dinode : dinode := Dinode 2 (-1) 0 1 70000 (Z.of_nat <$> seq 30 13).

Lemma dinode_roundtrip_witness :
  let d' := write_dinode (dinode_off 11) sample_dinode zero_block in
  length d' = 512%nat /\ read_dinode d' (dinode_off 11) = sample_dinode /\
  (11 mod IPB <> 12 mod IPB -> read_dinode d' (dinode_off 12) = read_dinode zero_block (dinode_off 12)).
Proof.
  apply (dinode_roundtrip sample_dinode zero_block 11 12).
  - split; unfold in_i16, in_u32; simpl; try lia. split; [done|].
    repeat (apply Forall_cons; split; [lia|]). by apply Forall_nil.
  - reflexivity.
  - lia.
  - lia.
Defined.

(** ** The block bitmap *)
Lemma mask_bit k j : 0 <= k -> Z.testbit (Z.shiftl 1 k) j = (j =? k).
Proof. intros Hk. rewrite Z.shiftl_1_l, Z.pow2_bits_eqb by done. apply Z.eqb_sym. Qed.

Lemma bit_used_testbit d bi : 0 <= bi ->
  bit_used d bi = Z.testbit (byte_at d (Z.to_nat (bi / 8))) (bi mod 8).
Proof.
  intros Hb. unfold bit_used. set (c := byte_at d _). pose proof (Z.mod_pos_bound bi 8 ltac:(lia)) as Hk.
  set (k := bi mod 8) in *. destruct (Z.testbit c k) eqn:E.
  - apply negb_true_iff, Z.eqb_neq. intros H0. apply (f_equal (fun z => Z.testbit z k)) in H0.
    by rewrite Z.land_spec, mask_bit, E, Z.eqb_refl, Z.bits_0 in H0 by lia.
  - apply negb_false_iff, Z.eqb_eq, Z.bits_inj'. intros j Hj.
    rewrite Z.land_spec, mask_bit, Z.bits_0 by lia. destruct (Z.eqb_spec j k) as [->|]; [by rewrite E|].
    apply andb_false_r.
Qed.

Lemma byte_at_alter f n d m : (n < length d)%nat ->
  byte_at (alter f n d) m = if decide (n = m) then f (byte_at d m) else byte_at d m.
Proof.
  intros Hn. unfold byte_at. case_decide as E.
  - subst m. rewrite list_lookup_alter_eq. destruct (lookup_lt_is_Some_2 d n Hn) as [x ->]. done.
  - by rewrite list_lookup_alter_ne.
Qed.

Lemma same_bit a b : 0 <= a -> 0 <= b -> Z.to_nat (a / 8) = Z.to_nat (b / 8) -> a mod 8 = b mod 8 -> a = b.
Proof.
  intros Ha Hb E1%Z2Nat.inj E2; [|apply Z.div_pos; lia..].
  rewrite (Z.div_mod a 8), (Z.div_mod b 8) by lia. by rewrite E1, E2.
Qed.

Section bits.
Context (d : list Z) (bi bj : Z).
Hypothesis Hi : 0 <= bi < 8 * Z.of_nat (length d).
Hypothesis Hj : 0 <= bj.

Lemma bit_slot : (Z.to_nat (bi / 8) < length d)%nat.
Proof. pose proof (Z.div_lt_upper_bound bi 8 (Z.of_nat (length d))). pose proof (Z.div_pos bi 8). lia. Qed.

Lemma bit_used_set : bit_used (set_bit bi d) bj = (bj =? bi) || bit_used d bj.
Proof.
  pose proof bit_slot. pose proof (Z.mod_pos_bound bi 8 ltac:(lia)). unfold set_bit.
  rewrite !bit_used_testbit, byte_at_alter by (done || lia). case_decide as E.
  - rewrite Z.lor_spec, mask_bit by lia. rewrite orb_comm. f_equal. apply eq_true_iff_eq.
    rewrite !Z.eqb_eq. split; [intros E'|by intros ->]. symmetry. apply same_bit; [lia|lia|done|done].
  - destruct (Z.eqb_spec bj bi) as [->|]; done.
Qed.

Lemma bit_used_clear : bit_used (clear_bit bi d) bj = negb (bj =? bi) && bit_used d bj.
Proof.
  pose proof bit_slot. pose proof (Z.mod_pos_bound bi 8 ltac:(lia)).
  pose proof (Z.mod_pos_bound bj 8 ltac:(lia)). unfold clear_bit.
  rewrite !bit_used_testbit, byte_at_alter by (done || lia). case_decide as E.
  - rewrite Z.land_spec, Z.lnot_spec, mask_bit by lia. rewrite andb_comm. do 2 f_equal. apply eq_true_iff_eq.
    rewrite !Z.eqb_eq. split; [intros E'|by intros ->]. symmetry. apply same_bit; [lia|lia|done|done].
  - destruct (Z.eqb_spec bj bi) as [->|]; done.
Qed.

Lemma clear_set : bit_used d bi = false -> clear_bit bi (set_bit bi d) = d.
Proof.
  intros Hu. unfold clear_bit, set_bit. rewrite list_alter_alter.
  destruct (lookup_lt_is_Some_2 d _ bit_slot) as [c Hc].
  rewrite (list_alter_as_insert _ _ _ c Hc). rewrite list_insert_id; [done|]. rewrite Hc. f_equal.
  rewrite bit_used_testbit in Hu by lia. unfold byte_at in Hu. rewrite Hc in Hu. simpl in Hu.
  pose proof (Z.mod_pos_bound bi 8 ltac:(lia)).
  apply Z.bits_inj'. intros k Hk. rewrite Z.land_spec, Z.lor_spec, Z.lnot_spec, mask_bit by lia.
  destruct (Z.eqb_spec k (bi mod 8)) as [->|]; [by rewrite Hu|]. by rewrite orb_false_r, andb_true_r.
Qed.
End bits.

Lemma free_bit_first d n a bi : 0 <= a -> free_bit d a n = Some bi ->
  a <= bi < a + Z.of_nat n /\ bit_used d bi = false /\ forall b, a <= b < bi -> bit_used d b = true.
Proof.
  revert a. induction n as [|n IH]; intros a Ha; [done|]. cbn [free_bit].
  destruct (bit_used d a) eqn:E; intros H.
  - destruct (IH (a + 1)) as (H1 & H2 & H3); [lia|done|]. split; [lia|]. split; [done|].
    intros b Hb. destruct (Z.eq_dec b a) as [->|]; [done|]. apply H3. lia.
  - simplify_eq. split; [lia|]. split; [done|]. lia.
Qed.
Lemma free_bit_none d n a : 0 <= a -> free_bit d a n = None ->
  forall b, a <= b < a + Z.of_nat n -> bit_used d b = true.
Proof.
  revert a. induction n as [|n IH]; intros a Ha; [lia|]. cbn [free_bit].
  destruct (bit_used d a) eqn:E; intros H b Hb; [|done].
  destruct (Z.eq_dec b a) as [->|]; [done|]. apply (IH (a + 1)); [lia|done|lia].
Qed.



(** ** Path names *)

(** The pieces between slashes, and those that name something. *)
Fixpoint split_path (path : list Z) : list (list Z) :=
  match path with
  | [] => [[]]
  | c :: rest =>
      if c =? slash then [] :: split_path rest
      else match split_path rest with
        | e :: es => (c :: e) :: es
        | [] => [[c]]
        end
  end.
Definition elements (path : list Z) : list (list Z) := filter (fun e => e <> []) (split_path path).

Lemma split_path_cons path : exists e es, split_path path = e :: es.
Proof. destruct path as [|c r]; simpl; [eauto|]. destruct (c =? slash); [eauto|]. destruct (split_path r); eauto. Qed.

Lemma elements_slash path : elements (slash :: path) = elements path.
Proof. unfold elements. simpl. by rewrite filter_cons_False by auto. Qed.

Lemma elements_skip path : elements (skip_slashes path) = elements path.
Proof.
  induction path as [|c r IH]; [done|]. cbn [skip_slashes]. destruct (Z.eqb_spec c slash) as [->|]; [|done].
  by rewrite elements_slash.
Qed.

Lemma skip_head path c r : skip_slashes path = c :: r -> c <> slash.
Proof.
  induction path as [|c' r' IH]; [done|]. cbn [skip_slashes]. destruct (Z.eqb_spec c' slash); [done|]. congruence.
Qed.
Lemma skip_length path : (length (skip_slashes path) <= length path)%nat.
Proof. induction path as [|c r IH]; [done|]. cbn [skip_slashes]. destruct (_ =? _); simpl; lia. Qed.

Lemma path_elem_split path e r : path_elem path = (e, r) ->
  path = e ++ r /\ (r = [] \/ exists r', r = slash :: r') /\ exists es, split_path path = e :: es /\
    filter (fun e => e <> []) es = elements r.
Proof.
  revert e r. induction path as [|c path IH]; intros e r; cbn [path_elem].
  - intros [= <- <-]. split; [done|]. split; [by left|]. by exists [].
  - destruct (Z.eqb_spec c slash) as [->|Hc].
    + intros [= <- <-]. split; [done|]. split; [right; by eexists|]. exists (split_path path).
      split; [done|]. by rewrite elements_slash.
    + destruct (path_elem path) as [e' r'] eqn:E. intros [= <- <-].
      destruct (IH _ _ eq_refl) as (-> & Hr & es & Hs & Hf). split; [done|]. split; [done|].
      exists es. split; [|done]. cbn [split_path]. rewrite (proj2 (Z.eqb_neq _ _)) by done. by rewrite Hs.
Qed.

(** [skipelem] takes the path's elements off one by one: it fails exactly when
    none is left, and otherwise the buffer holds the first one, cut to 14 bytes or
    terminated, and the rest of the path has the remaining ones and is shorter. *)
Theorem skipelem_elements (path nm : list Z) (Hn : length nm = DIRSIZ) :
  match skipelem path nm with
  | None => elements path = []
  | Some (path', nm') => exists e, elements path = e :: elements path' /\
      (length path' < length path)%nat /\ length nm' = DIRSIZ /\
      take (length e) nm' = take DIRSIZ e /\ ((length e < DIRSIZ)%nat -> nm' !! length e = Some 0)
  end.
Proof.
  unfold skipelem. pose proof (elements_skip path) as Hs. pose proof (skip_length path).
  destruct (skip_slashes path) as [|c r] eqn:E; [by rewrite <-Hs|].
  pose proof (skip_head _ _ _ E) as Hc. destruct (path_elem (c :: r)) as [e rest] eqn:Ee.
  destruct (path_elem_split _ _ _ Ee) as (Hp & Hr & es & Hes & Hf).
  assert (He : e <> []). { intros ->. destruct Hr as [->|[r' ->]]; simplify_eq/=. }
  exists e. split; [|split].
  - rewrite <-Hs. unfold elements at 1. rewrite Hes, filter_cons_True by done. by rewrite Hf, elements_skip.
  - pose proof (skip_length rest). apply (f_equal length) in Hp. rewrite length_app in Hp.
    destruct e; [done|]. simpl in *. lia.
  - destruct (Nat.leb_spec DIRSIZ (length e)).
    + assert (Hl : length (take DIRSIZ e) = DIRSIZ) by (rewrite length_take; lia).
      assert (E0 : splice 0 (take DIRSIZ e) nm = take DIRSIZ e).
      { unfold splice. cbn [take app]. rewrite drop_ge by lia. by rewrite app_nil_r. }
      rewrite E0. split; [done|]. split; [|lia]. by rewrite take_ge by lia.
    + assert (Hl : length (e ++ [0]) = S (length e)) by (rewrite length_app; simpl; lia).
      split; [rewrite length_splice by lia; done|]. 
      assert (E0 : splice 0 (e ++ [0]) nm = e ++ 0 :: drop (length (e ++ [0])) nm).
      { unfold splice. cbn [take]. by rewrite app_nil_l, <-app_assoc. }
      rewrite E0, take_app_length, (take_ge e) by lia. split; [done|]. intros _. by apply list_lookup_middle.
Qed.

Lemma skipelem_elements_witness :
  exists e, elements (codes "//usr/bin") = e :: elements (codes "bin") /\
    (length (codes "bin") < length (codes "//usr/bin"))%nat /\
    length (codes "usr" ++ replicate 11 0) = DIRSIZ /\
    take (length e) (codes "usr" ++ replicate 11 0) = take DIRSIZ e /\
    ((length e < DIRSIZ)%nat -> (codes "usr" ++ replicate 11 0) !! length e = Some 0).
Proof. exact (skipelem_elements (codes "//usr/bin") (replicate 14 0) eq_refl). Defined.
