(* ===== verification/LogSpec.v ===== *)
(** The block list of the log: [begin_op] and [log_write] of log.c. *)
From stdpp Require Import base tactics list numbers strings gmap.
From S2P Require Import Prelude CString FsTypes State Spinlock Console Kalloc Vm Sched Process Args Sleeplock Ide Bio Log SchedInv Sample.

#[local] Open Scope Z_scope.

(** The blocks of the transaction. *)
Definition logged (l : log_t) : list Z := take (Z.to_nat (lh_n l)) (lh_block l).

Record log_ok (l : log_t) : Prop := {
  lo_len : length (lh_block l) = Z.to_nat LOGSIZE;
  lo_n : 0 <= lh_n l <= LOGSIZE
}.

Lemma log_index_spec l n b : (n <= length l)%nat ->
  if decide (b ∈ take n l) then l !! log_index l n b = Some b /\ (log_index l n b < n)%nat
  else log_index l n b = n.
Proof.
  revert n. induction l as [|c l IH]; intros [|n] Hn; [|simpl in Hn; lia| |].
  1,2: by rewrite decide_False by (simpl; apply not_elem_of_nil).
  cbn [log_index take]. simpl in Hn. specialize (IH n ltac:(lia)). destruct (Z.eqb_spec c b) as [E|Hne].
  - subst c. rewrite decide_True by set_solver. split; [done|lia].
  - destruct (decide (b ∈ take n l)).
    + rewrite decide_True by set_solver. destruct IH. split; [done|lia].
    + rewrite decide_False by set_solver. by rewrite IH.
Qed.

Section log_write.
Context (Out In : kst -> Prop) (s : kst) (i : nat) (n : Z) (H : gset lockid) (bp : nat) (b : buf).
Hypothesis HL : lctx (klk s) i n H.
Hypothesis Hk : log_lock ∉ H.
Hypothesis Ho : log_ok (logst (fss s)).
Hypothesis Hb : bufs (fss s) !! bp = Some b.
Hypothesis Hbn : in_i32 (b_blockno b).
Hypothesis Hroom : lh_n (logst (fss s)) < LOGSIZE.
Hypothesis Hsize : lh_n (logst (fss s)) < l_size (logst (fss s)) - 1.
Hypothesis Hop : 1 <= l_outstanding (logst (fss s)).
Let l0 := logst (fss s).
Let ix := log_index (lh_block l0) (Z.to_nat (lh_n l0)) (b_blockno b).

(** The log after the call. *)
Definition log_added : log_t :=
  let l := l0 <| lh_block ::= <[ix := b_blockno b]> |> in
  if Z.of_nat ix =? lh_n l0 then l <| lh_n ::= Z.add 1 |> else l.

Lemma log_added_spec : log_ok log_added /\
  logged log_added = if decide (b_blockno b ∈ logged l0) then logged l0 else logged l0 ++ [b_blockno b].
Proof.
  destruct Ho as [Hlen Hn]. fold l0 in Hlen, Hn, Hroom. change (Z.to_nat LOGSIZE) with 30%nat in Hlen.
  change LOGSIZE with 30 in *.
  pose proof (log_index_spec (lh_block l0) (Z.to_nat (lh_n l0)) (b_blockno b) ltac:(lia)) as Hx.
  fold ix in Hx. unfold log_added, logged in *. destruct (decide _) as [Hin|Hin].
  - destruct Hx as [Hx Hlt]. rewrite (proj2 (Z.eqb_neq _ _)) by lia.
    split; [split; simpl; rewrite ?length_insert; done|]. simpl. by rewrite list_insert_id.
  - rewrite Hx, Z2Nat.id, Z.eqb_refl by lia. split.
    + split; simpl; [rewrite length_insert; done|change LOGSIZE with 30; lia].
    + simpl. replace (Z.to_nat (1 + lh_n l0)) with (S (Z.to_nat (lh_n l0))) by lia.
      rewrite (take_S_r _ _ (b_blockno b)) by (apply list_lookup_insert_eq; lia).
      by rewrite take_insert_ge by lia.
Qed.

Lemma log_index_bound : (ix < length (lh_block l0))%nat.
Proof.
  destruct Ho as [Hlen Hn]. fold l0 in Hlen, Hn, Hroom. change (Z.to_nat LOGSIZE) with 30%nat in Hlen.
  change LOGSIZE with 30 in *.
  pose proof (log_index_spec (lh_block l0) (Z.to_nat (lh_n l0)) (b_blockno b) ltac:(lia)) as Hx.
  fold ix in Hx. destruct (decide _); lia.
Qed.

Lemma wp_log_write (Q : unit -> kst -> Prop) :
  (forall lk, lctx lk i n H -> lk_static lk = lk_static (klk s) ->
    Q tt (s <| klk := lk |> <| fss ::= fun f => f <| logst := log_added |>
      <| bufs ::= alter (fun b => b <| b_flags ::= fun fl => Z.lor fl B_DIRTY |>) bp |> |>)) ->
  wp Out In Q (log_write bp s).
Proof.
  intros HQ. unfold log_write. apply exec_bind. cbn [fsget gets exec].
  rewrite (proj2 (Z.leb_gt _ _)), (proj2 (Z.leb_gt (l_size _ - 1) _)) by done. cbn [orb].
  rewrite (proj2 (Z.ltb_ge _ _)) by done. apply exec_bind. eapply wp_acquire; [exact HL|done|].
  intros l1 L1 S1. apply exec_bind. cbn [fsget gets exec]. apply exec_bind. cbn [buf_at fsget gets exec].
  change (fss (s <| klk := l1 |>)) with (fss s). fold l0.
  rewrite (list_lookup_total_correct _ _ _ Hb), i32_small by done. fold ix.
  apply exec_bind. unfold lh_set. apply exec_bind. cbn [fsget gets exec].
  change (fss (s <| klk := l1 |>)) with (fss s). fold l0.
  rewrite (proj2 (Nat.ltb_lt _ _)) by apply log_index_bound. cbn [upd_log fsmod modify exec].
  apply exec_bind. destruct (Z.of_nat ix =? lh_n l0) eqn:E; cbn [mwhen upd_log fsmod modify exec mret M_ret];
    apply exec_bind; cbn [upd_buf fsmod modify exec];
    (eapply wp_release_top; [exact L1|done|by eapply lctx_nonneg|]); intros l2 L2 S2;
    specialize (HQ l2 L2); rewrite S2 in HQ; specialize (HQ S1); unfold log_added in HQ; rewrite E in HQ;
    exact HQ.
Qed.
End log_write.

(** [log_write] inside a transaction that has room records the block's number
    if it was not recorded yet, never twice, pins the buffer by marking it dirty,
    and writes nothing to the disk. *)
Theorem log_write_absorbs (s : kst) (i : nat) (n : Z) (H : gset lockid) (bp : nat) (b : buf)
    (HL : lctx (klk s) i n H) (Hk : log_lock ∉ H) (Ho : log_ok (logst (fss s)))
    (Hb : bufs (fss s) !! bp = Some b) (Hbn : in_i32 (b_blockno b))
    (Hroom : lh_n (logst (fss s)) < LOGSIZE) (Hsize : lh_n (logst (fss s)) < l_size (logst (fss s)) - 1)
    (Hop : 1 <= l_outstanding (logst (fss s))) :
  exists s', log_write bp s = Ret tt s' /\ lctx (klk s') i n H /\ log_ok (logst (fss s')) /\
    logged (logst (fss s')) =
      (if decide (b_blockno b ∈ logged (logst (fss s))) then logged (logst (fss s))
       else logged (logst (fss s)) ++ [b_blockno b]) /\
    bufs (fss s') = <[bp := b <| b_flags ::= fun fl => Z.lor fl B_DIRTY |>]> (bufs (fss s)) /\
    disk (fss s') = disk (fss s).
Proof.
  destruct (log_added_spec s b Ho Hroom) as [Hok Hl].
  match goal with |- exists s', _ = _ /\ @?P s' =>
    destruct (wp_returns (fun _ => True) (fun _ s' => P s') (log_write bp s)) as ([] & s' & E & HQ);
      [|exists s'; by split] end.
  eapply wp_log_write; [exact HL|exact Hk|exact Ho|exact Hb|done..|].
  intros lk L _. split; [exact L|]. split; [exact Hok|]. split; [exact Hl|].
  split; [|done]. simpl. by apply list_alter_as_insert.
Qed.

(** ** A full transaction *)

(** Thirty blocks in the cache, and an empty log of the size mkfs makes it. *)
Definition log_machine : kst :=
  (sample 1) <| fss := fsst0
    <| bufs := (fun i => buf0 <| b_dev := 1 |> <| b_blockno := 100 + Z.of_nat i |> <| b_flags := B_VALID |>)
         <$> seq 0 NBUF |>
    <| logst := log0 <| l_start := 2 |> <| l_size := LOGSIZE |> <| l_dev := 1 |> |> |>.
(** After [k] operations have begun. *)
Definition ops_begun (k : nat) : kst := state_of (for_all (seq 0 k) (fun _ => begin_op (fl := 0%nat)) log_machine).

(** One operation is running. *)
Definition log_machine1 : kst :=
  log_machine <| fss ::= fun f => f <| logst ::= fun l => l <| l_outstanding := 1 |> |> |>.

Lemma log_write_absorbs_witness :
  exists s', log_write 7 log_machine1 = Ret tt s' /\ lctx (klk s') 1 0 ∅ /\ log_ok (logst (fss s')) /\
    logged (logst (fss s')) = [107].
Proof.
  destruct (log_write_absorbs log_machine1 1 0 ∅ 7
    (buf0 <| b_dev := 1 |> <| b_blockno := 107 |> <| b_flags := B_VALID |>)
    (sample_lctx 1 1 eq_refl)) as (s' & E & L & O & G & _).
  - set_solver.
  - split; vm_compute; intuition (discriminate || reflexivity).
  - vm_compute. reflexivity.
  - unfold in_i32. vm_compute. intuition (discriminate || reflexivity).
  - vm_compute. reflexivity.
  - vm_compute. reflexivity.
  - vm_compute. discriminate.
  - exists s'. split; [exact E|]. split; [exact L|]. split; [exact O|]. rewrite G. vm_compute. reflexivity.
Defined.

