(* ===== verification/TaskOps.v ===== *)
(** Kernel code of one process, on a CPU that only that process's locks keep busy:
    calling the lock layer, sleeping, and sleep locks.

    While the process sleeps other code runs; [resumed] says in which states it may
    find the machine when it continues. *)
From stdpp Require Import base tactics list numbers strings gmap.
From S2P Require Import Prelude CString FsTypes State Spinlock Console Kalloc Vm Sched Process Args Sysproc Trap Sleeplock Ide SchedInv Sample SchedOps Policy Dispatch Calls WakeSpec.

#[local] Open Scope Z_scope.

(** Process [j], with pid [pd], executes; the locks [H] are held. *)
Record task (j : nat) (pd n : Z) (H : gset lockid) (s : kst) : Prop := {
  task_lctx : exists c, lctx (klk s) c n H;
  task_cur : cur (klk s) = Some j;
  task_len : length (ptab s) = NPROC;
  task_slot : (j < NPROC)%nat;
  task_pid : pid (ptab s !!! j) = pd
}.

Section task.
Context (Out In : kst -> Prop) (j : nat) (pd n : Z) (H : gset lockid) (s : kst).
Hypothesis HT : task j pd n H s.

Lemma task_klk l n' H' : (exists c, lctx l c n' H') -> lk_static l = lk_static (klk s) ->
  task j pd n' H' (s <| klk := l |>).
Proof. intros HL HS. destruct HT. split; try done. by rewrite <-task_cur0; apply cur_static. Qed.

Lemma task_fss f : task j pd n H (s <| fss := f |>).
Proof. by destruct HT. Qed.

Lemma wp_task_acquire k (Q : unit -> kst -> Prop) : k ∉ H ->
  (forall l, task j pd (n + 1) ({[k]} ∪ H) (s <| klk := l |>) -> Q tt (s <| klk := l |>)) ->
  wp Out In Q (acquire k s).
Proof.
  intros Hk HQ. destruct (task_lctx _ _ _ _ _ HT) as [c HL]. eapply wp_acquire; [exact HL|done|].
  intros l L S1. apply HQ, task_klk; [by exists c|done].
Qed.

Lemma wp_task_myproc (Q : option nat -> kst -> Prop) :
  (forall l, task j pd n H (s <| klk := l |>) -> Q (Some j) (s <| klk := l |>)) ->
  wp Out In Q (myproc s).
Proof.
  intros HQ. destruct (task_lctx _ _ _ _ _ HT) as [c HL]. eapply wp_myproc; [exact HL|].
  intros l L S1. rewrite (task_cur _ _ _ _ _ HT). apply HQ, task_klk; [by exists c|done].
Qed.

Lemma wp_task_curproc (Q : nat -> kst -> Prop) :
  (forall l, task j pd n H (s <| klk := l |>) -> Q j (s <| klk := l |>)) ->
  wp Out In Q (curproc s).
Proof.
  intros HQ. unfold curproc. apply exec_bind. apply wp_task_myproc. intros l L.
  cbn [deref mret M_ret exec]. by apply HQ.
Qed.
End task.

Lemma wp_task_release Out In j pd n H s k (Q : unit -> kst -> Prop) :
  task j pd (n + 1) ({[k]} ∪ H) s -> k ∉ H -> 0 <= n ->
  (forall l, task j pd n H (s <| klk := l |>) -> Q tt (s <| klk := l |>)) ->
  wp Out In Q (release k s).
Proof.
  intros HT Hk Hn HQ. destruct (task_lctx _ _ _ _ _ HT) as [c HL].
  eapply wp_release_top; [exact HL|done|done|]. intros l L S1.
  eapply HQ, task_klk; [exact HT|by exists c|done].
Qed.

Lemma woken_pid ch t p : pid (woken ch t p) = pid p.
Proof. unfold woken. by destruct (sleeps_on ch p). Qed.

Lemma wp_task_wakeup Out In j pd n H s ch (Q : unit -> kst -> Prop) :
  task j pd n H s -> ptable_lock ∉ H -> tickslock ∉ H ->
  (forall s', task j pd n H s' -> fss s' = fss s -> Q tt s') ->
  wp Out In Q (wakeup ch s).
Proof.
  intros HT Hp Ht HQ. destruct (task_lctx _ _ _ _ _ HT) as [c HL].
  pose proof (task_len _ _ _ _ _ HT) as Hlen.
  eapply wp_wakeup; [exact HL|done|done|done|]. intros s' (L & R & P & S1 & _).
  rewrite <-Hlen, map_first_all in P. apply HQ.
  - split; [by exists c| |by rewrite P, length_fmap|by eapply task_slot|].
    + rewrite (cur_static _ _ S1). by eapply task_cur.
    + destruct (lookup_lt_is_Some_2 (ptab s) j) as [p Hj]; [rewrite Hlen; by eapply task_slot|].
      rewrite (list_lookup_total_correct _ _ (woken ch (i32 (ticks s)) p)) by (by rewrite P, list_lookup_fmap, Hj).
      rewrite woken_pid, <-(task_pid _ _ _ _ _ HT). f_equal. symmetry. by apply list_lookup_total_correct.
  - unfold rest in R. congruence.
Qed.

(** ** Sleeping *)

(** The disk interrupt runs [ideintr], without a media error, on the file system's
    state. *)
Definition disk_int (f f' : fsst) : Prop :=
  exists t t', fss t = f /\ ideintr true t = Ret tt t' /\ fss t' = f'.

(** The process goes on after its [swtch]: the disk has served its request, and no
    other process has touched the file system meanwhile. *)
Definition resumed (j : nat) (pd : Z) (s s' : kst) : Prop :=
  rtc disk_int (fss s) (fss s') /\ idequeue (fss s') = [] /\ task j pd 1 {[ptable_lock]} s'.

Lemma lctx_intena l c n H i b :
  lctx l c n H -> lctx (l <| cpus ::= alter (fun x => x <| intena := b |>) i |>) c n H /\
    lk_static (l <| cpus ::= alter (fun x => x <| intena := b |>) i |>) = lk_static l.
Proof.
  intros HL. split.
  - apply (lctx_same_locks l _ c n n H HL); [|done]. destruct (lctx_ok _ _ _ _ HL) as [Ht (x & Hx & Hn) ? ?].
    split; [by rewrite this_cpu_alter| |done|done]. simpl.
    destruct (decide (i = c)) as [->|Hne].
    + exists (x <| intena := b |>). by rewrite list_lookup_alter_eq, Hx.
    + exists x. by rewrite list_lookup_alter_ne.
  - unfold lk_static. simpl. f_equal. f_equal. apply list_eq. intros k. rewrite !list_lookup_fmap.
    destruct (decide (i = k)) as [->|Hne]; [rewrite list_lookup_alter_eq|by rewrite list_lookup_alter_ne].
    by destruct (cpus l !! k).
Qed.

Section sleep.
Context (Out : kst -> Prop) (j : nat) (pd : Z).

Lemma rx_sched s (Q : unit -> kst -> Prop) :
  task j pd 1 {[ptable_lock]} s -> state (ptab s !!! j) <> RUNNING ->
  (forall l, Out (s <| klk := l |>)) ->
  (forall s0 s', fss s0 = fss s -> resumed j pd s0 s' ->
    forall l, task j pd 1 {[ptable_lock]} (s' <| klk := l |>) -> Q tt (s' <| klk := l |>)) ->
  rexec true Out (resumed j pd) Q (sched s).
Proof.
  intros HT Hst HO HQ. unfold sched. apply rexec_bind. eapply (rexec_call _ _ _ Out).
  eapply wp_task_myproc; [exact HT|]. intros l1 T1. apply rexec_bind.
  destruct (task_lctx _ _ _ _ _ T1) as [c L1].
  destruct (lctx_holding _ c 1 _ ptable_lock L1) as (l2 & -> & L2 & _). cbn [rexec].
  rewrite bool_decide_true by set_solver. cbn [negb]. set (s2 := _ <| klk := l2 |>).
  apply rexec_bind. rewrite (cpu_ok_mycpu s2 c 1 (lctx_ok _ _ _ _ L2)) by lia. cbn [rexec].
  destruct (cpu_ok_ncli _ _ _ (lctx_ok _ _ _ _ L2)) as (x & Hx & Hn).
  apply rexec_bind. cbn [cpu_at gets rexec]. rewrite (list_lookup_total_correct _ _ _ Hx), Hn.
  change (1 =? 1) with true. cbn [negb]. apply rexec_bind. cbn [deref mret M_ret rexec].
  apply rexec_bind. cbn [proc_at gets rexec]. rewrite decide_False by done.
  apply rexec_bind. unfold readeflags_IF. cbn [gets rexec].
  pose proof (cpu_ok_IF_off _ _ _ (lctx_ok _ _ _ _ L2) ltac:(lia)) as HF. unfold IFof in HF.
  change (klk s2) with l2. rewrite HF. apply rexec_bind. cbn [swtch rexec].
  split; [apply (HO l2)|]. intros s' HR. pose proof HR as (_ & _ & T').
  destruct (task_lctx _ _ _ _ _ T') as [c' L']. apply rexec_bind.
  rewrite (cpu_ok_mycpu s' c' 1 (lctx_ok _ _ _ _ L')) by lia. cbn [rexec upd_cpu modify].
  destruct (lctx_intena (klk s') c' 1 _ c' (intena x) L') as [L3 S3].
  eapply (HQ s2 s'); [done|exact HR|]. eapply task_klk; [exact T'|by exists c'|exact S3].
Qed.

Lemma task_upd_proc n H s f i : task j pd n H s -> (forall p, pid (f p) = pid p) ->
  task j pd n H (s <| ptab ::= alter f i |>).
Proof.
  intros HT Hf. destruct HT as [HL Hc Hl Hj Hp]. split; try done; simpl.
  - by rewrite length_alter.
  - rewrite list_lookup_total_alt in Hp |- *. destruct (decide (i = j)) as [->|Hne].
    + rewrite list_lookup_alter_eq. destruct (ptab s !! j); simpl in *; [|done]. by rewrite Hf.
    + by rewrite list_lookup_alter_ne.
Qed.

Lemma task_bump d p n H s : task j pd n H s -> task j pd n H (bump d p s).
Proof. intros []. split; by rewrite ?bump_klk, ?bump_ptab. Qed.
Lemma bump_fss d p s : fss (bump d p s) = fss s.
Proof. unfold bump. by repeat case_match. Qed.

(** [sleep] on a lock that is not [ptable.lock]. *)
Lemma rx_sleep s ch k (Q : unit -> kst -> Prop) :
  task j pd 1 {[k]} s -> k <> ptable_lock ->
  (forall s1, fss s1 = fss s -> Out s1) ->
  (forall s0 s1 s', fss s0 = fss s -> resumed j pd s0 s1 -> task j pd 1 {[k]} s' -> fss s' = fss s1 -> Q tt s') ->
  rexec true Out (resumed j pd) Q (sleep ch k s).
Proof.
  intros HT Hk HO HQ. unfold sleep. apply rexec_bind, (rexec_call _ _ _ Out).
  eapply wp_task_myproc; [exact HT|]. intros l1 T1. apply rexec_bind.
  rewrite bool_decide_true by done. cbn [mwhen]. apply rexec_bind, (rexec_call _ _ _ Out).
  eapply wp_task_acquire; [exact T1|set_solver|]. intros l2 T2.
  apply (rexec_call _ _ _ Out). eapply (wp_task_release _ _ j pd 1 {[ptable_lock]}); [|set_solver|lia|].
  { replace ({[k]} ∪ {[ptable_lock]}) with ({[ptable_lock]} ∪ {[k]} : gset lockid) by set_solver. exact T2. }
  intros l3 T3. apply rexec_bind. cbn [upd_proc modify rexec]. apply rexec_bind. cbn [proc_at gets rexec].
  set (s3 := _ <| ptab ::= _ |>).
  assert (T3' : task j pd 1 {[ptable_lock]} s3) by (by apply task_upd_proc).
  assert (Hm : forall b, exists s4, mwhen b (count_dec j) s3 = Ret tt s4 /\
    task j pd 1 {[ptable_lock]} s4 /\ fss s4 = fss s).
  { intros []; cbn [mwhen]; [|by exists s3].
    eexists. split; [|split; [by apply task_bump|by rewrite bump_fss]].
    unfold count_dec, mbind, M_bind. cbn [proc_at gets obind]. apply add_count_eq. }
  apply rexec_bind. destruct (Hm (bool_decide (state (ptab s3 !!! j) = RUNNABLE))) as (s4 & -> & T4 & F4).
  cbn [rexec]. apply rexec_bind. cbn [upd_proc modify rexec]. apply rexec_bind.
  eapply rx_sched.
  - by apply task_upd_proc.
  - cbn [ptab upd]. simpl. rewrite lookup_total_alter_eq; [done|]. rewrite (task_len _ _ _ _ _ T4).
    by eapply task_slot.
  - intros l. apply HO. exact F4.
  - intros s0 s5 F5 HR l T5. apply rexec_bind. cbn [upd_proc modify rexec].
    apply rexec_bind, (rexec_call _ _ _ Out).
    eapply (wp_task_release _ _ j pd 0 ∅); [|set_solver|lia|].
    { replace ({[ptable_lock]} ∪ ∅) with ({[ptable_lock]} : gset lockid) by set_solver.
      by apply task_upd_proc. }
    intros l6 T6. apply (rexec_call _ _ _ Out). eapply wp_task_acquire; [exact T6|set_solver|].
    intros l7 T7. eapply (HQ s0 s5); [|exact HR| |done].
    + rewrite F5. exact F4.
    + replace ({[k]}) with ({[k]} ∪ ∅ : gset lockid) by set_solver. exact T7.
Qed.
End sleep.

(** ** Sleep locks, when no other process has them *)
Definition slk (k : slid) (f : fsst) : sleeplock :=
  match k with SL_buf i => b_lock (bufs f !!! i) | SL_inode i => i_lock (inodes f !!! i) end.
Definition slk_upd (k : slid) (g : sleeplock -> sleeplock) (f : fsst) : fsst :=
  match k with
  | SL_buf i => f <| bufs ::= alter (fun b => b <| b_lock ::= g |>) i |>
  | SL_inode i => f <| inodes ::= alter (fun ip => ip <| i_lock ::= g |>) i |>
  end.

Lemma sl_get_eq k s : sl_get k s = Ret (slk k (fss s)) s.
Proof. by destruct k. Qed.
Lemma sl_upd_eq k g s : sl_upd k g s = Ret tt (s <| fss ::= slk_upd k g |>).
Proof. by destruct k. Qed.
Lemma bufs_twice f g g' (k : nat) :
  f <| bufs ::= alter g k |> <| bufs ::= alter g' k |> = f <| bufs ::= alter (fun b => g' (g b)) k |>.
Proof. unfold upd. simpl. by rewrite list_alter_alter. Qed.
Lemma slk_upd_twice k g g' f : slk_upd k g' (slk_upd k g f) = slk_upd k (fun l => g' (g l)) f.
Proof. destruct k; simpl; unfold upd; simpl; by rewrite list_alter_alter. Qed.
Lemma sl_spin_ne k : sl_spin k <> ptable_lock /\ sl_spin k <> tickslock.
Proof. by destruct k. Qed.

Section sleeplock.
Context {fl : Fuel} (Out In : kst -> Prop) (j : nat) (pd : Z) (s : kst) (k : slid).
Hypothesis HT : task j pd 0 ∅ s.

Lemma wp_holdingsleep (Q : bool -> kst -> Prop) :
  sl_locked (slk k (fss s)) = true -> sl_pid (slk k (fss s)) = pd ->
  (forall s', task j pd 0 ∅ s' -> fss s' = fss s -> Q true s') ->
  wp Out In Q (holdingsleep k s).
Proof.
  intros Hl Hp HQ. unfold holdingsleep. apply exec_bind. eapply wp_task_acquire; [exact HT|set_solver|].
  intros l1 T1. apply exec_bind. rewrite sl_get_eq. cbn [exec].
  change (fss (s <| klk := l1 |>)) with (fss s). rewrite Hl. apply exec_bind. apply exec_bind.
  eapply wp_task_curproc; [exact T1|]. intros l2 T2. apply exec_bind. cbn [proc_at gets exec mret M_ret].
  change (ptab (s <| klk := l1 |> <| klk := l2 |>)) with (ptab s).
  rewrite Hp, (task_pid _ _ _ _ _ HT), Z.eqb_refl. apply exec_bind.
  eapply wp_task_release; [exact T2|set_solver|lia|]. intros l3 T3. cbn [exec mret M_ret]. by apply HQ.
Qed.

Lemma task_fsmod n H s1 f : task j pd n H s1 -> task j pd n H (s1 <| fss ::= f |>).
Proof. by intros []. Qed.

Lemma acquiresleep_loop_free fuel s1 : sl_locked (slk k (fss s1)) = false ->
  acquiresleep_loop fuel k s1 = Ret tt s1.
Proof.
  intros Hl. destruct fuel; cbn [acquiresleep_loop];
    unfold mbind, M_bind; rewrite sl_get_eq; cbn [obind]; by rewrite Hl.
Qed.

Lemma wp_acquiresleep (Q : unit -> kst -> Prop) :
  sl_locked (slk k (fss s)) = false ->
  (forall s', task j pd 0 ∅ s' ->
    fss s' = slk_upd k (fun l => l <| sl_locked := true |> <| sl_pid := pd |>) (fss s) -> Q tt s') ->
  wp Out In Q (acquiresleep k s).
Proof.
  intros Hl HQ. unfold acquiresleep. apply exec_bind. eapply wp_task_acquire; [exact HT|set_solver|].
  intros l1 T1. apply exec_bind. rewrite acquiresleep_loop_free by exact Hl.
  cbn [exec]. apply exec_bind. rewrite sl_upd_eq. cbn [exec]. apply exec_bind.
  eapply wp_task_curproc; [apply task_fsmod; exact T1|]. intros l2 T2. apply exec_bind.
  cbn [proc_at gets exec]. apply exec_bind. rewrite sl_upd_eq. cbn [exec].
  eapply wp_task_release; [apply task_fsmod; exact T2|set_solver|lia|]. intros l3 T3. apply HQ; [done|].
  etrans; [apply (slk_upd_twice k _ _ (fss s))|]. by rewrite (task_pid _ _ _ _ _ T2).
Qed.

Lemma wp_releasesleep (Q : unit -> kst -> Prop) :
  (forall s', task j pd 0 ∅ s' ->
    fss s' = slk_upd k (fun l => l <| sl_locked := false |> <| sl_pid := 0 |>) (fss s) -> Q tt s') ->
  wp Out In Q (releasesleep k s).
Proof.
  intros HQ. destruct (sl_spin_ne k) as [Hn1 Hn2]. unfold releasesleep. apply exec_bind. eapply wp_task_acquire; [exact HT|set_solver|].
  intros l1 T1. apply exec_bind. rewrite sl_upd_eq. cbn [exec]. apply exec_bind.
  eapply wp_task_wakeup; [apply task_fsmod; exact T1|set_solver|set_solver|]. intros s2 T2 F2.
  eapply wp_task_release; [exact T2|set_solver|lia|]. intros l3 T3. apply HQ; [done|]. exact F2.
Qed.
End sleeplock.
