(* ===== verification/CacheSpec.v ===== *)
(** The disk driver and the buffer cache, as one process uses them: ide.c and bio.c.

    A request is served by [ideintr] while the process sleeps. [cache] relates the
    buffers to the contents of the disk, and the specifications of [bread],
    [bwrite] and [brelse] keep it. *)
From stdpp Require Import base tactics list numbers strings gmap.
From S2P Require Import Prelude CString FsTypes State Spinlock Console Kalloc Vm Sched Process Args Sysproc Trap Sleeplock Ide Bio SchedInv Sample SchedOps Policy Dispatch Calls WakeSpec TaskOps.

#[local] Open Scope Z_scope.

(** ** What [ideintr] does to the file system's state *)
Section keeps_fss.
Context (f : fsst).
Let I (s : kst) : Prop := fss s = f.

Lemma keeps_fss_lk {A} (m : K A) : lk_only m -> keeps I m.
Proof. apply keeps_lk. intros s l. exact id. Qed.
Lemma keeps_fss_modify (g : kst -> kst) : (forall s, fss (g s) = fss s) -> keeps I (modify g).
Proof. intros Hg s Hs. unfold I in *. simpl. by rewrite Hg. Qed.

Lemma keeps_fss_make_runnable i : keeps I (make_runnable i).
Proof.
  unfold make_runnable, with_ticks, count_inc, add_count.
  repeat first [solve [apply keeps_gets | by apply keeps_fss_modify | apply keeps_fss_lk; eauto with lockdb]
    | apply keeps_bind; [|intros ?]].
  all: repeat case_match; first [by apply keeps_fss_modify | apply keeps_ret].
Qed.

Lemma keeps_fss_wakeup ch : keeps I (wakeup ch).
Proof.
  unfold wakeup, wakeup1. apply keeps_bind; [apply keeps_fss_lk; eauto with lockdb|intros _].
  apply keeps_bind; [|intros _; apply keeps_fss_lk; eauto with lockdb].
  apply keeps_for_all. intros i _. apply keeps_bind; [apply keeps_gets|]. intros p.
  apply keeps_when, keeps_fss_make_runnable.
Qed.
End keeps_fss.

(** The buffer of a request that has been served. *)
Definition served (d : gmap (Z * Z) (list Z)) (b : buf) : buf :=
  (if Z.land (b_flags b) B_DIRTY =? 0 then b <| b_data := disk_block d (disk_of b) |> else b)
    <| b_flags ::= fun fl => Z.land (Z.lor fl B_VALID) (Z.lnot B_DIRTY) |>.

Lemma ideintr_idle t t' : ideintr true t = Ret tt t' -> idequeue (fss t) = [] -> fss t' = fss t.
Proof.
  intros E Eq. enough (wlp (fun _ => True) (fun _ => False) (fun _ t' => fss t' = fss t) (ideintr true t)) as HW
    by (by rewrite E in HW).
  unfold ideintr. apply exec_bind. apply wlp_lk_only; [eauto with lockdb|]. intros _ l1 _.
  apply exec_bind. cbn [fsget gets exec]. change (fss (t <| klk := l1 |>)) with (fss t). rewrite Eq.
  apply wlp_lk_only; [eauto with lockdb|]. by intros _ l2 _.
Qed.

Lemma ideintr_served t t' i : ideintr true t = Ret tt t' -> idequeue (fss t) = [i] ->
  fss t' = (fss t) <| idequeue := [] |> <| bufs ::= alter (served (disk (fss t))) i |>.
Proof.
  intros E Eq. set (f' := _ <| bufs ::= _ |>).
  enough (wlp (fun _ => True) (fun _ => False) (fun _ t' => fss t' = f') (ideintr true t)) as HW
    by (by rewrite E in HW).
  unfold ideintr. apply exec_bind. apply wlp_lk_only; [eauto with lockdb|]. intros _ l1 _.
  apply exec_bind. cbn [fsget gets exec]. change (fss (t <| klk := l1 |>)) with (fss t). rewrite Eq.
  apply exec_bind. cbn [fsmod modify exec]. apply exec_bind. cbn [buf_at fsget gets exec].
  set (t1 := _ <| fss ::= _ |>). change (bufs (fss t1)) with (bufs (fss t)).
  set (b := bufs (fss t) !!! i). apply exec_bind.
  set (g := fun x : buf => if Z.land (b_flags b) B_DIRTY =? 0
    then x <| b_data := disk_block (disk (fss t)) (disk_of x) |> else x).
  assert (exists t2, mwhen ((Z.land (b_flags b) B_DIRTY =? 0) && true) (d ← fsget disk;
    upd_buf i (fun b => b <| b_data := disk_block d (disk_of b) |>)) t1 = Ret tt t2 /\
    fss t2 = (fss t) <| idequeue := [] |> <| bufs ::= alter g i |>) as (t2 & -> & F2).
  { unfold g. rewrite andb_true_r. destruct (Z.land (b_flags b) B_DIRTY =? 0); eexists; (split; [reflexivity|]).
    - done.
    - unfold t1, upd. simpl. by rewrite list_alter_id. }
  cbn [exec]. apply exec_bind. cbn [upd_buf fsmod modify exec]. set (t3 := _ <| fss ::= _ |>).
  apply exec_bind. apply (exec_mono_in _ _ _ (fun s => fss s = fss t3) (fun s => fss s = fss t3)); [done|done|].
  eapply exec_mono; [|apply (keeps_fss_wakeup (fss t3) (ch_buf i) t3 eq_refl)].
  intros [] t4 F4. apply exec_bind. cbn [mret M_ret exec]. apply wlp_lk_only; [eauto with lockdb|].
  intros _ l5 _. change (fss (t4 <| klk := l5 |>)) with (fss t4). rewrite F4.
  unfold t3. etrans; [apply (f_equal (fun f => f <| bufs ::= alter _ i |>) F2)|].
  etrans; [apply bufs_twice|]. unfold f', upd. simpl. f_equal. apply list_alter_ext; [|done].
  intros x Hx. unfold served, g, b. by rewrite (list_lookup_total_correct _ _ _ Hx).
Qed.

Lemma disk_int_idle f f' : rtc disk_int f f' -> idequeue f = [] -> f' = f.
Proof.
  induction 1 as [|f f1 f2 (t & t' & <- & E & <-) _ IH]; [done|]. intros Hq.
  pose proof (ideintr_idle _ _ E Hq) as E1. rewrite E1 in IH. by apply IH.
Qed.

(** The request in the queue has been served when the process goes on. *)
Lemma resumed_served j pd s s' i : resumed j pd s s' -> idequeue (fss s) = [i] ->
  fss s' = (fss s) <| idequeue := [] |> <| bufs ::= alter (served (disk (fss s))) i |>.
Proof.
  intros (Hr & Hq & _) Hi. inversion Hr as [f E1 E2|f f1 f2 (t & t' & Et & E & E') Hr' E1 E2]; subst.
  - congruence.
  - rewrite <-Et in Hi. pose proof (ideintr_served _ _ _ E Hi) as E3. rewrite Et in E3.
    rewrite <-E3. apply (disk_int_idle _ _ Hr'). by rewrite E3.
Qed.

(** ** The effect of a disk request *)
Definition serve (i : nat) (f : fsst) : fsst :=
  let b := bufs f !!! i in
  (if Z.land (b_flags b) B_DIRTY =? 0 then f else f <| disk ::= <[disk_of b := b_data b]> |>)
    <| bufs ::= alter (served (disk f)) i |>.

(** [started]: the request is in the queue and a write has gone to the disk. *)
Definition started (i : nat) (f : fsst) : fsst :=
  let b := bufs f !!! i in
  (if Z.land (b_flags b) B_DIRTY =? 0 then f else f <| disk ::= <[disk_of b := b_data b]> |>)
    <| idequeue := [i] |>.

Lemma started_served i f : idequeue f = [] ->
  (started i f) <| idequeue := [] |> <| bufs ::= alter (served (disk (started i f))) i |> = serve i f.
Proof.
  intros Hq. unfold started, serve. destruct (Z.land (b_flags (bufs f !!! i)) B_DIRTY =? 0) eqn:E.
  - unfold upd. simpl. by rewrite Hq.
  - unfold upd. simpl. rewrite Hq. f_equal. apply list_alter_ext; [|done]. intros b Hb.
    rewrite (list_lookup_total_correct _ _ _ Hb) in E. unfold served. by rewrite E.
Qed.

Lemma serve_bufs i f : bufs (serve i f) = alter (served (disk f)) i (bufs f).
Proof. unfold serve. by destruct (_ =? 0). Qed.

Section iderw.
Context {fl : Fuel} (Out : kst -> Prop) (j : nat) (pd : Z) (s : kst) (i : nat).
Hypothesis Hfl : (0 < wakeups)%nat.
Hypothesis HT : task j pd 0 ∅ s.
Let f := fss s.
Let b := bufs f !!! i.
Hypothesis Hlocked : sl_locked (b_lock b) = true.
Hypothesis Hpid : sl_pid (b_lock b) = pd.
Hypothesis Hflags : b_flags b = 0 \/ b_flags b = Z.lor B_VALID B_DIRTY.
Hypothesis Hdev : b_dev b = ROOTDEV.
Hypothesis Hbno : b_blockno b < FSSIZE.
Hypothesis Hhave : havedisk1 f = true.
Hypothesis Hq : idequeue f = [].
Hypothesis HOut : forall s1, disk (fss s1) = disk (serve i f) -> Out s1.

Lemma idestart_eq s1 : fss s1 = f <| idequeue := [i] |> -> exists s2, idestart i s1 = Ret tt s2 /\
  fss s2 = started i f /\ (forall n H, task j pd n H s1 -> task j pd n H s2).
Proof.
  intros E. unfold idestart, buf_at, fsget, gets, mbind, M_bind. cbn [obind]. rewrite E.
  change (bufs (f <| idequeue := [i] |>)) with (bufs f). fold b.
  rewrite (proj2 (Z.leb_gt _ _)) by done. change (7 <? BSIZE / SECTOR_SIZE) with false. unfold started. fold b.
  destruct (Z.land (b_flags b) B_DIRTY =? 0); cbn [negb mwhen].
  - eexists. split; [reflexivity|]. by split.
  - eexists. split; [reflexivity|]. split; [unfold upd; simpl; by rewrite E|]. by intros n H [].
Qed.

Lemma iderw_loop_done fuel s1 : b_flags (bufs (fss s1) !!! i) = B_VALID -> iderw_loop fuel i s1 = Ret tt s1.
Proof.
  intros E. destruct fuel; cbn [iderw_loop]; unfold buf_at, fsget, gets, mbind, M_bind; cbn [obind]; by rewrite E.
Qed.
Lemma served_flags d x : b_flags x = 0 \/ b_flags x = Z.lor B_VALID B_DIRTY -> b_flags (served d x) = B_VALID.
Proof. unfold served. intros [E|E]; rewrite E; simpl; by rewrite E. Qed.

Lemma rx_iderw (Q : unit -> kst -> Prop) :
  (i < length (bufs f))%nat ->
  (forall s', task j pd 0 ∅ s' -> fss s' = serve i f -> Q tt s') ->
  rexec true Out (resumed j pd) Q (iderw i s).
Proof.
  intros Hi HQ. unfold iderw. apply rexec_bind, (rexec_call _ _ _ Out).
  eapply wp_holdingsleep; [exact HT|done|done|]. intros s1 T1 F1. cbn [negb].
  apply rexec_bind. cbn [buf_at fsget gets rexec]. rewrite F1. fold f b.
  assert ((Z.land (b_flags b) (Z.lor B_VALID B_DIRTY) =? B_VALID) = false) as ->
    by (by destruct Hflags as [-> | ->]).
  apply rexec_bind. cbn [fsget gets rexec]. rewrite F1. fold f. rewrite Hhave, Hdev. cbn [negb andb].
  change (ROOTDEV =? 0) with false. cbn [negb andb]. apply rexec_bind, (rexec_call _ _ _ Out).
  eapply wp_task_acquire; [exact T1|set_solver|]. intros l2 T2. apply rexec_bind. cbn [fsmod modify rexec].
  set (s2 := _ <| fss ::= _ |>).
  assert (F2 : fss s2 = f <| idequeue := [i] |>).
  { unfold s2, upd. simpl. rewrite F1. fold f. by rewrite Hq. }
  assert (T2' : task j pd 1 {[idelock]} s2).
  { replace ({[idelock]}) with ({[idelock]} ∪ ∅ : gset lockid) by set_solver. by apply task_fsmod. }
  apply rexec_bind. cbn [fsget gets rexec]. rewrite F2. simpl (head _). rewrite bool_decide_true by done.
  cbn [mwhen]. apply rexec_bind. destruct (idestart_eq s2 F2) as (s3 & -> & F3 & HT3). cbn [rexec].
  specialize (HT3 _ _ T2'). apply rexec_bind.
  destruct wakeups as [|fuel]; [lia|]. cbn [iderw_loop]. apply rexec_bind. cbn [buf_at fsget gets rexec].
  rewrite F3. assert (bufs (started i f) = bufs f) as -> by (unfold started; by destruct (_ =? 0)). fold b.
  assert ((Z.land (b_flags b) (Z.lor B_VALID B_DIRTY) =? B_VALID) = false) as ->
    by (by destruct Hflags as [-> | ->]).
  apply rexec_bind. eapply rx_sleep; [exact HT3|done| |].
  { intros s4 F4. apply HOut. rewrite F4, F3. unfold started, serve. fold b. by destruct (_ =? 0). }
  intros s4 s5 s6 F4 HR T6 F6.
  assert (F6' : fss s6 = serve i f).
  { rewrite F6, (resumed_served _ _ _ _ i HR), F4, F3; [by apply started_served|].
    rewrite F4, F3. unfold started. by destruct (_ =? 0). }
  rewrite iderw_loop_done.
  2: { rewrite F6', serve_bufs. rewrite lookup_total_alter_eq by done. by apply served_flags. }
  cbn [rexec]. apply (rexec_call _ _ _ Out). eapply (wp_task_release _ _ j pd 0 ∅); [|set_solver|lia|].
  { replace ({[idelock]} ∪ ∅) with ({[idelock]} : gset lockid) by set_solver. exact T6. }
  intros l7 T7. by apply HQ.
Qed.
End iderw.

(** ** The cache *)

(** A block of the root disk. *)
Definition blk (d : gmap (Z * Z) (list Z)) (bn : Z) : list Z := disk_block d (1, bn).

(** A buffer holds block [bn] of the root disk. *)
Definition caches (bn : Z) (b : buf) : Prop := b_dev b = ROOTDEV /\ b_blockno b = bn.

(** One buffer: [h] is the block and the data if the process holds it. [cur] gives
    the current contents of the blocks, [pin] the blocks that are newer in the
    cache than on the disk, which are marked dirty. *)
Record buf_ok (pd : Z) (pin : gset Z) (cur : Z -> list Z) (h : option (Z * list Z)) (b : buf) : Prop := {
  bo_pinned : forall bn, caches bn b -> bn ∈ pin -> b_flags b = Z.lor B_VALID B_DIRTY;
  bo_clean : (forall bn, caches bn b -> bn ∉ pin) -> b_flags b = 0 \/ b_flags b = B_VALID;
  bo_free : h = None -> sl_locked (b_lock b) = false /\ b_refcnt b = 0 /\
    (forall bn, caches bn b -> b_flags b <> 0 -> b_data b = cur bn);
  bo_held : forall bn d, h = Some (bn, d) -> caches bn b /\ b_flags b <> 0 /\ b_data b = d /\
    sl_locked (b_lock b) = true /\ sl_pid (b_lock b) = pd /\ b_refcnt b = 1
}.

Record cache (pd : Z) (held : gmap nat (Z * list Z)) (pin : gset Z) (cur : Z -> list Z) (f : fsst) : Prop := {
  ca_len : length (bufs f) = NBUF;
  ca_lru : lru f ≡ₚ seq 0 NBUF;
  ca_queue : idequeue f = [];
  ca_have : havedisk1 f = true;
  ca_disk : forall bn, bn ∉ pin -> blk (disk f) bn = cur bn;
  ca_uniq : forall i k bi bk bn, bufs f !! i = Some bi -> bufs f !! k = Some bk ->
    caches bn bi -> caches bn bk -> i = k;
  ca_pin : forall bn, bn ∈ pin -> exists i b, bufs f !! i = Some b /\ caches bn b;
  ca_held : forall i h, held !! i = Some h -> (i < NBUF)%nat;
  ca_buf : forall i b, bufs f !! i = Some b -> buf_ok pd pin cur (held !! i) b
}.

(** ** Searching the buffers *)
Lemma find_buf_Some ok bs l i : find_buf ok bs l = Some i -> i ∈ l /\ ok (bs !!! i) = true.
Proof.
  induction l as [|k l IH]; [done|]. simpl. destruct (ok (bs !!! k)) eqn:E.
  - intros [= ->]. split; [set_solver|done].
  - intros [??]%IH. split; [set_solver|done].
Qed.
Lemma find_buf_None ok bs l i : find_buf ok bs l = None -> i ∈ l -> ok (bs !!! i) = false.
Proof.
  induction l as [|k l IH]; [set_solver|]. simpl. destruct (ok (bs !!! k)) eqn:E; [done|].
  intros Hf [->|Hi]%elem_of_cons; [done|by apply IH].
Qed.

Lemma is_block_true dev bn b : is_block dev bn b = true <-> b_dev b = dev /\ b_blockno b = bn.
Proof. unfold is_block. rewrite andb_true_iff, !Z.eqb_eq. done. Qed.

Section cache.
Context (pd : Z).

Lemma cache_lookup held pin cur f i : cache pd held pin cur f -> i ∈ lru f ->
  bufs f !! i = Some (bufs f !!! i) /\ (i < NBUF)%nat.
Proof.
  intros HC Hi. rewrite (ca_lru _ _ _ _ _ HC) in Hi. apply elem_of_seq in Hi. split; [|lia].
  apply list_lookup_lookup_total_lt. rewrite (ca_len _ _ _ _ _ HC). lia.
Qed.

Lemma cache_in_lru held pin cur f i b : cache pd held pin cur f -> bufs f !! i = Some b -> i ∈ lru f.
Proof.
  intros HC Hb. rewrite (ca_lru _ _ _ _ _ HC). apply elem_of_seq. apply lookup_lt_Some in Hb.
  rewrite (ca_len _ _ _ _ _ HC) in Hb. lia.
Qed.

(** Changing one buffer, and what the process holds of it. *)
Lemma cache_upd held pin cur f f' i b b' h :
  cache pd held pin cur f -> bufs f !! i = Some b -> bufs f' = <[i := b']> (bufs f) ->
  lru f' ≡ₚ lru f -> idequeue f' = [] -> havedisk1 f' = true -> disk f' = disk f ->
  buf_ok pd pin cur h b' ->
  (forall bn, caches bn b' -> caches bn b \/ forall k x, bufs f !! k = Some x -> ~ caches bn x) ->
  (forall bn, caches bn b -> bn ∈ pin -> caches bn b') ->
  cache pd (partial_alter (fun _ => h) i held) pin cur f'.
Proof.
  intros HC Hb Hbs Hl Hq Hh Hd Hok Hnew Hpin. pose proof (lookup_lt_Some _ _ _ Hb) as Hi.
  assert (Hlk : forall k x, bufs f' !! k = Some x -> (k = i /\ x = b') \/ (k <> i /\ bufs f !! k = Some x)).
  { intros k x. rewrite Hbs. destruct (decide (i = k)) as [->|Hne].
    - rewrite list_lookup_insert_eq by done. intros [= ->]. by left.
    - rewrite list_lookup_insert_ne by done. right. by split. }
  split; try done.
  - rewrite Hbs, length_insert. by eapply ca_len.
  - rewrite Hl. by eapply ca_lru.
  - rewrite Hd. by eapply ca_disk.
  - intros i1 k1 x1 y1 bn Hx Hy Cx Cy. destruct (Hlk _ _ Hx) as [[-> ->]|[N1 Hx']], (Hlk _ _ Hy) as [[-> ->]|[N2 Hy']].
    + done.
    + exfalso. destruct (Hnew bn Cx) as [Cb|Hno]; [|by eapply Hno]. by apply N2; eapply ca_uniq.
    + exfalso. destruct (Hnew bn Cy) as [Cb|Hno]; [|by eapply Hno]. by apply N1; eapply ca_uniq.
    + by eapply ca_uniq.
  - intros bn Hbn. destruct (ca_pin _ _ _ _ _ HC bn Hbn) as (k & x & Hk & Cx).
    destruct (decide (i = k)) as [->|Hne].
    + exists k, b'. rewrite Hbs, list_lookup_insert_eq by done. split; [done|]. apply Hpin; [|done]. by simplify_eq.
    + exists k, x. by rewrite Hbs, list_lookup_insert_ne.
  - intros k hk. destruct (decide (i = k)) as [->|Hne].
    + intros _. by rewrite <-(ca_len _ _ _ _ _ HC).
    + rewrite lookup_partial_alter_ne by done. by eapply ca_held.
  - intros k x Hk. destruct (Hlk _ _ Hk) as [[-> ->]|[Hne Hk']].
    + by rewrite lookup_partial_alter_eq.
    + rewrite lookup_partial_alter_ne by done. by eapply ca_buf.
Qed.

(** Not all buffers are in use as long as few are held or pinned. *)
Lemma recyclable_exists held pin cur f : cache pd held pin cur f -> (size held + size pin < NBUF)%nat ->
  find_buf recyclable (bufs f) (rev (lru f)) <> None.
Proof.
  intros HC Hsz Hnone. set (L := filter (fun i => held !! i = None) (seq 0 NBUF)).
  assert (Hpin : forall i, i ∈ L -> exists b, bufs f !! i = Some b /\ b_dev b = ROOTDEV /\ b_blockno b ∈ pin).
  { intros i [Hh Hi]%list_elem_of_filter. rewrite <-(ca_lru _ _ _ _ _ HC) in Hi.
    destruct (cache_lookup _ _ _ _ i HC Hi) as [Hb _]. exists (bufs f !!! i). split; [done|].
    pose proof (ca_buf _ _ _ _ _ HC _ _ Hb) as [Hp Hcl Hfr _]. destruct (Hfr Hh) as (_ & Hr & _).
    assert (Hrc : recyclable (bufs f !!! i) = false) by (apply (find_buf_None _ _ _ _ Hnone);
      by rewrite list_elem_of_In, <-in_rev, <-list_elem_of_In).
    unfold recyclable in Hrc. rewrite Hr in Hrc. change (0 =? 0) with true in Hrc. cbn [andb] in Hrc.
    destruct (decide (b_dev (bufs f !!! i) = ROOTDEV /\ b_blockno (bufs f !!! i) ∈ pin)) as [|Hno]; [done|].
    exfalso. destruct Hcl as [E|E]; [intros bn [??] ?; subst; tauto|..]; by rewrite E in Hrc. }
  assert (HL : (NBUF <= length L + size held)%nat).
  { rewrite <-(length_seq NBUF 0) at 1. rewrite <-length_map_to_list, <-(length_fmap fst), <-length_app.
    apply submseteq_length, NoDup_submseteq; [apply NoDup_seq|]. intros i Hi. apply elem_of_app.
    destruct (held !! i) as [h|] eqn:Eh; [right|left].
    - apply list_elem_of_fmap. exists (i, h). split; [done|]. by apply elem_of_map_to_list.
    - by apply list_elem_of_filter. }
  enough (length L <= size pin)%nat by lia.
  rewrite <-(length_fmap (fun i => b_blockno (bufs f !!! i))). apply submseteq_length, NoDup_submseteq.
  - apply NoDup_fmap_2_strong; [|apply NoDup_filter, NoDup_seq]. intros i k Hi Hk E.
    destruct (Hpin i Hi) as (b & Hb & Db & _), (Hpin k Hk) as (c & Hc & Dc & _).
    rewrite (list_lookup_total_correct _ _ _ Hb), (list_lookup_total_correct _ _ _ Hc) in E.
    by eapply (ca_uniq _ _ _ _ _ HC _ _ _ _ (b_blockno c)).
  - intros bn (i & -> & Hi)%list_elem_of_fmap. destruct (Hpin i Hi) as (b & Hb & _ & Hp).
    rewrite (list_lookup_total_correct _ _ _ Hb). by apply elem_of_elements.
Qed.
End cache.

(** ** [bget], [bread] *)

(** What the buffer operations never touch. *)
Definition kept (f : fsst) : log_t * superblock * list inode := (logst f, sblk f, inodes f).
Definition fs_frame (f f' : fsst) : Prop :=
  lru f' ≡ₚ lru f /\ idequeue f' = idequeue f /\ havedisk1 f' = havedisk1 f /\ kept f' = kept f.

Lemma kept_log f f' : kept f' = kept f -> logst f' = logst f.
Proof. by intros [= -> _ _]. Qed.

Lemma fs_frame_refl f : fs_frame f f.
Proof. by repeat split. Qed.
Lemma fs_frame_trans f1 f2 f3 : fs_frame f1 f2 -> fs_frame f2 f3 -> fs_frame f1 f3.
Proof. intros (?&?&?&?) (?&?&?&?). repeat split; etrans; eassumption. Qed.
Lemma fs_frame_bufs f g : fs_frame f (f <| bufs ::= g |>).
Proof. by repeat split. Qed.

(** Buffer [i] has been taken for block [bn], whose data may have to be read yet. *)
Record got (pd bn : Z) (held : gmap nat (Z * list Z)) (pin : gset Z) (cur : Z -> list Z) (f f' : fsst)
    (i : nat) (b b' : buf) : Prop := {
  got_old : bufs f !! i = Some b;
  got_free : held !! i = None;
  got_new : bufs f' = <[i := b']> (bufs f);
  got_frame : fs_frame f f';
  got_disk : disk f' = disk f;
  got_caches : caches bn b';
  got_locked : sl_locked (b_lock b') = true;
  got_pid : sl_pid (b_lock b') = pd;
  got_ref : b_refcnt b' = 1;
  got_key : caches bn b \/ forall k x, bufs f !! k = Some x -> ~ caches bn x;
  got_keep : forall bn', caches bn' b -> bn' ∈ pin -> caches bn' b';
  got_data : (b_flags b' = 0 /\ bn ∉ pin) \/ (b_flags b' = B_VALID /\ (bn ∉ pin) /\ b_data b' = cur bn) \/
    (b_flags b' = Z.lor B_VALID B_DIRTY /\ bn ∈ pin /\ b_data b' = cur bn)
}.

Lemma caches_inj bn bn' b : caches bn b -> caches bn' b -> bn = bn'.
Proof. intros [_ <-] [_ <-]. done. Qed.

Section bio.
Context {fl : Fuel} (Out : kst -> Prop) (j : nat) (pd : Z).
Context (held : gmap nat (Z * list Z)) (pin : gset Z) (cur : Z -> list Z) (s : kst).
Hypothesis HT : task j pd 0 ∅ s.
Hypothesis HC : cache pd held pin cur (fss s).

Lemma bufs_alter_eq f i b g : bufs f !! i = Some b -> (f <| bufs ::= alter g i |>) = (f <| bufs := <[i := g b]> (bufs f) |>).
Proof. intros Hb. unfold upd. simpl. by rewrite (list_alter_as_insert _ _ _ _ Hb). Qed.

(** The end of [bget], after the buffer has been found. *)
Lemma wp_bget_take In s1 i b g (Q : nat -> kst -> Prop) :
  task j pd 1 ({[bcache_lock]} ∪ ∅) s1 -> bufs (fss s1) !! i = Some b -> sl_locked (b_lock (g b)) = false ->
  (forall s', task j pd 0 ∅ s' -> fss s' = (fss s1) <| bufs := <[i := (g b) <| b_lock ::= fun l =>
      l <| sl_locked := true |> <| sl_pid := pd |> |>]> (bufs (fss s1)) |> -> Q i s') ->
  wp Out In Q ((upd_buf i g;; release bcache_lock;; acquiresleep (SL_buf i);; mret i) s1).
Proof.
  intros T1 Hb Hl HQ. apply exec_bind. cbn [upd_buf fsmod modify exec]. apply exec_bind.
  eapply (wp_task_release _ _ j pd 0 ∅); [apply task_fsmod; exact T1|set_solver|lia|]. intros l2 T2.
  apply exec_bind. eapply wp_acquiresleep; [exact T2| |].
  - change (sl_locked (b_lock (alter g i (bufs (fss s1)) !!! i)) = false).
    rewrite lookup_total_alter_eq by (by eapply lookup_lt_Some).
    by rewrite (list_lookup_total_correct _ _ _ Hb).
  - intros s3 T3 F3. cbn [mret M_ret exec]. apply HQ; [done|]. rewrite F3.
    etrans; [apply (bufs_twice (fss s1))|]. exact (bufs_alter_eq _ _ _ _ Hb).
Qed.

Lemma cached_free bn i b : (forall i d, held !! i <> Some (bn, d)) -> bufs (fss s) !! i = Some b -> caches bn b ->
  held !! i = None.
Proof.
  intros Hnh Hb Hc. pose proof (ca_buf _ _ _ _ _ HC _ _ Hb) as Hok.
  destruct (held !! i) as [[bn' d]|] eqn:Eh; [|done]. exfalso.
  destruct (bo_held _ _ _ _ _ Hok _ _ eq_refl) as (Hc' & _). apply (Hnh i d).
  by rewrite Eh, (caches_inj _ _ _ Hc Hc').
Qed.

Lemma got_hit bn i b : bufs (fss s) !! i = Some b -> caches bn b -> held !! i = None ->
  let b' := b <| b_refcnt ::= fun r => u32 (r + 1) |> <| b_lock ::= fun l => l <| sl_locked := true |> <| sl_pid := pd |> |> in
  got pd bn held pin cur (fss s) ((fss s) <| bufs := <[i := b']> (bufs (fss s)) |>) i b b'.
Proof.
  intros Hb Hc Hfree b'. pose proof (ca_buf _ _ _ _ _ HC _ _ Hb) as Hok.
  destruct (bo_free _ _ _ _ _ Hok Hfree) as (Hl & Hr & Hdat). split; try done.
  - unfold b'. simpl. by rewrite Hr.
  - by left.
  - destruct (decide (bn ∈ pin)) as [Hp|Hp].
    + right; right. pose proof (bo_pinned _ _ _ _ _ Hok _ Hc Hp) as Ef. split; [done|]. split; [done|].
      apply Hdat; [done|]. by rewrite Ef.
    + destruct (bo_clean _ _ _ _ _ Hok) as [Ef|Ef]; [intros bn' Hc'; by rewrite <-(caches_inj _ _ _ Hc Hc')|..].
      * by left.
      * right; left. split; [done|]. split; [done|]. apply Hdat; [done|]. by rewrite Ef.
Qed.

Lemma got_miss bn i b : bufs (fss s) !! i = Some b -> recyclable b = true ->
  (forall k x, bufs (fss s) !! k = Some x -> ~ caches bn x) ->
  let b0 := b <| b_dev := ROOTDEV |> <| b_blockno := bn |> <| b_flags := 0 |> <| b_refcnt := 1 |> in
  let b' := b0 <| b_lock ::= fun l => l <| sl_locked := true |> <| sl_pid := pd |> |> in
  sl_locked (b_lock b0) = false /\
  got pd bn held pin cur (fss s) ((fss s) <| bufs := <[i := b']> (bufs (fss s)) |>) i b b'.
Proof.
  intros Hb [Hr Hf]%andb_true_iff Hno b0 b'. apply Z.eqb_eq in Hr, Hf.
  pose proof (ca_buf _ _ _ _ _ HC _ _ Hb) as Hok.
  assert (Hfree : held !! i = None).
  { destruct (held !! i) as [[bn' d]|] eqn:Eh; [|done]. exfalso.
    destruct (bo_held _ _ _ _ _ Hok _ _ eq_refl) as (_ & _ & _ & _ & _ & E). by rewrite E in Hr. }
  destruct (bo_free _ _ _ _ _ Hok Hfree) as (Hl & _ & _). split; [done|]. split; try done.
  - by right.
  - intros bn' Hc Hp. rewrite (bo_pinned _ _ _ _ _ Hok _ Hc Hp) in Hf. done.
  - left. split; [done|]. intros Hp. destruct (ca_pin _ _ _ _ _ HC _ Hp) as (k & x & Hk & Hx). by eapply Hno.
Qed.

Lemma wp_bget In bn (Q : nat -> kst -> Prop) :
  (forall i d, held !! i <> Some (bn, d)) -> (bn ∈ pin \/ (size held + size pin < NBUF)%nat) ->
  (forall s' i b b', task j pd 0 ∅ s' -> got pd bn held pin cur (fss s) (fss s') i b b' -> Q i s') ->
  wp Out In Q (bget ROOTDEV bn s).
Proof.
  intros Hnh Hroom HQ. unfold bget. apply exec_bind. eapply wp_task_acquire; [exact HT|set_solver|].
  intros l1 T1. apply exec_bind. cbn [fsget gets exec]. change (fss (s <| klk := l1 |>)) with (fss s).
  destruct (find_buf (is_block ROOTDEV bn) (bufs (fss s)) (lru (fss s))) as [i|] eqn:Ef.
  - apply find_buf_Some in Ef as [Hi Hc%is_block_true].
    destruct (cache_lookup _ _ _ _ _ i HC Hi) as [Hb _]. pose proof (cached_free _ _ _ Hnh Hb Hc) as Hfree.
    destruct (bo_free _ _ _ _ _ (ca_buf _ _ _ _ _ HC _ _ Hb) Hfree) as (Hl & _).
    eapply wp_bget_take; [exact T1|exact Hb|exact Hl|]. intros s3 T3 F3.
    eapply HQ; [exact T3|]. rewrite F3. by apply got_hit.
  - assert (Hno : forall k x, bufs (fss s) !! k = Some x -> ~ caches bn x).
    { intros k x Hk Hx. pose proof (cache_in_lru _ _ _ _ _ _ _ HC Hk) as Hi.
      pose proof (find_buf_None _ _ _ _ Ef Hi) as E. rewrite (list_lookup_total_correct _ _ _ Hk) in E.
      rewrite (proj2 (is_block_true _ _ _) Hx) in E. done. }
    destruct (find_buf recyclable (bufs (fss s)) (rev (lru (fss s)))) as [i|] eqn:Er.
    + apply find_buf_Some in Er as [Hi Hr]. rewrite list_elem_of_In, <-in_rev, <-list_elem_of_In in Hi.
      destruct (cache_lookup _ _ _ _ _ i HC Hi) as [Hb _].
      destruct (got_miss bn i _ Hb Hr Hno) as [Hl HG].
      eapply wp_bget_take; [exact T1|exact Hb|exact Hl|]. intros s3 T3 F3.
      eapply HQ; [exact T3|]. rewrite F3. exact HG.
    + exfalso. destruct Hroom as [Hp|Hsz]; [|by eapply recyclable_exists].
      destruct (ca_pin _ _ _ _ _ HC _ Hp) as (k & x & Hk & Hx). by eapply Hno.
Qed.
End bio.

(** Once the data is there, the process holds the buffer. *)
Lemma got_held pd bn held pin cur f f1 f2 i b b1 b2 :
  cache pd held pin cur f -> got pd bn held pin cur f f1 i b b1 ->
  bufs f2 = <[i := b2]> (bufs f) -> fs_frame f f2 -> disk f2 = disk f -> caches bn b2 ->
  b_lock b2 = b_lock b1 -> b_refcnt b2 = b_refcnt b1 -> b_data b2 = cur bn ->
  b_flags b2 = (if decide (bn ∈ pin) then Z.lor B_VALID B_DIRTY else B_VALID) ->
  cache pd (<[i := (bn, cur bn)]> held) pin cur f2.
Proof.
  intros HC G Hbs (F1 & F2 & F3 & F4) Hd Hc Hl Hr Hda Hf. destruct G.
  apply (cache_upd pd held pin cur f f2 i b b2 (Some (bn, cur bn))); try done.
  - rewrite F2. by eapply ca_queue.
  - rewrite F3. by eapply ca_have.
  - split.
    + intros bn' Hc' Hin. rewrite Hf, decide_True; [done|]. by rewrite (caches_inj _ _ _ Hc Hc').
    + intros Hcl. right. rewrite Hf, decide_False; [done|]. by apply Hcl.
    + done.
    + intros ?? [= <- <-]. rewrite Hl, Hr. split; [done|]. split; [|done]. rewrite Hf. by case_decide.
  - intros bn' Hc'. by rewrite <-(caches_inj _ _ _ Hc Hc').
  - intros bn' Hc' Hin. by rewrite <-(caches_inj _ _ _ got_caches0 (got_keep0 _ Hc' Hin)).
Qed.

Lemma disk_of_caches bn b : caches bn b -> disk_of b = (1, bn).
Proof. intros [Hd Hb]. unfold disk_of. by rewrite Hd, Hb. Qed.

Section bread.
Context {fl : Fuel} (C : gmap (Z * Z) (list Z) -> Prop) (j : nat) (pd : Z).
Hypothesis Hfl : (0 < wakeups)%nat.
Let Out (s : kst) : Prop := C (disk (fss s)).

(** [bread]: the process holds the block, with its current contents. *)
Lemma rx_bread held pin cur s bn (Q : nat -> kst -> Prop) :
  task j pd 0 ∅ s -> cache pd held pin cur (fss s) -> C (disk (fss s)) -> bn < FSSIZE ->
  (forall i d, held !! i <> Some (bn, d)) -> (bn ∈ pin \/ (size held + size pin < NBUF)%nat) ->
  (forall i s', held !! i = None -> task j pd 0 ∅ s' -> cache pd (<[i := (bn, cur bn)]> held) pin cur (fss s') ->
    disk (fss s') = disk (fss s) -> kept (fss s') = kept (fss s) -> Q i s') ->
  rexec true Out (resumed j pd) Q (bread ROOTDEV bn s).
Proof.
  intros HT HC HCd Hbn Hnh Hroom HQ. unfold bread. apply rexec_bind, (rexec_call _ _ _ Out).
  eapply wp_bget; [exact HT|exact HC|done|done|]. intros s1 i b b' T1 G. pose proof G as [].
  pose proof got_frame0 as (Fl & Fq & Fh & Flog).
  assert (Hi : (i < length (bufs (fss s)))%nat) by (by eapply lookup_lt_Some).
  assert (Hb' : bufs (fss s1) !! i = Some b') by (rewrite got_new0; by apply list_lookup_insert_eq).
  assert (Hbt : bufs (fss s1) !!! i = b') by (by apply list_lookup_total_correct).
  apply rexec_bind. cbn [buf_at fsget gets rexec]. rewrite Hbt.
  apply rexec_bind. destruct got_data0 as [[Ef Hp]|Hdat].
  - rewrite Ef. change (Z.land 0 B_VALID =? 0) with true. cbn [mwhen].
    assert (HS : serve i (fss s1) = (fss s1) <| bufs ::= alter (served (disk (fss s1))) i |>).
    { unfold serve. by rewrite Hbt, Ef. }
    eapply rx_iderw; rewrite ?Hbt; try done.
    + by left.
    + destruct got_caches0. done.
    + destruct got_caches0 as [_ ->]. done.
    + rewrite Fh. by eapply ca_have.
    + rewrite Fq. by eapply ca_queue.
    + intros s2 E. unfold Out. rewrite E, HS. simpl. by rewrite got_disk0.
    + by rewrite got_new0, length_insert.
    + intros s2 T2 F2. cbn [mret M_ret rexec]. rewrite HS in F2. apply HQ; [done|done| |by rewrite F2|by rewrite F2].
      assert (Hsv : served (disk (fss s1)) b' = b' <| b_data := cur bn |> <| b_flags := B_VALID |>).
      { unfold served. rewrite Ef, (disk_of_caches bn b') by done. simpl. rewrite got_disk0.
        rewrite <-(ca_disk _ _ _ _ _ HC bn Hp). unfold upd, blk. simpl. by rewrite Ef. }
      eapply (got_held _ _ _ _ _ _ _ _ _ _ _ (served (disk (fss s1)) b')); [exact HC|exact G|..].
      * rewrite F2. simpl. rewrite got_new0, (list_alter_as_insert _ _ _ b'), list_insert_insert_eq by by apply list_lookup_insert_eq. done.
      * rewrite F2. eapply fs_frame_trans; [exact got_frame0|apply fs_frame_bufs].
      * by rewrite F2.
      * by rewrite Hsv.
      * by rewrite Hsv.
      * by rewrite Hsv.
      * by rewrite Hsv.
      * rewrite Hsv, decide_False by done. done.
  - assert (Hf : b_flags b' = (if decide (bn ∈ pin) then Z.lor B_VALID B_DIRTY else B_VALID) /\ b_data b' = cur bn).
    { case_decide; naive_solver. }
    destruct Hf as [Hf Hda].
    assert ((Z.land (b_flags b') B_VALID =? 0) = false) as -> by (rewrite Hf; by case_decide).
    cbn [mwhen mret M_ret rexec]. apply HQ; try done. by eapply got_held.
Qed.

(** ** [bwrite] *)
Definition written (bn : Z) (d : list Z) (cur : Z -> list Z) (bn' : Z) : list Z :=
  if decide (bn' = bn) then d else cur bn'.

Lemma cache_held_lookup held pin cur f i bn d : cache pd held pin cur f -> held !! i = Some (bn, d) ->
  exists b, bufs f !! i = Some b /\ caches bn b /\ b_flags b <> 0 /\ b_data b = d /\
    sl_locked (b_lock b) = true /\ sl_pid (b_lock b) = pd /\ b_refcnt b = 1 /\
    (b_flags b = B_VALID \/ b_flags b = Z.lor B_VALID B_DIRTY).
Proof.
  intros HC Hh. destruct (lookup_lt_is_Some_2 (bufs f) i) as [b Hb].
  { rewrite (ca_len _ _ _ _ _ HC). by eapply ca_held. }
  exists b. split; [done|]. pose proof (ca_buf _ _ _ _ _ HC _ _ Hb) as Hok.
  destruct (bo_held _ _ _ _ _ Hok _ _ Hh) as (Hc & Hf & Hr). repeat (split; [tauto|]).
  destruct (decide (bn ∈ pin)) as [Hp|Hp].
  - right. by eapply bo_pinned.
  - left. destruct (bo_clean _ _ _ _ _ Hok) as [E|E]; [|by rewrite E in Hf|done].
    intros bn' Hc'. by rewrite <-(caches_inj _ _ _ Hc Hc').
Qed.

(** The block of a held buffer becomes clean or dirty: its data are the current
    contents, and everything about other blocks stays. *)
Lemma cache_mark held pin pin' cur f f' i bn d b b' :
  cache pd held pin cur f -> held !! i = Some (bn, d) -> bufs f !! i = Some b ->
  bufs f' = <[i := b']> (bufs f) ->
  b' = b <| b_flags := if decide (bn ∈ pin') then Z.lor B_VALID B_DIRTY else B_VALID |> ->
  lru f' ≡ₚ lru f -> idequeue f' = idequeue f -> havedisk1 f' = havedisk1 f ->
  (forall bn', bn' <> bn -> bn' ∈ pin' <-> bn' ∈ pin) ->
  (forall bn', bn' <> bn -> blk (disk f') bn' = blk (disk f) bn') ->
  (bn ∉ pin' -> blk (disk f') bn = d) ->
  cache pd held pin' (written bn d cur) f'.
Proof.
  intros HC Hh Hb Hbs Hb' F1 F2 F3 Hpin Hd Hdn.
  destruct (cache_held_lookup _ _ _ _ _ _ _ HC Hh) as (b0 & Hb0 & Hc & Hf & Hda & Hl & Hp & Hr & _).
  rewrite Hb in Hb0. injection Hb0 as <-. pose proof (lookup_lt_Some _ _ _ Hb) as Hi.
  assert (Hc' : caches bn b') by (by rewrite Hb').
  assert (Hlk : forall k x, bufs f' !! k = Some x ->
    (k = i /\ x = b') \/ (k <> i /\ bufs f !! k = Some x /\ ~ caches bn x)).
  { intros k x. rewrite Hbs. destruct (decide (i = k)) as [->|Hne].
    - rewrite list_lookup_insert_eq by done. intros [= ->]. by left.
    - rewrite list_lookup_insert_ne by done. intros Hk. right. split; [done|]. split; [done|].
      intros Hx. apply Hne. by eapply ca_uniq. }
  split.
  - rewrite Hbs, length_insert. by eapply ca_len.
  - rewrite F1. by eapply ca_lru.
  - rewrite F2. by eapply ca_queue.
  - rewrite F3. by eapply ca_have.
  - intros bn' Hn. unfold written. destruct (decide (bn' = bn)) as [->|Hne]; [by apply Hdn|].
    rewrite Hd by done. apply (ca_disk _ _ _ _ _ HC). by rewrite <-Hpin.
  - intros i1 k1 x1 y1 bn' Hx Hy Cx Cy.
    destruct (Hlk _ _ Hx) as [[-> ->]|(N1 & Hx' & X1)], (Hlk _ _ Hy) as [[-> ->]|(N2 & Hy' & Y1)].
    + done.
    + exfalso. apply Y1. by rewrite (caches_inj _ _ _ Hc' Cx).
    + exfalso. apply X1. by rewrite (caches_inj _ _ _ Hc' Cy).
    + by eapply (ca_uniq _ _ _ _ _ HC).
  - intros bn' Hin. destruct (decide (bn' = bn)) as [->|Hne].
    + exists i, b'. by rewrite Hbs, list_lookup_insert_eq.
    + destruct (ca_pin _ _ _ _ _ HC bn') as (k & x & Hk & Hx); [by rewrite <-Hpin|].
      exists k, x. split; [|done]. rewrite Hbs, list_lookup_insert_ne; [done|]. intros <-.
      rewrite Hk in Hb. injection Hb as ->. by rewrite (caches_inj _ _ _ Hx Hc) in Hne.
  - by eapply ca_held.
  - intros k x Hk. destruct (Hlk _ _ Hk) as [[-> ->]|(N1 & Hk' & X1)].
    + split.
      * intros bn' Cx Hin. rewrite <-(caches_inj _ _ _ Hc' Cx) in Hin. by rewrite Hb', decide_True.
      * intros Hcl. right. rewrite Hb', decide_False by (by apply Hcl). done.
      * by rewrite Hh.
      * intros bn' d'. rewrite Hh. intros [= <- <-]. rewrite Hb'. split; [done|]. split; [by case_decide|done].
    + destruct (ca_buf _ _ _ _ _ HC _ _ Hk') as [P1 P2 P3 P4].
      assert (Hx : forall bn', caches bn' x -> bn' <> bn) by (intros ? ? ->; done). split.
      * intros bn' Cx. rewrite Hpin by auto. by apply P1.
      * intros Hcl. apply P2. intros bn' Cx. rewrite <-Hpin by auto. by apply Hcl.
      * intros Hn. destruct (P3 Hn) as (Q1 & Q2 & Q3). split; [done|]. split; [done|].
        intros bn' Cx Hfx. unfold written. rewrite decide_False by auto. by apply Q3.
      * done.
Qed.

Lemma blk_insert D bn d bn' : blk (<[(1, bn) := d]> D) bn' = if decide (bn' = bn) then d else blk D bn'.
Proof. clear Hfl.
  unfold blk, disk_block. case_decide as E; [subst; by rewrite lookup_insert_eq|].
  by rewrite lookup_insert_ne by congruence.
Qed.

Lemma rx_bwrite held pin cur s i bn d (Q : unit -> kst -> Prop) :
  task j pd 0 ∅ s -> cache pd held pin cur (fss s) -> held !! i = Some (bn, d) -> bn < FSSIZE ->
  C (<[(1, bn) := d]> (disk (fss s))) ->
  (forall s', task j pd 0 ∅ s' -> cache pd held (pin ∖ {[bn]}) (written bn d cur) (fss s') ->
    disk (fss s') = <[(1, bn) := d]> (disk (fss s)) -> kept (fss s') = kept (fss s) -> Q tt s') ->
  rexec true Out (resumed j pd) Q (bwrite i s).
Proof.
  intros HT HC Hh Hbn HCd HQ. unfold bwrite.
  destruct (cache_held_lookup _ _ _ _ _ _ _ HC Hh) as (b & Hb & Hc & Hf & Hda & Hl & Hp & Hr & Hfl').
  pose proof (list_lookup_total_correct _ _ _ Hb) as Hbt. pose proof (lookup_lt_Some _ _ _ Hb) as Hi.
  apply rexec_bind, (rexec_call _ _ _ Out).
  eapply wp_holdingsleep; [exact HT|by cbn; rewrite Hbt|by cbn; rewrite Hbt|]. intros s1 T1 F1. cbn [negb].
  apply rexec_bind. cbn [upd_buf fsmod modify rexec].
  set (b1 := b <| b_flags := Z.lor B_VALID B_DIRTY |>).
  set (s2 := s1 <| fss ::= _ |>).
  assert (F2 : fss s2 = (fss s) <| bufs := <[i := b1]> (bufs (fss s)) |>).
  { unfold s2, upd. simpl. rewrite F1. f_equal. rewrite (list_alter_as_insert _ _ _ b Hb). f_equal.
    unfold b1, upd. simpl. by destruct Hfl' as [-> | ->]. }
  assert (T2 : task j pd 0 ∅ s2) by (by apply task_fsmod).
  assert (Hb2 : bufs (fss s2) !!! i = b1).
  { rewrite F2. simpl. apply list_lookup_total_correct. by apply list_lookup_insert_eq. }
  assert (HS : serve i (fss s2) = (fss s) <| disk := <[(1, bn) := d]> (disk (fss s)) |>
    <| bufs := <[i := b <| b_flags := B_VALID |>]> (bufs (fss s)) |>).
  { unfold serve. rewrite Hb2. change (Z.land (b_flags b1) B_DIRTY =? 0) with false. cbn iota.
    rewrite (disk_of_caches bn b1 Hc). unfold upd. rewrite F2. simpl. f_equal.
    - rewrite (list_alter_as_insert _ _ _ b1) by (by apply list_lookup_insert_eq).
      rewrite list_insert_insert_eq. done.
    - by rewrite Hda. }
  eapply rx_iderw; rewrite ?Hb2; try done.
  - by right.
  - by destruct Hc.
  - destruct Hc as [_ E]. unfold b1. simpl. by rewrite E.
  - rewrite F2. exact (ca_have _ _ _ _ _ HC).
  - rewrite F2. exact (ca_queue _ _ _ _ _ HC).
  - intros s3 E. unfold Out. rewrite E, HS. exact HCd.
  - rewrite F2. simpl. by rewrite length_insert.
  - intros s3 T3 F3. rewrite HS in F3. apply HQ; [done| |by rewrite F3|by rewrite F3].
    eapply (cache_mark held pin _ cur (fss s) _ i bn d b); [exact HC|exact Hh|exact Hb|by rewrite F3| |by rewrite F3..| | |].
    + rewrite decide_False by set_solver. done.
    + set_solver.
    + intros bn' Hne. rewrite F3. simpl. by rewrite blk_insert, decide_False.
    + intros _. rewrite F3. simpl. by rewrite blk_insert, decide_True.
Qed.
End bread.

(** ** [brelse], and changing the data of a buffer *)
Lemma to_front_perm i l : NoDup l -> i ∈ l -> to_front i l ≡ₚ l.
Proof.
  intros Hnd Hi. unfold to_front. induction l as [|k l IH]; [set_solver|].
  apply NoDup_cons in Hnd as [Hk Hnd]. rewrite filter_cons. case_decide as E.
  - apply elem_of_cons in Hi as [->|Hi]; [done|]. rewrite Permutation_swap. f_equiv. by apply IH.
  - subst k. f_equiv.
    assert (Hall : forall l' : list nat, i ∉ l' -> filter (fun j => j <> i) l' = l'); [|by rewrite Hall].
    induction l' as [|x l' IHl]; intros Hl; [done|].
    rewrite filter_cons_True by set_solver. by rewrite IHl by set_solver.
Qed.

Section brelse.
Context {fl : Fuel} (Out In : kst -> Prop) (j : nat) (pd : Z).
Context (held : gmap nat (Z * list Z)) (pin : gset Z) (cur : Z -> list Z) (s : kst) (i : nat) (bn : Z) (d : list Z).
Hypothesis HT : task j pd 0 ∅ s.
Hypothesis HC : cache pd held pin cur (fss s).
Hypothesis Hh : held !! i = Some (bn, d).

Lemma wp_brelse (Q : unit -> kst -> Prop) :
  cur bn = d ->
  (forall s', task j pd 0 ∅ s' -> cache pd (delete i held) pin cur (fss s') ->
    disk (fss s') = disk (fss s) -> kept (fss s') = kept (fss s) -> Q tt s') ->
  wp Out In Q (brelse i s).
Proof.
  intros Hd HQ. unfold brelse.
  destruct (cache_held_lookup _ _ _ _ _ _ _ _ HC Hh) as (b & Hb & Hc & Hf & Hda & Hl & Hp & Hr & Hfl').
  pose proof (list_lookup_total_correct _ _ _ Hb) as Hbt. pose proof (lookup_lt_Some _ _ _ Hb) as Hi.
  apply exec_bind. eapply wp_holdingsleep; [exact HT|by cbn; rewrite Hbt|by cbn; rewrite Hbt|]. intros s1 T1 F1.
  cbn [negb]. apply exec_bind. eapply wp_releasesleep; [exact T1|]. intros s2 T2 F2. rewrite F1 in F2.
  apply exec_bind. eapply wp_task_acquire; [exact T2|set_solver|]. intros l3 T3.
  apply exec_bind. cbn [upd_buf fsmod modify exec]. set (s4 := _ <| fss ::= _ |>).
  set (b4 := b <| b_lock ::= fun l => l <| sl_locked := false |> <| sl_pid := 0 |> |>
    <| b_refcnt ::= fun r => u32 (r - 1) |>).
  assert (F4 : fss s4 = (fss s) <| bufs := <[i := b4]> (bufs (fss s)) |>).
  { unfold s4. etrans; [apply (f_equal (fun f => f <| bufs ::= alter _ i |>) F2)|].
    etrans; [apply bufs_twice|]. exact (bufs_alter_eq _ _ _ _ Hb). }
  assert (T4 : task j pd 1 ({[bcache_lock]} ∪ ∅) s4) by (by apply task_fsmod).
  apply exec_bind. cbn [buf_at fsget gets exec]. rewrite F4.
  change (bufs ((fss s) <| bufs := <[i := b4]> (bufs (fss s)) |>)) with (<[i := b4]> (bufs (fss s))).
  rewrite (list_lookup_total_correct _ i b4) by (by apply list_lookup_insert_eq).
  assert (Hr4 : b_refcnt b4 = 0) by (unfold b4; simpl; by rewrite Hr).
  rewrite Hr4. change (0 =? 0) with true. cbn [mwhen]. apply exec_bind. cbn [fsmod modify exec].
  eapply (wp_task_release _ _ j pd 0 ∅); [apply task_fsmod; exact T4|set_solver|lia|]. intros l5 T5.
  set (s5 := _ <| klk := l5 |>) in *.
  assert (F5 : fss s5 = (fss s) <| bufs := <[i := b4]> (bufs (fss s)) |> <| lru ::= to_front i |>).
  { unfold s5. etrans; [apply (f_equal (fun f => f <| lru ::= to_front i |>) F4)|]. done. }
  apply HQ; [exact T5| |by rewrite F5|by rewrite F5].
  apply (cache_upd pd held pin cur (fss s) (fss s5) i b b4 None); rewrite ?F5; try done.
  - simpl. apply to_front_perm; [|by eapply cache_in_lru]. rewrite (ca_lru _ _ _ _ _ HC). apply NoDup_seq.
  - exact (ca_queue _ _ _ _ _ HC).
  - exact (ca_have _ _ _ _ _ HC).
  - destruct (ca_buf _ _ _ _ _ HC _ _ Hb) as [P1 P2 _ _]. split; [exact P1|exact P2| |done].
    intros _. split; [done|]. split; [done|]. intros bn' Hc' _. rewrite <-(caches_inj _ _ _ Hc Hc'), Hd. exact Hda.
  - intros bn' Hc'. left. exact Hc'.
Qed.

(** Storing into the data of a buffer the process holds. *)
Lemma cache_set_data d' f' :
  fs_frame (fss s) f' -> disk f' = disk (fss s) ->
  bufs f' = alter (fun b => b <| b_data := d' |>) i (bufs (fss s)) ->
  cache pd (<[i := (bn, d')]> held) pin cur f'.
Proof.
  intros (F1 & F2 & F3 & F4) Hd Hbs.
  destruct (cache_held_lookup _ _ _ _ _ _ _ _ HC Hh) as (b & Hb & Hc & Hf & Hda & Hl & Hp & Hr & Hfl').
  rewrite (list_alter_as_insert _ _ _ _ Hb) in Hbs.
  apply (cache_upd pd held pin cur (fss s) f' i b (b <| b_data := d' |>) (Some (bn, d'))); try done.
  - rewrite F2. by eapply ca_queue.
  - rewrite F3. by eapply ca_have.
  - destruct (ca_buf _ _ _ _ _ HC _ _ Hb) as [P1 P2 _ _]. split; [exact P1|exact P2|done|].
    intros ?? [= <- <-]. done.
  - intros bn' Hc'. by left.
Qed.
End brelse.
