(* ===== verification/FsRead.v ===== *)
(** Reading files: what [bmap] and [readi] of fs.c give for an inode whose
    blocks are allocated, through the buffer cache and the disk driver. *)
From stdpp Require Import base tactics list numbers strings gmap.
From S2P Require Import Prelude CString FsTypes State Spinlock Console Kalloc Vm Sched Process Args Sysproc Trap Sleeplock Ide Bio Log Fs.
From S2P Require Import SchedInv Sample SchedOps Policy Dispatch Calls WakeSpec TaskOps CacheSpec.

#[local] Open Scope Z_scope.

(** ** The contents of a file *)

(** The block with number [bn] of the file, and the byte at offset [o]. *)
Definition block_of (ip : inode) (cur : Z -> list Z) (bn : Z) : Z :=
  if bn <? NDIRECT then addr_at ip bn else rd32 (cur (addr_at ip NDIRECT)) (Z.to_nat (4 * (bn - NDIRECT))).
Definition byte_of (ip : inode) (cur : Z -> list Z) (o : Z) : Z := cur (block_of ip cur (o / BSIZE)) !!! Z.to_nat (o mod BSIZE).
Definition bytes_of (ip : inode) (cur : Z -> list Z) (off : Z) (n : nat) : list Z :=
  (fun k => byte_of ip cur (off + Z.of_nat k)) <$> seq 0 n.

(** The first [n] bytes have their blocks. *)
Record file_ok (ip : inode) (cur : Z -> list Z) (n : Z) : Prop := {
  fo_dev : i_dev ip = ROOTDEV;
  fo_max : n <= MAXFILE * BSIZE;
  fo_block : forall bn, 0 <= bn -> bn * BSIZE < n ->
    0 < block_of ip cur bn < FSSIZE /\ length (cur (block_of ip cur bn)) = Z.to_nat BSIZE;
  fo_ind : NDIRECT * BSIZE < n -> 0 < addr_at ip NDIRECT < FSSIZE
}.

Lemma bytes_of_app ip cur off n m : bytes_of ip cur off (n + m) = bytes_of ip cur off n ++ bytes_of ip cur (off + Z.of_nat n) m.
Proof.
  unfold bytes_of. rewrite seq_app, fmap_app. f_equal. replace (0 + n)%nat with (n + 0)%nat by lia. rewrite <-(fmap_add_seq n 0 m), <-list_fmap_compose.
  apply list_fmap_ext. intros i k _. simpl. f_equal. lia.
Qed.

(** Bytes of one block. *)
Lemma bytes_of_block ip cur off (m : nat) (d := cur (block_of ip cur (off / BSIZE))) :
  0 <= off -> length d = Z.to_nat BSIZE -> Z.of_nat m <= BSIZE - off mod BSIZE ->
  take m (drop (Z.to_nat (off mod BSIZE)) d) = bytes_of ip cur off m.
Proof.
  intros Ho Hd Hm. pose proof (Z.mod_pos_bound off BSIZE ltac:(done)) as Hb. apply list_eq. intros k.
  unfold bytes_of. rewrite list_lookup_fmap. destruct (decide (k < m)%nat) as [Hk|Hk].
  - rewrite lookup_seq_lt by done. rewrite lookup_take_lt, lookup_drop by done. cbn [fmap option_fmap option_map].
    change (0 + k)%nat with k. unfold byte_of. assert (Hq : (off + Z.of_nat k) / BSIZE = off / BSIZE /\ (off + Z.of_nat k) mod BSIZE = off mod BSIZE + Z.of_nat k).
    { unfold BSIZE in *. pose proof (Z.div_mod off 512 ltac:(lia)). pose proof (Z.div_mod (off + Z.of_nat k) 512 ltac:(lia)).
      apply (Z.div_mod_unique 512); [left; apply Z.mod_pos_bound; lia|lia|lia]. }
    destruct Hq as [-> ->]. fold d. rewrite Z2Nat.inj_add, Nat2Z.id by lia. apply list_lookup_lookup_total_lt. unfold BSIZE in *. lia.
  - rewrite lookup_seq_ge by lia. by rewrite lookup_take_ge by lia.
Qed.

(** ** Reading blocks *)
Section reading.
Context {fl : Fuel} {dv : Devsw} (C : gmap (Z * Z) (list Z) -> Prop) (j : nat) (pd : Z).
Hypothesis Hfl : (0 < wakeups)%nat.
Let Out (s : kst) : Prop := C (disk (fss s)).
Abbreviation rx := (rexec true Out (resumed j pd)).

(** The process reads: the disk, the log and the in-core inodes stay. *)
Record rd (held : gmap nat (Z * list Z)) (pin : gset Z) (cur : Z -> list Z) (D : gmap (Z * Z) (list Z))
    (k : log_t * superblock * list inode) (s : kst) : Prop := {
  rd_task : task j pd 0 ∅ s;
  rd_cache : cache pd held pin cur (fss s);
  rd_disk : disk (fss s) = D;
  rd_kept : kept (fss s) = k
}.

Section fixed.
Context (pin : gset Z) (cur : Z -> list Z) (D : gmap (Z * Z) (list Z)).
Hypothesis Hpin : (size pin < NBUF)%nat.
Hypothesis HD : C D.

Lemma rx_block {A} kp bn s (k : nat -> K A) (Q : A -> kst -> Prop) : rd ∅ pin cur D kp s -> bn < FSSIZE ->
  (forall i s', rd {[i := (bn, cur bn)]} pin cur D kp s' -> b_data (bufs (fss s') !!! i) = cur bn -> rx Q (k i s')) ->
  rx Q ((bp ← bread ROOTDEV bn; k bp) s).
Proof.
  intros [HT HC HDs HK] Hbn HQ. apply rexec_bind. eapply (rx_bread C j pd Hfl ∅ pin cur s bn); [done|done|by rewrite HDs|done|done|..].
  - right. rewrite map_size_empty. lia.
  - intros i s' _ T' C' D' K'. rewrite insert_empty in C'. apply HQ.
    + split; [done|done|congruence|congruence].
    + destruct (cache_held_lookup pd _ _ _ _ i bn (cur bn) C') as (b & Hb & _ & _ & Hd & _); [by rewrite lookup_singleton_eq|].
      by rewrite (list_lookup_total_correct _ _ _ Hb).
Qed.


Lemma rx_brelse {A} kp bn i s (k : K A) (Q : A -> kst -> Prop) : rd {[i := (bn, cur bn)]} pin cur D kp s ->
  (forall s', rd ∅ pin cur D kp s' -> rx Q (k s')) -> rx Q ((brelse i;; k) s).
Proof.
  intros [HT HC HDs HK] HQ. apply rexec_bind, (rexec_call _ _ _ Out).
  eapply wp_brelse; [exact HT|exact HC|by rewrite lookup_singleton_eq|done|].
  intros s' T' C' D' K'. rewrite delete_singleton_eq in C'. apply HQ. split; [done|done|congruence|congruence].
Qed.

Section file.
Context (lg : log_t) (sb : superblock) (ins : list inode) (i : nat) (len : Z).
Let ip := ins !!! i.
Let kp := (lg, sb, ins).
Hypothesis HF : file_ok ip cur len.

Lemma rd_inode {A} held s (k : inode -> K A) (Q : A -> kst -> Prop) : rd held pin cur D kp s ->
  rx Q (k ip s) -> rx Q ((x ← inode_at i; k x) s).
Proof. intros [_ _ _ HK] HQ. apply rexec_bind. cbn [inode_at fsget gets rexec]. by injection HK as _ _ ->. Qed.

Lemma rx_bmap bn s (Q : Z -> kst -> Prop) : rd ∅ pin cur D kp s -> 0 <= bn -> bn * BSIZE < len ->
  (forall s', rd ∅ pin cur D kp s' -> Q (block_of ip cur bn) s') -> rx Q (bmap i bn s).
Proof.
  intros HR H0 Hbn HQ. destruct (fo_block _ _ _ HF bn H0 Hbn) as [Ha _]. pose proof (fo_max _ _ _ HF) as Hmax.
  unfold bmap. unfold block_of in Ha, HQ. destruct (Z.ltb_spec bn NDIRECT) as [Hd|Hd].
  - unfold addr_or_alloc. eapply rd_inode; [exact HR|]. rewrite (proj2 (Z.eqb_neq _ _)) by lia. by apply HQ.
  - rewrite (proj2 (Z.ltb_lt _ _)) by (unfold MAXFILE, NINDIRECT, NDIRECT, BSIZE in *; lia).
    pose proof (fo_ind _ _ _ HF ltac:(unfold NDIRECT, BSIZE in *; lia)) as Hi.
    unfold addr_or_alloc. apply rexec_bind. eapply rd_inode; [exact HR|]. rewrite (proj2 (Z.eqb_neq _ _)) by lia.
    cbn [mret M_ret rexec]. eapply rd_inode; [exact HR|]. rewrite (fo_dev _ _ _ HF).
    eapply rx_block; [exact HR|lia|]. intros b s' HR' Hb. apply rexec_bind. cbn [buf_at fsget gets rexec]. rewrite Hb.
    rewrite (proj2 (Z.eqb_neq _ _)) by lia. eapply rx_brelse; [exact HR'|]. intros s2 HR2. cbn [mret M_ret rexec]. by apply HQ.
Qed.

Lemma rx_readi_loop n : forall fuel tot off s (Q : list Z -> kst -> Prop), rd ∅ pin cur D kp s -> 0 <= off -> 0 <= tot <= n ->
  off + (n - tot) <= len -> n - tot <= Z.of_nat fuel ->
  (forall s', rd ∅ pin cur D kp s' -> Q (bytes_of ip cur off (Z.to_nat (n - tot))) s') ->
  rx Q (readi_loop fuel i tot off n s).
Proof.
  induction fuel as [|fuel IH]; intros tot off s Q HR H0 Ht Hlen Hf HQ; cbn [readi_loop];
    (destruct (Z.ltb_spec tot n) as [Hlt|Hge]; [|cbn [mret M_ret rexec]; replace (Z.to_nat (n - tot)) with O in HQ by lia; by apply HQ]).
  { lia. }
  assert (Hb : 0 <= off / BSIZE /\ off / BSIZE * BSIZE < len /\ 0 <= off mod BSIZE < BSIZE).
  { unfold BSIZE. pose proof (Z.div_mod off 512 ltac:(lia)). pose proof (Z.mod_pos_bound off 512 ltac:(lia)). lia. }
  destruct Hb as (Hb0 & Hb1 & Hb2). destruct (fo_block _ _ _ HF _ Hb0 Hb1) as [Ha Hl].
  apply rexec_bind. eapply rx_bmap; [exact HR|done|done|]. intros s1 HR1.
  eapply rd_inode; [exact HR1|]. rewrite (fo_dev _ _ _ HF). eapply rx_block; [exact HR1|lia|]. intros b s2 HR2 Hd.
  set (m := Z.min (n - tot) (BSIZE - off mod BSIZE)). apply rexec_bind. cbn [buf_at fsget gets rexec]. rewrite Hd.
  eapply rx_brelse; [exact HR2|]. intros s3 HR3. apply rexec_bind.
  apply (IH (tot + m) (off + m)); [exact HR3|unfold m; lia|unfold m; lia|unfold m; lia|unfold m; lia|].
  intros s4 HR4. cbn [mret M_ret rexec]. rewrite bytes_of_block by (try done; unfold m; lia).
  replace (off + m) with (off + Z.of_nat (Z.to_nat m)) by (unfold m; lia). rewrite <-bytes_of_app.
  replace (Z.to_nat m + Z.to_nat (n - (tot + m)))%nat with (Z.to_nat (n - tot)) by (unfold m; lia). by apply HQ.
Qed.

Lemma rx_readi off n s (Q : option (list Z) -> kst -> Prop) (m := Z.min n (i_size ip - off)) : rd ∅ pin cur D kp s ->
  i_type ip <> T_DEV -> 0 <= off <= i_size ip -> 0 <= n -> off + n < 2^32 -> off + m <= len ->
  (forall s', rd ∅ pin cur D kp s' -> Q (Some (bytes_of ip cur off (Z.to_nat m))) s') ->
  rx Q (readi i off n s).
Proof.
  intros HR Hty Ho Hn Hu Hlen HQ. unfold readi. eapply rd_inode; [exact HR|].
  rewrite (proj2 (Z.eqb_neq _ _) Hty), u32_small by (unfold in_u32; lia).
  rewrite (proj2 (Z.ltb_ge (i_size ip) off)), (proj2 (Z.ltb_ge (off + n) off)) by lia. cbn [orb]. apply rexec_bind.
  assert (Em : (if i_size ip <? off + n then i_size ip - off else n) = m).
  { unfold m. destruct (Z.ltb_spec (i_size ip) (off + n)); lia. }
  rewrite Em. apply rx_readi_loop; [exact HR|lia|unfold m; lia|lia|unfold m; lia|].
  intros s' HR'. cbn [mret M_ret rexec]. rewrite Z.sub_0_r. by apply HQ.
Qed.
End file.
End fixed.
End reading.
