(* ===== verification/FsPath.v ===== *)
(** The inode cache and path names: what [iget], [ilock], [iput], [dirlookup] and
    [namei] of fs.c do for a process that reads a well-formed disk.

    The specification of [namei] is [walk], which follows the elements of a path from
    directory to directory on the disk. *)
From stdpp Require Import base tactics list numbers strings gmap.
From S2P Require Import Prelude CString FsTypes State Spinlock Console Kalloc Vm Sched Process Args Sysproc Trap Sleeplock Ide Bio Log Fs.
From S2P Require Import SchedInv Sample SchedOps Policy Dispatch Calls WakeSpec FsSpec TaskOps CacheSpec FsRead.

#[local] Open Scope Z_scope.

(** ** Names *)

(** The name in an array of [n] bytes: what is before the first NUL. *)
Fixpoint cut (n : nat) (l : list Z) : list Z :=
  match n, l with
  | S n', c :: l' => if c =? 0 then [] else c :: cut n' l'
  | _, _ => []
  end.

Lemma strncmp_cut n p q : (n <= length p)%nat -> (n <= length q)%nat ->
  exists c, strncmp p q n = Some c /\ (c = 0 <-> cut n p = cut n q).
Proof.
  revert p q. induction n as [|n IH]; intros [|a p] [|b q] Hp Hq; simpl in *; try lia; [by exists 0..|].
  destruct (Z.eqb_spec a 0) as [->|Ha]; cbn [negb andb].
  - exists (0 - b). split; [done|]. destruct (Z.eqb_spec b 0); [split; [done|lia]|]. split; [lia|done].
  - destruct (Z.eqb_spec a b) as [<-|Hab].
    + destruct (IH p q) as (c & -> & Hc); [lia..|]. exists c. split; [done|]. rewrite Hc, (proj2 (Z.eqb_neq _ _) Ha).
      split; [by intros ->|]. by intros [= ->].
    + exists (a - b). split; [done|]. split; [lia|]. destruct (b =? 0); [done|]. by intros [= -> _].
Qed.

Lemma cut_take n e : 0 ∉ e -> cut n (take n e) = take n e.
Proof.
  revert e. induction n as [|n IH]; intros [|c e] He; try done. simpl.
  rewrite (proj2 (Z.eqb_neq c 0)) by set_solver. by rewrite IH by set_solver.
Qed.
Lemma cut_terminated n e r : 0 ∉ e -> (length e <= n)%nat -> cut n (e ++ 0 :: r) = e.
Proof.
  revert e. induction n as [|n IH]; intros [|c e] He Hn; simpl in *; try done; [lia|].
  rewrite (proj2 (Z.eqb_neq c 0)) by set_solver. by rewrite IH by (set_solver || lia).
Qed.

(** The name [skipelem] leaves in its buffer. *)
Lemma cut_elem nm e : 0 ∉ e -> length nm = DIRSIZ -> take (length e) nm = take DIRSIZ e ->
  ((length e < DIRSIZ)%nat -> nm !! length e = Some 0) -> cut DIRSIZ nm = take DIRSIZ e.
Proof.
  intros He Hl Ht Hz. destruct (decide (length e < DIRSIZ)%nat) as [H|H].
  - rewrite (take_ge e) in * by lia. rewrite <-(take_drop_middle nm (length e) 0 (Hz H)), Ht. apply cut_terminated; [done|lia].
  - rewrite take_ge in Ht by lia. rewrite Ht. by apply cut_take.
Qed.

(** ** Inodes and directories on the disk *)
Section disk.
Context (cur : Z -> list Z) (sb : superblock).

Definition din (n : Z) : dinode := read_dinode (cur (IBLOCK n sb)) (dinode_off n).
(** The in-core copy that [ilock] makes. *)
Definition incore (n : Z) : inode :=
  let d := din n in Inode ROOTDEV n 1 sleeplock0 true (d_type d) (d_major d) (d_minor d) (d_nlink d) (d_size d) (d_addrs d).
Definition meta (ip : inode) : dinode := Dinode (i_type ip) (i_major ip) (i_minor ip) (i_nlink ip) (i_size ip) (i_addrs ip).

Definition dirents (n : Z) : list (list Z) :=
  (fun k => bytes_of (incore n) cur (Z.of_nat k * 16) 16) <$> seq 0 (Z.to_nat ((d_size (din n) + 15) / 16)).
(** The entry of [e] in the directory [n]; only 14 bytes of a name count. *)
Definition is_entry (e de : list Z) : bool := negb (de_inum de =? 0) && bool_decide (take DIRSIZ e = cut DIRSIZ (de_name de)).
Definition dir_lookup (n : Z) (e : list Z) : option Z := de_inum <$> List.find (is_entry e) (dirents n).
Fixpoint walk (n : Z) (es : list (list Z)) : option Z :=
  match es with
  | [] => Some n
  | e :: es' => if d_type (din n) =? T_DIR then m ← dir_lookup n e; walk m es' else None
  end.

(** A set of inodes that is closed under directory entries, each with its blocks. *)
Record good (G : Z -> Prop) (n : Z) : Prop := {
  gd_block : IBLOCK n sb < FSSIZE;
  gd_type : d_type (din n) <> 0;
  gd_nlink : d_nlink (din n) <> 0;
  gd_file : d_type (din n) <> T_DEV -> 0 <= d_size (din n) /\ file_ok (incore n) cur (d_size (din n));
  gd_dir : d_type (din n) = T_DIR -> d_size (din n) mod 16 = 0 /\
    forall de, de ∈ dirents n -> de_inum de <> 0 -> G (de_inum de)
}.

(** ** The inode cache *)
Record ino_ok (ip : inode) : Prop := {
  io_ref : 0 <= i_ref ip;
  io_valid : 0 < i_ref ip -> i_valid ip = true -> i_dev ip = ROOTDEV -> meta ip = din (i_inum ip)
}.

(** [h] is the inode that the process has locked. *)
Record icache (pd : Z) (h : option nat) (ins : list inode) : Prop := {
  ic_ok : forall i ip, ins !! i = Some ip -> ino_ok ip;
  ic_lock : forall i ip, ins !! i = Some ip -> h <> Some i -> sl_locked (i_lock ip) = false;
  ic_mine : forall i ip, ins !! i = Some ip -> h = Some i -> sl_locked (i_lock ip) = true /\ sl_pid (i_lock ip) = pd
}.

(** Entry [i] is a reference to inode [n]. *)
Definition ref_to (ins : list inode) (i : nat) (n : Z) : Prop :=
  exists ip, ins !! i = Some ip /\ 0 < i_ref ip /\ i_dev ip = ROOTDEV /\ i_inum ip = n.
Definition refs (ins : list inode) : list Z := i_ref <$> ins.

Lemma refs_insert ins i ip ip' r : ins !! i = Some ip -> i_ref ip' = r + i_ref ip ->
  refs (<[i := ip']> ins) = alter (Z.add r) i (refs ins).
Proof.
  intros Hi Hr. unfold refs. rewrite list_fmap_insert, Hr. symmetry.
  rewrite (list_alter_as_insert _ _ _ (i_ref ip)); [done|]. by rewrite list_lookup_fmap, Hi.
Qed.

(** Replacing an entry. *)
Lemma icache_insert pd h h' ins i ip ip' : icache pd h ins -> ins !! i = Some ip -> ino_ok ip' ->
  (h' <> Some i -> sl_locked (i_lock ip') = false) ->
  (h' = Some i -> sl_locked (i_lock ip') = true /\ sl_pid (i_lock ip') = pd) ->
  (forall k, k <> i -> h' = Some k <-> h = Some k) -> icache pd h' (<[i := ip']> ins).
Proof.
  intros [H1 H2 H3] Hi Hok Hl Hm Hh. pose proof (lookup_lt_Some _ _ _ Hi) as Hlt.
  split; intros k x; (destruct (decide (i = k)) as [<-|Hne];
    [rewrite list_lookup_insert_eq by done; intros [= <-]|rewrite list_lookup_insert_ne by done; intros Hk]).
  - done.
  - by eapply H1.
  - done.
  - rewrite Hh by done. by apply H2.
  - done.
  - rewrite Hh by done. by apply H3.
Qed.

Lemma ref_to_insert ins i ip ip' k m : ins !! i = Some ip -> ref_to ins k m ->
  (0 < i_ref ip -> 0 < i_ref ip' /\ i_dev ip' = i_dev ip /\ i_inum ip' = i_inum ip) -> ref_to (<[i := ip']> ins) k m.
Proof.
  intros Hi (x & Hk & Hr & Hd & Hn) Hs. pose proof (lookup_lt_Some _ _ _ Hi) as Hlt.
  destruct (decide (i = k)) as [<-|Hne].
  - rewrite Hi in Hk. injection Hk as <-. exists ip'. rewrite list_lookup_insert_eq by done.
    destruct (Hs Hr) as (? & -> & ->). done.
  - exists x. by rewrite list_lookup_insert_ne.
Qed.
Lemma ref_to_new ins i ip ip' n : ins !! i = Some ip -> 0 < i_ref ip' -> i_dev ip' = ROOTDEV -> i_inum ip' = n ->
  ref_to (<[i := ip']> ins) i n.
Proof. intros Hi ???. exists ip'. by rewrite list_lookup_insert_eq by (by eapply lookup_lt_Some). Qed.

(** One more reference to an entry. *)
Lemma icache_ref pd h ins i ip (ip' := ip <| i_ref ::= Z.add 1 |>) : icache pd h ins -> ins !! i = Some ip -> 0 < i_ref ip ->
  icache pd h (<[i := ip']> ins) /\ (forall k m, ref_to ins k m -> ref_to (<[i := ip']> ins) k m) /\
  refs (<[i := ip']> ins) = alter (Z.add 1) i (refs ins).
Proof.
  intros HI Hi Hr. assert (Hr' : i_ref ip' = 1 + i_ref ip) by done. destruct (ic_ok _ _ _ HI _ _ Hi) as [O1 O2]. split; [|split].
  - eapply icache_insert; [exact HI|exact Hi| |exact (ic_lock _ _ _ HI _ _ Hi)|exact (ic_mine _ _ _ HI _ _ Hi)|done].
    split; [lia|]. intros _. by apply O2.
  - intros k m Hk. eapply ref_to_insert; [exact Hi|exact Hk|]. intros _. split; [lia|done].
  - by eapply refs_insert.
Qed.

Lemma find_inode_Some ok l a i : find_inode ok l a = Some i -> exists k ip, i = (a + k)%nat /\ l !! k = Some ip /\ ok ip = true.
Proof.
  revert a. induction l as [|ip l IH]; intros a; [done|]. simpl. destruct (ok ip) eqn:E.
  - intros [= <-]. exists 0%nat, ip. split; [lia|done].
  - intros (k & x & -> & Hk & Hx)%IH. exists (S k), x. split; [lia|done].
Qed.
Lemma find_inode_None ok l a i ip : find_inode ok l a = None -> l !! i = Some ip -> ok ip = false.
Proof.
  revert a i. induction l as [|x l IH]; intros a i; [done|]. simpl. destruct (ok x) eqn:E; [done|].
  destruct i as [|i]; simpl; [by intros _ [= <-]|]. by apply IH.
Qed.

(** The contents of a file only depend on what is on the disk. *)
Lemma meta_addrs ip n : meta ip = din n -> i_addrs ip = i_addrs (incore n).
Proof. intros E. change (i_addrs (incore n)) with (d_addrs (din n)). by rewrite <-E. Qed.
Lemma meta_block ip n bn : meta ip = din n -> block_of ip cur bn = block_of (incore n) cur bn.
Proof. intros E. unfold block_of, addr_at. by rewrite (meta_addrs _ _ E). Qed.
Lemma meta_bytes ip n off m : meta ip = din n -> bytes_of ip cur off m = bytes_of (incore n) cur off m.
Proof. intros E. unfold bytes_of, byte_of. apply list_fmap_ext. intros ? k _. by rewrite (meta_block _ _ _ E). Qed.
Lemma meta_file_ok ip n len : meta ip = din n -> i_dev ip = ROOTDEV -> file_ok (incore n) cur len -> file_ok ip cur len.
Proof.
  intros E Hd [F1 F2 F3 F4]. split; [done|done| |].
  - intros bn. rewrite (meta_block _ _ _ E). by apply F3.
  - unfold addr_at. by rewrite (meta_addrs _ _ E).
Qed.
End disk.

(** ** The operations *)
Section path.
Context {fl : Fuel} {dv : Devsw} (C : gmap (Z * Z) (list Z) -> Prop) (j : nat) (pd : Z).
Hypothesis Hfl : (0 < wakeups)%nat.
Let Out (s : kst) : Prop := C (disk (fss s)).
Abbreviation rx := (rexec true Out (resumed j pd)).
Context (pin : gset Z) (cur : Z -> list Z) (D : gmap (Z * Z) (list Z)) (lg : log_t) (sb : superblock).
Hypothesis Hpin : (size pin < NBUF)%nat.
Hypothesis HD : C D.
Abbreviation st held ins := (rd j pd held pin cur D (lg, sb, ins)).

(** Code that only changes entry [i] of the inode cache. *)
Lemma rd_inodes held ins s s' g i : st held ins s -> task j pd 0 ∅ s' -> fss s' = (fss s) <| inodes ::= alter g i |> ->
  st held (alter g i ins) s'.
Proof.
  intros [HT HC HDs HK] T' F. split; [done| |by rewrite F|].
  - rewrite F. by destruct HC.
  - rewrite F. unfold kept in *. simpl. by injection HK as -> -> ->.
Qed.
Lemma rd_ins held ins s : st held ins s -> inodes (fss s) = ins.
Proof. intros [_ _ _ HK]. by injection HK. Qed.
Lemma rd_sb held ins s : st held ins s -> sblk (fss s) = sb.
Proof. intros [_ _ _ HK]. by injection HK. Qed.

(** The end of a change under [icache.lock]. *)
Lemma rx_upd_release {A} ins s s1 g i (k : K A) (Q : A -> kst -> Prop) :
  st ∅ ins s -> task j pd 1 ({[icache_lock]} ∪ ∅) s1 -> fss s1 = fss s ->
  (forall s', st ∅ (alter g i ins) s' -> rx Q (k s')) ->
  rx Q ((upd_inode i g;; release icache_lock;; k) s1).
Proof.
  intros HR T1 F1 HQ. apply rexec_bind. cbn [upd_inode fsmod modify rexec]. apply rexec_bind, (rexec_call _ _ _ Out).
  eapply (wp_task_release _ _ j pd 0 ∅); [apply task_fsmod; exact T1|set_solver|lia|]. intros l2 T2.
  apply HQ. eapply rd_inodes; [exact HR|exact T2|]. simpl. by rewrite F1.
Qed.

Lemma rx_iget {A} ins h n s (k : nat -> K A) (Q : A -> kst -> Prop) :
  st ∅ ins s -> icache cur sb pd h ins -> (exists f, refs ins !! f = Some 0) ->
  (forall i ins' s', st ∅ ins' s' -> icache cur sb pd h ins' -> ref_to ins' i n ->
    (forall k m, ref_to ins k m -> ref_to ins' k m) -> refs ins' = alter (Z.add 1) i (refs ins) -> rx Q (k i s')) ->
  rx Q ((i ← iget ROOTDEV n; k i) s).
Proof.
  intros HR HI [f Hf] HQ. apply rexec_bind. unfold iget. apply rexec_bind, (rexec_call _ _ _ Out).
  eapply wp_task_acquire; [apply HR|set_solver|]. intros l1 T1. apply rexec_bind. cbn [fsget gets rexec].
  change (fss (s <| klk := l1 |>)) with (fss s). rewrite (rd_ins _ _ _ HR).
  destruct (find_inode _ ins 0) as [i|] eqn:E1.
  - apply find_inode_Some in E1 as (i' & ip & -> & Hi & [[Hr%Z.ltb_lt Hd%Z.eqb_eq]%andb_true_iff Hn%Z.eqb_eq]%andb_true_iff).
    eapply rx_upd_release; [exact HR|exact T1|done|]. intros s' HR'. change (0 + i')%nat with i' in *. cbn [mret M_ret rexec].
    rewrite (list_alter_as_insert _ _ _ _ Hi) in HR'. destruct (icache_ref cur sb pd h ins i' ip HI Hi Hr) as (HI' & Hk & Er).
    eapply HQ; [exact HR'|exact HI'|apply Hk; by exists ip|exact Hk|exact Er].
  - destruct (find_inode (fun ip => i_ref ip =? 0) ins 0) as [i|] eqn:E2.
    2: { exfalso. unfold refs in Hf. rewrite list_lookup_fmap in Hf. destruct (ins !! f) as [ip|] eqn:Ef; [|done].
         injection Hf as Hf. pose proof (find_inode_None _ _ _ _ _ E2 Ef) as Hx. simpl in Hx. by rewrite Hf in Hx. }
    apply find_inode_Some in E2 as (i' & ip & -> & Hi & Hr%Z.eqb_eq).
    eapply rx_upd_release; [exact HR|exact T1|done|]. intros s' HR'. change (0 + i')%nat with i' in *. cbn [mret M_ret rexec].
    rewrite (list_alter_as_insert _ _ _ _ Hi) in HR'. 
    eapply HQ; [exact HR'| |by eapply ref_to_new| |eapply refs_insert; [exact Hi|simpl; lia]].
    + eapply icache_insert; [exact HI|exact Hi| | | |done].
      * split; [done|]. done.
      * exact (ic_lock _ _ _ _ _ HI _ _ Hi).
      * exact (ic_mine _ _ _ _ _ HI _ _ Hi).
    + intros k' m Hk. eapply ref_to_insert; [exact Hi|exact Hk|]. lia.
Qed.

(** Taking and giving back the sleep lock of an entry. *)
Lemma rx_lock {A} ins i ip s (k : K A) (Q : A -> kst -> Prop)
    (ip' := ip <| i_lock ::= fun l => l <| sl_locked := true |> <| sl_pid := pd |> |>) :
  st ∅ ins s -> icache cur sb pd None ins -> ins !! i = Some ip ->
  (forall s', st ∅ (<[i := ip']> ins) s' -> icache cur sb pd (Some i) (<[i := ip']> ins) -> rx Q (k s')) ->
  rx Q ((acquiresleep (SL_inode i);; k) s).
Proof.
  intros HR HI Hi HQ. apply rexec_bind, (rexec_call _ _ _ Out). eapply wp_acquiresleep; [apply HR| |].
  - cbn [slk]. rewrite (rd_ins _ _ _ HR), (list_lookup_total_correct _ _ _ Hi). by apply (ic_lock _ _ _ _ _ HI _ _ Hi).
  - intros s1 T1 F1. eapply rd_inodes in F1; [|exact HR|exact T1]. rewrite (list_alter_as_insert _ _ _ _ Hi) in F1.
    apply HQ; [exact F1|]. eapply icache_insert; [exact HI|exact Hi| |done|done|].
    + destruct (ic_ok _ _ _ _ _ HI _ _ Hi). by split.
    + intros k' Hk. split; [congruence|done].
Qed.

Lemma rx_unlock ins i ip s (Q : unit -> kst -> Prop)
    (ip' := ip <| i_lock ::= fun l => l <| sl_locked := false |> <| sl_pid := 0 |> |>) :
  st ∅ ins s -> icache cur sb pd (Some i) ins -> ins !! i = Some ip ->
  (forall s', st ∅ (<[i := ip']> ins) s' -> icache cur sb pd None (<[i := ip']> ins) -> Q tt s') ->
  rx Q (releasesleep (SL_inode i) s).
Proof.
  intros HR HI Hi HQ. apply (rexec_call _ _ _ Out). eapply wp_releasesleep; [apply HR|].
  intros s1 T1 F1. eapply rd_inodes in F1; [|exact HR|exact T1]. rewrite (list_alter_as_insert _ _ _ _ Hi) in F1.
  apply HQ; [exact F1|]. eapply icache_insert; [exact HI|exact Hi| |done|done|].
  - destruct (ic_ok _ _ _ _ _ HI _ _ Hi). by split.
  - intros k' Hk. split; [done|congruence].
Qed.

Lemma rx_upd_inode {A} held ins i ip g s (k : K A) (Q : A -> kst -> Prop) : st held ins s -> ins !! i = Some ip ->
  (forall s', st held (<[i := g ip]> ins) s' -> rx Q (k s')) -> rx Q ((upd_inode i g;; k) s).
Proof.
  intros HR Hi HQ. apply rexec_bind. cbn [upd_inode fsmod modify rexec]. apply HQ. rewrite <-(list_alter_as_insert _ _ _ _ Hi).
  eapply rd_inodes; [exact HR|apply task_fsmod, HR|done].
Qed.

(** Changes of an entry that keep what it refers to. *)
Definition same_ref (ip ip' : inode) : Prop := i_ref ip' = i_ref ip /\ i_dev ip' = i_dev ip /\ i_inum ip' = i_inum ip.

Lemma same_ref_insert ins i ip ip' : ins !! i = Some ip -> same_ref ip ip' ->
  refs (<[i := ip']> ins) = refs ins /\ forall k m, ref_to ins k m -> ref_to (<[i := ip']> ins) k m.
Proof.
  intros Hi (Hr & Hd & Hn). split.
  - rewrite (refs_insert _ _ _ _ 0 Hi) by lia. apply list_alter_id. by intros.
  - intros k m Hk. eapply ref_to_insert; [exact Hi|exact Hk|]. intros. by rewrite Hr, Hd, Hn.
Qed.

(** [ilock]: the process has the inode, with its contents from the disk. *)
Lemma rx_ilock {A} G ins i n s (k : K A) (Q : A -> kst -> Prop) :
  st ∅ ins s -> icache cur sb pd None ins -> ref_to ins i n -> good cur sb G n ->
  (forall ins' s', st ∅ ins' s' -> icache cur sb pd (Some i) ins' ->
    meta (ins' !!! i) = din cur sb n -> refs ins' = refs ins ->
    (forall k m, ref_to ins k m -> ref_to ins' k m) -> rx Q (k s')) ->
  rx Q ((ilock i;; k) s).
Proof.
  intros HR HI (ip & Hi & Hr & Hd & Hn) [Gb Gt _ _ _] HQ. pose proof (lookup_lt_Some _ _ _ Hi) as Hlt.
  apply rexec_bind. unfold ilock. eapply rd_inode; [exact HR|].
  rewrite (list_lookup_total_correct _ _ _ Hi), (proj2 (Z.ltb_ge _ _)) by lia.
  eapply rx_lock; [exact HR|exact HI|exact Hi|]. intros s1 HR1 HI1.
  set (ip1 := ip <| i_lock ::= _ |>) in *.
  assert (H1 : <[i := ip1]> ins !! i = Some ip1) by (by apply list_lookup_insert_eq).
  eapply rd_inode; [exact HR1|]. rewrite (list_lookup_total_correct _ _ _ H1).
  destruct (i_valid ip1) eqn:Ev; cbn [negb mwhen].
  { cbn [mret M_ret rexec]. destruct (same_ref_insert ins i ip ip1 Hi) as [E1 E2]; [done|].
    eapply HQ; [exact HR1|exact HI1| |exact E1|exact E2].
    rewrite (list_lookup_total_correct _ _ _ H1), <-Hn. by apply (io_valid _ _ _ (ic_ok _ _ _ _ _ HI1 _ _ H1)). }
  apply rexec_bind. cbn [fsget gets rexec]. rewrite (rd_sb _ _ _ HR1).
  change (i_dev ip1) with (i_dev ip). change (i_inum ip1) with (i_inum ip). rewrite Hd, Hn.
  eapply rx_block; [exact Hfl|exact Hpin|exact HD|exact HR1|exact Gb|]. intros b s2 HR2 Hb.
  apply rexec_bind. cbn [buf_at fsget gets rexec]. rewrite Hb. fold (din cur sb n).
  eapply rx_upd_inode; [exact HR2|exact H1|]. intros s3 HR3. rewrite list_insert_insert_eq in HR3.
  eapply rx_brelse; [exact HR3|]. intros s4 HR4.
  eapply rx_upd_inode; [exact HR4|by apply list_lookup_insert_eq|]. intros s5 HR5. rewrite list_insert_insert_eq in HR5.
  set (ip5 := _ <| i_valid := true |>) in HR5.
  assert (Hm : meta ip5 = din cur sb n) by done.
  assert (H5 : <[i := ip5]> ins !! i = Some ip5) by (by apply list_lookup_insert_eq).
  eapply rd_inode; [exact HR5|]. rewrite (list_lookup_total_correct _ _ _ H5).
  rewrite (proj2 (Z.eqb_neq _ _)) by exact Gt. cbn [mret M_ret rexec].
  destruct (same_ref_insert ins i ip ip5 Hi) as [E1 E2]; [done|].
  eapply HQ; [exact HR5| |by rewrite (list_lookup_total_correct _ _ _ H5)|exact E1|exact E2].
  rewrite <-(list_insert_insert_eq ins i ip5 ip1). eapply icache_insert; [exact HI1|exact H1| |done| |done].
  - split; [by apply (ic_ok _ _ _ _ _ HI _ _ Hi)|]. intros _ _ _. change (i_inum ip5) with (i_inum ip). by rewrite Hn.
  - intros _. exact (ic_mine _ _ _ _ _ HI1 _ _ H1 eq_refl).
Qed.

Lemma rx_iunlock {A} ins i n s (k : K A) (Q : A -> kst -> Prop) :
  st ∅ ins s -> icache cur sb pd (Some i) ins -> ref_to ins i n ->
  (forall ins' s', st ∅ ins' s' -> icache cur sb pd None ins' -> refs ins' = refs ins ->
    (forall k m, ref_to ins k m -> ref_to ins' k m) -> rx Q (k s')) ->
  rx Q ((iunlock i;; k) s).
Proof.
  intros HR HI (ip & Hi & Hr & Hd & Hn) HQ. destruct (ic_mine _ _ _ _ _ HI _ _ Hi eq_refl) as [Hl Hp].
  apply rexec_bind. unfold iunlock. apply rexec_bind, (rexec_call _ _ _ Out).
  assert (Ei : i_lock (inodes (fss s) !!! i) = i_lock ip) by (by rewrite (rd_ins _ _ _ HR), (list_lookup_total_correct _ _ _ Hi)).
  eapply wp_holdingsleep; [apply HR|by cbn; rewrite Ei|by cbn; rewrite Ei|]. intros s1 T1 F1.
  assert (HR1 : st ∅ ins s1) by (destruct HR; split; rewrite ?F1; done).
  eapply rd_inode; [exact HR1|]. rewrite (list_lookup_total_correct _ _ _ Hi), (proj2 (Z.ltb_ge _ _)) by lia. cbn [negb orb].
  destruct (same_ref_insert ins i ip (ip <| i_lock ::= fun l => l <| sl_locked := false |> <| sl_pid := 0 |> |>) Hi) as [E1 E2]; [done|].
  eapply rx_unlock; [exact HR1|exact HI|exact Hi|]. intros s2 HR2 HI2. by eapply HQ.
Qed.

(** [iput] of a linked inode gives back the reference. *)
Lemma rx_iput G ins i n s (Q : unit -> kst -> Prop) :
  st ∅ ins s -> icache cur sb pd None ins -> ref_to ins i n -> good cur sb G n ->
  (forall ins' s', st ∅ ins' s' -> icache cur sb pd None ins' -> refs ins' = alter (Z.add (-1)) i (refs ins) ->
    (forall k m, ref_to ins k m -> (k = i -> exists r, refs ins !! i = Some r /\ 1 < r) -> ref_to ins' k m) -> Q tt s') ->
  rx Q (iput (Some i) s).
Proof.
  intros HR HI (ip & Hi & Hr & Hd & Hn) [_ _ Gl _ _] HQ. pose proof (lookup_lt_Some _ _ _ Hi) as Hlt.
  unfold iput. eapply rx_lock; [exact HR|exact HI|exact Hi|]. intros s1 HR1 HI1. set (ip1 := ip <| i_lock ::= _ |>) in *.
  assert (H1 : <[i := ip1]> ins !! i = Some ip1) by (by apply list_lookup_insert_eq).
  eapply rd_inode; [exact HR1|]. rewrite (list_lookup_total_correct _ _ _ H1).
  assert ((i_valid ip1 && (i_nlink ip1 =? 0)) = false) as ->.
  { destruct (i_valid ip1) eqn:Ev; [|done]. cbn [andb]. apply Z.eqb_neq. pose proof (io_valid _ _ _ (ic_ok _ _ _ _ _ HI1 _ _ H1) Hr Ev Hd) as Em.
    change (i_inum ip1) with (i_inum ip) in Em. rewrite Hn in Em. by rewrite <-Em in Gl. }
  cbn [mwhen]. apply rexec_bind. cbn [mret M_ret rexec]. apply rexec_bind.
  eapply rx_unlock; [exact HR1|exact HI1|exact H1|]. intros s2 HR2 HI2. rewrite list_insert_insert_eq in HR2, HI2.
  set (ip2 := ip1 <| i_lock ::= _ |>) in *.
  assert (H2 : <[i := ip2]> ins !! i = Some ip2) by (by apply list_lookup_insert_eq).
  apply rexec_bind, (rexec_call _ _ _ Out). eapply wp_task_acquire; [apply HR2|set_solver|]. intros l3 T3.
  apply rexec_bind. cbn [upd_inode fsmod modify rexec]. apply (rexec_call _ _ _ Out).
  eapply (wp_task_release _ _ j pd 0 ∅); [apply task_fsmod; exact T3|set_solver|lia|]. intros l4 T4.
  eapply rd_inodes in T4; [|exact HR2|reflexivity]. rewrite (list_alter_as_insert _ _ _ _ H2), list_insert_insert_eq in T4.
  set (ip4 := ip2 <| i_ref ::= _ |>) in *. assert (E4 : i_ref ip4 = -1 + i_ref ip) by done.
  eapply HQ; [exact T4| |by eapply refs_insert|].
  - rewrite <-(list_insert_insert_eq ins i ip4 ip2). pose proof (ic_ok _ _ _ _ _ HI2 _ _ H2) as [O1 O2].
    eapply icache_insert; [exact HI2|exact H2| |by intros _; apply (ic_lock _ _ _ _ _ HI2 _ _ H2)|done|done].
    split; [lia|]. intros _. by apply O2.
  - intros k' m Hk Hki. destruct (decide (k' = i)) as [->|Hne].
    + destruct (Hki eq_refl) as (r & Hrr & H1r). unfold refs in Hrr. rewrite list_lookup_fmap, Hi in Hrr. injection Hrr as Hrr.
      eapply ref_to_insert; [exact Hi|exact Hk|]. intros _. split; [lia|done].
    + destruct Hk as (x & Hx & Hx'). exists x. by rewrite list_lookup_insert_ne.
Qed.

(** ** Directories *)
Section dir.
Context (G : Z -> Prop) (ins : list inode) (dp : nat) (n : Z).
Hypothesis HI : icache cur sb pd (Some dp) ins.
Hypothesis Href : ref_to ins dp n.
Hypothesis Hmeta : meta (ins !!! dp) = din cur sb n.
Hypothesis HG : good cur sb G n.
Hypothesis Hdir : d_type (din cur sb n) = T_DIR.
Hypothesis Hfree : exists f, refs ins !! f = Some 0.
Abbreviation sz := (d_size (din cur sb n)).

Lemma dir_dev : i_dev (ins !!! dp) = ROOTDEV.
Proof. destruct Href as (ip & Hi & _ & Hd & _). by rewrite (list_lookup_total_correct _ _ _ Hi). Qed.
Lemma dir_type : i_type (ins !!! dp) = T_DIR.
Proof. rewrite <-Hdir, <-Hmeta. done. Qed.
Lemma dir_size : i_size (ins !!! dp) = sz.
Proof. by rewrite <-Hmeta. Qed.

Lemma rx_read_dirent {A} (i : nat) msg s (k : list Z -> K A) (Q : A -> kst -> Prop) : st ∅ ins s -> Z.of_nat i * 16 + 16 <= sz ->
  (forall s', st ∅ ins s' -> rx Q (k (bytes_of (incore cur sb n) cur (Z.of_nat i * 16) 16) s')) ->
  rx Q ((de ← read_dirent dp (Z.of_nat i * 16) msg; k de) s).
Proof.
  intros HR Hi HQ. destruct (gd_file _ _ _ _ HG) as [H0 HF]; [by rewrite Hdir|]. pose proof (fo_max _ _ _ HF) as Hmax.
  apply rexec_bind. unfold read_dirent. apply rexec_bind. change sizeof_dirent with 16.
  eapply (rx_readi C j pd Hfl pin cur D Hpin HD lg sb ins dp sz); [| |by rewrite dir_type|..]; rewrite ?dir_size; [|exact HR|lia|lia| |lia|].
  - eapply meta_file_ok; [exact Hmeta|exact dir_dev|exact HF].
  - change (MAXFILE * BSIZE) with 71680 in Hmax. lia.
  - intros s' HR'. rewrite Z.min_l by lia. rewrite (meta_bytes _ _ _ _ _ _ Hmeta). unfold bytes_of at 1. rewrite length_fmap, length_seq.
    change (_ =? _)%nat with true. cbn [mret M_ret rexec]. by apply HQ.
Qed.

(** [dirlookup] gives a reference to the inode of the entry. *)
Lemma rx_dirlookup {A} nm e s (k : option (nat * Z) -> K A) (Q : A -> kst -> Prop) :
  st ∅ ins s -> length nm = DIRSIZ -> cut DIRSIZ nm = take DIRSIZ e ->
  (dir_lookup cur sb n e = None -> forall s', st ∅ ins s' -> rx Q (k None s')) ->
  (forall m i off ins' s', dir_lookup cur sb n e = Some m -> G m -> st ∅ ins' s' -> icache cur sb pd (Some dp) ins' -> ref_to ins' i m ->
    (forall k m, ref_to ins k m -> ref_to ins' k m) -> refs ins' = alter (Z.add 1) i (refs ins) -> rx Q (k (Some (i, off)) s')) ->
  rx Q ((r ← dirlookup dp nm; k r) s).
Proof.
  intros HR Hl He HN HS. destruct (gd_file _ _ _ _ HG) as [H0 _]; [by rewrite Hdir|]. destruct (gd_dir _ _ _ _ HG Hdir) as [H16 Hin].
  apply rexec_bind. unfold dirlookup. eapply rd_inode; [exact HR|]. rewrite dir_type, dir_size. cbn [negb]. change (T_DIR =? T_DIR) with true. cbn [negb].
  unfold de_offsets, dir_lookup, dirents in *. change sizeof_dirent with 16. replace (sz + 16 - 1) with (sz + 15) by lia.
  assert (Hks : Forall (fun i => Z.of_nat i * 16 + 16 <= sz) (seq 0 (Z.to_nat ((sz + 15) / 16)))).
  { apply Forall_seq. intros i Hi. pose proof (Z.div_mod sz 16 ltac:(lia)). pose proof (Z.div_mod (sz + 15) 16 ltac:(lia)).
    pose proof (Z.mod_pos_bound (sz + 15) 16 ltac:(lia)). lia. }
  revert s HR Hks Hin HN HS. generalize (seq 0 (Z.to_nat ((sz + 15) / 16))) as ks.
  induction ks as [|i ks IH]; intros s HR Hks Hin HN HS; [cbn [fmap list_fmap for_each mret M_ret rexec]; by apply HN|].
  apply Forall_cons in Hks as [Hi Hks]. rewrite !fmap_cons in *. cbn [for_each]. apply rexec_bind.
  eapply rx_read_dirent; [exact HR|exact Hi|]. intros s1 HR1. set (de := bytes_of _ _ _ 16) in *. cbn [List.find] in HN, HS.
  unfold is_entry in HN, HS at 1. destruct (Z.eqb_spec (de_inum de) 0) as [Hz|Hz]; cbn [negb andb] in HN, HS.
  { cbn [mret M_ret rexec]. apply IH; try done. intros x Hx. apply Hin. by apply elem_of_cons; right. }
  destruct (strncmp_cut DIRSIZ nm (de_name de)) as (c & Hc & Hc0); [lia|by vm_compute|].
  apply rexec_bind. unfold namecmp. rewrite Hc. cbn [of_option mret M_ret rexec]. rewrite He in Hc0.
  destruct (Z.eqb_spec c 0) as [E|E].
  - rewrite bool_decide_true in HS by (by apply Hc0). eapply rd_inode; [exact HR1|]. rewrite dir_dev.
    eapply rx_iget; [exact HR1|exact HI|exact Hfree|]. intros i' ins' s' HR' HI' Hr' Hk' He'. cbn [mret M_ret rexec].
    eapply HS; [done| |done..]. apply Hin; [by apply elem_of_cons; left|done].
  - rewrite bool_decide_false in HN, HS by (by rewrite <-Hc0). cbn [mret M_ret rexec].
    apply IH; try done. intros x Hx. apply Hin. by apply elem_of_cons; right.
Qed.
End dir.

Lemma rx_iunlockput {A} G ins i n s (k : K A) (Q : A -> kst -> Prop) :
  st ∅ ins s -> icache cur sb pd (Some i) ins -> ref_to ins i n -> good cur sb G n ->
  (forall ins' s', st ∅ ins' s' -> icache cur sb pd None ins' -> refs ins' = alter (Z.add (-1)) i (refs ins) ->
    (forall k m, ref_to ins k m -> (k = i -> exists r, refs ins !! i = Some r /\ 1 < r) -> ref_to ins' k m) -> rx Q (k s')) ->
  rx Q ((iunlockput i;; k) s).
Proof.
  intros HR HI Hr HG HQ. apply rexec_bind. unfold iunlockput. eapply rx_iunlock; [exact HR|exact HI|exact Hr|].
  intros ins1 s1 HR1 HI1 E1 K1. eapply rx_iput; [exact HR1|exact HI1|by apply K1|exact HG|].
  intros ins2 s2 HR2 HI2 E2 K2. rewrite E1 in E2, K2. eapply HQ; [exact HR2|exact HI2|exact E2|]. intros k' m Hk. by apply K2, K1.
Qed.

(** ** Paths *)
Lemma ref_passed i i' (R : list Z) :
  alter (Z.add (-1)) i (alter (Z.add 1) i' (alter (Z.add 1) i R)) = alter (Z.add 1) i' R.
Proof.
  apply list_eq. intros k. rewrite !list_lookup_alter. repeat case_decide; subst; destruct (R !! k); simpl; try done; f_equal; lia.
Qed.

Lemma ref_dropped i (R : list Z) : alter (Z.add (-1)) i (alter (Z.add 1) i R) = R.
Proof. rewrite list_alter_alter. apply list_alter_id. intros x. simpl. lia. Qed.

Section walk.
Context (G : Z -> Prop) (R : list Z).
Hypothesis HG : forall n, G n -> good cur sb G n.
(** Two entries of the inode cache are free. *)
Hypothesis Htwo : exists f1 f2, f1 <> f2 /\ R !! f1 = Some 0 /\ R !! f2 = Some 0.

Lemma free_entry i : exists f, alter (Z.add 1) i R !! f = Some 0.
Proof.
  destruct Htwo as (f1 & f2 & Hne & H1 & H2). destruct (decide (i = f1)) as [->|].
  - exists f2. by rewrite list_lookup_alter_ne.
  - exists f1. by rewrite list_lookup_alter_ne.
Qed.

Lemma ref_positive ins i n : ref_to ins i n -> exists r, refs ins !! i = Some r /\ 0 < r.
Proof. intros (ip & Hi & Hr & _). exists (i_ref ip). split; [|done]. unfold refs. by rewrite list_lookup_fmap, Hi. Qed.

Lemma rx_namex_loop : forall fuel i n path nm ins s (Q : option nat * list Z -> kst -> Prop),
  st ∅ ins s -> icache cur sb pd None ins -> ref_to ins i n -> G n -> refs ins = alter (Z.add 1) i R ->
  length nm = DIRSIZ -> Forall (fun e => 0 ∉ e) (elements path) -> (length path <= fuel)%nat ->
  (walk cur sb n (elements path) = None -> forall nm' ins' s', st ∅ ins' s' -> icache cur sb pd None ins' -> refs ins' = R ->
    Q (None, nm') s') ->
  (forall m i' nm' ins' s', walk cur sb n (elements path) = Some m -> G m -> st ∅ ins' s' -> icache cur sb pd None ins' ->
    ref_to ins' i' m -> refs ins' = alter (Z.add 1) i' R -> Q (Some i', nm') s') ->
  rx Q (namex_loop fuel i path nm false s).
Proof.
  induction fuel as [|fuel IH]; intros i n path nm ins s Q HR HI Hr Hn HE Hnm Hp Hf HN HS; cbn [namex_loop];
    pose proof (skipelem_elements path nm Hnm) as Hsk; (destruct (skipelem path nm) as [[path' nm']|];
    [destruct Hsk as (e & Ee & Hlt & Hnm' & Ht & Hz)|rewrite Hsk in HS; cbn [mret M_ret rexec]; by eapply HS]); [lia|].
  rewrite Ee in Hp, HN, HS. apply Forall_cons in Hp as [He Hp]. cbn [walk] in HN, HS. pose proof (HG n Hn) as Hgood.
  eapply rx_ilock; [exact HR|exact HI|exact Hr|exact Hgood|]. intros ins1 s1 HR1 HI1 M1 E1 K1.
  eapply rd_inode; [exact HR1|]. change (i_type (ins1 !!! i)) with (d_type (meta (ins1 !!! i))). rewrite M1.
  destruct (Z.eqb_spec (d_type (din cur sb n)) T_DIR) as [Hd|Hd]; cbn [negb andb].
  2: { eapply rx_iunlockput; [exact HR1|exact HI1|by apply K1|exact Hgood|]. intros ins2 s2 HR2 HI2 E2 _.
       cbn [mret M_ret rexec]. eapply HN; [done|exact HR2|exact HI2|]. by rewrite E2, E1, HE, ref_dropped. }
  eapply rx_dirlookup; [exact HI1|by apply K1|exact M1|exact Hgood|exact Hd|rewrite E1, HE; apply free_entry|exact HR1|exact Hnm'|by eapply cut_elem|..].
  - intros El s2 HR2. rewrite El in HN. eapply rx_iunlockput; [exact HR2|exact HI1|by apply K1|exact Hgood|]. intros ins3 s3 HR3 HI3 E3 _.
    cbn [mret M_ret rexec]. eapply HN; [done|exact HR3|exact HI3|]. by rewrite E3, E1, HE, ref_dropped.
  - intros m i' off ins2 s2 El Hm HR2 HI2 Hr2 K2 E2. rewrite El in HN, HS.
    eapply rx_iunlockput; [exact HR2|exact HI2|by apply K2, K1|exact Hgood|]. intros ins3 s3 HR3 HI3 E3 K3.
    eapply IH; [exact HR3|exact HI3| |exact Hm| |exact Hnm'|exact Hp|lia|exact HN|exact HS].
    + apply K3; [done|]. intros ->. destruct (ref_positive ins1 i n) as (r & Hi & Hpos); [by apply K1|].
      exists (1 + r). rewrite E2, list_lookup_alter_eq, Hi. split; [done|lia].
    + by rewrite E3, E2, E1, HE, ref_passed.
Qed.

(** Where [namex] starts: the root for an absolute path, else the working directory. *)
Definition starts (path : list Z) (ins : list inode) (n : Z) (s : kst) : Prop :=
  if decide (head path = Some slash) then n = ROOTINO
  else exists i, cwd (ptab s !!! j) = Some i /\ ref_to ins i n.

Lemma rx_start {A} path ins n s (k : option nat -> K A) (Q : A -> kst -> Prop) :
  st ∅ ins s -> icache cur sb pd None ins -> refs ins = R -> starts path ins n s ->
  (forall i ins' s', st ∅ ins' s' -> icache cur sb pd None ins' -> ref_to ins' i n -> refs ins' = alter (Z.add 1) i R -> rx Q (k (Some i) s')) ->
  rx Q ((ip ← (if decide (head path = Some slash) then i ← iget ROOTDEV ROOTINO; mret (Some i)
               else j ← curproc; p ← proc_at j; idup (cwd p)); k ip) s).
Proof.
  intros HR HI HE Hst HQ. unfold starts in Hst. apply rexec_bind. case_decide as Hh.
  - subst n. eapply rx_iget; [exact HR|exact HI|rewrite HE; by destruct Htwo as (f & _ & _ & Hf & _); exists f|].
    intros i ins1 s1 HR1 HI1 Hr1 _ E1. cbn [mret M_ret rexec]. eapply HQ; [exact HR1|exact HI1|exact Hr1|by rewrite E1, HE].
  - destruct Hst as (i & Hc & Hr). apply rexec_bind, (rexec_call _ _ _ Out). eapply wp_task_curproc; [apply HR|]. intros l1 T1.
    apply rexec_bind. cbn [proc_at gets rexec]. change (ptab (s <| klk := l1 |>)) with (ptab s). rewrite Hc. unfold idup.
    apply rexec_bind, (rexec_call _ _ _ Out). eapply wp_task_acquire; [exact T1|set_solver|]. intros l2 T2.
    eapply rx_upd_release; [exact HR|exact T2|done|]. intros s' HR'. cbn [mret M_ret rexec].
    pose proof Hr as (ip & Hi & Hpos & _). rewrite (list_alter_as_insert _ _ _ _ Hi) in HR'.
    destruct (icache_ref cur sb pd None ins i ip HI Hi Hpos) as (HI' & Hk & Er).
    eapply HQ; [exact HR'|exact HI'|by apply Hk|by rewrite Er, HE].
Qed.

(** [namei] implements [walk]. *)
Lemma rx_namei path ins n s (Q : option nat -> kst -> Prop) :
  st ∅ ins s -> icache cur sb pd None ins -> refs ins = R -> starts path ins n s -> G n -> Forall (fun e => 0 ∉ e) (elements path) ->
  (walk cur sb n (elements path) = None -> forall ins' s', st ∅ ins' s' -> icache cur sb pd None ins' -> refs ins' = R -> Q None s') ->
  (forall m i ins' s', walk cur sb n (elements path) = Some m -> G m -> st ∅ ins' s' -> icache cur sb pd None ins' ->
    ref_to ins' i m -> refs ins' = alter (Z.add 1) i R -> Q (Some i) s') ->
  rx Q (namei path s).
Proof.
  intros HR HI HE Hst Hn Hp HN HS. unfold namei. apply rexec_bind. unfold namex.
  eapply rx_start; [exact HR|exact HI|exact HE|exact Hst|]. intros i ins1 s1 HR1 HI1 Hr1 E1.
  eapply rx_namex_loop; [exact HR1|exact HI1|exact Hr1|exact Hn|exact E1|done|exact Hp|done|..].
  - intros Hw nm' ins2 s2 HR2 HI2 E2. cbn [mret M_ret rexec]. by eapply HN.
  - intros m i' nm' ins2 s2 Hw Hm HR2 HI2 Hr2 E2. cbn [mret M_ret rexec]. by eapply HS.
Qed.
End walk.

(** Reading a file through a reference to it. *)
Lemma rx_read_file G ins i n off m s (Q : option (list Z) -> kst -> Prop) (sz := d_size (din cur sb n)) :
  st ∅ ins s -> icache cur sb pd None ins -> ref_to ins i n -> good cur sb G n -> d_type (din cur sb n) <> T_DEV ->
  0 <= off <= sz -> 0 <= m -> off + m < 2^32 ->
  (forall s', Q (Some (bytes_of (incore cur sb n) cur off (Z.to_nat (Z.min m (sz - off))))) s') ->
  rx Q ((ilock i;; readi i off m) s).
Proof.
  intros HR HI Hr HG Ht Ho Hm Hu HQ. eapply rx_ilock; [exact HR|exact HI|exact Hr|exact HG|]. intros ins1 s1 HR1 HI1 M1 _ K1.
  destruct (gd_file _ _ _ _ HG Ht) as [_ HF]. destruct (K1 _ _ Hr) as (ip & Hi & _ & Hd & _).
  rewrite (list_lookup_total_correct _ _ _ Hi) in M1. assert (Es : i_size ip = sz) by (unfold sz; by rewrite <-M1).
  eapply (rx_readi C j pd Hfl pin cur D Hpin HD lg sb ins1 i sz); rewrite ?(list_lookup_total_correct _ _ _ Hi), ?Es;
    [|exact HR1| |lia|lia|lia|lia|].
  - by eapply meta_file_ok.
  - by rewrite <-M1 in Ht.
  - intros s2 _. rewrite (meta_bytes _ _ _ _ _ _ M1). apply HQ.
Qed.
End path.

Lemma split_path_nul path : 0 ∉ path -> Forall (fun e => 0 ∉ e) (split_path path).
Proof.
  induction path as [|c path IH]; intros H0; cbn [split_path]; [by repeat constructor; set_solver|].
  assert (Forall (fun e => 0 ∉ e) (split_path path)) as IH' by (apply IH; set_solver).
  destruct (split_path_cons path) as (e & es & E). rewrite E in IH'. apply Forall_cons in IH' as [He Hes]. rewrite E.
  destruct (c =? slash); constructor; [set_solver|by constructor|set_solver|done].
Qed.
Lemma elements_nul path : 0 ∉ path -> Forall (fun e => 0 ∉ e) (elements path).
Proof.
  intros H0. apply Forall_forall. intros e [_ He]%list_elem_of_filter. by apply (proj1 (Forall_forall _ _) (split_path_nul path H0)).
Qed.

(** C15: [namei] of a path, in a process that finds the disk well formed below its root or
    its working directory and at least two free entries in the inode cache, always
    returns, and gives what [walk] finds on the disk: nothing, or an entry of the
    cache that refers to that inode. It leaves exactly one reference to the entry
    behind, and none when it fails; no inode stays locked and the disk is unchanged
    whenever the process sleeps. *)
Theorem namei_walks {fl : Fuel} {dv : Devsw} (j : nat) (pd : Z) (pin : gset Z) (cur : Z -> list Z) (D : gmap (Z * Z) (list Z))
    (lg : log_t) (sb : superblock) (ins : list inode) (G : Z -> Prop) (path : list Z) (n : Z) (s : kst)
    (Hfl : (0 < wakeups)%nat) (Hpin : (size pin < NBUF)%nat) (HR : rd j pd ∅ pin cur D (lg, sb, ins) s)
    (HI : icache cur sb pd None ins) (Htwo : exists f1 f2, f1 <> f2 /\ refs ins !! f1 = Some 0 /\ refs ins !! f2 = Some 0)
    (HG : forall n, G n -> good cur sb G n) (Hst : starts j path ins n s) (Hn : G n) (Hp : 0 ∉ path) :
  rexec true (fun s' => disk (fss s') = D) (resumed j pd) (fun r s' => exists ins',
    rd j pd ∅ pin cur D (lg, sb, ins') s' /\ icache cur sb pd None ins' /\
    match r with
    | None => walk cur sb n (elements path) = None /\ refs ins' = refs ins
    | Some i => exists m, walk cur sb n (elements path) = Some m /\ ref_to ins' i m /\ refs ins' = alter (Z.add 1) i (refs ins)
    end) (namei path s).
Proof.
  eapply (rx_namei (fun d => d = D) j pd Hfl pin cur D lg sb Hpin eq_refl G (refs ins) HG Htwo);
    [exact HR|exact HI|done|exact Hst|exact Hn|by apply elements_nul|..].
  - intros Hw ins' s' HR' HI' E'. by exists ins'.
  - intros m i ins' s' Hw _ HR' HI' Hr' E'. exists ins'. split; [done|]. split; [done|]. by exists m.
Qed.
