(* ===== verification/CrashSpec.v ===== *)
(** Crash safety of the write-ahead log (log.c).

    The machine can stop whenever the process that commits is not running; what is
    left is the disk. [recovered] is what the next boot makes of it. A transaction
    is then on the disk as a whole or not at all, and recovery may itself be
    interrupted and repeated. *)
From stdpp Require Import base tactics list numbers strings gmap.
From S2P Require Import Prelude CString FsTypes State Spinlock Console Kalloc Vm Sched Process Args Sysproc Trap Sleeplock Ide Bio Log SchedInv Sample SchedOps Policy Dispatch Calls WakeSpec FsSpec LogSpec TaskOps CacheSpec.

#[local] Open Scope Z_scope.

(** ** What recovery makes of a disk *)

(** The header block of the log. *)
Definition hdr_n (h : list Z) : Z := i32 (rd32 h 0).
Definition hdr_blocks (h : list Z) : list Z :=
  (fun t => i32 (rd32 h (4 + 4 * t))) <$> seq 0 (Z.to_nat (hdr_n h)).

(** The contents [D] after the log blocks from the [t]-th on have been copied to
    the blocks [l]. *)
Fixpoint installed (start : Z) (D : Z -> list Z) (t : nat) (l : list Z) : Z -> list Z :=
  match l with
  | [] => D
  | b :: l' => installed start (written b (D (start + 1 + Z.of_nat t)) D) (S t) l'
  end.
Definition recovered (start : Z) (d : gmap (Z * Z) (list Z)) : Z -> list Z :=
  installed start (blk d) 0 (hdr_blocks (blk d start)).

(** Blocks outside of the log, which is [LOGSIZE] blocks long. *)
Definition home (start bn : Z) : Prop := bn < start \/ start + LOGSIZE <= bn.

(** The blocks of a transaction: on the disk, outside of the log, and leaving room
    for the header. *)
Record txn_ok (start : Z) (l : list Z) : Prop := {
  tx_nodup : NoDup l;
  tx_home : forall b, b ∈ l -> home start b /\ 0 <= b < FSSIZE;
  tx_len : Z.of_nat (length l) < LOGSIZE
}.

Lemma installed_out start D t l bn : bn ∉ l -> installed start D t l bn = D bn.
Proof.
  revert D t. induction l as [|b l IH]; intros D t Hn; [done|]. simpl. rewrite IH by set_solver.
  unfold written. rewrite decide_False by set_solver. done.
Qed.

Lemma installed_in start D t l k bn : NoDup l -> l !! k = Some bn ->
  (forall b, b ∈ l -> ~ (start < b < start + LOGSIZE)) -> Z.of_nat (t + length l) < LOGSIZE -> 0 <= start ->
  installed start D t l bn = D (start + 1 + Z.of_nat (t + k)).
Proof.
  revert D t k. induction l as [|b l IH]; intros D t k Hnd Hk Hl Hlen Hs; [done|].
  apply NoDup_cons in Hnd as [Hb Hnd]. simpl. destruct k as [|k]; simpl in Hk.
  - injection Hk as ->. rewrite installed_out by done. unfold written. rewrite decide_True by done.
    by rewrite Nat.add_0_r.
  - simpl in Hlen. rewrite (IH _ (S t) k); [|done|done|set_solver|simpl in *; lia|done].
    pose proof (lookup_lt_Some _ _ _ Hk). unfold written. rewrite decide_False.
    + by rewrite Nat.add_succ_r.
    + intros E. apply (Hl b); [set_solver|]. rewrite <-E. lia.
Qed.

Lemma recovered_empty start d bn : hdr_n (blk d start) = 0 -> recovered start d bn = blk d bn.
Proof. intros E. unfold recovered, hdr_blocks. by rewrite E. Qed.

(** The contents of a disk whose header names [l]. *)
Lemma recovered_txn start d l bn : 0 <= start -> hdr_blocks (blk d start) = l -> txn_ok start l ->
  ((bn ∉ l) /\ recovered start d bn = blk d bn) \/
  (exists k, l !! k = Some bn /\ recovered start d bn = blk d (start + 1 + Z.of_nat k)).
Proof.
  intros Hs El Hok. unfold recovered. rewrite El. destruct (decide (bn ∈ l)) as [Hin|Hin].
  - right. apply list_elem_of_lookup in Hin as [k Hk]. exists k. split; [done|].
    rewrite (installed_in _ _ _ _ k); [done|by eapply tx_nodup|done| |by eapply tx_len|done].
    intros b Hb. destruct (tx_home _ _ Hok b Hb) as [[?|?] _]; lia.
  - left. split; [done|]. by apply installed_out.
Qed.

(** ** The header block *)

(** The block that [write_head] writes over [h]. *)
Definition head_words (L : log_t) (k : nat) (h : list Z) : list Z :=
  foldl (fun h i => wr32 (4 + 4 * i) (lh_block L !!! i) h) (wr32 0 (lh_n L) h) (seq 0 k).
Definition enc_head (L : log_t) (h : list Z) : list Z := head_words L (Z.to_nat (lh_n L)) h.

Lemma head_words_S L k h : head_words L (S k) h = wr32 (4 + 4 * k) (lh_block L !!! k) (head_words L k h).
Proof. unfold head_words. by rewrite seq_S, foldl_app. Qed.

Lemma rd32_wr32 o v d : (o + 4 <= length d)%nat -> rd32 (wr32 o v d) o = v mod 2^32.
Proof.
  intros Ho. unfold wr32. rewrite <-(Nat.add_0_r o) at 2. rewrite rd32_splice_in by (simpl; lia).
  pose proof (rd32_le32 [] v []) as E. by rewrite app_nil_r in E.
Qed.

Section head.
Context (L : log_t) (h : list Z).
Hypothesis Hh : length h = Z.to_nat BSIZE.

Lemma length_head k : (k <= 30)%nat -> length (head_words L k h) = Z.to_nat BSIZE.
Proof.
  change (Z.to_nat BSIZE) with 512%nat in *. induction k as [|k IH]; intros Hk.
  - unfold head_words, wr32. simpl foldl. rewrite length_splice; [done|]. simpl. lia.
  - rewrite head_words_S. unfold wr32. rewrite length_splice; rewrite IH by lia; [done|]. simpl. lia.
Qed.

Lemma head_rd_n k : (k <= 30)%nat -> rd32 (head_words L k h) 0 = lh_n L mod 2^32.
Proof.
  change (Z.to_nat BSIZE) with 512%nat in *. induction k as [|k IH]; intros Hk.
  - unfold head_words. simpl foldl. apply rd32_wr32. lia.
  - pose proof (length_head k ltac:(lia)) as Hl. change (Z.to_nat BSIZE) with 512%nat in Hl.
    rewrite head_words_S. unfold wr32. rewrite rd32_splice_out; [apply IH; lia| |]; simpl; lia.
Qed.

Lemma head_rd_block k t : (k <= 30)%nat -> (t < k)%nat ->
  rd32 (head_words L k h) (4 + 4 * t) = (lh_block L !!! t) mod 2^32.
Proof.
  induction k as [|k IH]; intros Hk Ht; [lia|].
  pose proof (length_head k ltac:(lia)) as Hl. change (Z.to_nat BSIZE) with 512%nat in Hl.
  rewrite head_words_S. destruct (decide (t = k)) as [->|Hne].
  - apply rd32_wr32. lia.
  - unfold wr32. rewrite rd32_splice_out; [apply IH; lia| |]; simpl; lia.
Qed.

Lemma i32_mod v : in_i32 v -> i32 (v mod 2^32) = v.
Proof. unfold in_i32, i32. intros Hv. rewrite Zplus_mod_idemp_l, Z.mod_small; lia. Qed.

(** What [write_head] writes is what [read_head] will read. *)
Lemma enc_head_dec : log_ok L -> Forall in_i32 (lh_block L) ->
  hdr_n (enc_head L h) = lh_n L /\ hdr_blocks (enc_head L h) = logged L.
Proof.
  intros [Hlen Hn] Hall. change LOGSIZE with 30 in *. change (Z.to_nat 30) with 30%nat in *.
  assert (E : hdr_n (enc_head L h) = lh_n L).
  { unfold hdr_n, enc_head. rewrite head_rd_n by lia. apply i32_mod. unfold in_i32. lia. }
  split; [done|]. unfold hdr_blocks. rewrite E. unfold logged. apply list_eq. intros t.
  rewrite list_lookup_fmap. destruct (decide (t < Z.to_nat (lh_n L))%nat) as [Ht|Ht].
  - rewrite lookup_seq_lt by done. rewrite lookup_take_lt by done. cbn [fmap option_fmap option_map].
    destruct (lookup_lt_is_Some_2 (lh_block L) t) as [b Hb]; [lia|]. rewrite Hb. unfold enc_head.
    rewrite head_rd_block by lia. rewrite (list_lookup_total_correct _ _ _ Hb). f_equal. apply i32_mod.
    by eapply Forall_lookup_1 in Hall.
  - rewrite lookup_seq_ge by lia. by rewrite lookup_take_ge by lia.
Qed.
End head.

(** ** Steps of the code on the cache and the disk *)
Section steps.
Context {fl : Fuel} (j : nat) (pd : Z).
Hypothesis Hfl : (0 < wakeups)%nat.

(** The state of the process that works on the log. *)
Record st (held : gmap nat (Z * list Z)) (pin : gset Z) (cur : Z -> list Z) (D : gmap (Z * Z) (list Z))
    (L : log_t) (s : kst) : Prop := {
  st_task : task j pd 0 ∅ s;
  st_cache : cache pd held pin cur (fss s);
  st_disk : disk (fss s) = D;
  st_log : logst (fss s) = L
}.

Context (C : gmap (Z * Z) (list Z) -> Prop).
Let Out (s : kst) : Prop := C (disk (fss s)).
Abbreviation rx := (rexec true Out (resumed j pd)).

Lemma st_bread held pin cur D L s bn (Q : nat -> kst -> Prop) :
  st held pin cur D L s -> C D -> bn < FSSIZE ->
  (forall i d, held !! i <> Some (bn, d)) -> (bn ∈ pin \/ (size held + size pin < NBUF)%nat) ->
  (forall i s', held !! i = None -> st (<[i := (bn, cur bn)]> held) pin cur D L s' -> Q i s') ->
  rx Q (bread ROOTDEV bn s).
Proof.
  intros [HT HC <- <-] HCd Hbn Hnh Hroom HQ. eapply rx_bread; try done.
  intros i s' Hi T' C' D' L'%kept_log. by apply HQ.
Qed.

Lemma st_bwrite held pin cur D L s i bn d (Q : unit -> kst -> Prop) :
  st held pin cur D L s -> held !! i = Some (bn, d) -> bn < FSSIZE -> C (<[(1, bn) := d]> D) ->
  (forall s', st held (pin ∖ {[bn]}) (written bn d cur) (<[(1, bn) := d]> D) L s' -> Q tt s') ->
  rx Q (bwrite i s).
Proof.
  intros [HT HC <- <-] Hh Hbn HCd HQ. eapply rx_bwrite; try done.
  intros s' T' C' D' L'%kept_log. by apply HQ.
Qed.

Lemma st_brelse held pin cur D L s i bn (Q : unit -> kst -> Prop) :
  st held pin cur D L s -> held !! i = Some (bn, cur bn) ->
  (forall s', st (delete i held) pin cur D L s' -> Q tt s') -> rx Q (brelse i s).
Proof.
  intros [HT HC <- <-] Hh HQ. apply (rexec_call _ _ _ Out). eapply wp_brelse; try done.
  intros s' T' C' D' L'%kept_log. by apply HQ.
Qed.

Lemma st_upd_buf held pin cur D L s i bn d g :
  st held pin cur D L s -> held !! i = Some (bn, d) ->
  exists s', upd_buf i (fun b => b <| b_data ::= g |>) s = Ret tt s' /\ st (<[i := (bn, g d)]> held) pin cur D L s'.
Proof.
  intros [HT HC <- <-] Hh. eexists. split; [reflexivity|]. split; [by apply task_fsmod| |done|done].
  eapply (cache_set_data pd held pin cur s i bn d HC Hh); [apply fs_frame_bufs|done|]. simpl.
  destruct (cache_held_lookup _ _ _ _ _ _ _ _ HC Hh) as (b & Hb & _ & _ & Hda & _).
  rewrite !(list_alter_as_insert _ _ _ _ Hb). by rewrite <-Hda.
Qed.

Lemma st_copy_block held pin cur D L s i k bn d bn' d' :
  st held pin cur D L s -> held !! i = Some (bn, d) -> held !! k = Some (bn', d') ->
  exists s', copy_block i k s = Ret tt s' /\ st (<[i := (bn, d')]> held) pin cur D L s'.
Proof.
  intros HS Hi Hk. unfold copy_block, buf_at, fsget, gets, mbind, M_bind. cbn [obind].
  destruct (cache_held_lookup _ _ _ _ _ _ _ _ (st_cache _ _ _ _ _ _ HS) Hk) as (b & Hb & _ & _ & Hda & _).
  rewrite (list_lookup_total_correct _ _ _ Hb), Hda.
  apply (st_upd_buf held pin cur D L s i bn d (fun _ => d') HS Hi).
Qed.

(** A block is copied over another one and written out. *)
Lemma st_copy_out pin cur D L s i k x y held (Q : unit -> kst -> Prop) :
  st held pin cur D L s -> held = <[i := (x, cur x)]> {[k := (y, cur y)]} \/ held = <[k := (y, cur y)]> {[i := (x, cur x)]} ->
  i <> k -> x <> y -> x < FSSIZE -> C (<[(1, x) := cur y]> D) ->
  (forall s', st ∅ (pin ∖ {[x]}) (written x (cur y) cur) (<[(1, x) := cur y]> D) L s' -> Q tt s') ->
  rx Q ((copy_block i k;; bwrite i;; brelse k;; brelse i) s).
Proof.
  intros HS Hheld Hik Hxy Hx HCd HQ. assert (held = {[i := (x, cur x); k := (y, cur y)]}) as ->.
  { destruct Hheld as [-> | ->]; [done|]. apply map_eq. intros z.
    destruct (decide (z = i)), (decide (z = k)); by simplify_map_eq. }
  clear Hheld. apply rexec_bind.
  destruct (st_copy_block _ _ _ _ _ _ i k x (cur x) y (cur y) HS) as (s1 & -> & S1).
  { by simplify_map_eq. } { by simplify_map_eq. }
  cbn [rexec]. rewrite insert_insert_eq in S1. apply rexec_bind. eapply st_bwrite; [exact S1|by simplify_map_eq|done|done|].
  intros s2 S2. apply rexec_bind. eapply (st_brelse _ _ _ _ _ _ k y); [exact S2| |].
  { simplify_map_eq. unfold written. by rewrite decide_False. }
  intros s3 S3. eapply (st_brelse _ _ _ _ _ _ i x); [exact S3| |].
  { simplify_map_eq. unfold written. by rewrite decide_True. }
  intros s4 S4. apply HQ. replace (delete i _) with (∅ : gmap nat (Z * list Z)) in S4; [done|].
  apply map_eq. intros z. destruct (decide (z = i)), (decide (z = k)); by simplify_map_eq.
Qed.

(** ** log.c *)
Record logpos (start : Z) (L : log_t) : Prop := {
  lp_start : l_start L = start;
  lp_dev : l_dev L = ROOTDEV;
  lp_ok : log_ok L;
  lp_ints : Forall in_i32 (lh_block L);
  lp_low : 0 <= start;
  lp_high : start + LOGSIZE <= FSSIZE
}.

Lemma logpos_block start L t : logpos start L -> (t < Z.to_nat (lh_n L))%nat ->
  exists b, lh_block L !! t = Some b /\ logged L !! t = Some b.
Proof. clear Hfl.
  intros HL Ht. destruct (lp_ok _ _ HL) as [Hlen Hn]. destruct (lookup_lt_is_Some_2 (lh_block L) t) as [b Hb]; [lia|].
  exists b. split; [done|]. unfold logged. by rewrite lookup_take_lt.
Qed.

Lemma st_lh_get held pin cur D L s t b : st held pin cur D L s -> lh_block L !! t = Some b -> lh_get t s = Ret b s.
Proof.
  intros HS Hb. unfold lh_get, fsget, gets, mbind, M_bind. cbn [obind]. by rewrite (st_log _ _ _ _ _ _ HS), Hb.
Qed.

Lemma rx_write_head start pin cur D L s (Q : unit -> kst -> Prop) :
  st ∅ pin cur D L s -> logpos start L -> start ∉ pin -> (size pin < NBUF)%nat ->
  C D -> C (<[(1, start) := enc_head L (cur start)]> D) ->
  (forall s', st ∅ pin (written start (enc_head L (cur start)) cur) (<[(1, start) := enc_head L (cur start)]> D) L s' ->
    Q tt s') ->
  rx Q (write_head s).
Proof.
  intros HS HL Hp Hsz HC1 HC2 HQ. pose proof HL as [Hst Hdev Hok Hints Hlo Hhi]. change LOGSIZE with 30 in Hhi.
  assert (Hsf : start < FSSIZE) by (change FSSIZE with 1000 in *; lia).
  unfold write_head. apply rexec_bind. cbn [fsget gets rexec]. rewrite (st_log _ _ _ _ _ _ HS), Hst, Hdev.
  rewrite u32_small by (unfold in_u32; change FSSIZE with 1000 in *; lia).
  apply rexec_bind. eapply st_bread; [exact HS|done|done|by intros|by right|]. intros i s1 _ S1.
  apply rexec_bind. cbn [fsget gets rexec]. rewrite (st_log _ _ _ _ _ _ S1).
  apply rexec_bind. destruct (st_upd_buf _ _ _ _ _ _ i start (cur start) (wr32 0 (lh_n L)) S1) as (s2 & -> & S2);
    [apply lookup_insert_eq|]. cbn [rexec]. apply rexec_bind. rewrite insert_insert_eq in S2.
  unfold for_log. apply rexec_bind. cbn [fsget gets rexec]. rewrite (st_log _ _ _ _ _ _ S2).
  set (n := Z.to_nat (lh_n L)).
  apply (rexec_mono _ _ _ (fun _ s' => st (<[i := (start, head_words L (length (seq 0 n)) (cur start))]> ∅) pin cur D L s')).
  - rewrite length_seq. intros [] s3 S3. apply rexec_bind. eapply (st_bwrite _ _ _ _ _ _ i start); [exact S3|apply lookup_insert_eq|exact Hsf|exact HC2|].
    intros s4 S4. eapply (st_brelse _ _ _ _ _ _ i start); [exact S4| |].
    { rewrite lookup_insert_eq. unfold written. by rewrite decide_True. }
    intros s5 S5. apply HQ. rewrite delete_insert_id in S5 by done.
    by replace (pin ∖ {[start]}) with pin in S5 by set_solver.
  - apply (rexec_for_all _ _ _ _ (fun l1 s' => st (<[i := (start, head_words L (length l1) (cur start))]> ∅) pin cur D L s')).
    + exact S2.
    + intros l1 t l2 s3 E S3. destruct (seq_split _ _ _ _ E) as [-> Ht].
      destruct (logpos_block _ _ _ HL Ht) as (b & Hb & _). apply rexec_bind.
      rewrite (st_lh_get _ _ _ _ _ _ _ _ S3 Hb). cbn [rexec].
      destruct (st_upd_buf _ _ _ _ _ _ i start (head_words L (length l1) (cur start)) (wr32 (4 + 4 * length l1) b) S3) as (s4 & -> & S4);
        [apply lookup_insert_eq|]. cbn [rexec]. rewrite insert_insert_eq in S4.
      rewrite length_app. cbn [length]. rewrite Nat.add_1_r, head_words_S, (list_lookup_total_correct _ _ _ Hb).
      exact S4.
Qed.

Section loops.
Context (start : Z) (L : log_t).
Hypothesis HL : logpos start L.
Hypothesis Htx : txn_ok start (logged L).

(** Blocks that writing the log leaves alone. *)
Definition quiet_blk (bn : Z) : Prop := home start bn \/ bn = start.

Lemma logged_len : length (logged L) = Z.to_nat (lh_n L).
Proof. clear Hfl. destruct (lp_ok _ _ HL) as [Hl Hn]. unfold logged. rewrite length_take. lia. Qed.
Lemma logged_size : (size (list_to_set (logged L) : gset Z) < NBUF)%nat.
Proof. clear Hfl.
  rewrite size_list_to_set by (by eapply tx_nodup). pose proof (tx_len _ _ Htx) as Hlt.
  change LOGSIZE with 30 in Hlt. change NBUF with 30%nat. lia.
Qed.

(** The log block for the [t]-th block of the transaction. *)
Lemma log_slot t b : logged L !! t = Some b ->
  u32 (l_start L + Z.of_nat t + 1) = start + 1 + Z.of_nat t /\ start + 1 + Z.of_nat t < FSSIZE /\
  ~ quiet_blk (start + 1 + Z.of_nat t) /\ u32 b = b /\ b < FSSIZE /\ quiet_blk b /\ b <> start.
Proof. clear Hfl.
  intros Hb. pose proof HL as [Hst _ _ _ Hlo Hhi]. pose proof (tx_len _ _ Htx) as Hlen.
  pose proof (lookup_lt_Some _ _ _ Hb) as Ht.
  destruct (tx_home _ _ Htx b) as [Hhome [Hb0 Hb1]]; [by eapply list_elem_of_lookup_2|].
  change LOGSIZE with 30 in *. change FSSIZE with 1000 in *. unfold quiet_blk, home in *. change LOGSIZE with 30 in *.
  rewrite Hst. rewrite !u32_small by (unfold in_u32; lia). lia.
Qed.

(** Two blocks are read, the second in a cache that may be full of pinned blocks. *)
Lemma rx_read_two pin cur D s (t : nat) (b : Z) (k : nat -> nat -> M kst unit) (Q : unit -> kst -> Prop) :
  st ∅ pin cur D L s -> C D -> logged L !! t = Some b -> (size pin < NBUF)%nat ->
  (b ∈ pin \/ pin = ∅) ->
  (forall i i' s', i <> i' -> st (<[i' := (b, cur b)]> {[i := (start + 1 + Z.of_nat t, cur (start + 1 + Z.of_nat t))]}) pin cur D L s' ->
    rx Q (k i i' s')) ->
  rx Q ((l ← fsget logst; lb ← bread (l_dev l) (u32 (l_start l + Z.of_nat t + 1));
    bno ← lh_get t; db ← bread (l_dev l) (u32 bno); k lb db) s).
Proof.
  intros HS HCd Hb Hsz Hp HQ. destruct (log_slot t b Hb) as (E1 & Hx & Hq & E2 & Hy & Hqb & _).
  apply rexec_bind. cbn [fsget gets rexec]. rewrite (st_log _ _ _ _ _ _ HS), E1, (lp_dev _ _ HL).
  apply rexec_bind. eapply st_bread; [exact HS|done|done|by intros|by right|]. intros i s1 _ S1.
  assert (Hb' : lh_block L !! t = Some b).
  { unfold logged in Hb. rewrite lookup_take_Some in Hb. tauto. }
  apply rexec_bind. rewrite (st_lh_get _ _ _ _ _ _ _ _ S1 Hb'). cbn [rexec]. rewrite E2.
  apply rexec_bind. eapply st_bread; [exact S1|done|done| | |].
  - intros i' d. destruct (decide (i' = i)) as [->|Hne].
    + rewrite lookup_insert_eq. intros [= Ec _]. by rewrite Ec in Hq.
    + by rewrite lookup_insert_ne.
  - destruct Hp as [Hp| ->]; [by left|right]. rewrite map_size_insert_None, map_size_empty, size_empty by done. unfold NBUF. lia.
  - intros i' s2 Hi' S2. apply HQ; [|exact S2]. intros ->. by rewrite lookup_insert_eq in Hi'.
Qed.

(** The blocks have been copied to the log; nothing else has changed. *)
Record in_log (k : nat) (cur : Z -> list Z) (D : gmap (Z * Z) (list Z)) (cur' : Z -> list Z)
    (D' : gmap (Z * Z) (list Z)) : Prop := {
  il_cur : forall bn, quiet_blk bn -> cur' bn = cur bn;
  il_disk : forall bn, quiet_blk bn -> blk D' bn = blk D bn;
  il_copy : forall t b, (t < k)%nat -> logged L !! t = Some b -> cur' (start + 1 + Z.of_nat t) = cur b
}.

Lemma rx_write_log cur D s (Q : unit -> kst -> Prop) :
  let pin := list_to_set (logged L) in
  st ∅ pin cur D L s ->
  (forall D', (forall bn, quiet_blk bn -> blk D' bn = blk D bn) -> C D') ->
  (forall cur' D' s', st ∅ pin cur' D' L s' -> in_log (length (logged L)) cur D cur' D' -> Q tt s') ->
  rx Q (write_log s).
Proof.
  intros pin HS HCd HQ. unfold write_log, for_log. apply rexec_bind. cbn [fsget gets rexec].
  rewrite (st_log _ _ _ _ _ _ HS), <-logged_len.
  apply (rexec_mono _ _ _ (fun _ s' => exists cur' D', st ∅ pin cur' D' L s' /\
    in_log (length (seq 0 (length (logged L)))) cur D cur' D')).
  { rewrite length_seq. intros [] s' (cur' & D' & S' & I'). by eapply HQ. }
  apply (rexec_for_all _ _ _ _ (fun l1 s' => exists cur' D', st ∅ pin cur' D' L s' /\ in_log (length l1) cur D cur' D')).
  { exists cur, D. split; [exact HS|]. split; [done|done|]. simpl. lia. }
  intros l1 t l2 s1 E (cur1 & D1 & S1 & I1). destruct (seq_split _ _ _ _ E) as [-> Ht].
  destruct (lookup_lt_is_Some_2 (logged L) (length l1) Ht) as [b Hb].
  destruct (log_slot _ _ Hb) as (_ & Hx & Hq & _ & Hy & Hqb & _).
  eapply rx_read_two; [exact S1| |exact Hb|apply logged_size| |].
  - apply HCd. apply I1.
  - left. apply elem_of_list_to_set. by eapply list_elem_of_lookup_2.
  - intros i i' s2 Hne S2. set (x := start + 1 + Z.of_nat (length l1)) in *.
    assert (HD2 : forall bn, quiet_blk bn -> blk (<[(1, x) := cur1 b]> D1) bn = blk D bn).
    { intros bn Hbn. rewrite blk_insert, decide_False by (intros ->; done). by apply I1. }
    eapply (st_copy_out _ _ _ _ _ i i' x b); [exact S2|by right|done|intros E'; by rewrite E' in Hq|done|by apply HCd|].
    intros s3 S3. eexists _, _. replace (pin ∖ {[x]}) with pin in S3.
    2: { apply leibniz_equiv. intros z. rewrite elem_of_difference, elem_of_singleton. split; [|tauto].
      intros Hz. split; [done|]. intros ->. apply elem_of_list_to_set in Hz. apply Hq. left.
      by destruct (tx_home _ _ Htx _ Hz). }
    split; [exact S3|]. rewrite length_app. cbn [length]. split.
    + intros bn Hbn. unfold written. rewrite decide_False by (by intros ->). by apply I1.
    + exact HD2.
    + intros t b' Hlt Hb'. unfold written. case_decide as Ec.
      * assert (t = length l1) as -> by (unfold x in Ec; lia). rewrite Hb in Hb'. injection Hb' as <-.
        by apply I1.
      * apply I1; [|done]. assert (t <> length l1) by (intros ->; done). lia.
Qed.

(** *** Installing *)

(** The disk holds the transaction in the log, under the header [h]; [new] are the
    contents that recovery gives. *)
Record log_full (h : list Z) (new : Z -> list Z) (D : gmap (Z * Z) (list Z)) : Prop := {
  lf_head : blk D start = h;
  lf_log : forall t b, logged L !! t = Some b -> blk D (start + 1 + Z.of_nat t) = new b;
  lf_home : forall bn, home start bn -> bn ∉ logged L -> blk D bn = new bn
}.

Lemma log_full_write h new D b : log_full h new D -> b ∈ logged L -> log_full h new (<[(1, b) := new b]> D).
Proof. clear Hfl.
  intros [H1 H2 H3] Hb. apply list_elem_of_lookup in Hb as [k Hk].
  destruct (log_slot _ _ Hk) as (_ & _ & _ & _ & _ & Hq & Hs). split.
  - rewrite blk_insert, decide_False by done. done.
  - intros t b' Ht. rewrite blk_insert, decide_False; [by apply H2|]. intros E.
    destruct (log_slot _ _ Ht) as (_ & _ & Hnq & _). by rewrite E in Hnq.
  - intros bn Hh Hn. rewrite blk_insert. case_decide as E; [by subst|]. by apply H3.
Qed.

(** The blocks from the [k]-th on are still pinned, if the cache has them. *)
Definition pin_from (p : bool) (k : nat) : gset Z := if p then list_to_set (drop k (logged L)) else ∅.

Record installing (new : Z -> list Z) (k : nat) (cur : Z -> list Z) : Prop := {
  in_log_blk : forall t b, logged L !! t = Some b -> cur (start + 1 + Z.of_nat t) = new b;
  in_home : forall bn, home start bn -> bn ∉ drop k (logged L) -> cur bn = new bn
}.

Lemma pin_from_S p k b : logged L !! k = Some b -> pin_from p k ∖ {[b]} = pin_from p (S k).
Proof. clear Hfl.
  intros Hb. unfold pin_from. destruct p; [|set_solver].
  pose proof (tx_nodup _ _ Htx) as Hnd. rewrite <-(take_drop k (logged L)) in Hnd.
  rewrite (drop_S _ _ _ Hb) in Hnd |- *. apply NoDup_app in Hnd as (_ & _ & [Hn _]%NoDup_cons).
  apply leibniz_equiv. intros z. rewrite elem_of_difference, !elem_of_list_to_set, elem_of_cons, elem_of_singleton.
  split; [tauto|]. intros Hz. split; [by right|]. by intros ->.
Qed.

Lemma rx_install new p h cur D s (Q : unit -> kst -> Prop) :
  st ∅ (pin_from p 0) cur D L s -> installing new 0 cur -> log_full h new D ->
  (forall D', log_full h new D' -> C D') ->
  (forall cur' D' s', st ∅ ∅ cur' D' L s' -> (forall bn, home start bn -> cur' bn = new bn) ->
    log_full h new D' -> Q tt s') ->
  rx Q (install_trans s).
Proof.
  intros HS HI HF HCd HQ. unfold install_trans, for_log. apply rexec_bind. cbn [fsget gets rexec].
  rewrite (st_log _ _ _ _ _ _ HS), <-logged_len.
  pose (J := fun (k : nat) (s' : kst) => exists cur' D', st ∅ (pin_from p k) cur' D' L s' /\
    installing new k cur' /\ log_full h new D').
  apply (rexec_mono _ _ _ (fun _ s' => J (length (seq 0 (length (logged L)))) s')).
  { rewrite length_seq. intros [] s' (cur' & D' & S' & I' & F'). eapply HQ; [|intros bn Hbn; apply (in_home _ _ _ I' bn Hbn); rewrite drop_all; set_solver|exact F'].
    unfold pin_from in S'. rewrite drop_all in S'. by destruct p. }
  apply (rexec_for_all _ _ _ _ (fun l1 => J (length l1))); [by exists cur, D|].
  intros l1 t l2 s1 E (cur1 & D1 & S1 & I1 & F1). destruct (seq_split _ _ _ _ E) as [-> Ht].
  destruct (lookup_lt_is_Some_2 (logged L) (length l1) Ht) as [b Hb].
  destruct (log_slot _ _ Hb) as (_ & Hx & Hq & _ & Hy & Hqb & _).
  assert (Hsz : (size (pin_from p (length l1)) < NBUF)%nat).
  { eapply Nat.le_lt_trans; [|apply logged_size]. apply subseteq_size. unfold pin_from.
    destruct p; [|set_solver]. intros z. rewrite !elem_of_list_to_set. apply subseteq_drop. }
  eapply rx_read_two; [exact S1|by apply HCd|exact Hb|exact Hsz| |].
  - unfold pin_from. destruct p; [left|by right]. apply elem_of_list_to_set.
    rewrite (drop_S _ _ _ Hb). set_solver.
  - intros i i' s2 Hne S2. set (x := start + 1 + Z.of_nat (length l1)) in *.
    pose proof (in_log_blk _ _ _ I1 _ _ Hb) as Ex. fold x in Ex.
    assert (F2 : log_full h new (<[(1, b) := new b]> D1)) by (apply log_full_write; [done|by eapply list_elem_of_lookup_2]).
    eapply (st_copy_out _ _ _ _ _ i' i b x); [exact S2|by left|done|intros E'; by rewrite E' in Hqb|done| |].
    { rewrite Ex. by apply HCd. }
    rewrite Ex, (pin_from_S _ _ _ Hb). intros s3 S3. rewrite length_app. cbn [length]. rewrite Nat.add_1_r.
    exists (written b (new b) cur1), (<[(1, b) := new b]> D1). split; [exact S3|]. split; [|exact F2]. split.
    + intros t b' Ht'. unfold written. rewrite decide_False; [by apply I1|]. intros E'.
      destruct (log_slot _ _ Ht') as (_ & _ & Hnq & _). by rewrite E' in Hnq.
    + intros bn Hh Hn. unfold written. case_decide as E'; [by subst|]. apply I1; [done|].
      rewrite (drop_S _ _ _ Hb). set_solver.
Qed.

Lemma log_full_recovered h new D bn : log_full h new D -> hdr_blocks h = logged L -> home start bn ->
  recovered start D bn = new bn.
Proof. clear Hfl.
  intros [H1 H2 H3] Eh Hh. rewrite <-H1 in Eh.
  destruct (recovered_txn start D (logged L) bn) as [[Hn ->]|(k & Hk & ->)]; try done.
  - by eapply lp_low.
  - by apply H3.
  - by apply H2.
Qed.
End loops.

Lemma st_upd_log held pin cur D L s g : st held pin cur D L s ->
  exists s', upd_log g s = Ret tt s' /\ st held pin cur D (g L) s'.
Proof.
  intros [HT HC <- <-]. eexists. split; [reflexivity|]. split; [by apply task_fsmod| |done|done].
  by destruct HC.
Qed.

Lemma logpos_clear start L : logpos start L -> logpos start (L <| lh_n := 0 |>).
Proof. clear Hfl. intros [? ? [? ?] ? ? ?]. split; try done. Qed.

Lemma logged_clear L : logged (L <| lh_n := 0 |>) = [].
Proof. clear Hfl. done. Qed.

(** The header is cleared: the end of [commit] and of [recover_from_log]. *)
Lemma rx_clear_head start cur D L s (Q : unit -> kst -> Prop) :
  st ∅ ∅ cur D L s -> logpos start L -> length (cur start) = Z.to_nat BSIZE -> C D ->
  (forall D', (forall bn, bn <> start -> blk D' bn = blk D bn) -> hdr_n (blk D' start) = 0 ->
    length (blk D' start) = Z.to_nat BSIZE -> C D') ->
  (forall cur' D' s', st ∅ ∅ cur' D' (L <| lh_n := 0 |>) s' -> (forall bn, bn <> start -> blk D' bn = blk D bn) ->
    hdr_n (blk D' start) = 0 -> length (blk D' start) = Z.to_nat BSIZE -> Q tt s') ->
  rx Q ((upd_log (fun l => l <| lh_n := 0 |>);; write_head) s).
Proof.
  intros HS HL Hlen HC0 HCd HQ. apply rexec_bind.
  destruct (st_upd_log _ _ _ _ _ _ (fun l => l <| lh_n := 0 |>) HS) as (s1 & -> & S1). cbn [rexec].
  pose proof (logpos_clear _ _ HL) as HL1. set (L1 := L <| lh_n := 0 |>) in *. set (h := enc_head L1 (cur start)).
  destruct (enc_head_dec L1 (cur start) Hlen (lp_ok _ _ HL1) (lp_ints _ _ HL1)) as [En _]. fold h in En.
  change (lh_n L1) with 0 in En.
  assert (HD : forall bn, bn <> start -> blk (<[(1, start) := h]> D) bn = blk D bn).
  { intros bn Hbn. by rewrite blk_insert, decide_False. }
  assert (Hh : blk (<[(1, start) := h]> D) start = h) by (by rewrite blk_insert, decide_True).
  assert (Hhl : length (blk (<[(1, start) := h]> D) start) = Z.to_nat BSIZE).
  { etrans; [exact (f_equal length Hh)|]. apply length_head; [done|]. simpl. lia. }
  eapply rx_write_head; [exact S1|exact HL1|set_solver|rewrite size_empty; unfold NBUF; lia|done| |].
  - apply HCd; [exact HD| |exact Hhl]. etrans; [exact (f_equal hdr_n Hh)|exact En].
  - intros s2 S2. eapply HQ; [exact S2|exact HD|etrans; [exact (f_equal hdr_n Hh)|exact En]|exact Hhl].
Qed.

(** ** Reading the header *)
Lemma st_lh_set held pin cur D L s i v : st held pin cur D L s -> (i < length (lh_block L))%nat ->
  exists s', lh_set i v s = Ret tt s' /\ st held pin cur D (L <| lh_block ::= <[i := v]> |>) s'.
Proof.
  intros HS Hi. unfold lh_set, fsget, gets, mbind, M_bind. cbn [obind]. rewrite (st_log _ _ _ _ _ _ HS).
  rewrite (proj2 (Nat.ltb_lt _ _) Hi). by apply st_upd_log.
Qed.

(** The log after the first [k] words have been copied from the header [h]. *)
Definition head_read (h : list Z) (L : log_t) (k : nat) : log_t :=
  foldl (fun L i => L <| lh_block ::= <[i := i32 (rd32 h (4 + 4 * i))]> |>) (L <| lh_n := hdr_n h |>) (seq 0 k).

Lemma head_read_S h L k : head_read h L (S k) = (head_read h L k) <| lh_block ::= <[k := i32 (rd32 h (4 + 4 * k))]> |>.
Proof. clear Hfl. unfold head_read. by rewrite seq_S, foldl_app. Qed.

Lemma head_read_rest h L k (g : log_t -> Z * Z * bool) :
  (forall l v, g (l <| lh_n := v |>) = g l) -> (forall l f, g (l <| lh_block ::= f |>) = g l) -> g (head_read h L k) = g L.
Proof. clear Hfl.
  intros Hn Hb. induction k as [|k IH]; [apply Hn|]. rewrite head_read_S, Hb. exact IH.
Qed.

Lemma head_read_spec h L k : (k <= length (lh_block L))%nat ->
  lh_n (head_read h L k) = hdr_n h /\ l_start (head_read h L k) = l_start L /\ l_dev (head_read h L k) = l_dev L /\
  length (lh_block (head_read h L k)) = length (lh_block L) /\
  take k (lh_block (head_read h L k)) = (fun t => i32 (rd32 h (4 + 4 * t))) <$> seq 0 k.
Proof. clear Hfl.
  induction k as [|k IH]; intros Hk; [done|]. destruct (IH ltac:(lia)) as (E1 & E2 & E3 & E4 & E5).
  rewrite head_read_S, seq_S, fmap_app. simpl lh_n. simpl l_start. simpl l_dev. simpl lh_block.
  rewrite length_insert. repeat (split; [done|]).
  rewrite (take_S_r _ _ (i32 (rd32 h (4 + 4 * k)))) by (apply list_lookup_insert_eq; lia).
  by rewrite take_insert_ge, E5 by lia.
Qed.

Lemma head_read_logged h L : length (lh_block L) = Z.to_nat LOGSIZE -> 0 <= hdr_n h <= LOGSIZE ->
  logged (head_read h L (Z.to_nat (hdr_n h))) = hdr_blocks h.
Proof. clear Hfl.
  intros Hl Hn. destruct (head_read_spec h L (Z.to_nat (hdr_n h))) as (E1 & _ & _ & _ & E5); [lia|].
  unfold logged. rewrite E1. exact E5.
Qed.

Lemma head_read_ints h L k : Forall in_i32 (lh_block L) -> Forall in_i32 (lh_block (head_read h L k)).
Proof. clear Hfl.
  intros HF. induction k as [|k IH]; [done|]. rewrite head_read_S. simpl. apply Forall_insert; [done|apply i32_range].
Qed.

Lemma head_read_pos start h L : logpos start L -> 0 <= hdr_n h <= LOGSIZE ->
  logpos start (head_read h L (Z.to_nat (hdr_n h))).
Proof. clear Hfl.
  intros [Hst Hdev [Hlen Hln] Hints Hlo Hhi] Hn.
  destruct (head_read_spec h L (Z.to_nat (hdr_n h))) as (E1 & E2 & E3 & E4 & _); [lia|].
  split; try congruence; try done; [|by apply head_read_ints]. split; [congruence|]. by rewrite E1.
Qed.

Lemma rx_read_head start cur D L s (Q : unit -> kst -> Prop) :
  st ∅ ∅ cur D L s -> logpos start L -> C D -> 0 <= hdr_n (cur start) <= LOGSIZE ->
  (forall s', st ∅ ∅ cur D (head_read (cur start) L (Z.to_nat (hdr_n (cur start)))) s' -> Q tt s') ->
  rx Q (read_head s).
Proof.
  intros HS HL HCd Hn HQ. pose proof HL as [Hst Hdev [Hlen _] Hints Hlo Hhi]. change LOGSIZE with 30 in *.
  assert (Hsf : start < FSSIZE) by (change FSSIZE with 1000 in *; lia). set (h := cur start) in *.
  unfold read_head. apply rexec_bind. cbn [fsget gets rexec]. rewrite (st_log _ _ _ _ _ _ HS), Hst, Hdev.
  rewrite u32_small by (unfold in_u32; change FSSIZE with 1000 in *; lia).
  apply rexec_bind. eapply st_bread; [exact HS|done|done|by intros|right; rewrite map_size_empty, size_empty; unfold NBUF; lia|].
  intros i s1 _ S1. apply rexec_bind. cbn [buf_at fsget gets rexec].
  destruct (cache_held_lookup _ _ _ _ _ _ _ _ (st_cache _ _ _ _ _ _ S1) (lookup_insert_eq _ _ _)) as (b & Hb & _ & _ & Hda & _).
  rewrite (list_lookup_total_correct _ _ _ Hb), Hda. fold h. apply rexec_bind.
  destruct (st_upd_log _ _ _ _ _ _ (fun l => l <| lh_n := i32 (rd32 h 0) |>) S1) as (s2 & -> & S2). cbn [rexec].
  apply rexec_bind. unfold for_log. apply rexec_bind. cbn [fsget gets rexec]. rewrite (st_log _ _ _ _ _ _ S2).
  change (lh_n (L <| lh_n := i32 (rd32 h 0) |>)) with (hdr_n h). set (n := Z.to_nat (hdr_n h)) in *.
  apply (rexec_mono _ _ _ (fun _ s' => st (<[i := (start, h)]> ∅) ∅ cur D (head_read h L (length (seq 0 n))) s')).
  - rewrite length_seq. intros [] s3 S3. eapply (st_brelse _ _ _ _ _ _ i start); [exact S3|apply lookup_insert_eq|].
    intros s4 S4. apply HQ. by rewrite delete_insert_id in S4.
  - apply (rexec_for_all _ _ _ _ (fun l1 s' => st (<[i := (start, h)]> ∅) ∅ cur D (head_read h L (length l1)) s')).
    + exact S2.
    + intros l1 t l2 s3 E S3. destruct (seq_split _ _ _ _ E) as [-> Ht].
      destruct (head_read_spec h L (length l1)) as (_ & _ & _ & E4 & _); [lia|].
      destruct (st_lh_set _ _ _ _ _ _ (length l1) (i32 (rd32 h (4 + 4 * length l1))) S3) as (s4 & -> & S4); [lia|].
      cbn [rexec]. rewrite length_app. cbn [length]. rewrite Nat.add_1_r, head_read_S. exact S4.
Qed.
End steps.
