(* ===== verification/Crash.v ===== *)
(** Crash safety: a transaction is on the disk as a whole or not at all (log.c). *)
From stdpp Require Import base tactics list numbers strings gmap.
From S2P Require Import Prelude CString FsTypes State Spinlock Console Kalloc Vm Sched Process Args Sysproc Trap Sleeplock Ide Bio Log SchedInv Sample SchedOps Policy Dispatch Calls WakeSpec FsSpec LogSpec TaskOps CacheSpec CrashSpec.

#[local] Open Scope Z_scope.

(** The header of the log on the disk, as a commit leaves it. *)
Record header_ok (start : Z) (h : list Z) : Prop := {
  ho_n : 0 <= hdr_n h;
  ho_txn : txn_ok start (hdr_blocks h);
  ho_len : length h = Z.to_nat BSIZE
}.

Lemma header_ok_n start h : header_ok start h -> 0 <= hdr_n h <= LOGSIZE.
Proof.
  intros [Hn Htx _]. split; [done|]. pose proof (tx_len _ _ Htx) as Hl. unfold hdr_blocks in Hl.
  rewrite length_fmap, length_seq in Hl. lia.
Qed.

(** Recovery makes [new] of the disk [d], outside of the log. *)
Definition recovers (start : Z) (new : Z -> list Z) (d : gmap (Z * Z) (list Z)) : Prop :=
  header_ok start (blk d start) /\ forall bn, home start bn -> recovered start d bn = new bn.

(** The blocks are all old or all new. *)
Definition whole (start : Z) (old new : Z -> list Z) (d : gmap (Z * Z) (list Z)) : Prop :=
  recovers start old d \/ recovers start new d.

Lemma recovers_empty start new d :
  hdr_n (blk d start) = 0 -> length (blk d start) = Z.to_nat BSIZE ->
  (forall bn, home start bn -> blk d bn = new bn) -> recovers start new d.
Proof.
  intros Hn Hl Hd. split.
  - split; [lia| |done]. unfold hdr_blocks. rewrite Hn. split; [apply NoDup_nil_2|set_solver|done].
  - intros bn Hbn. rewrite recovered_empty by done. by apply Hd.
Qed.

Lemma log_full_recovers start L h new d :
  logpos start L -> txn_ok start (logged L) -> log_full start L h new d ->
  hdr_blocks h = logged L -> 0 <= hdr_n h -> length h = Z.to_nat BSIZE -> recovers start new d.
Proof.
  intros HL Htx HF Eh Hn Hl. split; [|intros bn Hbn; by eapply log_full_recovered].
  rewrite (lf_head _ _ _ _ _ HF). split; [done|by rewrite Eh|done].
Qed.

Lemma recovers_home start new new' d :
  (forall bn, home start bn -> new bn = new' bn) -> recovers start new d -> recovers start new' d.
Proof. intros Hn [Hh Hr]. split; [done|]. intros bn Hbn. rewrite <-Hn by done. by apply Hr. Qed.

(** The fields of the log that [begin_op] and [end_op] consult. *)
Definition log_ctl (l : log_t) : Z * Z * bool := (l_size l, l_outstanding l, l_committing l).

(** A state in which nothing is left to commit. *)
Record settled (j : nat) (pd start : Z) (ctl : Z * Z * bool) (new : Z -> list Z) (s : kst) : Prop := {
  se_task : task j pd 0 ∅ s;
  se_pos : logpos start (logst (fss s));
  se_none : logged (logst (fss s)) = [];
  se_cache : exists cur, cache pd ∅ ∅ cur (fss s);
  se_ctl : log_ctl (logst (fss s)) = ctl;
  se_head : hdr_n (blk (disk (fss s)) start) = 0;
  se_len : length (blk (disk (fss s)) start) = Z.to_nat BSIZE;
  se_disk : forall bn, home start bn -> blk (disk (fss s)) bn = new bn
}.

Lemma not_home_start start : ~ home start start.
Proof. unfold home. change LOGSIZE with 30. lia. Qed.

(** The end of a commit and of recovery: all blocks are at home, and the header is
    cleared. *)
Lemma rx_finish {fl : Fuel} (j : nat) (pd start : Z) (C : gmap (Z * Z) (list Z) -> Prop) L h new cur D s :
  (0 < wakeups)%nat -> st j pd ∅ ∅ cur D L s -> logpos start L -> (forall bn, home start bn -> cur bn = new bn) ->
  log_full start L h new D -> length h = Z.to_nat BSIZE -> C D ->
  (forall D', recovers start new D' -> C D') ->
  rexec true (fun s' => C (disk (fss s'))) (resumed j pd)
    (fun _ s' => settled j pd start (log_ctl L) new s') ((upd_log (fun l => l <| lh_n := 0 |>);; write_head) s).
Proof.
  intros Hfl HS HL Hc HF Hlen HCd HCz.
  assert (Hdisk : forall bn, blk D bn = cur bn).
  { intros bn. rewrite <-(st_disk _ _ _ _ _ _ _ _ HS). apply (ca_disk _ _ _ _ _ (st_cache _ _ _ _ _ _ _ _ HS)). set_solver. }
  assert (Hnew : forall D', (forall bn, bn <> start -> blk D' bn = blk D bn) -> forall bn, home start bn -> blk D' bn = new bn).
  { intros D' HD' bn Hbn. rewrite HD', Hdisk by (intros ->; by apply (not_home_start start)). by apply Hc. }
  eapply (rx_clear_head j pd Hfl C start); [exact HS|exact HL| |done| |].
  - rewrite <-Hdisk, (lf_head _ _ _ _ _ HF). exact Hlen.
  - intros D' HD' Hz Hl. apply HCz, recovers_empty; [done..|by apply Hnew].
  - intros cur4 D4 s4 [T4 C4 E4 L4] HD4 Hz4 Hl4. split; rewrite ?E4, ?L4; try done.
    + by apply logpos_clear.
    + by exists cur4.
    + by apply Hnew.
Qed.

Section commit.
Context {fl : Fuel} (s : kst) (j : nat) (pd start : Z) (cur : Z -> list Z).
Let L := logst (fss s).
Let D := disk (fss s).
Hypothesis Hfl : (0 < wakeups)%nat.
Hypothesis HT : task j pd 0 ∅ s.
Hypothesis HL : logpos start L.
Hypothesis Htx : txn_ok start (logged L).
Hypothesis HC : cache pd ∅ (list_to_set (logged L)) cur (fss s).
Hypothesis Hh : hdr_n (blk D start) = 0.
Hypothesis Hlen : length (blk D start) = Z.to_nat BSIZE.

Lemma start_unpinned : start ∉ (list_to_set (logged L) : gset Z).
Proof.
  rewrite elem_of_list_to_set. intros Hin. destruct (tx_home _ _ Htx _ Hin) as [Hs _].
  by apply (not_home_start start).
Qed.

(** A disk that differs from the old one in log blocks only. *)
Lemma whole_old D' : (forall bn, quiet_blk start bn -> blk D' bn = blk D bn) -> whole start (blk D) cur D'.
Proof.
  intros HD. assert (Hs : blk D' start = blk D start) by (apply HD; by right).
  left. apply recovers_empty; [by rewrite Hs..|]. intros bn Hbn. apply HD. by left.
Qed.

(** The log and its header are on the disk. *)
Lemma commit_point cur1 D1 s1 (h := enc_head L (cur1 start)) :
  st j pd ∅ (list_to_set (logged L)) cur1 D1 L s1 -> in_log start L (length (logged L)) cur D cur1 D1 ->
  log_full start L h cur (<[(1, start) := h]> D1) /\ hdr_blocks h = logged L /\
  0 <= hdr_n h /\ length h = Z.to_nat BSIZE.
Proof.
  intros S1 [I1 I2 I3]. pose proof start_unpinned as Hs.
  assert (Hlen1 : length (cur1 start) = Z.to_nat BSIZE).
  { rewrite I1 by (by right). rewrite <-(ca_disk _ _ _ _ _ HC) by done. exact Hlen. }
  destruct (enc_head_dec L (cur1 start) Hlen1 (lp_ok _ _ HL) (lp_ints _ _ HL)) as [En Eb].
  split; [|split; [exact Eb|split; [unfold h; rewrite En; apply (lp_ok _ _ HL)|]]].
  - split.
    + by rewrite blk_insert, decide_True.
    + intros t b Ht. destruct (log_slot _ _ HL Htx _ _ Ht) as (_ & _ & Hq & _).
      rewrite blk_insert, decide_False by (intros E; apply Hq; by right).
      rewrite <-(I3 t b) by (done || by eapply lookup_lt_Some).
      rewrite <-(st_disk _ _ _ _ _ _ _ _ S1). apply (ca_disk _ _ _ _ _ (st_cache _ _ _ _ _ _ _ _ S1)).
      rewrite elem_of_list_to_set. intros Hin. apply Hq. left. by destruct (tx_home _ _ Htx _ Hin).
    + intros bn Hbn Hn. rewrite blk_insert, decide_False by (intros ->; by apply (not_home_start start)).
      rewrite I2 by (by left). apply (ca_disk _ _ _ _ _ HC). by rewrite elem_of_list_to_set.
  - apply length_head; [done|]. destruct (lp_ok _ _ HL) as [_ Hn]. change LOGSIZE with 30 in Hn. lia.
Qed.

Lemma rx_commit :
  rexec true (fun s' => whole start (blk D) cur (disk (fss s'))) (resumed j pd)
    (fun _ s' => settled j pd start (log_ctl L) cur s') (commit s).
Proof.
  pose proof start_unpinned as Hs. unfold commit. apply rexec_bind. cbn [fsget gets rexec]. fold L.
  assert (S0 : st j pd ∅ (list_to_set (logged L)) cur D L s) by done.
  assert (Hn : Z.of_nat (length (logged L)) = lh_n L).
  { rewrite (logged_len _ _ HL). destruct (lp_ok _ _ HL). lia. }
  destruct (Z.ltb_spec 0 (lh_n L)) as [Hpos|Hneg]; cbn [mwhen].
  2: { assert (El : logged L = []) by (apply nil_length_inv; lia). rewrite El in HC.
    split; try done; [by exists cur|]. intros bn Hbn. by apply (ca_disk _ _ _ _ _ HC). }
  apply rexec_bind. eapply (rx_write_log j pd Hfl (whole start (blk D) cur)); [exact HL|exact Htx|exact S0|apply whole_old|].
  intros cur1 D1 s1 S1 I1. destruct (commit_point _ _ _ S1 I1) as (HF & Eb & Hhn & Hlh).
  set (h := enc_head L (cur1 start)) in *.
  assert (HCnew : forall D', log_full start L h cur D' -> whole start (blk D) cur D').
  { intros D' F'. right. by eapply log_full_recovers. }
  apply rexec_bind. eapply (rx_write_head j pd Hfl (whole start (blk D) cur));
    [exact S1|exact HL|done|apply (logged_size start L Htx)|apply whole_old; by eapply il_disk|by apply HCnew|].
  fold h. intros s2 S2. apply rexec_bind.
  assert (Hin : installing start L cur 0 (written start h cur1)).
  { split.
    - intros t b Ht. destruct (log_slot _ _ HL Htx _ _ Ht) as (_ & _ & Hq & _). unfold written.
      rewrite decide_False by (intros E; apply Hq; by right). eapply il_copy; [exact I1|by eapply lookup_lt_Some|done].
    - intros bn Hbn _. unfold written. rewrite decide_False by (intros ->; by apply (not_home_start start)).
      eapply il_cur; [exact I1|by left]. }
  eapply (rx_install j pd Hfl (whole start (blk D) cur) start L HL Htx cur true h); [exact S2|exact Hin|exact HF|exact HCnew|].
  intros cur3 D3 s3 S3 Hc3 F3.
  eapply (rx_finish _ _ _ (whole start (blk D) cur) L h); [done|exact S3|exact HL|exact Hc3|exact F3|exact Hlh|by apply HCnew|].
  intros D' HD'. by right.
Qed.
End commit.

(** ** Recovery *)
Section recover.
Context {fl : Fuel} (j : nat) (pd start : Z) (D : gmap (Z * Z) (list Z)).
Hypothesis Hfl : (0 < wakeups)%nat.
Hypothesis Hok : header_ok start (blk D start).

(** Recovery, whenever it is interrupted, can be started again. *)
Let recoverable : gmap (Z * Z) (list Z) -> Prop := recovers start (recovered start D).

Lemma rx_recover s L :
  st j pd ∅ ∅ (blk D) D L s -> logpos start L ->
  rexec true (fun s' => recoverable (disk (fss s'))) (resumed j pd)
    (fun _ s' => settled j pd start (log_ctl L) (recovered start D) s') (recover_from_log s).
Proof.
  intros S0 HL. pose proof (header_ok_n _ _ Hok) as Hn. destruct Hok as [Hn0 Htx Hlen]. unfold recover_from_log.
  apply rexec_bind. eapply (rx_read_head j pd Hfl recoverable start); [exact S0|exact HL|by split|exact Hn|].
  set (h := blk D start) in *. set (L1 := head_read h L (Z.to_nat (hdr_n h))). intros s1 S1.
  pose proof (head_read_pos start h L HL Hn) as HL1. fold L1 in HL1.
  assert (El : logged L1 = hdr_blocks h) by (apply head_read_logged; [apply (lp_ok _ _ HL)|exact Hn]).
  assert (Htx1 : txn_ok start (logged L1)) by (by rewrite El).
  assert (Hrec : forall D', log_full start L1 h (recovered start D) D' -> recoverable D').
  { intros D' F'. by eapply (log_full_recovers start L1 h). }
  assert (Hcase : forall bn, ((bn ∉ logged L1) /\ recovered start D bn = blk D bn) \/
    (exists k, logged L1 !! k = Some bn /\ recovered start D bn = blk D (start + 1 + Z.of_nat k))).
  { intros bn. apply recovered_txn; [by eapply lp_low|by rewrite El|done]. }
  assert (Hlog : forall t b, logged L1 !! t = Some b -> blk D (start + 1 + Z.of_nat t) = recovered start D b).
  { intros t b Ht. destruct (Hcase b) as [[Hn' _]|(k & Hk & ->)].
    - exfalso. apply Hn'. by eapply list_elem_of_lookup_2.
    - by rewrite (NoDup_lookup _ _ _ _ (tx_nodup _ _ Htx1) Ht Hk). }
  assert (Hhome : forall bn, bn ∉ logged L1 -> blk D bn = recovered start D bn).
  { intros bn Hn'. destruct (Hcase bn) as [[_ ->]|(k & Hk & _)]; [done|]. exfalso. apply Hn'. by eapply list_elem_of_lookup_2. }
  apply rexec_bind.
  eapply (rx_install j pd Hfl recoverable start L1 HL1 Htx1 (recovered start D) false h); [exact S1| | |exact Hrec|].
  { split; [exact Hlog|]. intros bn _ Hn'. apply Hhome. by rewrite drop_0 in Hn'. }
  { split; [done|exact Hlog|]. intros bn _ Hn'. by apply Hhome. }
  intros cur3 D3 s3 S3 Hc3 F3. rewrite <-(head_read_rest h L (Z.to_nat (hdr_n h)) log_ctl) by done.
  eapply (rx_finish _ _ _ recoverable L1 h); [done|exact S3|exact HL1|exact Hc3|exact F3|exact Hlen|by apply Hrec|done].
Qed.
End recover.

(** ** [initlog] and [end_op] *)
Lemma task_initlock j pd n H s k nm : task j pd n H s -> k ∉ H ->
  exists s', initlock k nm s = Ret tt s' /\ task j pd n H s' /\ fss s' = fss s.
Proof.
  intros HT Hk. eexists. split; [reflexivity|]. split; [|done]. destruct HT as [[c [Hc Hlk Hown]] ? ? ? ?].
  split; try done. exists c. split; [by apply cpu_ok_set_lock|..]; intros k'; unfold lock_of; simpl.
  - destruct (decide (k' = k)) as [->|Hne]; [rewrite lookup_insert_eq; by rewrite bool_decide_false|].
    rewrite lookup_insert_ne by done. apply Hlk.
  - intros Hk'. rewrite lookup_insert_ne by set_solver. by apply Hown.
Qed.

Lemma rx_initlog {fl : Fuel} (j : nat) (pd start : Z) (s : kst) (D := disk (fss s)) :
  (0 < wakeups)%nat -> task j pd 0 ∅ s -> cache pd ∅ ∅ (blk D) (fss s) ->
  i32 (sb_logstart (decode_sb (blk D 1))) = start -> 0 <= start -> start + LOGSIZE <= FSSIZE ->
  header_ok start (blk D start) -> log_ok (logst (fss s)) -> Forall in_i32 (lh_block (logst (fss s))) ->
  rexec true (fun s' => recovers start (recovered start D) (disk (fss s'))) (resumed j pd)
    (fun _ s' => settled j pd start (i32 (sb_nlog (decode_sb (blk D 1))), l_outstanding (logst (fss s)), l_committing (logst (fss s)))
      (recovered start D) s') (initlog ROOTDEV s).
Proof.
  intros Hfl HT HC Hst Hlo Hhi Hok Hlog Hints. unfold initlog.
  change (BSIZE <=? 4 * (1 + LOGSIZE)) with false. cbn iota. apply rexec_bind.
  destruct (task_initlock _ _ _ _ _ log_lock "log" HT ltac:(set_solver)) as (s1 & -> & T1 & F1). cbn [rexec].
  assert (S1 : st j pd ∅ ∅ (blk D) D (logst (fss s)) s1) by (split; rewrite ?F1; done).
  apply rexec_bind. unfold readsb. apply rexec_bind.
  eapply (st_bread j pd Hfl (recovers start (recovered start D))); [exact S1|by split|done|by intros|right; rewrite map_size_empty, size_empty; unfold NBUF; lia|].
  intros i s2 _ S2. apply rexec_bind. cbn [buf_at fsget gets rexec].
  destruct (cache_held_lookup _ _ _ _ _ _ _ _ (st_cache _ _ _ _ _ _ _ _ S2) (lookup_insert_eq _ _ _)) as (b & Hb & _ & _ & Hda & _).
  rewrite (list_lookup_total_correct _ _ _ Hb), Hda. apply rexec_bind.
  eapply (st_brelse j pd (recovers start (recovered start D)) _ _ _ _ _ _ i 1); [exact S2|apply lookup_insert_eq|].
  intros s3 S3. rewrite delete_insert_id in S3 by done. cbn [mret M_ret rexec]. apply rexec_bind.
  match goal with |- context [upd_log ?g s3] => destruct (st_upd_log _ _ _ _ _ _ _ _ g S3) as (s4 & -> & S4) end.
  cbn [rexec]. eapply (rx_recover j pd start D Hfl Hok _ _ S4). split; try done. by destruct Hlog.
Qed.

Lemma settled_log j pd start ctl new s s' L : settled j pd start ctl new s -> task j pd 0 ∅ s' ->
  fss s' = (fss s) <| logst := L |> -> l_start L = l_start (logst (fss s)) -> l_dev L = l_dev (logst (fss s)) ->
  lh_n L = lh_n (logst (fss s)) -> lh_block L = lh_block (logst (fss s)) ->
  settled j pd start (log_ctl L) new s'.
Proof.
  intros [H1 [P1 P2 [P3 P4] P5 P6 P7] H3 (cur & HC) H5 H6 H7 H8] HT HF E1 E2 E3 E4. split; rewrite ?HF; try done.
  - split; simpl; rewrite ?E1, ?E2, ?E4; try done. split; by rewrite ?E4, ?E3.
  - unfold logged in *. simpl. by rewrite E3, E4.
  - exists cur. by destruct HC.
Qed.

Lemma rx_end_op {fl : Fuel} (j : nat) (pd start : Z) (cur : Z -> list Z) (s : kst) (D := disk (fss s)) (L := logst (fss s)) :
  (0 < wakeups)%nat -> task j pd 0 ∅ s -> logpos start L -> txn_ok start (logged L) ->
  cache pd ∅ (list_to_set (logged L)) cur (fss s) -> hdr_n (blk D start) = 0 -> length (blk D start) = Z.to_nat BSIZE ->
  l_outstanding L = 1 -> l_committing L = false ->
  rexec true (fun s' => whole start (blk D) cur (disk (fss s'))) (resumed j pd)
    (fun _ s' => settled j pd start (l_size L, 0, false) cur s') (end_op s).
Proof.
  intros Hfl HT HL Htx HC Hh Hlen Hout Hcom. unfold end_op.
  set (C := whole start (blk D) cur). set (Out := fun s' : kst => C (disk (fss s'))).
  apply rexec_bind, (rexec_call _ _ _ Out). eapply wp_task_acquire; [exact HT|set_solver|]. intros l1 T1.
  apply rexec_bind. cbn [upd_log fsmod modify rexec]. apply rexec_bind. cbn [fsget gets rexec].
  set (s2 := _ <| fss ::= _ |>). change (logst (fss s2)) with (L <| l_outstanding ::= Z.add (-1) |>).
  change (l_committing (L <| l_outstanding ::= Z.add (-1) |>)) with (l_committing L). rewrite Hcom.
  change (l_outstanding (L <| l_outstanding ::= Z.add (-1) |>)) with (-1 + l_outstanding L). rewrite Hout.
  change (-1 + 1 =? 0) with true. cbn iota. apply rexec_bind. cbn [upd_log fsmod modify rexec].
  apply rexec_bind, (rexec_call _ _ _ Out).
  eapply (wp_task_release _ _ j pd 0 ∅); [apply task_fsmod, task_fsmod; exact T1|set_solver|lia|].
  intros l3 T3. set (s3 := _ <| klk := l3 |>) in *. cbn [mwhen]. apply rexec_bind.
  eapply rexec_mono; [|apply (rx_commit s3 j pd start cur Hfl T3)].
  - intros [] s4 HS. apply rexec_bind, (rexec_call _ _ _ Out).
    eapply wp_task_acquire; [apply (se_task _ _ _ _ _ _ HS)|set_solver|]. intros l5 T5.
    apply rexec_bind. cbn [upd_log fsmod modify rexec]. apply rexec_bind, (rexec_call _ _ _ Out).
    eapply wp_task_wakeup; [apply task_fsmod; exact T5|set_solver|set_solver|]. intros s6 T6 F6.
    apply (rexec_call _ _ _ Out). eapply (wp_task_release _ _ j pd 0 ∅); [exact T6|set_solver|lia|].
    intros l7 T7.
    assert (Hctl : log_ctl (logst (fss s4)) = (l_size L, -1 + l_outstanding L, true)) by exact (se_ctl _ _ _ _ _ _ HS).
    rewrite Hout in Hctl. injection Hctl as Hsz4 Hout4 _.
    replace (l_size L, 0, false) with (log_ctl ((logst (fss s4)) <| l_committing := false |>))
      by (unfold log_ctl; simpl; by rewrite Hsz4, Hout4).
    eapply settled_log; [exact HS|exact T7|exact F6|done..].
  - destruct HL as [? ? [? ?] ? ? ?]. by split.
  - exact Htx.
  - by destruct HC.
  - exact Hh.
  - exact Hlen.
Qed.

(** ** Whole transactions *)

(** A change of one block, as the comment at [log_write] in log.c describes it. *)
Definition update {fl : Fuel} (w : Z * list Z) : K unit :=
  bp ← bread ROOTDEV w.1;
  upd_buf bp (fun b => b <| b_data ::= fun _ => w.2 |>);;
  log_write bp;;
  brelse bp.

(** A held buffer is marked dirty. *)
Lemma cache_dirty pd held pin cur f f' i bn d :
  cache pd held pin cur f -> held !! i = Some (bn, d) ->
  bufs f' = alter (fun b => b <| b_flags ::= fun fl => Z.lor fl B_DIRTY |>) i (bufs f) ->
  lru f' = lru f -> idequeue f' = idequeue f -> havedisk1 f' = havedisk1 f -> disk f' = disk f ->
  cache pd held ({[bn]} ∪ pin) (written bn d cur) f'.
Proof.
  intros HC Hh Hbs F1 F2 F3 Hd.
  destruct (cache_held_lookup _ _ _ _ _ _ _ _ HC Hh) as (b & Hb & _ & _ & _ & _ & _ & _ & Hfl').
  rewrite (list_alter_as_insert _ _ _ _ Hb) in Hbs.
  eapply (cache_mark _ held pin _ cur f f' i bn d b); [exact HC|exact Hh|exact Hb|exact Hbs| |by rewrite F1|exact F2|exact F3| | |].
  - rewrite decide_True by set_solver. destruct b. simpl in *. destruct Hfl' as [-> | ->]; reflexivity.
  - set_solver.
  - intros. by rewrite Hd.
  - set_solver.
Qed.

(** An operation is running: its blocks are pinned in the cache, with the contents
    [cur], and recorded in the log; the disk is as it was. *)
Record open_op (j : nat) (pd start : Z) (cur : Z -> list Z) (D : gmap (Z * Z) (list Z)) (s : kst) : Prop := {
  oo_st : st j pd ∅ (list_to_set (logged (logst (fss s)))) cur D (logst (fss s)) s;
  oo_pos : logpos start (logst (fss s));
  oo_txn : txn_ok start (logged (logst (fss s)));
  oo_size : l_size (logst (fss s)) = LOGSIZE;
  oo_out : l_outstanding (logst (fss s)) = 1;
  oo_com : l_committing (logst (fss s)) = false
}.

Lemma st_log_write j pd held pin cur D s bp bn d (Out In : kst -> Prop) (Q : unit -> kst -> Prop) (L := logst (fss s)) :
  st j pd held pin cur D L s -> held !! bp = Some (bn, d) -> in_i32 bn -> log_ok L ->
  lh_n L < LOGSIZE - 1 -> l_size L = LOGSIZE -> 1 <= l_outstanding L ->
  (forall L' s', st j pd held ({[bn]} ∪ pin) (written bn d cur) D L' s' -> log_ok L' ->
    (exists k m, L' = L <| lh_block ::= <[k := bn]> |> <| lh_n := m |>) ->
    logged L' = (if decide (bn ∈ logged L) then logged L else logged L ++ [bn]) -> Q tt s') ->
  wp Out In Q (log_write bp s).
Proof.
  intros [HT HC HD _] Hh Hbn Ho Hn Hsz Hout HQ. destruct (task_lctx _ _ _ _ _ HT) as [c HL].
  destruct (cache_held_lookup _ _ _ _ _ _ _ _ HC Hh) as (b & Hb & [_ Hc] & _).
  assert (Hroom : lh_n (logst (fss s)) < LOGSIZE) by (fold L; lia).
  destruct (log_added_spec s b Ho Hroom) as [Ho' Hl]. rewrite Hc in Hl. fold L in Hl.
  eapply wp_log_write; [exact HL|set_solver|exact Ho|exact Hb|by rewrite Hc|exact Hroom|fold L; lia|done|].
  intros lk HL' Hs. eapply (HQ (log_added s b)); [|exact Ho'| |exact Hl].
  - split; [|by eapply cache_dirty|done|done]. apply task_fsmod. eapply task_klk; [exact HT|by exists c|done].
  - unfold log_added. rewrite Hc. fold L. clearbody L. destruct (Z.of_nat _ =? _); [by eexists _, _|].
    eexists _, (lh_n L). by destruct L.
Qed.

Section op.
Context {fl : Fuel} (j : nat) (pd start : Z) (D : gmap (Z * Z) (list Z)) (C : gmap (Z * Z) (list Z) -> Prop).
Hypothesis Hfl : (0 < wakeups)%nat.
Hypothesis HCd : C D.
Let Out (s : kst) : Prop := C (disk (fss s)).

Lemma rx_update cur bn d s :
  open_op j pd start cur D s -> home start bn -> 0 <= bn < FSSIZE ->
  Z.of_nat (length (logged (logst (fss s)))) < MAXOPBLOCKS ->
  rexec true Out (resumed j pd) (fun _ s' => open_op j pd start (written bn d cur) D s' /\
    (length (logged (logst (fss s'))) <= S (length (logged (logst (fss s)))))%nat) (update (bn, d) s).
Proof.
  intros [S0 HL Htx Hsz Hout Hcom] Hhome Hbn Hlen. set (L := logst (fss s)) in *. unfold update.
  change MAXOPBLOCKS with 10 in Hlen. assert (Hn : lh_n L < LOGSIZE - 1).
  { change LOGSIZE with 30. pose proof (logged_len _ _ HL). lia. }
  assert (Hb32 : in_i32 bn) by (unfold in_i32; change FSSIZE with 1000 in Hbn; lia).
  apply rexec_bind. eapply (st_bread j pd Hfl C); [exact S0|exact HCd|simpl; lia|done| |].
  { right. rewrite map_size_empty. by apply (logged_size start). }
  intros i s1 Hi S1. cbn [fst snd] in *. apply rexec_bind.
  destruct (st_upd_buf _ _ _ _ _ _ _ _ i bn _ (fun _ => d) S1 (lookup_insert_eq _ _ _)) as (s2 & -> & S2).
  rewrite insert_insert_eq in S2. cbn [rexec]. apply rexec_bind, (rexec_call _ _ _ Out).
  eapply st_log_write; [by rewrite (st_log _ _ _ _ _ _ _ _ S2)|apply lookup_insert_eq|done|..];
    rewrite ?(st_log _ _ _ _ _ _ _ _ S2); [apply (lp_ok _ _ HL)|done|done|lia|].
  intros L' s3 S3 Ho' (k & m & EL) Hl'.
  eapply (st_brelse j pd C _ _ _ _ _ _ i bn); [exact S3|unfold written; by rewrite decide_True, lookup_insert_eq|].
  intros s4 S4. rewrite delete_insert_id in S4 by done. pose proof (st_log _ _ _ _ _ _ _ _ S4) as E4.
  assert (Hset : {[bn]} ∪ list_to_set (logged L) =@{gset Z} list_to_set (logged L')).
  { rewrite Hl'. case_decide; set_solver. }
  rewrite Hset in S4. split; [split; rewrite E4; try done|].
  - destruct HL as [? ? [? ?] ? ? ?]. rewrite EL in Ho' |- *. split; try done. simpl. by apply Forall_insert.
  - rewrite Hl'. case_decide as Hin; [done|]. destruct Htx as [T1 T2 T3]. split.
    + apply NoDup_app. split; [done|]. split; [set_solver|apply NoDup_singleton].
    + set_solver.
    + rewrite length_app. simpl. change LOGSIZE with 30. lia.
  - by rewrite EL.
  - by rewrite EL.
  - by rewrite EL.
  - rewrite E4, Hl'. case_decide; [lia|]. rewrite length_app. simpl. lia.
Qed.

(** A sequence of updates, on contents of blocks. *)
Definition updated (ws : list (Z * list Z)) (cur : Z -> list Z) : Z -> list Z :=
  foldl (fun cur w => written w.1 w.2 cur) cur ws.

Lemma rx_updates ws cur s :
  open_op j pd start cur D s -> Forall (fun w => home start w.1 /\ 0 <= w.1 < FSSIZE) ws ->
  Z.of_nat (length (logged (logst (fss s))) + length ws) <= MAXOPBLOCKS ->
  rexec true Out (resumed j pd) (fun _ s' => open_op j pd start (updated ws cur) D s') (for_all ws update s).
Proof.
  revert cur s. induction ws as [|[bn d] ws IH]; intros cur s HO Hws Hlen; [done|].
  apply Forall_cons in Hws as [[Hh Hbn] Hws]. cbn [length] in Hlen. cbn [for_all]. apply rexec_bind.
  eapply rexec_mono; [|apply rx_update; [exact HO|exact Hh|exact Hbn|lia]].
  intros [] s1 [HO1 Hl1]. eapply rexec_mono; [|apply IH; [exact HO1|exact Hws|lia]]. done.
Qed.

Lemma rx_begin_op cur s :
  task j pd 0 ∅ s -> logpos start (logst (fss s)) -> logged (logst (fss s)) = [] ->
  l_size (logst (fss s)) = LOGSIZE -> l_outstanding (logst (fss s)) = 0 -> l_committing (logst (fss s)) = false ->
  cache pd ∅ ∅ cur (fss s) -> disk (fss s) = D ->
  rexec true Out (resumed j pd) (fun _ s' => open_op j pd start cur D s' /\ logged (logst (fss s')) = []) (begin_op s).
Proof.
  intros HT HL Hno Hsz Hout Hcom HC HD. unfold begin_op. set (L := logst (fss s)) in *.
  apply rexec_bind, (rexec_call _ _ _ Out). eapply wp_task_acquire; [exact HT|set_solver|]. intros l1 T1.
  assert (Hn : lh_n L = 0).
  { pose proof (logged_len _ _ HL) as Hl. rewrite Hno in Hl. simpl in Hl. destruct (lp_ok _ _ HL). lia. }
  assert (E : forall k, begin_op_loop k (s <| klk := l1 |>) = (upd_log (fun l => l <| l_outstanding ::= Z.add 1 |>);; release log_lock) (s <| klk := l1 |>)).
  { intros [|k]; unfold begin_op_loop, mbind, M_bind, fsget, gets; cbn [obind]; change (logst (fss (s <| klk := l1 |>))) with L;
    by rewrite Hcom, Hout, Hn. }
  rewrite E. apply rexec_bind. cbn [upd_log fsmod modify rexec]. apply (rexec_call _ _ _ Out).
  eapply (wp_task_release _ _ j pd 0 ∅); [apply task_fsmod; exact T1|set_solver|lia|]. intros l2 T2.
  split; [|exact Hno]. set (s2 := _ <| klk := l2 |>) in *.
  assert (El : logst (fss s2) = L <| l_outstanding ::= Z.add 1 |>) by done.
  assert (Eg : logged (logst (fss s2)) = []) by exact Hno.
  split; rewrite ?Eg; rewrite ?El; try done.
  - split; try done. by destruct HC.
  - destruct HL as [? ? [? ?] ? ? ?]. by split.
  - split; [apply NoDup_nil_2|set_solver|done].
  - simpl. by rewrite Hout.
Qed.
End op.

Lemma updated_home start ws cur cur' :
  (forall bn, home start bn -> cur bn = cur' bn) -> forall bn, home start bn -> updated ws cur bn = updated ws cur' bn.
Proof.
  revert cur cur'. induction ws as [|[b d] ws IH]; intros cur cur' Hc; [done|]. simpl. apply IH.
  intros bn Hbn. unfold written. case_decide; [done|]. by apply Hc.
Qed.
Lemma whole_home start old old' new new' d :
  (forall bn, home start bn -> old bn = old' bn) -> (forall bn, home start bn -> new bn = new' bn) ->
  whole start old new d -> whole start old' new' d.
Proof. intros Ho Hn [HW|HW]; [left|right]; by eapply recovers_home. Qed.
Lemma settled_home j pd start ctl new new' s :
  (forall bn, home start bn -> new bn = new' bn) -> settled j pd start ctl new s -> settled j pd start ctl new' s.
Proof. intros Hn [? ? ? ? ? ? ? Hd]. split; try done. intros bn Hbn. rewrite <-Hn by done. by apply Hd. Qed.

(** A file-system operation. *)
Definition transaction {fl : Fuel} (ws : list (Z * list Z)) : K unit :=
  begin_op;; for_all ws update;; end_op.

(** What a file-system operation may write. *)
Record op_ok (start : Z) (ws : list (Z * list Z)) : Prop := {
  op_blocks : Forall (fun w => home start w.1 /\ 0 <= w.1 < FSSIZE) ws;
  op_len : Z.of_nat (length ws) <= MAXOPBLOCKS
}.

(** The log between operations. *)
Definition idle_log : Z * Z * bool := (LOGSIZE, 0, false).

Lemma rx_transaction {fl : Fuel} j pd start old ws s :
  (0 < wakeups)%nat -> settled j pd start idle_log old s -> op_ok start ws ->
  rexec true (fun s' => whole start old (updated ws old) (disk (fss s'))) (resumed j pd)
    (fun _ s' => settled j pd start idle_log (updated ws old) s') (transaction ws s).
Proof.
  intros Hfl [T0 HL Hno (cur & HC) Hctl Hh Hlen Hold] [Hws Hl]. set (D := disk (fss s)) in *.
  injection Hctl as Hsz Hout Hcom.
  assert (Hcur : forall bn, blk D bn = cur bn) by (intros; apply (ca_disk _ _ _ _ _ HC); set_solver).
  assert (Hhome : forall bn, home start bn -> cur bn = old bn) by (intros; rewrite <-Hcur; auto).
  assert (Hnew := updated_home start ws cur old Hhome).
  set (C := whole start old (updated ws old)).
  assert (HCd : C D). { left. by apply recovers_empty. }
  unfold transaction. apply rexec_bind. eapply rexec_mono; [|by eapply (rx_begin_op j pd start D C)].
  intros [] s1 [HO1 Hno1]. apply rexec_bind.
  eapply rexec_mono; [|eapply (rx_updates j pd start D C Hfl HCd); [exact HO1|exact Hws|by rewrite Hno1]].
  intros [] s2 [[T2 C2 E2 _] HL2 Htx2 Hsz2 Hout2 Hcom2].
  eapply rexec_mono_out, (rexec_mono _ _ _ (fun _ s' => settled j pd start idle_log (updated ws cur) s')).
  - intros s'. apply (whole_home start (blk D) _ (updated ws cur)); [by apply Hold|exact Hnew].
  - intros _ s3. by apply settled_home.
  - pose proof (rx_end_op j pd start (updated ws cur) s2 Hfl T2 HL2 Htx2 C2) as He.
    rewrite E2, Hsz2 in He. by apply He.
Qed.

(** C4: Crash safety of the log. File-system operations of up to [MAXOPBLOCKS]
    block updates each, run one after the other with the real log, buffer cache and
    IDE driver, all finish; and each time the process waits for the disk, which is
    when the disk has just changed, a crash would leave a disk from which recovery
    makes the contents after the first [k] operations, for some [k]: an operation
    is never there in part. *)
Theorem operations_crash_safe {fl : Fuel} (j : nat) (pd start : Z) (old : Z -> list Z)
    (ops : list (list (Z * list Z))) (s : kst)
    (Hfl : (0 < wakeups)%nat) (HS : settled j pd start idle_log old s) (Hops : Forall (op_ok start) ops) :
  rexec true
    (fun s' => exists k, (k <= length ops)%nat /\ recovers start (updated (concat (take k ops)) old) (disk (fss s')))
    (resumed j pd)
    (fun _ s' => settled j pd start idle_log (updated (concat ops) old) s')
    (for_all ops transaction s).
Proof.
  apply (rexec_for_all _ _ _ transaction (fun l s' => settled j pd start idle_log (updated (concat l) old) s')); [exact HS|].
  intros l1 ws l2 s1 -> HS1. apply Forall_app in Hops as [_ Hops]. apply Forall_cons in Hops as [Hws _].
  assert (Eu : updated (concat (l1 ++ [ws])) old = updated ws (updated (concat l1) old)).
  { unfold updated. by rewrite concat_app, foldl_app, concat_cons, app_nil_r. }
  rewrite Eu. eapply rexec_mono_out; [|by eapply rx_transaction]. intros s' [HW|HW].
  - exists (length l1). rewrite take_app_length. split; [rewrite length_app; lia|done].
  - exists (S (length l1)). rewrite (cons_middle ws), app_assoc, take_app_length' by (rewrite length_app; simpl; lia).
    split; [rewrite !length_app; simpl; lia|by rewrite Eu].
Qed.

(** ** Starting the machine *)

(** The state after [binit] and [ideinit], before [initlog]: nothing is cached, and
    the log in memory is zero. *)
Record booted (j : nat) (pd : Z) (d : gmap (Z * Z) (list Z)) (s : kst) : Prop := {
  bt_task : task j pd 0 ∅ s;
  bt_bufs : bufs (fss s) = replicate NBUF buf0;
  bt_lru : lru (fss s) ≡ₚ seq 0 NBUF;
  bt_queue : idequeue (fss s) = [];
  bt_have : havedisk1 (fss s) = true;
  bt_disk : disk (fss s) = d;
  bt_log : logst (fss s) = log0
}.

Lemma cold_cache pd f :
  bufs f = replicate NBUF buf0 -> lru f ≡ₚ seq 0 NBUF -> idequeue f = [] -> havedisk1 f = true ->
  cache pd ∅ ∅ (blk (disk f)) f.
Proof.
  intros Hb Hl Hq Hh.
  assert (Hbuf : forall i b, bufs f !! i = Some b -> b = buf0).
  { intros i b. rewrite Hb. intros [-> _]%lookup_replicate. done. }
  assert (Hno : forall bn, ~ caches bn buf0) by (by intros bn [? _]).
  split; try done.
  - by rewrite Hb, length_replicate.
  - intros i k bi bk bn Hi _ Hc. rewrite (Hbuf _ _ Hi) in Hc. by apply Hno in Hc.
  - intros i b Hi. rewrite (Hbuf _ _ Hi). split; [by intros bn ?%Hno|by left| |done].
    intros _. split; [done|]. split; [done|]. by intros bn ?%Hno.
Qed.

(** The superblock puts a log of [LOGSIZE] blocks at [start]. *)
Record log_at (start : Z) (d : gmap (Z * Z) (list Z)) : Prop := {
  la_start : sb_logstart (decode_sb (blk d 1)) = start;
  la_size : sb_nlog (decode_sb (blk d 1)) = LOGSIZE;
  la_low : 0 <= start;
  la_high : start + LOGSIZE <= FSSIZE
}.

(** C5: Recovery of the log. On a machine that has just been started, [initlog]
    finishes, with the contents that the disk recovers to, ready for operations;
    and if it is interrupted by a further crash at any point, the disk still
    recovers to the same contents. *)
Theorem recovery_crash_safe {fl : Fuel} (j : nat) (pd start : Z) (new : Z -> list Z)
    (d : gmap (Z * Z) (list Z)) (s : kst)
    (Hfl : (0 < wakeups)%nat) (HB : booted j pd d s) (Hla : log_at start d) (Hr : recovers start new d) :
  rexec true (fun s' => recovers start new (disk (fss s'))) (resumed j pd)
    (fun _ s' => settled j pd start idle_log new s') (initlog ROOTDEV s).
Proof.
  destruct HB as [T B1 B2 B3 B4 <- B6], Hla as [L1 L2 L3 L4], Hr as [Hok Hr].
  assert (Hi : forall x, 0 <= x <= FSSIZE -> i32 x = x).
  { intros x. change FSSIZE with 1000. intros. apply i32_small. unfold in_i32. lia. }
  assert (HLS : 0 <= LOGSIZE) by done.
  eapply rexec_mono_out, (rexec_mono _ _ _ (fun _ s' => settled j pd start idle_log (recovered start (disk (fss s))) s')).
  - intros s'. by apply recovers_home.
  - intros _ s'. by apply settled_home.
  - pose proof (rx_initlog j pd start s Hfl T) as HI. rewrite L1, L2, !Hi, B6 in HI by lia.
    apply HI; try done; [by apply cold_cache|]. by apply Forall_replicate.
Qed.

(** ** A machine with a disk *)
Definition disk_machine (d : gmap (Z * Z) (list Z)) (l : log_t) : kst :=
  (sample 1) <| fss := fsst0 <| lru := seq 0 NBUF |> <| havedisk1 := true |> <| disk := d |> <| logst := l |> |>.

Lemma disk_machine_task d l : task 5 6 0 ∅ (disk_machine d l).
Proof. split; [exists 1%nat; exact (sample_lctx 1 1 eq_refl)|done|done|unfold NPROC; lia|done]. Qed.

Lemma disk_machine_booted d : booted 5 6 d (disk_machine d log0).
Proof. split; try done. apply disk_machine_task. Qed.

(** An empty disk, its log at block 2, and the log in memory as [initlog] sets it. *)
Definition idle_machine : kst := disk_machine ∅ (log0 <| l_start := 2 |> <| l_size := LOGSIZE |> <| l_dev := ROOTDEV |>).

Lemma idle_machine_settled : settled 5 6 2 idle_log (blk ∅) idle_machine.
Proof.
  split; try done.
  - apply disk_machine_task.
  - split; try done. by apply Forall_replicate.
  - exists (blk ∅). by apply (cold_cache 6 (fss idle_machine)).
Qed.

Lemma operations_crash_safe_witness :
  rexec true
    (fun s' => exists k, (k <= 2)%nat /\
      recovers 2 (updated (concat (take k [[(500, [1]); (501, [2])]; [(500, [3])]])) (blk ∅)) (disk (fss s')))
    (resumed 5 6)
    (fun _ s' => settled 5 6 2 idle_log (updated [(500, [1]); (501, [2]); (500, [3])] (blk ∅)) s')
    (for_all [[(500, [1]); (501, [2])]; [(500, [3])]] (transaction (fl := 1%nat)) idle_machine).
Proof.
  apply (operations_crash_safe (fl := 1%nat) 5 6 2 (blk ∅) [[(500, [1]); (501, [2])]; [(500, [3])]] idle_machine).
  - apply Nat.lt_0_1.
  - exact idle_machine_settled.
  - assert (Hb : forall bn (d : list Z), 500 <= bn <= 501 -> home 2 (bn, d).1 /\ 0 <= (bn, d).1 < FSSIZE).
    { intros bn d Hbn. unfold home. change LOGSIZE with 30. change FSSIZE with 1000. simpl. lia. }
    repeat apply Forall_cons_2; [| |apply Forall_nil_2];
      (split; [repeat (apply Forall_cons_2; [apply Hb; lia|]); apply Forall_nil_2|vm_compute; discriminate]).
Defined.

(** A crash after the commit point: the header names block 500, whose new contents
    are in the first block of the log. *)
Definition crashed_disk : gmap (Z * Z) (list Z) :=
  <[(1, 1) := wr32 0 1000 (wr32 4 941 (wr32 12 30 (wr32 16 2 zero_block)))]>
  (<[(1, 2) := wr32 0 1 (wr32 4 500 zero_block)]>
  (<[(1, 3) := replicate 512 7]> ∅)).

Lemma recovery_crash_safe_witness :
  rexec true (fun s' => recovers 2 (recovered 2 crashed_disk) (disk (fss s'))) (resumed 5 6)
    (fun _ s' => settled 5 6 2 idle_log (recovered 2 crashed_disk) s')
    (initlog (fl := 1%nat) ROOTDEV (disk_machine crashed_disk log0)) /\
  recovered 2 crashed_disk 500 = replicate 512 7.
Proof.
  split; [|vm_compute; reflexivity].
  apply (recovery_crash_safe (fl := 1%nat) 5 6 2 (recovered 2 crashed_disk) crashed_disk).
  - apply Nat.lt_0_1.
  - exact (disk_machine_booted crashed_disk).
  - split; vm_compute; (reflexivity || discriminate).
  - split; [|done]. split; [vm_compute; discriminate| |vm_compute; reflexivity].
    replace (hdr_blocks (blk crashed_disk 2)) with [500] by (vm_compute; reflexivity).
    split; [apply NoDup_singleton| |vm_compute; reflexivity].
    intros b ->%list_elem_of_singleton. split; [right; vm_compute; discriminate|split; vm_compute; (reflexivity || discriminate)].
Defined.
