(* ===== verification/User.v ===== *)
(** User programs: what they see of the system, ulib.c and printf.c.

    A user program runs on a [world]: the replies it will get from the system, and
    the trace of the calls it has made. [read] of a file descriptor delivers the
    next reply for it, or as much of that as was asked for; the other calls return what the world says, or succeed.
    [fstat] has replies of its own. [exit] ends the program. *)
From stdpp Require Import base tactics list numbers strings gmap.
From Stdlib Require Import Ascii.
From S2P Require Import Prelude State Console.

#[local] Open Scope Z_scope.

(** ** The world *)
Inductive event :=
| Write (fd : Z) (data : list Z)
| Open (path : list Z) (mode : Z)
| Close (fd : Z)
| Fstat (fd : Z)
| Call (name : string) (args : list (list Z)).

(** [struct stat]. *)
Record ustat := UStat { ust_type : Z; ust_dev : Z; ust_ino : Z; ust_nlink : Z; ust_size : Z }.

Record world := World {
  w_reads : Z -> list (option (list Z));
  w_rets : list Z;
  w_stats : list (option ustat);
  w_trace : list event
}.
#[global] Instance eta_world : Eta world := fun w => World (w_reads w) (w_rets w) (w_stats w) (w_trace w).

(** ** Programs *)
Inductive uout (A : Type) : Type :=
| Val (a : A) (w : world)
| Exited (w : world)
| Segv (w : world)
| Fuelled (w : world).
Arguments Val {A} _ _.
Arguments Exited {A} _.
Arguments Segv {A} _.
Arguments Fuelled {A} _.

Definition U (A : Type) : Type := world -> uout A.

#[global] Instance U_ret : MRet U := fun A a w => Val a w.
#[global] Instance U_bind : MBind U := fun A B f m w =>
  match m w with
  | Val a w' => f a w'
  | Exited w' => Exited w'
  | Segv w' => Segv w'
  | Fuelled w' => Fuelled w'
  end.

Definition uwhen (b : bool) (m : U unit) : U unit := if b then m else mret tt.
Definition exit {A} : U A := fun w => Exited w.
(** An access outside of an array. *)
Definition lift {A} (o : option A) : U A := fun w => match o with Some a => Val a w | None => Segv w end.
Definition out_of_fuel {A} : U A := fun w => Fuelled w.

Fixpoint uforeach {A} (l : list A) (body : A -> U unit) : U unit :=
  match l with
  | [] => mret tt
  | a :: l' => body a;; uforeach l' body
  end.

(** ** System calls *)
Definition log_event (e : event) : U unit := fun w => Val tt (w <| w_trace ::= fun t => t ++ [e] |>).

(** The result of a call: what the world says, [dflt] if it says nothing. *)
Definition reply (dflt : Z) : U Z := fun w =>
  match w_rets w with
  | [] => Val dflt w
  | r :: rs => Val r (w <| w_rets := rs |>)
  end.

(** [read(fd, p, n)]: the bytes it stores, or [None] for the result -1. *)
Definition remaining (fd : Z) (rs : list (option (list Z))) (w : world) : world :=
  w <| w_reads := fun f => if f =? fd then rs else w_reads w f |>.
Definition read (fd : Z) (n : nat) : U (option (list Z)) := fun w =>
  match w_reads w fd with
  | [] => Val (Some []) w
  | None :: rs => Val None (remaining fd rs w)
  | Some l :: rs => Val (Some (take n l)) (remaining fd (if (length l <=? n)%nat then rs else Some (drop n l) :: rs) w)
  end.
Lemma remaining_reads fd rs w : w_reads (remaining fd rs w) fd = rs.
Proof. simpl. by rewrite Z.eqb_refl. Qed.

Definition write (fd : Z) (l : list Z) : U Z := log_event (Write fd l);; reply (Z.of_nat (length l)).
Definition open (path : list Z) (mode : Z) : U Z := log_event (Open path mode);; reply 3.
Definition close (fd : Z) : U unit := log_event (Close fd).
Definition call (name : string) (args : list (list Z)) : U Z := log_event (Call name args);; reply 0.
(** [fstat(fd, st)]: what it stores, or [None] for the result -1. *)
Definition fstat (fd : Z) : U (option ustat) := fun w =>
  let w := w <| w_trace ::= fun t => t ++ [Fstat fd] |> in
  match w_stats w with
  | [] => Val None w
  | st :: sts => Val st (w <| w_stats := sts |>)
  end.

(** ** ulib.c

    A string is the bytes from the pointer on; its routines read up to the NUL. *)
Fixpoint strcpy (s t : list Z) : option (list Z) :=
  match s, t with
  | _ :: s', c :: t' => if c =? 0 then Some (0 :: s') else cons c <$> strcpy s' t'
  | _, _ => None
  end.

Fixpoint strcmp (p q : list Z) : option Z :=
  match p, q with
  | a :: p', b :: q' => if negb (a =? 0) && (a =? b) then strcmp p' q' else Some (a - b)
  | _, _ => None
  end.

Fixpoint strlen (s : list Z) : option nat :=
  match s with
  | [] => None
  | c :: s' => if c =? 0 then Some O else S <$> strlen s'
  end.

(** The offset of the character, or [None] for the result 0. *)
Fixpoint strchr (s : list Z) (c : Z) : option (option nat) :=
  match s with
  | [] => None
  | a :: s' => if a =? 0 then Some None else if a =? c then Some (Some O) else option_map (option_map S) (strchr s' c)
  end.

(** The bytes before the NUL. *)
Fixpoint cstr (s : list Z) : option (list Z) :=
  match s with
  | [] => None
  | c :: s' => if c =? 0 then Some [] else cons c <$> cstr s'
  end.

(** The loop of [gets]; [k] is the room before the NUL. *)
Fixpoint gets_loop (k : nat) (buf : list Z) : U (list Z) :=
  match k with
  | O => mret buf
  | S k' =>
      r ← read 0 1;
      match r with
      | Some (c :: _) =>
          if (c =? 10) || (c =? 13) then mret (buf ++ [c]) else gets_loop k' (buf ++ [c])
      | _ => mret buf
      end
  end.
(** [gets(buf, max)]: the string that is stored, with its NUL. *)
Definition gets (max : Z) : U (list Z) := l ← gets_loop (Z.to_nat (max - 1)) []; mret (l ++ [0]).

Definition stat (path : list Z) : U (option ustat) :=
  fd ← open path 0;
  if fd <? 0 then mret None
  else
    r ← fstat fd;
    close fd;;
    mret r.

Fixpoint atoi_loop (s : list Z) (n : Z) : option Z :=
  match s with
  | [] => None
  | c :: s' => if (ch "0" <=? c) && (c <=? ch "9") then atoi_loop s' (i32 (n * 10 + c - ch "0")) else Some n
  end.
Definition atoi (s : list Z) : option Z := atoi_loop s 0.

(** [memmove] copies upwards, [n] bytes from [s] to [d] of one array. *)
Fixpoint memmove (buf : list Z) (d s n : nat) : option (list Z) :=
  match n with
  | O => Some buf
  | S n' =>
      c ← buf !! s;
      if (d <? length buf)%nat then memmove (<[d := c]> buf) (S d) (S s) n' else None
  end.

(** ** printf.c *)
Definition putc (fd c : Z) : U unit := _ ← write fd [c]; mret tt.

Definition udigits : list Z := codes "0123456789ABCDEF".
Fixpoint uprint_loop (fuel : nat) (x base : Z) (buf : list Z) : list Z :=
  match fuel with
  | O => buf
  | S f =>
      let buf := buf ++ [udigits !!! Z.to_nat (x mod base)] in
      if x / base =? 0 then buf else uprint_loop f (x / base) base buf
  end.
(** The characters of the number; [buf] has 16 elements. *)
Definition uprintint (xx base : Z) (sgn : bool) : list Z :=
  let neg := sgn && (xx <? 0) in
  let x := if neg then u32 (- xx) else u32 xx in
  reverse (uprint_loop 16 x base [] ++ if neg then [ch "-"] else []).

(** One character of the format; [state] is whether a [%] came before it. *)
Fixpoint uformat (fmt : list Z) (args : list arg) (state : bool) : option (list Z) :=
  match fmt with
  | [] => Some []
  | c :: rest =>
      if negb state then
        if c =? ch "%" then uformat rest args true else cons c <$> uformat rest args false
      else if c =? ch "d" then
        a ← head args; z ← arg_int a; app (uprintint z 10 true) <$> uformat rest (tail args) false
      else if (c =? ch "x") || (c =? ch "p") then
        a ← head args; z ← arg_int a; app (uprintint z 16 false) <$> uformat rest (tail args) false
      else if c =? ch "s" then
        a ← head args; s ← arg_str a; app s <$> uformat rest (tail args) false
      else if c =? ch "c" then
        a ← head args; z ← arg_int a; cons (z mod 256) <$> uformat rest (tail args) false
      else if c =? ch "%" then cons c <$> uformat rest args false
      else (fun out => ch "%" :: c :: out) <$> uformat rest args false
  end.
Definition printf (fd : Z) (fmt : string) (args : list arg) : U unit :=
  out ← lift (uformat (codes fmt) args false);
  uforeach out (putc fd).

Lemma write_spec fd l w : exists r w', write fd l w = Val r w' /\ w_reads w' = w_reads w /\
  w_trace w' = w_trace w ++ [Write fd l].
Proof.
  unfold write, log_event, reply, mbind, U_bind. simpl. destruct (w_rets w) as [|r rs].
  - by eexists _, _.
  - by eexists _, _.
Qed.

Lemma cstr_app l rest : Forall (fun d => d <> 0) l -> cstr (l ++ 0 :: rest) = Some l.
Proof. induction 1 as [|d l H0 Hl IH]; simpl; [done|]. by rewrite (proj2 (Z.eqb_neq _ _)), IH. Qed.
Lemma ustrlen_app l rest : Forall (fun d => d <> 0) l -> strlen (l ++ 0 :: rest) = Some (length l).
Proof. induction 1 as [|d l Hd Hl IH]; [done|]. simpl. rewrite (proj2 (Z.eqb_neq _ _) Hd). by rewrite IH. Qed.
Lemma strcpy_app s l rest : Forall (fun d => d <> 0) l -> (length l < length s)%nat ->
  strcpy s (l ++ 0 :: rest) = Some (l ++ 0 :: drop (S (length l)) s).
Proof.
  intros Hl. revert s. induction Hl as [|d l Hd Hl IH]; intros [|x s] Hs; simpl in *; try lia; [done|].
  rewrite (proj2 (Z.eqb_neq _ _) Hd), IH by lia. done.
Qed.
