(* ===== verification/Grep.v ===== *)
(** grep.c: the regular-expression matcher, and the search of a file.

    A C string is the list of the bytes before its NUL; the empty list is the
    pointer to the NUL. *)
From stdpp Require Import base tactics list numbers strings gmap.
From Stdlib Require Import Ascii.
From S2P Require Import Prelude State Console User.

#[local] Open Scope Z_scope.

(** ** The matcher *)

(** [matchstar(c, re, text)]; [mh] is [matchhere] of [re]. *)
Fixpoint matchstar (mh : list Z -> bool) (c : Z) (text : list Z) : bool :=
  mh text ||
  match text with
  | [] => false
  | t :: text' => ((t =? c) || (c =? ch ".")) && matchstar mh c text'
  end.

Fixpoint matchhere (re text : list Z) {struct re} : bool :=
  match re with
  | [] => true
  | c :: re1 =>
      match re1 with
      | d :: re2 =>
          if d =? ch "*" then matchstar (matchhere re2) c text
          else match text with
            | t :: text' => ((c =? ch ".") || (c =? t)) && matchhere re1 text'
            | [] => false
            end
      | [] =>
          if c =? ch "$" then bool_decide (text = [])
          else match text with
            | t :: text' => ((c =? ch ".") || (c =? t)) && matchhere re1 text'
            | [] => false
            end
      end
  end.

(** The [do]-loop of [match]. *)
Fixpoint match_loop (re text : list Z) : bool :=
  matchhere re text || match text with [] => false | _ :: text' => match_loop re text' end.
Definition match_ (re text : list Z) : bool :=
  match re with
  | c :: re' => if c =? ch "^" then matchhere re' text else match_loop re text
  | [] => match_loop re text
  end.

(** ** Searching *)
Definition BUFSZ : nat := 1024.

(** The inner loop: [p] and [q] are offsets in [buf]; a turn moves [p] on, so
    [fuel] is the size of [buf]. *)
Fixpoint grep_lines (fuel : nat) (pattern buf : list Z) (p : nat) : U (list Z * nat) :=
  match fuel with
  | O => out_of_fuel
  | S f =>
      r ← lift (strchr (drop p buf) 10);
      match r with
      | None => mret (buf, p)
      | Some k =>
          let q := (p + k)%nat in
          let buf := <[q := 0]> buf in
          text ← lift (cstr (drop p buf));
          if match_ pattern text then
            let buf := <[q := 10]> buf in
            write 1 (take (q + 1 - p) (drop p buf));;
            grep_lines f pattern buf (q + 1)
          else grep_lines f pattern buf (q + 1)
      end
  end.

(** The outer loop: [m] bytes of [buf] are in use; [fuel] bounds the reads. *)
Fixpoint grep_loop (fuel : nat) (pattern : list Z) (fd : Z) (buf : list Z) (m : nat) : U (list Z) :=
  match fuel with
  | O => out_of_fuel
  | S f =>
      r ← read fd (BUFSZ - m - 1);
      match r with
      | Some (c :: data') =>
          let data := c :: data' in
          let buf := take m buf ++ data ++ drop (m + length data) buf in
          let m := (m + length data)%nat in
          let buf := <[m := 0]> buf in
          '(buf, p) ← grep_lines BUFSZ pattern buf 0;
          let m := if (p =? 0)%nat then O else m in
          if (0 <? m)%nat then
            let m := (m - p)%nat in
            buf ← lift (memmove buf 0 p m);
            grep_loop f pattern fd buf m
          else grep_loop f pattern fd buf m
      | _ => mret buf
      end
  end.
(** The result is the global [buf] after the call. *)
Definition grep (fuel : nat) (pattern : list Z) (fd : Z) (buf : list Z) : U (list Z) := grep_loop fuel pattern fd buf 0.

Fixpoint grep_files (fuel : nat) (pattern buf : list Z) (files : list (list Z)) : U unit :=
  match files with
  | [] => mret tt
  | a :: files' =>
      fd ← open a 0;
      if fd <? 0 then printf 1 ("grep: cannot open %s" +:+ nl) [AStr a];; exit
      else
        buf ← grep fuel pattern fd buf;
        close fd;;
        grep_files fuel pattern buf files'
  end.

Definition grep_main (fuel : nat) (argv : list (list Z)) : U unit :=
  match argv with
  | [] | [_] => printf 2 ("usage: grep pattern [file ...]" +:+ nl) [];; exit
  | [_; pattern] => grep fuel pattern 0 (replicate BUFSZ 0);; exit
  | _ :: pattern :: files => grep_files fuel pattern (replicate BUFSZ 0) files;; exit
  end.
