(* ===== verification/GrepSpec.v ===== *)
(** grep.c: the matcher decides the language of its pattern, and the search prints
    the lines that match. *)
From stdpp Require Import base tactics list numbers strings gmap.
From Stdlib Require Import Ascii.
From S2P Require Import Prelude State Console User Grep.

#[local] Open Scope Z_scope.

(** ** Regular expressions *)
Inductive regex :=
| Eps
| Sym (f : Z -> bool)
| Cat (r1 r2 : regex)
| Star (r : regex).

Inductive lang : regex -> list Z -> Prop :=
| lang_eps : lang Eps []
| lang_sym f c : f c = true -> lang (Sym f) [c]
| lang_cat r1 r2 s1 s2 : lang r1 s1 -> lang r2 s2 -> lang (Cat r1 r2) (s1 ++ s2)
| lang_star_nil r : lang (Star r) []
| lang_star_cons r s1 s2 : lang r s1 -> lang (Star r) s2 -> lang (Star r) (s1 ++ s2).

(** A character of a pattern: [.] is any character. *)
Definition sym (c t : Z) : bool := (c =? ch ".") || (c =? t).

(** The expression a pattern stands for, and whether it ends with an anchor. *)
Fixpoint regex_of (re : list Z) : regex * bool :=
  match re with
  | [] => (Eps, false)
  | c :: re1 =>
      match re1 with
      | d :: re2 =>
          if d =? ch "*" then let '(r, e) := regex_of re2 in (Cat (Star (Sym (sym c))) r, e)
          else let '(r, e) := regex_of re1 in (Cat (Sym (sym c)) r, e)
      | [] => if c =? ch "$" then (Eps, true) else (Cat (Sym (sym c)) Eps, false)
      end
  end.

(** What the pattern [re] means at the beginning of [text]. *)
Definition matches_here (re text : list Z) : Prop :=
  exists mid post, text = mid ++ post /\ lang (regex_of re).1 mid /\ ((regex_of re).2 = true -> post = []).
(** What a pattern means, with its leading anchor. *)
Definition matches (re text : list Z) : Prop :=
  match re with
  | c :: re' => if c =? ch "^" then matches_here re' text
                else exists pre post, text = pre ++ post /\ matches_here re post
  | [] => exists pre post, text = pre ++ post /\ matches_here re post
  end.

Lemma lang_cat_sym f r s : lang (Cat (Sym f) r) s <-> exists c s', s = c :: s' /\ f c = true /\ lang r s'.
Proof.
  split.
  - inversion 1 as [| |? ? s1 s2 H1 H2| |]; subst. inversion H1; subst. by eexists _, _.
  - intros (c & s' & -> & Hc & Hs). apply (lang_cat _ _ [c]); [by constructor|done].
Qed.

Lemma lang_star_sym f r s : lang (Cat (Star (Sym f)) r) s <->
  exists run s', s = run ++ s' /\ Forall (fun c => f c = true) run /\ lang r s'.
Proof.
  split.
  - inversion 1 as [| |? ? s1 s2 H1 H2| |]; subst. clear H. exists s1, s2. split; [done|]. split; [|done].
    remember (Star (Sym f)) as q eqn:E. induction H1; simplify_eq; [constructor|].
    inversion H1_; subst. simpl. constructor; [done|]. by apply IHlang2.
  - intros (run & s' & -> & Hr & Hs). apply lang_cat; [|done].
    induction Hr as [|c run Hc Hr IH]; [constructor|]. apply (lang_star_cons _ [c]); [by constructor|done].
Qed.

Lemma matchstar_spec mh c text : matchstar mh c text = true <->
  exists run rest, text = run ++ rest /\ Forall (fun t => sym c t = true) run /\ mh rest = true.
Proof.
  induction text as [|t text IH]; simpl; rewrite orb_true_iff.
  - split; [intros [H|H]; [by exists [], []|done]|]. intros (run & rest & E & _ & H).
    symmetry in E. apply app_nil in E as [-> ->]. by left.
  - rewrite andb_true_iff, IH. split.
    + intros [H|[Ht (run & rest & -> & Hr & H)]]; [by exists [], (t :: text)|].
      exists (t :: run), rest. split; [done|]. split; [|done]. constructor; [|done].
      unfold sym. rewrite orb_comm, (Z.eqb_sym c t). exact Ht.
    + intros (run & rest & E & Hr & H). destruct run as [|t' run]; simplify_eq/=; [by left|right].
      apply Forall_cons in Hr as [Ht Hr]. split; [|by exists run, rest].
      unfold sym in Ht. by rewrite orb_comm, (Z.eqb_sym t' c).
Qed.

Lemma matches_here_sym re c r e text :
  regex_of re = (Cat (Sym (sym c)) r, e) ->
  matches_here re text <-> exists t text', text = t :: text' /\ sym c t = true /\
    exists mid post, text' = mid ++ post /\ lang r mid /\ (e = true -> post = []).
Proof.
  unfold matches_here. intros ->. simpl. split.
  - intros (mid & post & -> & (t & mid' & -> & Ht & Hm)%lang_cat_sym & He). exists t, (mid' ++ post).
    split; [done|]. split; [done|]. by exists mid', post.
  - intros (t & text' & -> & Ht & mid & post & -> & Hm & He). exists (t :: mid), post.
    split; [done|]. split; [|done]. apply lang_cat_sym. by exists t, mid.
Qed.

Lemma matchhere_sym c mh text : 
  (match text with t :: text' => ((c =? ch ".") || (c =? t)) && mh text' | [] => false end) = true <->
  exists t text', text = t :: text' /\ sym c t = true /\ mh text' = true.
Proof.
  destruct text as [|t text']; [split; [done|by intros (? & ? & ? & _)]|]. rewrite andb_true_iff. split.
  - intros [? ?]. by exists t, text'.
  - by intros (? & ? & [= <- <-] & ? & ?).
Qed.

Lemma matchhere_spec re : forall text, matchhere re text = true <-> matches_here re text.
Proof.
  induction re as [re IH] using (induction_ltof1 _ (@length Z)). unfold ltof in IH. intros text.
  destruct re as [|c re1]; [split; [intros _; exists [], text; split; [done|]; split; [constructor|done]|done]|].
  destruct re1 as [|d re2]; [|destruct (Z.eqb_spec d (ch "*")) as [->|Hd]].
  - simpl. destruct (Z.eqb_spec c (ch "$")) as [->|Hc].
    + rewrite bool_decide_eq_true. split.
      * intros ->. exists [], []. split; [done|]. split; [constructor|done].
      * intros (mid & post & -> & Hm & He). simpl in Hm. inversion Hm; subst. by rewrite He.
    + assert (E : regex_of [c] = (Cat (Sym (sym c)) Eps, false)) by (simpl; by rewrite (proj2 (Z.eqb_neq _ _) Hc)).
      rewrite (matches_here_sym _ _ _ _ _ E), (matchhere_sym c (fun _ => true)).
      split; intros (t & text' & -> & Ht & _); exists t, text'; (split; [done|]); (split; [done|]); [|done].
      exists [], text'. split; [done|]. split; [constructor|done].
  - cbn [matchhere]. rewrite Z.eqb_refl, matchstar_spec. unfold matches_here. cbn [regex_of]. rewrite Z.eqb_refl.
    destruct (regex_of re2) as [r e] eqn:E. cbn [fst snd].
    assert (Hm : forall rest, matchhere re2 rest = true <-> exists mid post, rest = mid ++ post /\ lang r mid /\ (e = true -> post = [])).
    { intros rest. rewrite (IH re2) by (simpl; lia). unfold matches_here. by rewrite E. }
    split.
    + intros (run & rest & -> & Hr & (mid & post & -> & Hl & He)%Hm). exists (run ++ mid), post.
      split; [by rewrite app_assoc|]. split; [|done]. apply lang_star_sym. by exists run, mid.
    + intros (mid & post & -> & (run & s' & -> & Hr & Hl)%lang_star_sym & He). exists run, (s' ++ post).
      split; [by rewrite app_assoc|]. split; [done|]. apply Hm. by exists s', post.
  - destruct (regex_of (d :: re2)) as [r e] eqn:E1.
    assert (E : regex_of (c :: d :: re2) = (Cat (Sym (sym c)) r, e)).
    { change (regex_of (c :: d :: re2)) with (if d =? ch "*" then let '(r, e) := regex_of re2 in (Cat (Star (Sym (sym c))) r, e)
        else let '(r, e) := regex_of (d :: re2) in (Cat (Sym (sym c)) r, e)).
      by rewrite (proj2 (Z.eqb_neq _ _) Hd), E1. }
    rewrite (matches_here_sym _ _ _ _ _ E). cbn [matchhere]. rewrite (proj2 (Z.eqb_neq _ _) Hd).
    fold (matchhere (d :: re2)). rewrite (matchhere_sym c (matchhere (d :: re2))).
    assert (Hm : forall rest, matchhere (d :: re2) rest = true <-> exists mid post, rest = mid ++ post /\ lang r mid /\ (e = true -> post = [])).
    { intros rest. rewrite (IH (d :: re2)) by (simpl; lia). unfold matches_here. by rewrite E1. }
    by setoid_rewrite Hm.
Qed.

Lemma match_loop_spec re text : match_loop re text = true <-> exists pre post, text = pre ++ post /\ matches_here re post.
Proof.
  induction text as [|t text IH]; simpl; rewrite orb_true_iff, matchhere_spec.
  - split; [intros [H|H]; [by exists [], []|done]|]. intros (pre & post & E & H).
    symmetry in E. apply app_nil in E as [-> ->]. by left.
  - rewrite IH. split.
    + intros [H|(pre & post & -> & H)]; [by exists [], (t :: text)|by exists (t :: pre), post].
    + intros ([|t' pre] & post & E & H); simplify_eq/=; [by left|right; by exists pre, post].
Qed.

(** C25: [match] of grep.c decides whether some part of the text is in the language
    of the regular expression that the pattern denotes, at the beginning of the text
    if the pattern starts with [^], and at its end if it ends with [$]. *)
Theorem match_decides (re text : list Z) : match_ re text = true <-> matches re text.
Proof.
  unfold match_, matches. destruct re as [|c re']; [apply match_loop_spec|].
  destruct (c =? ch "^"); [apply matchhere_spec|apply match_loop_spec].
Qed.

(** ** Searching a file *)

(** Lines and the text they make. *)
Definition unlines (ls : list (list Z)) : list Z := mjoin ((fun l => l ++ [10]) <$> ls).
(** A line of text that is not longer than half of the buffer. *)
Definition line_ok (l : list Z) : Prop := (length l < 512)%nat /\ Forall (fun c => c <> 0 /\ c <> 10) l.
(** What grep writes. *)
Definition selected (pat : list Z) (ls : list (list Z)) : list event :=
  (fun l => Write 1 (l ++ [10])) <$> filter (fun l => match_ pat l = true) ls.

Lemma unlines_cons l ls : unlines (l :: ls) = l ++ 10 :: unlines ls.
Proof. unfold unlines. simpl. by rewrite <-app_assoc. Qed.
Lemma unlines_app ls1 ls2 : unlines (ls1 ++ ls2) = unlines ls1 ++ unlines ls2.
Proof. unfold unlines. by rewrite fmap_app, join_app. Qed.

Lemma strchr_found l rest c : c <> 0 -> Forall (fun d => d <> 0 /\ d <> c) l ->
  strchr (l ++ c :: rest) c = Some (Some (length l)).
Proof.
  intros Hc. induction 1 as [|d l [H0 H1] Hl IH]; simpl.
  - by rewrite (proj2 (Z.eqb_neq _ _)), Z.eqb_refl.
  - by rewrite !(proj2 (Z.eqb_neq _ _)), IH.
Qed.
Lemma strchr_none l rest c : Forall (fun d => d <> 0 /\ d <> c) l -> strchr (l ++ 0 :: rest) c = Some None.
Proof. induction 1 as [|d l [H0 H1] Hl IH]; simpl; [done|]. by rewrite !(proj2 (Z.eqb_neq _ _)), IH. Qed.
Lemma memmove_up n : forall buf d s, (d <= s)%nat -> (s + n <= length buf)%nat ->
  memmove buf d s n = Some (take d buf ++ take n (drop s buf) ++ drop (d + n) buf).
Proof.
  induction n as [|n IH]; intros buf d s Hd Hs; simpl.
  - by rewrite Nat.add_0_r, take_drop.
  - destruct (lookup_lt_is_Some_2 buf s) as [c Hc]; [lia|]. rewrite Hc. simpl.
    rewrite (proj2 (Nat.ltb_lt _ _)) by lia. rewrite IH by (rewrite ?length_insert; lia). f_equal.
    rewrite (take_S_r _ _ c) by (apply list_lookup_insert_eq; lia).
    rewrite take_insert_ge, <-app_assoc by lia. f_equal. simpl.
    rewrite (drop_S buf c s) by done. simpl. f_equal.
    rewrite !drop_insert_lt by lia. f_equal. f_equal. lia.
Qed.

(** The inner loop: one line, and then all the lines of the buffer from [p] on. *)
Lemma grep_lines_step pat f pre l T w : Forall (fun c => c <> 0 /\ c <> 10) l ->
  grep_lines (S f) pat (pre ++ l ++ 10 :: T) (length pre) w =
  if match_ pat l then
    (write 1 (l ++ [10]);; grep_lines f pat (pre ++ l ++ 10 :: T) (length (pre ++ l ++ [10]))) w
  else grep_lines f pat (pre ++ l ++ 0 :: T) (length (pre ++ l ++ [0])) w.
Proof.
  intros Hl. cbn [grep_lines]. unfold mbind at 1, U_bind at 1, lift at 1.
  assert (Hins : forall a b, <[(length pre + length l)%nat := b]> (pre ++ l ++ a :: T) = pre ++ l ++ b :: T).
  { intros a b. rewrite !app_assoc, insert_app_r_alt by (rewrite length_app; lia).
    by rewrite length_app, Nat.sub_diag. }
  assert (Hlen : forall b : Z, length (pre ++ l ++ [b]) = (length pre + length l + 1)%nat).
  { intros b. rewrite !length_app. simpl. lia. }
  rewrite drop_app_length, strchr_found by done. rewrite !Hins.
  unfold mbind at 1, U_bind at 1, lift at 1. rewrite drop_app_length, cstr_app by (eapply Forall_impl; [exact Hl|by intros ? []]).
  rewrite !Hlen. destruct (match_ pat l); [|done]. rewrite drop_app_length.
  replace (length pre + length l + 1 - length pre)%nat with (length (l ++ [10])) by (rewrite length_app; simpl; lia).
  replace (l ++ 10 :: T) with ((l ++ [10]) ++ T) by (by rewrite <-app_assoc). by rewrite take_app_length.
Qed.

Lemma grep_lines_spec pat rest junk ls : forall fuel pre w,
  Forall line_ok ls -> Forall (fun c => c <> 0 /\ c <> 10) rest -> (length ls < fuel)%nat ->
  exists buf w', grep_lines fuel pat (pre ++ unlines ls ++ rest ++ 0 :: junk) (length pre) w
      = Val (buf, length pre + length (unlines ls))%nat w' /\
    length buf = length (pre ++ unlines ls ++ rest ++ 0 :: junk) /\
    drop (length pre + length (unlines ls)) buf = rest ++ 0 :: junk /\
    w_reads w' = w_reads w /\ w_trace w' = w_trace w ++ selected pat ls.
Proof.
  induction ls as [|l ls IH]; intros [|fuel] pre w Hls Hrest Hf; simpl in Hf; try lia.
  - exists (pre ++ rest ++ 0 :: junk), w. cbn [grep_lines unlines fmap list_fmap mjoin list_join app length].
    unfold mbind, U_bind, lift. rewrite drop_app_length, strchr_none by done. rewrite Nat.add_0_r.
    split; [done|]. split; [done|]. split; [by rewrite drop_app_length|]. by rewrite app_nil_r.
  - apply Forall_cons in Hls as [[Hlen Hl] Hls]. set (T := unlines ls ++ rest ++ 0 :: junk).
    replace (unlines (l :: ls) ++ rest ++ 0 :: junk) with (l ++ 10 :: T) by (by rewrite unlines_cons, <-app_assoc).
    rewrite grep_lines_step by done.
    assert (Hn : forall b : Z, (length (pre ++ l ++ [b]) + length (unlines ls) = length pre + length (unlines (l :: ls)))%nat).
    { intros b. rewrite unlines_cons, !length_app. simpl. lia. }
    assert (Hs : selected pat (l :: ls) = (if match_ pat l then [Write 1 (l ++ [10])] else []) ++ selected pat ls).
    { unfold selected. rewrite filter_cons. destruct (match_ pat l); [by rewrite decide_True|by rewrite decide_False]. }
    assert (Hb : forall b : Z, pre ++ l ++ b :: T = (pre ++ l ++ [b]) ++ T) by (intros; by rewrite <-!app_assoc).
    rewrite Hs, !Hb, <-(Hn (if match_ pat l then 10 else 0)).
    destruct (match_ pat l).
    + destruct (write_spec 1 (l ++ [10]) w) as (r & w1 & E1 & R1 & T1).
      unfold mbind, U_bind. rewrite E1.
      destruct (IH fuel (pre ++ l ++ [10]) w1 Hls Hrest ltac:(lia)) as (buf & w' & E & L & Hd & R & Tr).
      exists buf, w'. split; [exact E|]. split; [exact L|]. split; [exact Hd|].
      rewrite R, Tr, R1, T1. by rewrite <-app_assoc.
    + destruct (IH fuel (pre ++ l ++ [0]) w Hls Hrest ltac:(lia)) as (buf & w' & E & L & Hd & R & Tr).
      exists buf, w'. split; [exact E|]. split; [|by split]. fold T in L. rewrite L. rewrite !length_app. simpl. lia.
Qed.

Lemma unlines_length ls : (length ls <= length (unlines ls))%nat.
Proof. induction ls as [|l ls IH]; [done|]. rewrite unlines_cons, length_app. simpl. lia. Qed.

Lemma unlines_no_nl ls part : part = unlines ls -> Forall (fun c : Z => c <> 0 /\ c <> 10) part -> ls = [].
Proof.
  intros ->. destruct ls as [|l ls]; [done|]. rewrite unlines_cons.
  intros [_ [[_ ?] _]%Forall_cons]%Forall_app. done.
Qed.

(** A prefix of a text: whole lines, and the beginning of a line. *)
Lemma take_unlines n ls : Forall line_ok ls -> exists ls1 ls2 part,
  ls = ls1 ++ ls2 /\ take n (unlines ls) = unlines ls1 ++ part /\ part ++ drop n (unlines ls) = unlines ls2 /\
  (length part < 512)%nat /\ Forall (fun c => c <> 0 /\ c <> 10) part.
Proof.
  intros Hls. revert n. induction Hls as [|l ls [Hlen Hl] Hls IH]; intros n.
  { exists [], [], []. change (unlines []) with (@nil Z). rewrite take_nil, drop_nil. repeat split; [simpl; lia|constructor]. }
  destruct (decide (n <= length l)%nat) as [Hn|Hn].
  - exists [], (l :: ls), (take n l). rewrite unlines_cons, take_app_le, drop_app_le by done.
    split; [done|]. split; [done|]. split; [by rewrite app_assoc, take_drop|].
    split; [rewrite length_take; lia|by apply Forall_take].
  - destruct (IH (n - S (length l))%nat) as (ls1 & ls2 & part & -> & E1 & E2 & Hp).
    exists (l :: ls1), ls2, part. split; [done|].
    replace (unlines (l :: ls1 ++ ls2)) with ((l ++ [10]) ++ unlines (ls1 ++ ls2)) by (by rewrite unlines_cons, <-app_assoc).
    rewrite take_app_ge, drop_app_ge by (rewrite length_app; simpl; lia).
    replace (n - length (l ++ [10%Z]))%nat with (n - S (length l))%nat by (rewrite length_app; simpl; lia).
    rewrite E1, E2, unlines_cons, <-!app_assoc. by split.
Qed.

Section reading.
Context (pat : list Z) (fd : Z).

(** One turn of the outer loop. *)
Lemma grep_turn f buf carry rest ls rs w :
  length buf = BUFSZ -> take (length carry) buf = carry -> (length carry < 512)%nat ->
  carry ++ rest = unlines ls -> rest <> [] -> Forall line_ok ls -> w_reads w fd = Some rest :: rs ->
  exists ls1 ls2 buf' carry' rest' w',
    ls = ls1 ++ ls2 /\ grep_loop (S f) pat fd buf (length carry) w = grep_loop f pat fd buf' (length carry') w' /\
    length buf' = BUFSZ /\ take (length carry') buf' = carry' /\ (length carry' < 512)%nat /\
    carry' ++ rest' = unlines ls2 /\ (length rest' < length rest)%nat /\ (rest' = [] -> ls2 = []) /\
    w_reads w' fd = match rest' with [] => rs | _ => Some rest' :: rs end /\
    w_trace w' = w_trace w ++ selected pat ls1.
Proof.
  intros Hb Ht Hc Hr Hne Hls Hw. change BUFSZ with 1024%nat in *. set (m := length carry) in *.
  cbn [grep_loop]. unfold mbind at 1, U_bind at 1, read. rewrite Hw. change (BUFSZ - m - 1)%nat with (1024 - m - 1)%nat.
  set (cap := (1024 - m - 1)%nat). set (data := take cap rest).
  destruct data as [|c data'] eqn:Ed.
  { exfalso. apply Hne. destruct rest as [|c rest]; [done|]. subst data. by destruct cap eqn:E; [lia|]. }
  rewrite <-Ed. clear c data' Ed.
  destruct (take_unlines 1023 ls Hls) as (ls1 & ls2 & part & -> & E1 & E2 & Hpl & Hp).
  assert (Htext : carry ++ data = unlines ls1 ++ part).
  { rewrite <-E1, <-Hr, take_app_ge by (fold m; lia). f_equal. unfold data. f_equal. fold m. lia. }
  assert (Hdrop : drop 1023 (unlines (ls1 ++ ls2)) = drop cap rest).
  { rewrite <-Hr, drop_app_ge by (fold m; lia). f_equal. fold m. lia. }
  rewrite Hdrop in E2. assert (Hd0 : (0 < length data)%nat).
  { unfold data. rewrite length_take. destruct rest; [done|simpl; lia]. }
  assert (HM : (m + length data = length (unlines ls1) + length part)%nat) by (by rewrite <-!length_app, <-Htext, length_app).
  assert (HM' : (m + length data < 1024)%nat) by (unfold data; rewrite length_take; lia).
  assert (Hfin : drop cap rest = [] -> ls2 = [] /\ part = []).
  { intros E. rewrite E, app_nil_r in E2. assert (El : ls2 = []) by (by eapply unlines_no_nl).
    split; [done|]. by rewrite E2, El. }
  assert (Hp0 : (0 < length (unlines ls1))%nat).
  { destruct (decide (length rest <= cap)%nat) as [Hle|Hgt].
    - destruct Hfin as [_ ->]; [by apply drop_ge|]. simpl in HM. lia.
    - assert (length data = cap) by (unfold data; rewrite length_take; lia). lia. }
  assert (Hbuf : <[(m + length data)%nat := 0]> (take m buf ++ data ++ drop (m + length data) buf) =
    [] ++ unlines ls1 ++ part ++ 0 :: drop (S (m + length data)) buf).
  { rewrite Ht, !app_assoc, Htext. destruct (lookup_lt_is_Some_2 buf (m + length data)) as [x Hx]; [lia|].
    rewrite (drop_S _ _ _ Hx), HM, <-length_app. simpl. by rewrite insert_app_r_alt, Nat.sub_diag. }
  rewrite Hbuf. set (w1 := remaining _ _ _).
  apply Forall_app in Hls as [Hls1 _].
  destruct (grep_lines_spec pat part (drop (S (m + length data)) buf) ls1 BUFSZ [] w1 Hls1 Hp)
    as (buf1 & w2 & E3 & L3 & D3 & R3 & T3).
  { pose proof (unlines_length ls1). unfold BUFSZ. lia. }
  change (length []) with 0%nat in *. cbn [Nat.add] in *. unfold mbind at 1, U_bind at 1. rewrite E3.
  rewrite (proj2 (Nat.eqb_neq _ 0)), (proj2 (Nat.ltb_lt _ _)), HM by lia.
  rewrite Nat.add_comm, Nat.add_sub. assert (L1 : length buf1 = 1024%nat).
  { rewrite L3, <-Hbuf, length_insert, !length_app, length_take, length_drop. lia. }
  rewrite memmove_up by lia. unfold mbind, U_bind, lift. rewrite D3, take_app_length. cbn [take app Nat.add].
  set (buf2 := part ++ _). exists ls1, ls2, buf2, part, (drop cap rest), w2. split; [done|]. split; [done|].
  split; [unfold buf2; rewrite length_app, length_drop; lia|]. split; [apply take_app_length|]. split; [done|].
  split; [done|]. split; [rewrite length_drop; destruct rest; [done|simpl; lia]|].
  split; [intros E; by apply Hfin|]. rewrite R3, T3. split; [|done]. unfold w1. rewrite remaining_reads.
  destruct (Nat.leb_spec (length rest) cap) as [Hle|Hgt]; [by rewrite drop_ge|].
  destruct (drop cap rest) eqn:E; [|done]. apply (f_equal length) in E. rewrite length_drop in E. simpl in E. lia.
Qed.

(** The turns for one chunk. *)
Lemma grep_chunk k : forall f buf carry rest ls rs w,
  (length rest <= k)%nat -> (length rest <= f)%nat ->
  length buf = BUFSZ -> take (length carry) buf = carry -> (length carry < 512)%nat ->
  carry ++ rest = unlines ls -> rest <> [] -> Forall line_ok ls -> w_reads w fd = Some rest :: rs ->
  exists f' buf' w', (f <= f' + length rest)%nat /\ grep_loop f pat fd buf (length carry) w = grep_loop f' pat fd buf' 0 w' /\
    length buf' = BUFSZ /\ w_reads w' fd = rs /\ w_trace w' = w_trace w ++ selected pat ls.
Proof.
  induction k as [|k IH]; intros f buf carry rest ls rs w Hk Hf Hb Ht Hc Hr Hne Hls Hw.
  { destruct rest; [done|simpl in Hk; lia]. }
  destruct f as [|f]; [destruct rest; [done|simpl in Hf; lia]|].
  destruct (grep_turn f buf carry rest ls rs w Hb Ht Hc Hr Hne Hls Hw)
    as (ls1 & ls2 & buf1 & carry1 & rest1 & w1 & -> & E & B1 & T1 & C1 & U1 & Hlt & Hnil & R1 & Tr1).
  rewrite E. apply Forall_app in Hls as [_ Hls2].
  assert (Hsel : selected pat (ls1 ++ ls2) = selected pat ls1 ++ selected pat ls2).
  { unfold selected. by rewrite filter_app, fmap_app. }
  rewrite Hsel, app_assoc, <-Tr1. destruct rest1 as [|c rest1].
  - rewrite Hnil in * by done. assert (carry1 = []) as -> by (by apply app_nil in U1 as [-> _]).
    exists f, buf1, w1. split; [lia|]. split; [done|]. split; [done|]. split; [done|]. by rewrite app_nil_r.
  - destruct (IH f buf1 carry1 (c :: rest1) ls2 rs w1) as (f' & buf' & w' & Hf' & E' & HR); try done; [lia..|].
    exists f', buf', w'. split; [lia|]. by rewrite E'.
Qed.
End reading.

Lemma grep_loop_selects pat fd buf chunks w fuel :
  length buf = BUFSZ -> Forall (fun ls => ls <> [] /\ Forall line_ok ls) chunks ->
  w_reads w fd = (fun ls => Some (unlines ls)) <$> chunks -> (length (unlines (mjoin chunks)) < fuel)%nat ->
  exists buf' w', grep_loop fuel pat fd buf 0 w = Val buf' w' /\ w_trace w' = w_trace w ++ selected pat (mjoin chunks).
Proof.
  intros Hb Hc. revert buf w fuel Hb. induction Hc as [|ls chunks [Hne Hls] Hc IH]; intros buf w fuel Hb Hw Hf.
  - destruct fuel as [|fuel]; [simpl in Hf; lia|]. exists buf, w. cbn [grep_loop]. unfold mbind, U_bind, read. rewrite Hw.
    cbn [fmap list_fmap mjoin list_join]. split; [reflexivity|]. by rewrite app_nil_r.
  - change (mjoin (ls :: chunks)) with (ls ++ mjoin chunks) in *. rewrite unlines_app, length_app in Hf.
    destruct (grep_chunk pat fd (length (unlines ls)) fuel buf [] (unlines ls) ls ((fun ls => Some (unlines ls)) <$> chunks) w)
      as (f' & buf1 & w1 & Hf' & E & B1 & R1 & T1); try done; [lia|simpl; lia| |].
    { destruct ls; [done|]. rewrite unlines_cons. by destruct l. }
    destruct (IH buf1 w1 f' B1 R1) as (buf' & w' & E' & T'); [lia|].
    exists buf', w'. change (length []) with 0%nat in E. rewrite E, E'. split; [done|].
    rewrite T', T1, <-app_assoc. unfold selected. by rewrite filter_app, fmap_app.
Qed.



(** C39: grep drops what a [read] delivers without the end of a line, as a pipe may:
    of a line that arrives in two pieces, only the second is matched and written. *)
Theorem grep_drops_partial (pat : list Z) (fd : Z) (buf l1 l2 : list Z) (w : world) (fuel : nat)
    (Hb : length buf = BUFSZ) (H1 : line_ok l1) (Hne : l1 <> []) (H2 : line_ok l2)
    (Hw : w_reads w fd = [Some l1; Some (l2 ++ [10])]) (Hf : (512 + 3 <= fuel)%nat) :
  exists buf' w', grep fuel pat fd buf w = Val buf' w' /\ w_trace w' = w_trace w ++ selected pat [l2].
Proof.
  destruct fuel as [|fuel]; [lia|]. destruct H1 as [Hl1 Hc1]. unfold grep. cbn [grep_loop].
  unfold mbind at 1, U_bind at 1, read. rewrite Hw. change (BUFSZ - 0 - 1)%nat with 1023%nat.
  rewrite take_ge, (proj2 (Nat.leb_le _ _)) by lia. destruct l1 as [|c l1]; [done|].
  set (l := c :: l1) in *. clearbody l. cbn [Nat.add take app]. set (w1 := remaining _ _ _).
  assert (Hbuf : <[length l := 0]> (take 0 buf ++ l ++ drop (length l) buf) = [] ++ unlines [] ++ l ++ 0 :: drop (S (length l)) buf).
  { cbn [take app]. change (unlines [] ++ l ++ 0 :: drop (S (length l)) buf) with (l ++ 0 :: drop (S (length l)) buf).
    destruct (lookup_lt_is_Some_2 buf (length l)) as [x Hx]; [rewrite Hb; unfold BUFSZ; lia|].
    rewrite (drop_S _ _ _ Hx), take_0. cbn [app]. by rewrite insert_app_r_alt, Nat.sub_diag. }
  rewrite Hbuf.
  destruct (grep_lines_spec pat l (drop (S (length l)) buf) [] BUFSZ [] w1) as (buf1 & w2 & E & L & _ & R & T); [done|done|unfold BUFSZ; simpl; lia|].
  unfold mbind at 1, U_bind at 1. change (length []) with 0%nat in E. rewrite E.
  change ((length [] + length (unlines []))%nat) with 0%nat. cbn [Nat.eqb Nat.ltb Nat.leb].
  destruct (grep_loop_selects pat fd buf1 [[l2]] w2 fuel) as (buf' & w' & E' & T').
  - rewrite L, <-Hbuf, length_insert, !length_app, length_drop, Hb. unfold BUFSZ. simpl. lia.
  - apply Forall_singleton. split; [done|]. by apply Forall_singleton.
  - rewrite R. unfold w1. rewrite remaining_reads. unfold unlines. simpl. by rewrite app_nil_r.
  - destruct H2 as [H2 _]. unfold unlines. simpl. rewrite app_nil_r, length_app. simpl. lia.
  - exists buf', w'. split; [exact E'|]. rewrite T', T. by rewrite app_nil_r.
Qed.

Lemma grep_drops_partial_witness :
  match_ (codes "ab") (codes "abc") = true /\
  exists buf' w', grep 600 (codes "ab") 0 (replicate BUFSZ 0) (World (fun _ => [Some (codes "a"); Some (codes "bc" ++ [10])]) [] [] []) = Val buf' w' /\
    w_trace w' = [].
Proof.
  split; [reflexivity|].
  apply (grep_drops_partial (codes "ab") 0 (replicate BUFSZ 0) (codes "a") (codes "bc")).
  - apply length_replicate.
  - split; [simpl; lia|]. by repeat constructor.
  - discriminate.
  - split; [simpl; lia|]. by repeat constructor.
  - reflexivity.
  - lia.
Defined.
