(* ===== verification/Tools.v ===== *)
(** The small user programs: cat.c, wc.c, echo.c, kill.c, ln.c, mkdir.c and rm.c.
    [fuel] bounds the reads of a file. *)
From stdpp Require Import base tactics list numbers strings gmap.
From Stdlib Require Import Ascii.
From S2P Require Import Prelude State Console User.

#[local] Open Scope Z_scope.

(** ** cat.c *)
Fixpoint cat (fuel : nat) (fd : Z) : U unit :=
  match fuel with
  | O => out_of_fuel
  | S f =>
      r ← read fd 512;
      match r with
      | Some (c :: l) =>
          n ← write 1 (c :: l);
          if negb (n =? Z.of_nat (length (c :: l))) then printf 1 ("cat: write error" +:+ nl) [];; exit
          else cat f fd
      | Some [] => mret tt
      | None => printf 1 ("cat: read error" +:+ nl) [];; exit
      end
  end.

Definition cat_main (fuel : nat) (argv : list (list Z)) : U unit :=
  match argv with
  | [] | [_] => cat fuel 0;; exit
  | _ :: files =>
      uforeach files (fun a =>
        fd ← open a 0;
        if fd <? 0 then printf 1 ("cat: cannot open %s" +:+ nl) [AStr a];; exit
        else cat fuel fd;; close fd);;
      exit
  end.

(** ** wc.c *)
Record counts := Counts { wc_l : Z; wc_w : Z; wc_c : Z; wc_inword : bool }.

(** [" \r\t\n\v"]; [strchr] never finds a NUL. *)
Definition separators : list Z := [32; 13; 9; 10; 11].

Definition wc_char (k : counts) (ch : Z) : counts :=
  let c := i32 (wc_c k + 1) in
  let l := if ch =? 10 then i32 (wc_l k + 1) else wc_l k in
  if bool_decide (ch ∈ separators) then Counts l (wc_w k) c false
  else if negb (wc_inword k) then Counts l (i32 (wc_w k + 1)) c true
  else Counts l (wc_w k) c true.

Fixpoint wc_loop (fuel : nat) (fd : Z) (k : counts) : U counts :=
  match fuel with
  | O => out_of_fuel
  | S f =>
      r ← read fd 512;
      match r with
      | Some (c :: l) => wc_loop f fd (foldl wc_char k (c :: l))
      | Some [] => mret k
      | None => printf 1 ("wc: read error" +:+ nl) [];; exit
      end
  end.
Definition wc (fuel : nat) (fd : Z) (name : list Z) : U unit :=
  k ← wc_loop fuel fd (Counts 0 0 0 false);
  printf 1 ("%d %d %d %s" +:+ nl) [AInt (wc_l k); AInt (wc_w k); AInt (wc_c k); AStr name].

Definition wc_main (fuel : nat) (argv : list (list Z)) : U unit :=
  match argv with
  | [] | [_] => wc fuel 0 [];; exit
  | _ :: files =>
      uforeach files (fun a =>
        fd ← open a 0;
        if fd <? 0 then printf 1 ("wc: cannot open %s" +:+ nl) [AStr a];; exit
        else wc fuel fd a;; close fd);;
      exit
  end.

(** ** echo.c, kill.c, ln.c, mkdir.c, rm.c *)
Fixpoint echo_args (args : list (list Z)) : U unit :=
  match args with
  | [] => mret tt
  | a :: args' =>
      printf 1 "%s%s" [AStr a; AStr (match args' with [] => [10] | _ => codes " " end)];;
      echo_args args'
  end.
Definition echo_main (argv : list (list Z)) : U unit := echo_args (tail argv);; exit.

(** An argument is passed as its bytes, with the NUL. *)
Definition kill_main (argv : list (list Z)) : U unit :=
  if (length argv <? 2)%nat then printf 2 ("usage: kill pid..." +:+ nl) [];; exit
  else
    uforeach (tail argv) (fun a => pid ← lift (atoi (a ++ [0])); call "kill" [[pid]];; mret tt);;
    exit.

Definition ln_main (argv : list (list Z)) : U unit :=
  match argv with
  | [_; old; new] =>
      r ← call "link" [old; new];
      uwhen (r <? 0) (printf 2 ("link %s %s: failed" +:+ nl) [AStr old; AStr new]);;
      exit
  | _ => printf 2 ("Usage: ln old new" +:+ nl) [];; exit
  end.

(** The loop that mkdir and rm share: it stops at the first failure. *)
Fixpoint each_or_fail (name msg : string) (args : list (list Z)) : U unit :=
  match args with
  | [] => mret tt
  | a :: args' =>
      r ← call name [a];
      if r <? 0 then printf 2 msg [AStr a] else each_or_fail name msg args'
  end.
Definition mkdir_main (argv : list (list Z)) : U unit :=
  if (length argv <? 2)%nat then printf 2 ("Usage: mkdir files..." +:+ nl) [];; exit
  else each_or_fail "mkdir" ("mkdir: %s failed to create" +:+ nl) (tail argv);; exit.
Definition rm_main (argv : list (list Z)) : U unit :=
  if (length argv <? 2)%nat then printf 2 ("Usage: rm files..." +:+ nl) [];; exit
  else each_or_fail "unlink" ("rm: %s failed to delete" +:+ nl) (tail argv);; exit.

(** ** The output of a program *)
Definition chars (fd : Z) (l : list Z) : list event := (fun c => Write fd [c]) <$> l.

Lemma uforeach_putc fd l : forall w, exists w', uforeach l (putc fd) w = Val tt w' /\
  w_reads w' = w_reads w /\ w_trace w' = w_trace w ++ chars fd l.
Proof.
  induction l as [|c l IH]; intros w; [exists w; by rewrite app_nil_r|].
  destruct (write_spec fd [c] w) as (r & w1 & E & R & T). destruct (IH w1) as (w' & E' & R' & T').
  exists w'. cbn [uforeach]. unfold putc, mbind, U_bind in *. rewrite E. cbn. rewrite E'. split; [done|].
  rewrite R', R, T', T, <-app_assoc. done.
Qed.

Lemma printf_spec fd fmt args out w : uformat (codes fmt) args false = Some out ->
  exists w', printf fd fmt args w = Val tt w' /\ w_reads w' = w_reads w /\ w_trace w' = w_trace w ++ chars fd out.
Proof. intros E. unfold printf, mbind, U_bind, lift. rewrite E. apply uforeach_putc. Qed.

(** ** wc counts *)

(** The words of a text: the parts between separators that are not empty; [cur] is
    the part being read. *)
Fixpoint words (cur : list Z) (l : list Z) : list (list Z) :=
  match l with
  | [] => if bool_decide (cur = []) then [] else [cur]
  | c :: l' =>
      if bool_decide (c ∈ separators) then (if bool_decide (cur = []) then [] else [cur]) ++ words [] l'
      else words (cur ++ [c]) l'
  end.

Lemma words_cons cur c l :
  length (words cur (c :: l)) =
  (if bool_decide (c ∈ separators) then (if bool_decide (cur = []) then 0 else 1) + length (words [] l)
   else length (words (cur ++ [c]) l))%nat.
Proof. simpl. case_bool_decide; [|done]. rewrite length_app. by case_bool_decide. Qed.

Lemma wc_char_spec k c : 0 <= wc_l k <= wc_c k -> 0 <= wc_w k <= wc_c k -> wc_c k + 1 < 2^31 ->
  wc_l (wc_char k c) = b2z (10 =? c) + wc_l k /\ wc_c (wc_char k c) = wc_c k + 1 /\
  wc_w (wc_char k c) = wc_w k + b2z (negb (bool_decide (c ∈ separators)) && negb (wc_inword k)) /\
  wc_inword (wc_char k c) = negb (bool_decide (c ∈ separators)).
Proof.
  intros Hl Hw Hb. assert (Hi : forall x, 0 <= x <= wc_c k -> i32 (x + 1) = x + 1).
  { intros x Hx. apply i32_small. unfold in_i32. lia. }
  unfold wc_char. rewrite !Hi, (Z.eqb_sym 10 c) by lia.
  case_bool_decide; destruct (wc_inword k), (c =? 10); cbn [wc_l wc_w wc_c wc_inword negb andb b2z]; repeat split; lia.
Qed.

Lemma wc_fold l : forall k cur,
  0 <= wc_l k <= wc_c k -> 0 <= wc_w k <= wc_c k ->
  wc_c k + Z.of_nat (length l) < 2^31 -> wc_inword k = negb (bool_decide (cur = [])) ->
  let k' := foldl wc_char k l in
  wc_l k' = count_if (Z.eqb 10) l + wc_l k /\ wc_c k' = wc_c k + Z.of_nat (length l) /\
  wc_w k' + b2z (wc_inword k) = wc_w k + Z.of_nat (length (words cur l)).
Proof.
  induction l as [|c l IH]; intros k cur Hl Hw Hb Hin; cbn [foldl].
  - simpl. rewrite Hin. case_bool_decide; simpl; lia.
  - cbn [length] in Hb. destruct (wc_char_spec k c) as (C1 & C2 & C3 & C4); [lia..|].
    rewrite words_cons. cbn [count_if length]. set (k1 := wc_char k c) in *.
    specialize (IH k1 (if bool_decide (c ∈ separators) then [] else cur ++ [c])).
    destruct IH as (E1 & E2 & E3); [destruct (10 =? c); simpl in C1; lia| |lia| |].
    + destruct (negb (bool_decide (c ∈ separators)) && negb (wc_inword k)); simpl in C3; lia.
    + rewrite C4. case_bool_decide; [done|]. rewrite bool_decide_false; [done|]. by destruct cur.
    + rewrite E1, E2, C1, C2. split; [destruct (10 =? c); simpl; lia|]. split; [lia|]. rewrite C3, C4 in E3.
      rewrite Hin in E3 |- *. case_bool_decide as Hs; case_bool_decide as Hcur; simpl in E3 |- *; lia.
Qed.

Lemma wc_loop_spec fuel fd : forall chunks k w,
  Forall (fun l => l <> []) chunks -> w_reads w fd = Some <$> chunks -> (length (mjoin chunks) < fuel)%nat ->
  exists w', wc_loop fuel fd k w = Val (foldl wc_char k (mjoin chunks)) w' /\ w_trace w' = w_trace w.
Proof.
  induction fuel as [|fuel IH]; intros chunks k w Hne Hw Hf; [lia|].
  cbn [wc_loop]. unfold mbind, U_bind, read. rewrite Hw. destruct chunks as [|l chunks]; [by exists w|].
  apply Forall_cons in Hne as [Hl Hne]. cbn [fmap list_fmap]. change (mjoin (l :: chunks)) with (l ++ mjoin chunks) in *.
  rewrite length_app in Hf. destruct (take 512 l) as [|c t] eqn:Et; [by destruct l|]. rewrite <-Et.
  assert (Hpos : (0 < length l)%nat) by (destruct l; [done|simpl; lia]).
  destruct (Nat.leb_spec (length l) 512) as [Hle|Hgt].
  - rewrite (take_ge l) by lia. destruct (IH chunks (foldl wc_char k l) (remaining fd (Some <$> chunks) w)) as (w' & E & T); [done|apply remaining_reads|lia|].
    exists w'. rewrite foldl_app. by rewrite E.
  - destruct (IH (drop 512 l :: chunks) (foldl wc_char k (take 512 l)) (remaining fd (Some <$> drop 512 l :: chunks) w)) as (w' & E & T).
    + constructor; [|done]. intros E. apply (f_equal length) in E. rewrite length_drop in E. simpl in E. lia.
    + apply remaining_reads.
    + change (mjoin (drop 512 l :: chunks)) with (drop 512 l ++ mjoin chunks). rewrite length_app, length_drop. lia.
    + exists w'. split; [|done]. etrans; [exact E|]. f_equal.
      change (mjoin (drop 512 l :: chunks)) with (drop 512 l ++ mjoin chunks).
      by rewrite <-foldl_app, app_assoc, take_drop.
Qed.

(** wc prints the number of lines, words and bytes of its input, however the
    input is divided into pieces by the calls of [read]. *)
Theorem wc_counts (fd : Z) (name : list Z) (chunks : list (list Z)) (w : world) (fuel : nat)
    (Hne : Forall (fun l => l <> []) chunks) (Hw : w_reads w fd = Some <$> chunks)
    (Hsize : Z.of_nat (length (mjoin chunks)) < 2^31) (Hf : (length (mjoin chunks) < fuel)%nat) :
  exists w', wc fuel fd name w = Val tt w' /\ w_trace w' = w_trace w ++ chars 1
    (uprintint (count_if (Z.eqb 10) (mjoin chunks)) 10 true ++ [32] ++
     uprintint (Z.of_nat (length (words [] (mjoin chunks)))) 10 true ++ [32] ++
     uprintint (Z.of_nat (length (mjoin chunks))) 10 true ++ [32] ++ name ++ [10]).
Proof.
  destruct (wc_loop_spec fuel fd chunks (Counts 0 0 0 false) w Hne Hw Hf) as (w1 & E & T).
  destruct (wc_fold (mjoin chunks) (Counts 0 0 0 false) []) as (E1 & E2 & E3); try done.
  cbn [wc_l wc_w wc_c wc_inword b2z] in E1, E2, E3. rewrite Z.add_0_r in E1, E3. rewrite Z.add_0_l in E2, E3.
  unfold wc, mbind, U_bind. rewrite E, <-T.
  edestruct printf_spec as (w' & Ew & _ & Tw); [|exists w'; split; [exact Ew|rewrite Tw; reflexivity]].
  rewrite E1, E2, E3. cbn -[uprintint]. reflexivity.
Qed.

Lemma wc_counts_witness :
  exists w', wc 40 3 (codes "f") (World (fun _ => Some <$> [codes "to b"; codes "e or" ++ [10]; codes "not"]) [] [] []) = Val tt w' /\
    w_trace w' = chars 1 (codes "1 4 12 f" ++ [10]).
Proof.
  apply (wc_counts 3 (codes "f") [codes "to b"; codes "e or" ++ [10]; codes "not"]).
  - repeat constructor; discriminate.
  - reflexivity.
  - reflexivity.
  - vm_compute. lia.
Defined.
