(* ===== verification/Ls.v ===== *)
(** Two more user programs: ls.c, which lists directories, and init.c, the first
    process. [fuel] bounds the entries of a directory, the shells that init starts
    and the processes it waits for. *)
From stdpp Require Import base tactics list numbers strings gmap.
From Stdlib Require Import Ascii.
From S2P Require Import Prelude FsTypes State Console Log User Tools.

#[local] Open Scope Z_scope.

(** ** ls.c *)

(** The loop of [fmtname]: from [k] down to the last slash, and one further. *)
Fixpoint last_name (path : list Z) (k : nat) : nat :=
  if bool_decide (path !! k = Some (ch "/")) then S k
  else match k with O => O | S k' => last_name path k' end.

(** [fmtname]; [buf] is its static array before the call. *)
Definition fmtname (buf path : list Z) : option (list Z) :=
  n ← strlen path;
  let p := drop (last_name path n) path in
  l ← strlen p;
  if (DIRSIZ <=? l)%nat then cstr p
  else cstr (list_inserts l (replicate (DIRSIZ - l) 32) (list_inserts 0 (take l p) buf)).
Definition fmtbuf : list Z := replicate (DIRSIZ + 1) 0.

Definition ls_line (name : list Z) (st : ustat) : U unit :=
  printf 1 ("%s %d %d %d" +:+ nl) [AStr name; AInt (ust_type st); AInt (i32 (ust_ino st)); AInt (i32 (ust_size st))].

(** The loop over the entries; [p] is where names go in [buf]. *)
Fixpoint ls_loop (fuel : nat) (fd : Z) (buf : list Z) (p : nat) : U unit :=
  match fuel with
  | O => out_of_fuel
  | S f =>
      r ← read fd 16;
      match r with
      | Some de =>
          if negb (length de =? 16)%nat then mret tt
          else if (de !!! 0%nat) + 256 * (de !!! 1%nat) =? 0 then ls_loop f fd buf p
          else
            let buf := <[(p + DIRSIZ)%nat := 0]> (list_inserts p (take DIRSIZ (drop 2 de)) buf) in
            path ← lift (cstr buf);
            r ← stat path;
            match r with
            | None => printf 1 ("ls: cannot stat %s" +:+ nl) [AStr path];; ls_loop f fd buf p
            | Some st => name ← lift (fmtname fmtbuf buf); ls_line name st;; ls_loop f fd buf p
            end
      | None => mret tt
      end
  end.

Definition ls (fuel : nat) (path : list Z) : U unit :=
  fd ← open path 0;
  if fd <? 0 then printf 2 ("ls: cannot open %s" +:+ nl) [AStr path]
  else
    r ← fstat fd;
    match r with
    | None => printf 2 ("ls: cannot stat %s" +:+ nl) [AStr path];; close fd
    | Some st =>
        (if ust_type st =? T_FILE then name ← lift (fmtname fmtbuf (path ++ [0])); ls_line name st
         else if ust_type st =? T_DIR then
           if (512 <? length path + 1 + DIRSIZ + 1)%nat then printf 1 ("ls: path too long" +:+ nl) []
           else
             buf ← lift (strcpy (replicate 512 0) (path ++ [0]));
             p ← lift (strlen buf);
             ls_loop fuel fd (<[p := ch "/"]> buf) (p + 1)
         else mret tt);;
        close fd
    end.

Definition ls_main (fuel : nat) (argv : list (list Z)) : U unit :=
  if (length argv <? 2)%nat then ls fuel (codes ".");; exit
  else uforeach (tail argv) (ls fuel);; exit.

(** ** init.c *)

(** A program that [exec] has replaced runs no further. *)
Definition exec (path : list Z) (argv : list (list Z)) : U Z :=
  r ← call "exec" (path :: argv);
  if r <? 0 then mret r else exit.

(** The loop that waits for the shell; its result is that of the last [wait]. *)
Fixpoint init_wait (fuel : nat) (pid : Z) : U unit :=
  match fuel with
  | O => out_of_fuel
  | S f =>
      wpid ← call "wait" [];
      if (0 <=? wpid) && negb (wpid =? pid) then printf 1 ("zombie!" +:+ nl) [];; init_wait f pid
      else mret tt
  end.

Fixpoint init_loop (fuel : nat) : U unit :=
  match fuel with
  | O => out_of_fuel
  | S f =>
      printf 1 ("init: starting sh" +:+ nl) [];;
      pid ← call "fork" [];
      if pid <? 0 then printf 1 ("init: fork failed" +:+ nl) [];; exit
      else if pid =? 0 then
        exec (codes "sh") [codes "sh"];;
        printf 1 ("init: exec sh failed" +:+ nl) [];;
        exit
      else init_wait fuel pid;; init_loop f
  end.

Definition init_main (fuel : nat) : U unit :=
  fd ← open (codes "console") O_RDWR;
  (if fd <? 0 then call "mknod" [codes "console"; [1]; [1]];; open (codes "console") O_RDWR;; mret tt else mret tt);;
  call "dup" [[0]];;
  call "dup" [[0]];;
  init_loop fuel.

(** ** What ls prints *)

(** The bytes that a trace writes to a file descriptor. *)
Definition written (fd : Z) (t : list event) : list Z :=
  mjoin ((fun e => match e with Write f l => if f =? fd then l else [] | _ => [] end) <$> t).

Lemma written_app fd t t' : written fd (t ++ t') = written fd t ++ written fd t'.
Proof. unfold written. by rewrite fmap_app, join_app. Qed.

Lemma written_chars fd l : written fd (chars fd l) = l.
Proof. unfold written. induction l as [|c l IH]; [done|]. cbn. rewrite Z.eqb_refl. cbn. f_equal. exact IH. Qed.

(** The calls of a program all succeed when the world has no replies of its own. *)
Definition says (es : list event) (w : world) : world := w <| w_trace ::= fun t => t ++ es |>.

Lemma says_says es es' w : says es' (says es w) = says (es ++ es') w.
Proof. unfold says, upd. simpl. by rewrite <-app_assoc. Qed.

Lemma putc_says fd c w : w_rets w = [] -> putc fd c w = Val tt (says (chars fd [c]) w).
Proof. intros E. unfold putc, write, log_event, reply, mbind, U_bind. cbn. by rewrite E. Qed.

Lemma uforeach_says fd l : forall w, w_rets w = [] -> uforeach l (putc fd) w = Val tt (says (chars fd l) w).
Proof.
  induction l as [|c l IH]; intros w E.
  - unfold says, upd. destruct w; simpl. by rewrite app_nil_r.
  - cbn [uforeach]. unfold mbind, U_bind. rewrite putc_says by done. rewrite IH by done. by rewrite says_says.
Qed.

Lemma printf_says fd fmt args out w : uformat (codes fmt) args false = Some out -> w_rets w = [] ->
  printf fd fmt args w = Val tt (says (chars fd out) w).
Proof. intros E Hr. unfold printf, mbind, U_bind, lift. rewrite E. by apply uforeach_says. Qed.

(** A name in a column of [DIRSIZ] characters. *)
Definition column (name : list Z) : list Z := name ++ replicate (DIRSIZ - length name) 32.

Definition listing (name : list Z) (st : ustat) : list Z :=
  column name ++ [32] ++ uprintint (ust_type st) 10 true ++ [32] ++ uprintint (i32 (ust_ino st)) 10 true ++ [32] ++
  uprintint (i32 (ust_size st)) 10 true ++ [10].

Lemma ls_line_says name st w : w_rets w = [] ->
  ls_line (column name) st w = Val tt (says (chars 1 (listing name st)) w).
Proof. intros E. apply printf_says; [|done]. cbn -[uprintint column]. reflexivity. Qed.

Lemma last_name_spec path d : forall k, path !! d = Some (ch "/") -> (d <= k)%nat ->
  (forall j, (d < j <= k)%nat -> path !! j <> Some (ch "/")) -> last_name path k = S d.
Proof.
  induction k as [|k IH]; intros Hd Hk Hno.
  - replace d with O in * by lia. cbn [last_name]. by rewrite bool_decide_true.
  - cbn [last_name]. case_bool_decide as E.
    + destruct (decide (d = S k)) as [->|]; [done|]. by destruct (Hno (S k)); [lia|].
    + assert (d <> S k) by (intros ->; done). apply IH; [done|lia|]. intros j Hj. apply Hno. lia.
Qed.

Lemma inserts_at (l : list Z) : forall pre tail, (length l <= length tail)%nat ->
  list_inserts (length pre) l (pre ++ tail) = pre ++ l ++ drop (length l) tail.
Proof.
  induction l as [|x l IH]; intros pre [|t tail] Hl; simpl in *; try lia; [done..|].
  replace (pre ++ t :: tail) with ((pre ++ [t]) ++ tail) by by rewrite <-app_assoc.
  replace (S (length pre)) with (length (pre ++ [t])) by (rewrite length_app; simpl; lia).
  rewrite IH by lia. rewrite <-app_assoc, insert_app_r_alt, Nat.sub_diag by lia. done.
Qed.

(** A file name: no NUL and no slash, and it fits a directory entry. *)
Definition name_ok (name : list Z) : Prop :=
  Forall (fun c => c <> 0 /\ c <> ch "/") name /\ (length name <= DIRSIZ)%nat.

Lemma name_nonzero name : name_ok name -> Forall (fun c => c <> 0) name.
Proof. intros [H _]. eapply Forall_impl; [exact H|]. naive_solver. Qed.

Lemma fmtname_column dir name rest : Forall (fun c => c <> 0) dir -> name_ok name ->
  fmtname fmtbuf (dir ++ [ch "/"] ++ name ++ 0 :: rest) = Some (column name).
Proof.
  intros Hdir Hn. pose proof (name_nonzero name Hn) as Hz. destruct Hn as [Hs Hlen]. unfold fmtname.
  assert (Hpre : Forall (fun c => c <> 0) (dir ++ [ch "/"] ++ name)).
  { apply Forall_app; split; [done|]. by constructor. }
  replace (dir ++ [ch "/"] ++ name ++ 0 :: rest) with ((dir ++ [ch "/"] ++ name) ++ 0 :: rest) by by rewrite <-!app_assoc.
  rewrite (ustrlen_app _ rest Hpre). cbn [mbind option_bind].
  rewrite (last_name_spec _ (length dir)).
  - replace ((dir ++ [ch "/"] ++ name) ++ 0 :: rest) with ((dir ++ [ch "/"]) ++ name ++ 0 :: rest) by by rewrite <-!app_assoc.
    rewrite drop_app_length' by (rewrite length_app; simpl; lia).
    rewrite ustrlen_app by done. cbn [mbind option_bind]. unfold column.
    destruct (Nat.leb_spec DIRSIZ (length name)) as [Hge|Hlt].
    + rewrite cstr_app by done. replace (DIRSIZ - length name)%nat with O by lia. by rewrite app_nil_r.
    + rewrite take_app_length. change (list_inserts 0 name fmtbuf) with (list_inserts (length (@nil Z)) name ([] ++ fmtbuf)).
      rewrite inserts_at by (unfold fmtbuf; rewrite length_replicate; lia).
      cbn [app]. rewrite inserts_at by (rewrite length_drop; unfold fmtbuf; rewrite !length_replicate; lia).
      rewrite length_replicate, drop_drop. unfold fmtbuf. rewrite drop_replicate.
      replace (DIRSIZ + 1 - (length name + (DIRSIZ - length name)))%nat with 1%nat by lia.
      rewrite app_assoc. apply (cstr_app _ []). apply Forall_app; split; [done|]. by apply Forall_replicate.
  - rewrite lookup_app_l by (rewrite !length_app; simpl; lia). rewrite lookup_app_r, Nat.sub_diag by lia. done.
  - rewrite !length_app. lia.
  - intros j Hj E. rewrite !length_app in Hj. simpl in Hj.
    destruct (decide (j = length (dir ++ [ch "/"] ++ name))) as [->|Hne]; [by rewrite list_lookup_middle in E|].
    rewrite !length_app in Hne. simpl in Hne. rewrite lookup_app_l in E by (rewrite !length_app; simpl; lia). rewrite lookup_app_r in E by lia.
    destruct (j - length dir)%nat as [|i] eqn:Ej; [lia|]. simpl in E.
    apply (Forall_lookup_1 _ _ _ _ Hs) in E. naive_solver.
Qed.

(** The used entries of a directory, with their bytes. *)
Definition entry_ok (e : Z * list Z) : Prop := 0 <= e.1 < 2^16 /\ name_ok e.2.
Definition dirent_bytes (e : Z * list Z) : list Z := le16 e.1 ++ e.2 ++ replicate (DIRSIZ - length e.2) 0.
Definition used (es : list (Z * list Z)) : list (Z * list Z) := filter (fun e => e.1 <> 0) es.

Lemma dirent_length e : name_ok e.2 -> length (dirent_bytes e) = 16%nat.
Proof. intros [_ H]. unfold dirent_bytes. rewrite !length_app, length_replicate. simpl. unfold DIRSIZ in *. lia. Qed.

Lemma dirent_inum e : 0 <= e.1 < 2^16 -> dirent_bytes e !!! 0%nat + 256 * dirent_bytes e !!! 1%nat = e.1.
Proof.
  intros H. unfold dirent_bytes, le16. simpl. rewrite (Z.mod_small (e.1 / _)) by (split; [apply Z.div_pos; lia|apply Z.div_lt_upper_bound; lia]).
  pose proof (Z.div_mod e.1 (2^8)). lia.
Qed.

Lemma take_padded (name : list Z) : (length name <= DIRSIZ)%nat ->
  take DIRSIZ (name ++ replicate (DIRSIZ - length name) 0) = name ++ replicate (DIRSIZ - length name) 0.
Proof. intros H. apply take_ge. rewrite length_app, length_replicate. lia. Qed.

(** The path in the buffer after the name of an entry is put behind the directory. *)
Lemma buf_named pre tail e : name_ok e.2 -> (DIRSIZ < length tail)%nat -> exists rest,
  <[(length pre + DIRSIZ)%nat := 0]> (list_inserts (length pre) (take DIRSIZ (drop 2 (dirent_bytes e))) (pre ++ tail)) =
    pre ++ e.2 ++ 0 :: rest /\ (length (e.2 ++ 0%Z :: rest) = length tail)%nat.
Proof.
  intros [_ Hl] Ht. change (drop 2 (dirent_bytes e)) with (e.2 ++ replicate (DIRSIZ - length e.2) 0).
  rewrite take_padded by done. rewrite inserts_at by (rewrite length_app, length_replicate; lia).
  rewrite insert_app_r_alt by lia. replace (length pre + DIRSIZ - length pre)%nat with DIRSIZ by lia.
  rewrite insert_app_r_alt by (rewrite length_app, length_replicate; lia).
  rewrite length_app, length_replicate. replace (DIRSIZ - (length e.2 + (DIRSIZ - length e.2)))%nat with O by lia.
  replace (length e.2 + (DIRSIZ - length e.2))%nat with DIRSIZ by lia.
  destruct (drop DIRSIZ tail) as [|t rest] eqn:Et; [apply (f_equal length) in Et; rewrite length_drop in Et; simpl in Et; lia|].
  apply (f_equal length) in Et. rewrite length_drop in Et. simpl in Et. cbn [insert list_insert].
  destruct (DIRSIZ - length e.2)%nat as [|k] eqn:Ek.
  - exists rest. rewrite app_nil_r. split; [done|]. rewrite length_app. simpl. lia.
  - exists (replicate k 0 ++ 0 :: rest). rewrite <-app_assoc. split; [done|].
    rewrite !length_app. simpl. rewrite length_app, length_replicate. simpl. lia.
Qed.

Lemma open_says path mode w : w_rets w = [] -> open path mode w = Val 3 (says [Open path mode] w).
Proof. intros Hr. unfold open, log_event, reply, mbind, U_bind, says, upd. simpl. by rewrite Hr. Qed.

Lemma fstat_says fd st sts w : w_stats w = st :: sts -> fstat fd w = Val st (says [Fstat fd] w <| w_stats := sts |>).
Proof. intros Hs. unfold fstat, says, upd. simpl. by rewrite Hs. Qed.

Lemma stat_says path st sts w : w_rets w = [] -> w_stats w = st :: sts -> exists w',
  stat path w = Val st w' /\ w_rets w' = [] /\ w_stats w' = sts /\ w_reads w' = w_reads w /\
  written 1 (w_trace w') = written 1 (w_trace w).
Proof.
  intros Hr Hs. unfold stat, mbind, U_bind. rewrite open_says by done. cbn [Z.ltb Z.compare].
  rewrite (fstat_says 3 st sts) by done. unfold close, log_event. eexists. split; [done|]. repeat split; [done|].
  unfold upd. simpl. by rewrite !written_app, !app_nil_r.
Qed.

Lemma read_entry fd e rest w : w_reads w fd = Some (dirent_bytes e) :: rest -> name_ok e.2 ->
  read fd 16 w = Val (Some (dirent_bytes e)) (remaining fd rest w).
Proof. intros Hw Hn. unfold read. rewrite Hw, take_ge by (rewrite dirent_length; done). by rewrite dirent_length. Qed.

Lemma ls_loop_lists fd dir : Forall (fun c => c <> 0) dir -> forall fuel es sts tail w,
  w_rets w = [] -> w_stats w = Some <$> sts -> length sts = length (used es) ->
  w_reads w fd = Some <$> (dirent_bytes <$> es) -> Forall entry_ok es -> (length es < fuel)%nat -> (DIRSIZ < length tail)%nat ->
  exists w', ls_loop fuel fd ((dir ++ [ch "/"]) ++ tail) (length (dir ++ [ch "/"])) w = Val tt w' /\
    written 1 (w_trace w') = written 1 (w_trace w) ++ mjoin (zip_with (fun e st => listing e.2 st) (used es) sts).
Proof.
  intros Hdir. induction fuel as [|fuel IH]; intros es sts tail w Hr Hs Hlen Hw Hok Hf Ht; [lia|].
  cbn [ls_loop]. unfold mbind at 1, U_bind at 1.
  destruct es as [|e es].
  { unfold read. rewrite Hw. cbn. exists w. by rewrite app_nil_r. }
  apply Forall_cons in Hok as [[He Hn] Hok]. simpl in Hf.
  rewrite (read_entry fd e (Some <$> (dirent_bytes <$> es))) by done. rewrite dirent_length by done. cbn [Nat.eqb negb].
  rewrite dirent_inum by done. unfold used in *. rewrite filter_cons in Hlen |- *.
  destruct (Z.eqb_spec e.1 0) as [E0|E0].
  - rewrite decide_False in Hlen |- * by tauto. destruct (IH es sts tail (remaining fd (Some <$> (dirent_bytes <$> es)) w)) as (w' & E & T); try done; [apply remaining_reads|lia|].
    exists w'. split; [exact E|]. by rewrite T.
  - rewrite decide_True in Hlen |- * by done. destruct sts as [|st sts]; [done|]. injection Hlen as Hlen.
    destruct (buf_named (dir ++ [ch "/"]) tail e Hn Ht) as (rest & -> & Htail).
    assert (Hpre : Forall (fun c => c <> 0) ((dir ++ [ch "/"]) ++ e.2)).
    { apply Forall_app; split; [apply Forall_app; split; [done|by constructor]|by apply name_nonzero]. }
    unfold mbind, U_bind. unfold lift at 1. rewrite app_assoc, cstr_app by done.
    destruct (stat_says ((dir ++ [ch "/"]) ++ e.2) (Some st) (Some <$> sts) (remaining fd (Some <$> (dirent_bytes <$> es)) w))
      as (w1 & E1 & Hr1 & Hs1 & Hw1 & T1); [done|done|].
    rewrite E1. unfold lift. rewrite <-!app_assoc, fmtname_column, ls_line_says by done.
    destruct (IH es sts (e.2 ++ 0 :: rest) (says (chars 1 (listing e.2 st)) w1)) as (w' & E & T); try done; [|lia|lia|].
    { change (w_reads w1 fd = Some <$> (dirent_bytes <$> es)). rewrite Hw1. apply remaining_reads. }
    exists w'. rewrite <-app_assoc in E. split; [exact E|]. rewrite T. unfold says at 1. cbn [zip_with].
    change (w_trace (upd w_trace _ w1)) with (w_trace w1 ++ chars 1 (listing e.2 st)).
    rewrite written_app, written_chars, T1, <-app_assoc. done.
Qed.

(** [ls] of a directory prints one line per used entry, in the order of the
    directory: the name in its column, the type, the inode and the size; unused
    entries are left out. *)
Theorem ls_lists (fuel : nat) (path : list Z) (dst : ustat) (es : list (Z * list Z)) (sts : list ustat) (w : world)
    (Hpath : Forall (fun c => c <> 0) path) (Hroom : (length path + 1 + DIRSIZ + 1 <= 512)%nat)
    (Hdir : ust_type dst = T_DIR) (Hr : w_rets w = []) (Hs : w_stats w = Some <$> (dst :: sts))
    (Hlen : length sts = length (used es)) (Hw : w_reads w 3 = Some <$> (dirent_bytes <$> es))
    (Hok : Forall entry_ok es) (Hf : (length es < fuel)%nat) :
  exists w', ls fuel path w = Val tt w' /\
    written 1 (w_trace w') = written 1 (w_trace w) ++ mjoin (zip_with (fun e st => listing e.2 st) (used es) sts).
Proof.
  unfold ls, mbind, U_bind. rewrite open_says by done. cbn [Z.ltb Z.compare].
  rewrite (fstat_says 3 (Some dst) (Some <$> sts)), Hdir by done. cbn [Z.eqb Pos.eqb T_DIR T_FILE].
  rewrite (proj2 (Nat.ltb_ge _ _)) by lia. unfold lift at 1.
  rewrite strcpy_app by (rewrite ?length_replicate; done || lia). unfold lift. rewrite ustrlen_app by done.
  rewrite insert_app_r_alt, Nat.sub_diag by lia. cbn [insert list_insert].
  replace (length path + 1)%nat with (length (path ++ [ch "/"])) by (rewrite length_app; simpl; lia).
  match goal with |- context [ls_loop _ _ (path ++ ch "/" :: ?t) _ ?w0] =>
    destruct (ls_loop_lists 3 path Hpath fuel es sts t w0) as (w' & E & T) end; try done.
  { rewrite length_drop, length_replicate. unfold DIRSIZ in *. lia. }
  rewrite <-app_assoc in E. cbn [app] in E. rewrite E. unfold close, log_event. eexists. split; [done|]. unfold upd. simpl.
  rewrite written_app, app_nil_r, T. unfold upd. simpl. by rewrite !written_app, !app_nil_r.
Qed.

Lemma ls_lists_witness :
  exists w', ls 9 (codes ".") (World (fun _ => Some <$> (dirent_bytes <$> [(1, codes "."); (0, codes "gone"); (7, codes "README")])) []
      (Some <$> [UStat 1 1 1 1 48; UStat 1 1 1 1 48; UStat 2 1 7 1 2286]) []) = Val tt w' /\
    written 1 (w_trace w') = codes ".              1 1 48" ++ [10] ++ codes "README         2 7 2286" ++ [10].
Proof.
  apply (ls_lists 9 (codes ".") (UStat 1 1 1 1 48) [(1, codes "."); (0, codes "gone"); (7, codes "README")]
    [UStat 1 1 1 1 48; UStat 2 1 7 1 2286]); try reflexivity.
  - by repeat constructor.
  - apply Nat.leb_le. by vm_compute.
  - repeat constructor; simpl; try lia; try discriminate; vm_compute; lia.
  - simpl. lia.
Defined.

(** ** What init does *)
Lemma uforeach_rets fd l : forall rs rest w, w_rets w = rs ++ rest -> length rs = length l ->
  exists w', uforeach l (putc fd) w = Val tt w' /\ w_rets w' = rest /\ written fd (w_trace w') = written fd (w_trace w) ++ l.
Proof.
  induction l as [|c l IH]; intros [|r rs] rest w Hw Hl; try done.
  - exists w. by rewrite app_nil_r.
  - injection Hl as Hl. cbn [uforeach]. unfold putc, write, log_event, reply, mbind, U_bind in *. unfold upd at 1. simpl. rewrite Hw. simpl.
    match goal with |- context [uforeach l _ ?w1] => destruct (IH rs rest w1) as (w' & E & R & T) end; [done|done|].
    exists w'. split; [exact E|]. split; [done|]. rewrite T. unfold upd. simpl. rewrite written_app, <-app_assoc.
    f_equal. unfold written. simpl. by rewrite Z.eqb_refl.
Qed.

Lemma call_rets name args r rest w : w_rets w = r :: rest ->
  call name args w = Val r (says [Call name args] w <| w_rets := rest |>).
Proof. intros Hw. unfold call, log_event, reply, mbind, U_bind, says, upd. simpl. by rewrite Hw. Qed.

(** init reaps every process that ends, with a line for each, until its shell ends;
    [zs] are the others, and every character that is written has a reply. *)
Lemma init_wait_reaps pid rets : forall zs fuel w, Forall (fun z => 0 <= z /\ z <> pid) zs -> (length zs < fuel)%nat ->
  w_rets w = mjoin ((fun z => z :: replicate 8 1) <$> zs) ++ pid :: rets ->
  exists w', init_wait fuel pid w = Val tt w' /\ w_rets w' = rets /\
    written 1 (w_trace w') = written 1 (w_trace w) ++ mjoin ((fun _ => codes ("zombie!" +:+ nl)) <$> zs).
Proof.
  induction zs as [|z zs IH]; intros [|fuel] w Hz Hf Hw; simpl in Hf; try lia; cbn [init_wait]; unfold mbind, U_bind.
  - rewrite (call_rets _ _ pid rets) by done. rewrite Z.eqb_refl, andb_false_r. eexists. split; [done|]. split; [done|].
    unfold says, upd. simpl. by rewrite written_app.
  - apply Forall_cons in Hz as [[Hp Hne] Hz].
    rewrite (call_rets _ _ z (replicate 8 1 ++ mjoin ((fun z => z :: replicate 8 1) <$> zs) ++ pid :: rets)) by done.
    rewrite (proj2 (Z.leb_le _ _) Hp), (proj2 (Z.eqb_neq _ _) Hne). cbn [negb andb]. unfold printf, lift, mbind, U_bind.
    change (uformat (codes ("zombie!" +:+ nl)) [] false) with (Some (codes ("zombie!" +:+ nl))). cbv iota beta.
    edestruct (uforeach_rets 1 (codes ("zombie!" +:+ nl)) (replicate 8 1)) as (w1 & E & R & T); [| |rewrite E]; [reflexivity|done|].
    destruct (IH fuel w1) as (w' & E' & R' & T'); [done|lia|done|]. exists w'. split; [done|]. split; [done|].
    rewrite T', T. unfold says, upd. simpl. rewrite written_app, app_nil_r, <-app_assoc. done.
Qed.
