(* ===== verification/Sh.v ===== *)
(** sh.c: the shell.

    The command line is in a buffer [buf] that ends with a NUL at offset [es]; the
    pointers of the parser are offsets in it. A parse that fails prints a message
    and exits. [malloc] is taken to succeed. *)
From stdpp Require Import base tactics list numbers strings gmap.
From Stdlib Require Import Ascii.
From S2P Require Import Prelude State Console FsTypes User.

#[local] Open Scope Z_scope.

(** ** Commands

    A string of a command is the pair of its first character and the character
    after its last one. In [parseexec] the [struct execcmd] is extended while it is
    already below the redirections; here it is built when it is complete. *)
Definition MAXARGS : nat := 10.

Inductive cmd :=
| Execcmd (argv : list (nat * nat))
| Redircmd (c : cmd) (file efile : nat) (mode fd : Z)
| Pipecmd (left right : cmd)
| Listcmd (left right : cmd)
| Backcmd (c : cmd).

(** The arguments of [redircmd] after the command. *)
Record redir := Redir { r_file : nat; r_efile : nat; r_mode : Z; r_fd : Z }.
Definition redirect (c : cmd) (r : redir) : cmd := Redircmd c (r_file r) (r_efile r) (r_mode r) (r_fd r).

(** ** The parser's monad: [*ps] is its state *)
Inductive parsed (A : Type) : Type :=
| Parsed (a : A) (s : nat)
| Failed (msg : list Z)
| Deep.
Arguments Parsed {A} _ _.
Arguments Failed {A} _.
Arguments Deep {A}.

Definition P (A : Type) : Type := nat -> parsed A.
#[global] Instance P_ret : MRet P := fun A a s => Parsed a s.
#[global] Instance P_bind : MBind P := fun A B f m s =>
  match m s with
  | Parsed a s' => f a s'
  | Failed msg => Failed msg
  | Deep => Deep
  end.

(** ** Tokens *)
Definition whitespace : list Z := [32; 9; 13; 10; 11].
Definition symbols : list Z := codes "<|>&;()".

Section parser.
Context (buf : list Z) (es : nat).

Definition chr (s : nat) : Z := default 0 (buf !! s).

(** Moves [s] on, up to [es], over characters that are [ok]. *)
Fixpoint scan_loop (fuel : nat) (ok : Z -> bool) (s : nat) : nat :=
  match fuel with
  | O => s
  | S f => if (s <? es)%nat && ok (chr s) then scan_loop f ok (S s) else s
  end.
Definition scan (ok : Z -> bool) (s : nat) : nat := scan_loop (es - s) ok s.
Definition is_white (c : Z) : bool := bool_decide (c ∈ whitespace).
Definition is_word (c : Z) : bool := negb (bool_decide (c ∈ whitespace)) && negb (bool_decide (c ∈ symbols)).

(** [gettoken]: the token, [*q], [*eq] and the new [*ps]. *)
Definition gettoken (s : nat) : Z * nat * nat * nat :=
  let s := scan is_white s in
  let q := s in
  let '(ret, s) :=
    if chr s =? 0 then (0, s)
    else if bool_decide (chr s ∈ codes "|();&<") then (chr s, S s)
    else if chr s =? ch ">" then if chr (S s) =? ch ">" then (ch "+", S (S s)) else (ch ">", S s)
    else (ch "a", scan is_word s) in
  (ret, q, s, scan is_white s).

(** [peek]: its result and the new [*ps]. *)
Definition peek (toks : string) (s : nat) : bool * nat :=
  let s := scan is_white s in
  (negb (chr s =? 0) && bool_decide (chr s ∈ codes toks), s).

(** ** Parsing *)
Definition p_peek (toks : string) : P bool := fun s => let '(b, s) := peek toks s in Parsed b s.
Definition p_gettoken : P (Z * nat * nat) := fun s => let '(tok, q, eq, s) := gettoken s in Parsed (tok, q, eq) s.
Definition p_panic {A} (msg : string) : P A := fun _ => Failed (codes (msg +:+ nl)).
Definition p_deep {A} : P A := fun _ => Deep.

(** The loop of [parseredirs]; the result is the redirections, innermost first. *)
Fixpoint parseredirs_loop (fuel : nat) : P (list redir) :=
  b ← p_peek "<>";
  if negb b then mret []
  else match fuel with
    | O => p_deep
    | S f =>
        '(tok, _, _) ← p_gettoken;
        '(a, q, eq) ← p_gettoken;
        if negb (a =? ch "a") then p_panic "missing file for redirection"
        else
          rs ← parseredirs_loop f;
          mret ((if tok =? ch "<" then Redir q eq O_RDONLY 0
                 else Redir q eq (Z.lor O_WRONLY O_CREATE) 1) :: rs)
    end.
Definition parseredirs : P (list redir) := parseredirs_loop es.

(** The loop of [parseexec]: the arguments and the redirections. *)
Fixpoint parseexec_loop (fuel argc : nat) : P (list (nat * nat) * list redir) :=
  b ← p_peek "|)&;";
  if (b : bool) then mret ([], [])
  else match fuel with
    | O => p_deep
    | S f =>
        '(tok, q, eq) ← p_gettoken;
        if tok =? 0 then mret ([], [])
        else if negb (tok =? ch "a") then p_panic "syntax"
        else if (MAXARGS <=? argc + 1)%nat then p_panic "too many args"
        else
          rs ← parseredirs;
          rest ← parseexec_loop f (argc + 1);
          mret ((q, eq) :: rest.1, rs ++ rest.2)
    end.

(** The loop of [parseline] over the [&]s. *)
Fixpoint parseback (fuel : nat) (c : cmd) : P cmd :=
  b ← p_peek "&";
  if negb b then mret c
  else match fuel with
    | O => p_deep
    | S f => p_gettoken;; parseback f (Backcmd c)
    end.

(** [depth] bounds the nesting of the calls. *)
Fixpoint parseline (depth : nat) : P cmd :=
  match depth with
  | O => p_deep
  | S d =>
      c ← parsepipe d;
      c ← parseback es c;
      b ← p_peek ";";
      if (b : bool) then p_gettoken;; c' ← parseline d; mret (Listcmd c c') else mret c
  end
with parsepipe (depth : nat) : P cmd :=
  match depth with
  | O => p_deep
  | S d =>
      c ← parseexec d;
      b ← p_peek "|";
      if (b : bool) then p_gettoken;; c' ← parsepipe d; mret (Pipecmd c c') else mret c
  end
with parseblock (depth : nat) : P cmd :=
  match depth with
  | O => p_deep
  | S d =>
      b ← p_peek "(";
      if negb b then p_panic "parseblock"
      else
        p_gettoken;;
        c ← parseline d;
        b ← p_peek ")";
        if negb b then p_panic "syntax - missing )"
        else
          p_gettoken;;
          rs ← parseredirs;
          mret (foldl redirect c rs)
  end
with parseexec (depth : nat) : P cmd :=
  match depth with
  | O => p_deep
  | S d =>
      b ← p_peek "(";
      if (b : bool) then parseblock d
      else
        rs ← parseredirs;
        '(argv, rs') ← parseexec_loop (S es) 0;
        mret (foldl redirect (Execcmd argv) (rs ++ rs'))
  end.
End parser.

(** The string at an offset of the buffer. *)
Definition str (buf : list Z) (q : nat) : list Z := default [] (cstr (drop q buf)).

(** [nulterminate]: the buffer after the call. *)
Fixpoint nulterminate (c : cmd) (buf : list Z) : list Z :=
  match c with
  | Execcmd argv => foldl (fun buf a => <[a.2 := 0]> buf) buf argv
  | Redircmd c _ efile _ _ => <[efile := 0]> (nulterminate c buf)
  | Pipecmd l r | Listcmd l r => nulterminate r (nulterminate l buf)
  | Backcmd c => nulterminate c buf
  end.

(** [parsecmd], on a buffer that ends at its first NUL: the command and the buffer. *)
Definition parsecmd (depth : nat) (buf : list Z) : parsed (cmd * list Z) :=
  match strlen buf with
  | None => Deep
  | Some es =>
      match parseline buf es depth 0%nat with
      | Parsed c s =>
          let '(_, s) := peek buf es EmptyString s in
          if negb (s =? es)%nat then Failed (codes "leftovers: " ++ str buf s ++ codes (nl +:+ "syntax" +:+ nl))
          else Parsed (c, nulterminate c buf) s
      | Failed msg => Failed msg
      | Deep => Deep
      end
  end.

(** ** Running commands

    What a process does, as a tree: a system call is a node, and the process goes on
    as the subtree for its result. [AFork] has the two processes it makes, [AExec]
    goes on only if it fails. *)
Inductive act :=
| AExit
| AExec (argv : list (list Z)) (k : act)
| AClose (fd : Z) (k : act)
| AOpen (file : list Z) (mode : Z) (k : Z -> act)
| APipe (k : option (Z * Z) -> act)
| ADup (fd : Z) (k : act)
| AFork (failed child parent : act)
| AWait (k : act)
| AChdir (path : list Z) (k : Z -> act)
| APrint (msg : list Z) (k : act).

Definition sh_panic (msg : string) : act := APrint (codes (msg +:+ nl)) AExit.
(** [fork1() == 0]: the child and the parent. *)
Definition fork1 (child parent : act) : act := AFork (sh_panic "fork") child parent.

Fixpoint runcmd (buf : list Z) (c : cmd) : act :=
  match c with
  | Execcmd argv =>
      match (fun a => str buf a.1) <$> argv with
      | [] => AExit
      | a :: args => AExec (a :: args) (APrint (codes "exec " ++ a ++ codes (" failed" +:+ nl)) AExit)
      end
  | Redircmd c file _ mode fd =>
      AClose fd (AOpen (str buf file) mode (fun r =>
        if r <? 0 then APrint (codes "open " ++ str buf file ++ codes (" failed" +:+ nl)) AExit
        else runcmd buf c))
  | Listcmd l r => fork1 (runcmd buf l) (AWait (runcmd buf r))
  | Pipecmd l r =>
      APipe (fun p =>
        match p with
        | None => sh_panic "pipe"
        | Some (p0, p1) =>
            fork1 (AClose 1 (ADup p1 (AClose p0 (AClose p1 (runcmd buf l)))))
              (fork1 (AClose 0 (ADup p0 (AClose p0 (AClose p1 (runcmd buf r)))))
                (AClose p0 (AClose p1 (AWait (AWait AExit)))))
        end)
  | Backcmd c => fork1 (runcmd buf c) AExit
  end.

(** ** main *)

(** The loop that opens the console until descriptor 3 is reached, by its fourth
    turn at the latest. *)
Fixpoint open_console (fuel : nat) (k : act) : act :=
  match fuel with
  | O => k
  | S f =>
      AOpen (codes "console") O_RDWR (fun fd =>
        if fd <? 0 then k else if 3 <=? fd then AClose fd k else open_console f k)
  end.

(** A turn of the loop of [main], for the line [buf] that [getcmd] has read; [k] is
    the rest of the loop. *)
Definition sh_line (depth : nat) (buf : list Z) (k : act) : act :=
  if bool_decide (take 3 buf = codes "cd ") then
    let n := default O (strlen buf) in
    let buf := <[(n - 1)%nat := 0]> buf in
    AChdir (str buf 3) (fun r =>
      if r <? 0 then APrint (codes "cannot cd " ++ str buf 3 ++ [10]) k else k)
  else
    fork1 (match parsecmd depth buf with
           | Parsed (c, buf) _ => runcmd buf c
           | Failed msg => APrint msg AExit
           | Deep => AExit
           end)
      (AWait k).

(** The lines that [gets] delivers; an empty one is the end of the input. *)
Fixpoint sh_loop (depth : nat) (lines : list (list Z)) : act :=
  APrint (codes "$ ")
    match lines with
    | [] => AExit
    | buf :: lines' => if default 0 (head buf) =? 0 then AExit else sh_line depth buf (sh_loop depth lines')
    end.
Definition sh_main (depth : nat) (lines : list (list Z)) : act := open_console 4 (sh_loop depth lines).
