(* ===== verification/ShSpec.v ===== *)
(** sh.c: the parser always returns, it inverts printing, and the commands run with
    the file descriptors that redirections and pipes name. *)
From stdpp Require Import base tactics list numbers strings gmap.
From Stdlib Require Import Ascii.
From S2P Require Import Prelude State Console FsTypes User Sh.

#[local] Open Scope Z_scope.

(** ** Scanning *)
Section scanning.
Context (buf : list Z) (es : nat).

Lemma scan_loop_spec fuel ok : forall s, (s <= es)%nat -> (es - s <= fuel)%nat ->
  let s' := scan_loop buf es fuel ok s in
  (s <= s' <= es)%nat /\ (s' = es \/ ok (chr buf s') = false) /\
  (forall k, (s <= k < s')%nat -> ok (chr buf k) = true).
Proof.
  cbv zeta. induction fuel as [|fuel IH]; intros s Hs Hf; cbn [scan_loop].
  - split; [lia|]. split; [left; lia|]. intros. lia.
  - destruct (Nat.ltb_spec s es) as [Hlt|Hge]; cbn [andb]; [|split; [lia|]; split; [left; lia|]; intros; lia].
    destruct (ok (chr buf s)) eqn:E; cbn [andb]; [|split; [lia|]; split; [by right|]; intros; lia].
    destruct (IH (S s)) as (H1 & H2 & H3); [lia..|]. split; [lia|]. split; [done|].
    intros k Hk. destruct (decide (k = s)) as [->|]; [done|]. apply H3. lia.
Qed.

Lemma scan_spec ok s : (s <= es)%nat ->
  (s <= scan buf es ok s <= es)%nat /\ (scan buf es ok s = es \/ ok (chr buf (scan buf es ok s)) = false) /\
  (forall k, (s <= k < scan buf es ok s)%nat -> ok (chr buf k) = true).
Proof. intros Hs. by apply scan_loop_spec. Qed.

Lemma scan_stay ok s : s = es \/ ok (chr buf s) = false -> scan buf es ok s = s.
Proof.
  unfold scan. destruct (es - s)%nat as [|n]; [done|]. cbn [scan_loop]. intros [-> | ->].
  - by rewrite Nat.ltb_irrefl.
  - by rewrite andb_false_r.
Qed.

Hypothesis Hend : chr buf es = 0.

Lemma below_end s : (s <= es)%nat -> chr buf s <> 0 -> (s < es)%nat.
Proof. intros Hs Hc. destruct (decide (s = es)) as [->|]; [done|lia]. Qed.

Lemma peek_spec toks s : (s <= es)%nat ->
  let '(b, s') := peek buf es toks s in (s <= s' <= es)%nat /\ (b = true -> (s' < es)%nat /\ chr buf s' ∈ codes toks).
Proof.
  intros Hs. unfold peek. destruct (scan_spec is_white s Hs) as (H1 & _). split; [done|].
  intros [H2 H3]%andb_true_iff. apply negb_true_iff, Z.eqb_neq in H2. apply bool_decide_eq_true in H3.
  split; [|done]. apply below_end; [lia|done].
Qed.

Lemma not_white_symbol c : c ∉ codes "|();&<" -> c <> ch ">" -> is_white c = false -> is_word c = true.
Proof.
  unfold is_white, is_word. intros H1 H2 ->. rewrite bool_decide_false; [done|].
  intros Hin. revert H1 H2 Hin. cbn. set_solver.
Qed.

(** A token that is not the end of the line is not empty. *)
Lemma gettoken_spec s : (s <= es)%nat ->
  let '(tok, q, eq, s') := gettoken buf es s in
  (s <= q <= eq)%nat /\ (eq <= s' <= es)%nat /\ (tok <> 0 -> (q < eq)%nat).
Proof.
  intros Hs. unfold gettoken. destruct (scan_spec is_white s Hs) as (H1 & H2 & _).
  set (q := scan buf es is_white s) in *.
  assert (Hcase : forall tok e, (q <= e <= es)%nat -> (tok <> 0 -> (q < e)%nat) ->
    (s <= q <= e)%nat /\ (e <= scan buf es is_white e <= es)%nat /\ (tok <> 0 -> (q < e)%nat)).
  { intros tok e He Ht. destruct (scan_spec is_white e ltac:(lia)) as (H3 & _). split; [lia|]. by split. }
  destruct (Z.eqb_spec (chr buf q) 0) as [E|Hne]; [apply Hcase; [lia|done]|]. pose proof (below_end q ltac:(lia) Hne) as Hq.
  case_bool_decide as Hsym; [apply Hcase; lia|].
  destruct (Z.eqb_spec (chr buf q) (ch ">")) as [E|Hgt].
  - destruct (Z.eqb_spec (chr buf (S q)) (ch ">")) as [E'|Hn]; apply Hcase; try lia.
    assert (S q < es)%nat by (apply below_end; [lia|rewrite E'; done]). lia.
  - destruct (scan_spec is_word q ltac:(lia)) as (H3 & H4 & _). apply Hcase; [lia|]. intros _.
    assert (Hw : is_word (chr buf q) = true) by (apply not_white_symbol; [done|done|by destruct H2; [lia|]]).
    destruct (decide (scan buf es is_word q = q)) as [E|]; [|lia]. rewrite E in H4.
    destruct H4; [lia|congruence].
Qed.

(** ** The parser returns *)
Definition stops {A} (s : nat) (o : parsed A) : Prop :=
  match o with Parsed _ s' => (s <= s' <= es)%nat | Failed _ => True | Deep => False end.

Lemma stops_bind {A B} (m : P A) (f : A -> P B) s :
  stops s (m s) -> (forall a s', (s <= s' <= es)%nat -> m s = Parsed a s' -> stops s' (f a s')) -> stops s ((m ≫= f) s).
Proof.
  unfold stops at 1 3, mbind, P_bind. destruct (m s) as [a s'| |] eqn:E; [|done..]. intros Hs Hf.
  specialize (Hf a s' Hs eq_refl). unfold stops in Hf. destruct (f a s'); [lia|done..].
Qed.

Lemma stops_p_peek toks s : (s <= es)%nat -> stops s (p_peek buf es toks s).
Proof. intros Hs. pose proof (peek_spec toks s Hs) as Hp. unfold p_peek. destruct (peek _ _ _ _). simpl. tauto. Qed.
Lemma p_peek_true toks s s' : (s <= es)%nat -> p_peek buf es toks s = Parsed true s' -> (s' < es)%nat /\ chr buf s' ∈ codes toks.
Proof.
  intros Hs. pose proof (peek_spec toks s Hs) as Hp. unfold p_peek. destruct (peek _ _ _ _). intros [= -> ->]. tauto.
Qed.
Lemma stops_p_gettoken s : (s <= es)%nat -> stops s (p_gettoken buf es s).
Proof.
  intros Hs. pose proof (gettoken_spec s Hs) as Hp. unfold p_gettoken. destruct (gettoken _ _ _) as [[[tok q] eq] s'].
  simpl. lia.
Qed.
Lemma p_gettoken_moves s s' tok q eq : (s <= es)%nat -> p_gettoken buf es s = Parsed (tok, q, eq) s' -> tok <> 0 -> (s < s')%nat.
Proof.
  intros Hs. pose proof (gettoken_spec s Hs) as Hp. unfold p_gettoken. destruct (gettoken _ _ _) as [[[tok' q'] eq'] s''].
  intros [= -> -> -> ->] Ht. destruct Hp as (? & ? & Hp). specialize (Hp Ht). lia.
Qed.
(** After a successful [peek] the next token is not the end of the line. *)
Lemma p_gettoken_peeked toks s0 s tok q eq s' : (s0 <= es)%nat -> p_peek buf es toks s0 = Parsed true s ->
  p_gettoken buf es s = Parsed (tok, q, eq) s' -> tok <> 0.
Proof.
  intros Hs0 Hp Hg. unfold p_peek, peek in Hp. destruct (scan_spec is_white s0 Hs0) as (H1 & H2 & _).
  injection Hp as Hb <-. set (r := scan buf es is_white s0) in *. apply andb_true_iff in Hb as [Hb _].
  apply negb_true_iff, Z.eqb_neq in Hb. pose proof (below_end r ltac:(lia) Hb) as Hr.
  unfold p_gettoken, gettoken in Hg. rewrite (scan_stay is_white r) in Hg by (right; by destruct H2; [lia|]).
  rewrite (proj2 (Z.eqb_neq _ _) Hb) in Hg. intros ->. revert Hg.
  case_bool_decide as Hin; [congruence|]. destruct (chr buf r =? ch ">"); [destruct (chr buf (S r) =? ch ">")|];
    intros Hg; injection Hg as E _ _ _; vm_compute in E; discriminate.
Qed.

Lemma stops_taken {B} toks s0 s (f : Z * nat * nat -> P B) :
  (s0 <= es)%nat -> p_peek buf es toks s0 = Parsed true s ->
  (forall a s', (s < s' <= es)%nat -> stops s' (f a s')) -> stops s ((p_gettoken buf es ≫= f) s).
Proof.
  intros Hs0 E Hf. destruct (p_peek_true _ _ _ Hs0 E) as [Hs _].
  apply stops_bind; [apply stops_p_gettoken; lia|]. intros [[tok q] eq] s' Hs' E'. apply Hf.
  pose proof (p_gettoken_peeked _ _ _ _ _ _ _ Hs0 E E') as Ht. apply p_gettoken_moves in E'; [lia|lia|done].
Qed.

Lemma stops_parseredirs_loop fuel : forall s, (s <= es)%nat -> (es - s <= fuel)%nat -> stops s (parseredirs_loop buf es fuel s).
Proof.
  induction fuel as [|fuel IH]; intros s Hs Hf; cbn [parseredirs_loop]; (apply stops_bind; [by apply stops_p_peek|]);
    intros b s1 Hs1 E1; destruct b; cbn [negb]; try (simpl; lia).
  - apply p_peek_true in E1; [|done]. lia.
  - eapply stops_taken; [exact Hs|exact E1|]. intros [[tok q] eq] s2 Hs2.
    apply stops_bind; [apply stops_p_gettoken; lia|]. intros [[a q'] eq'] s3 Hs3 E3.
    destruct (negb (a =? ch "a")); [done|].
    apply stops_bind; [apply IH; lia|]. intros rs s4 Hs4 E4. simpl. lia.
Qed.
Lemma stops_parseredirs s : (s <= es)%nat -> stops s (parseredirs buf es s).
Proof. intros Hs. apply stops_parseredirs_loop; lia. Qed.

Lemma stops_parseexec_loop fuel : forall argc s, (s <= es)%nat -> (es - s < fuel)%nat -> stops s (parseexec_loop buf es fuel argc s).
Proof.
  induction fuel as [|fuel IH]; intros argc s Hs Hf; [lia|]. cbn [parseexec_loop].
  apply stops_bind; [by apply stops_p_peek|]. intros [] s1 Hs1 E1; [simpl; lia|].
  apply stops_bind; [apply stops_p_gettoken; lia|]. intros [[tok q] eq] s2 Hs2 E2.
  destruct (Z.eqb_spec tok 0) as [|Ht]; [simpl; lia|]. apply p_gettoken_moves in E2; [|lia|done].
  destruct (negb (tok =? ch "a")); [done|]. destruct (MAXARGS <=? argc + 1)%nat; [done|].
  apply stops_bind; [apply stops_parseredirs; lia|]. intros rs s3 Hs3 E3.
  apply stops_bind; [apply IH; lia|]. intros rest s4 Hs4 E4. simpl. lia.
Qed.

Lemma stops_parseback fuel : forall c s, (s <= es)%nat -> (es - s <= fuel)%nat -> stops s (parseback buf es fuel c s).
Proof.
  induction fuel as [|fuel IH]; intros c s Hs Hf; cbn [parseback]; (apply stops_bind; [by apply stops_p_peek|]);
    intros b s1 Hs1 E1; destruct b; cbn [negb]; try (simpl; lia).
  - apply p_peek_true in E1; [|done]. lia.
  - eapply stops_taken; [exact Hs|exact E1|]. intros a s2 Hs2. apply IH; lia.
Qed.

(** Four calls for each nesting level, and each level takes a character. *)
Lemma parse_stops depth : forall s, (s <= es)%nat ->
  ((4 * (es - s) + 4 <= depth)%nat -> stops s (parseline buf es depth s)) /\
  ((4 * (es - s) + 3 <= depth)%nat -> stops s (parsepipe buf es depth s)) /\
  ((4 * (es - s) + 1 <= depth)%nat -> stops s (parseblock buf es depth s)) /\
  ((4 * (es - s) + 2 <= depth)%nat -> stops s (parseexec buf es depth s)).
Proof.
  induction depth as [|d IH]; intros s Hs; [lia|]. split; [|split; [|split]]; intros Hd; cbn [parseline parsepipe parseblock parseexec].
  - apply stops_bind; [apply IH; lia|]. intros c s1 Hs1 _.
    apply stops_bind; [apply stops_parseback; lia|]. intros c1 s2 Hs2 _.
    apply stops_bind; [apply stops_p_peek; lia|]. intros [] s3 Hs3 E3; [|simpl; lia].
    eapply stops_taken; [|exact E3|]; [lia|]. intros a s4 Hs4.
    apply stops_bind; [apply IH; lia|]. intros c2 s5 Hs5 _. simpl. lia.
  - apply stops_bind; [apply IH; lia|]. intros c s1 Hs1 _.
    apply stops_bind; [apply stops_p_peek; lia|]. intros [] s3 Hs3 E3; [|simpl; lia].
    eapply stops_taken; [|exact E3|]; [lia|]. intros a s4 Hs4.
    apply stops_bind; [apply IH; lia|]. intros c2 s5 Hs5 _. simpl. lia.
  - apply stops_bind; [apply stops_p_peek; lia|]. intros [] s1 Hs1 E1; [|done]. cbn [negb].
    eapply stops_taken; [|exact E1|]; [lia|]. intros a s2 Hs2.
    apply stops_bind; [apply IH; lia|]. intros c s3 Hs3 _.
    apply stops_bind; [apply stops_p_peek; lia|]. intros [] s4 Hs4 _; [|done]. cbn [negb].
    apply stops_bind; [apply stops_p_gettoken; lia|]. intros _ s5 Hs5 _.
    apply stops_bind; [apply stops_parseredirs; lia|]. intros rs s6 Hs6 _. simpl. lia.
  - apply stops_bind; [apply stops_p_peek; lia|]. intros [] s1 Hs1 _; [apply IH; lia|].
    apply stops_bind; [apply stops_parseredirs; lia|]. intros rs s2 Hs2 _.
    apply stops_bind; [apply stops_parseexec_loop; lia|]. intros [argv rs'] s3 Hs3 _. simpl. lia.
Qed.
End scanning.

Lemma strlen_spec buf es : strlen buf = Some es <-> exists l rest, buf = l ++ 0 :: rest /\ es = length l /\ Forall (fun c => c <> 0) l.
Proof.
  revert es. induction buf as [|c buf IH]; intros es; simpl.
  - split; [done|]. intros ([|] & ? & ? & _); done.
  - destruct (Z.eqb_spec c 0) as [->|Hc].
    + split; [intros [= <-]; by exists [], buf|]. intros ([|c' l] & rest & E & -> & Hl); [done|].
      apply Forall_cons in Hl as [Hc _]. injection E as <- _. done.
    + split.
      * destruct (strlen buf) as [n|]; [|done]. intros [= <-]. destruct (proj1 (IH n) eq_refl) as (l & rest & -> & -> & Hl).
        exists (c :: l), rest. split; [done|]. split; [done|]. by constructor.
      * intros ([|c' l] & rest & E & -> & Hl); [by injection E|]. apply Forall_cons in Hl as [_ Hl].
        injection E as <- ->. by rewrite (proj2 (IH (length l))) by (by exists l, rest).
Qed.

Lemma strlen_end buf es : strlen buf = Some es -> chr buf es = 0.
Proof. intros (l & rest & -> & -> & _)%strlen_spec. unfold chr. by rewrite lookup_app_r, Nat.sub_diag. Qed.

(** C29: The parser of the shell returns on every command line, with a command or
    with an error: a nesting of four calls for each character is enough. *)
Theorem parsecmd_returns (buf : list Z) (es : nat) (Hes : strlen buf = Some es) :
  parsecmd (4 * es + 4) buf <> Deep.
Proof.
  unfold parsecmd. rewrite Hes.
  destruct (parse_stops buf es (strlen_end _ _ Hes) (4 * es + 4) 0 ltac:(lia)) as [Hp _].
  specialize (Hp ltac:(lia)). destruct (parseline buf es _ 0%nat) as [c s| |]; [|done..].
  destruct (peek _ _ _ _) as [b s']. by destruct (negb (s' =? es)%nat).
Qed.

Lemma parsecmd_returns_witness : parsecmd (4 * 5 + 4) (codes "((;>&" ++ [0]) <> Deep.
Proof. apply (parsecmd_returns (codes "((;>&" ++ [0]) 5). reflexivity. Defined.

(** ** Printing *)

(** A command with its strings. *)
Inductive scmd :=
| SExec (argv : list (list Z))
| SRedir (c : scmd) (file : list Z) (mode fd : Z)
| SPipe (left right : scmd)
| SList (left right : scmd)
| SBack (c : scmd).

(** The grammar of command lines. *)
Inductive rdir := RIn (w : list Z) | ROut (w : list Z) | RApp (w : list Z).
Inductive line :=
| LEnd (p : pipeline) (n : nat)
| LSeq (p : pipeline) (n : nat) (l : line)
with pipeline :=
| POne (e : simple)
| PMore (e : simple) (p : pipeline)
with simple :=
| Simple (rs : list rdir) (args : list (list Z * list rdir))
| Block (l : line) (rs : list rdir).

Scheme line_ind3 := Induction for line Sort Prop
with pipeline_ind3 := Induction for pipeline Sort Prop
with simple_ind3 := Induction for simple Sort Prop.
Combined Scheme syntax_ind from line_ind3, pipeline_ind3, simple_ind3.

(** What a line means. *)
Definition sredir (c : scmd) (r : rdir) : scmd :=
  match r with
  | RIn w => SRedir c w O_RDONLY 0
  | ROut w | RApp w => SRedir c w (Z.lor O_WRONLY O_CREATE) 1
  end.
Fixpoint line_cmd (l : line) : scmd :=
  match l with
  | LEnd p n => Nat.iter n SBack (pipeline_cmd p)
  | LSeq p n l => SList (Nat.iter n SBack (pipeline_cmd p)) (line_cmd l)
  end
with pipeline_cmd (p : pipeline) : scmd :=
  match p with
  | POne e => simple_cmd e
  | PMore e p => SPipe (simple_cmd e) (pipeline_cmd p)
  end
with simple_cmd (e : simple) : scmd :=
  match e with
  | Simple rs args => foldl sredir (SExec args.*1) (rs ++ mjoin args.*2)
  | Block l rs => foldl sredir (line_cmd l) rs
  end.

(** Its tokens and its text; a blank follows each token. *)
Inductive token := TWord (w : list Z) | TSym (c : Z) | TApp.
Definition rdir_toks (r : rdir) : list token :=
  match r with
  | RIn w => [TSym (ch "<"); TWord w]
  | ROut w => [TSym (ch ">"); TWord w]
  | RApp w => [TApp; TWord w]
  end.
Definition arg_toks (a : list Z * list rdir) : list token := TWord a.1 :: mjoin (rdir_toks <$> a.2).
Fixpoint line_toks (l : line) : list token :=
  match l with
  | LEnd p n => pipeline_toks p ++ replicate n (TSym (ch "&"))
  | LSeq p n l => pipeline_toks p ++ replicate n (TSym (ch "&")) ++ TSym (ch ";") :: line_toks l
  end
with pipeline_toks (p : pipeline) : list token :=
  match p with
  | POne e => simple_toks e
  | PMore e p => simple_toks e ++ TSym (ch "|") :: pipeline_toks p
  end
with simple_toks (e : simple) : list token :=
  match e with
  | Simple rs args => mjoin (rdir_toks <$> rs) ++ mjoin (arg_toks <$> args)
  | Block l rs => TSym (ch "(") :: line_toks l ++ TSym (ch ")") :: mjoin (rdir_toks <$> rs)
  end.
Definition tok_text (t : token) : list Z :=
  match t with TWord w => w | TSym c => [c] | TApp => [ch ">"; ch ">"] end.
Definition text (ts : list token) : list Z := mjoin ((fun t => tok_text t ++ [32]) <$> ts).

(** Words are not empty, and have no blanks, symbols or NULs. *)
Definition word_ok (w : list Z) : Prop := w <> [] /\ Forall (fun c => c <> 0 /\ is_word c = true) w.
Definition rdir_ok (r : rdir) : Prop := match r with RIn w | ROut w | RApp w => word_ok w end.
Fixpoint sline_ok (l : line) : Prop :=
  match l with
  | LEnd p _ => pipeline_ok p
  | LSeq p _ l => pipeline_ok p /\ sline_ok l
  end
with pipeline_ok (p : pipeline) : Prop :=
  match p with
  | POne e => simple_ok e
  | PMore e p => simple_ok e /\ pipeline_ok p
  end
with simple_ok (e : simple) : Prop :=
  match e with
  | Simple rs args => Forall rdir_ok rs /\ Forall (fun a => word_ok a.1 /\ Forall rdir_ok a.2) args /\ (length args < MAXARGS)%nat
  | Block l rs => sline_ok l /\ Forall rdir_ok rs
  end.

(** The strings of a command. *)
Fixpoint strs (buf : list Z) (c : cmd) : scmd :=
  match c with
  | Execcmd argv => SExec ((fun a => str buf a.1) <$> argv)
  | Redircmd c file _ mode fd => SRedir (strs buf c) (str buf file) mode fd
  | Pipecmd l r => SPipe (strs buf l) (strs buf r)
  | Listcmd l r => SList (strs buf l) (strs buf r)
  | Backcmd c => SBack (strs buf c)
  end.

(** ** Reading what was printed *)
Definition tok_ok (t : token) : Prop :=
  match t with TWord w => word_ok w | TSym c => c ∈ codes "|();&<>" | TApp => True end.
Definition tok_code (t : token) : Z :=
  match t with TWord _ => ch "a" | TSym c => c | TApp => ch "+" end.
Definition tok_head (t : token) : Z := default 0 (head (tok_text t)).

Lemma text_cons t ts : text (t :: ts) = tok_text t ++ 32 :: text ts.
Proof. unfold text. simpl. by rewrite <-app_assoc. Qed.

Lemma symbol_char c : c ∈ codes "|();&<>" -> c <> 0 /\ is_white c = false /\ is_word c = false.
Proof.
  intros Hc. unfold is_white, is_word. cbn in Hc.
  repeat (apply elem_of_cons in Hc as [->|Hc]; [by vm_compute|]). by apply elem_of_nil in Hc.
Qed.
Lemma word_char c : is_word c = true -> is_white c = false /\ (c ∉ codes "|();&<") /\ c <> ch ">" /\ c <> 32.
Proof.
  unfold is_word, is_white. intros [H1%negb_true_iff H2%negb_true_iff]%andb_true_iff.
  apply bool_decide_eq_false in H2. split; [done|]. split; [|split].
  - intros Hin. apply H2. revert Hin. cbn. set_solver.
  - intros ->. apply H2. cbn. set_solver.
  - intros ->. done.
Qed.

Section reading.
Context (buf : list Z) (es : nat).

(** The rest of the line is the tokens [ts]. *)
Definition rest_is (s : nat) (ts : list token) : Prop := drop s buf = text ts ++ [0] /\ (s + length (text ts) = es)%nat.

Lemma chr_drop s c l : drop s buf = c :: l -> chr buf s = c.
Proof. intros E. unfold chr. rewrite <-(Nat.add_0_r s), <-lookup_drop, E. done. Qed.

Lemma scan_run ok s run c l : drop s buf = run ++ c :: l -> Forall (fun c => ok c = true) run -> ok c = false ->
  (s + length run <= es)%nat -> scan buf es ok s = (s + length run)%nat.
Proof.
  intros E Hr Hc Hle. destruct (scan_spec buf es ok s ltac:(lia)) as (H1 & H2 & H3). set (s' := scan buf es ok s) in *.
  assert (Hk : forall k x, (run ++ c :: l) !! k = Some x -> chr buf (s + k) = x).
  { intros k x Hx. unfold chr. by rewrite <-lookup_drop, E, Hx. }
  destruct (Nat.lt_trichotomy s' (s + length run)) as [Hlt|[?|Hgt]]; [exfalso|done|exfalso].
  - destruct (lookup_lt_is_Some_2 run (s' - s)) as [x Hx]; [lia|].
    pose proof (Hk (s' - s)%nat x (lookup_app_l_Some _ _ _ _ Hx)) as Ex. replace (s + (s' - s))%nat with s' in Ex by lia.
    rewrite Forall_lookup in Hr. specialize (Hr _ _ Hx). simpl in Hr. destruct H2; [lia|congruence].
  - specialize (H3 (s + length run)%nat ltac:(lia)). rewrite (Hk (length run) c) in H3; [congruence|].
    by rewrite lookup_app_r, Nat.sub_diag.
Qed.

Lemma rest_chr s ts : rest_is s ts -> chr buf s = match ts with [] => 0 | t :: _ => default 32 (head (tok_text t)) end.
Proof.
  intros [E _]. destruct ts as [|t ts]; [exact (chr_drop _ _ _ E)|]. rewrite text_cons in E.
  destruct (tok_text t) as [|c l] eqn:Et; simpl; eapply chr_drop; rewrite E; simpl; reflexivity.
Qed.

Lemma tok_first t : tok_ok t -> exists c l, tok_text t = c :: l /\ c <> 0 /\ is_white c = false.
Proof.
  destruct t as [w|c|]; simpl.
  - intros [Hne Hw]. destruct w as [|c w]; [done|]. apply Forall_cons in Hw as [[H0 Hc] _].
    exists c, w. by destruct (word_char c Hc).
  - intros Hc. exists c, []. by destruct (symbol_char c Hc) as (? & ? & _).
  - intros _. exists (ch ">"), [ch ">"]. by vm_compute.
Qed.

Lemma rest_white s ts : rest_is s ts -> Forall tok_ok ts -> scan buf es is_white s = s.
Proof.
  intros HR Hok. apply scan_stay. pose proof (rest_chr _ _ HR) as Hc. destruct ts as [|t ts].
  - left. destruct HR as [_ <-]. simpl. lia.
  - right. apply Forall_cons in Hok as [Ht _]. destruct (tok_first t Ht) as (c & l & E & _ & Hw). by rewrite Hc, E.
Qed.

Lemma p_peek_rest toks s ts : rest_is s ts -> Forall tok_ok ts ->
  p_peek buf es toks s = Parsed (match ts with [] => false | t :: _ => bool_decide (tok_head t ∈ codes toks) end) s.
Proof.
  intros HR Hok. unfold p_peek, peek. rewrite (rest_white _ _ HR Hok), (rest_chr _ _ HR).
  destruct ts as [|t ts]; [done|]. apply Forall_cons in Hok as [Ht _].
  destruct (tok_first t Ht) as (c & l & E & H0 & _). unfold tok_head. rewrite E. simpl.
  by rewrite (proj2 (Z.eqb_neq _ _) H0).
Qed.

Lemma p_gettoken_end s : rest_is s [] -> p_gettoken buf es s = Parsed (0, s, s) s.
Proof.
  intros HR. unfold p_gettoken, gettoken. rewrite (rest_white _ _ HR), (rest_chr _ _ HR) by done. simpl.
  by rewrite (rest_white _ _ HR).
Qed.

Lemma rest_next s t ts : rest_is s (t :: ts) -> rest_is (s + length (tok_text t) + 1) ts.
Proof.
  intros [E L]. rewrite text_cons in E, L. rewrite length_app in L. simpl in L. split; [|lia].
  rewrite <-!drop_drop, E, <-app_assoc, drop_app_length. done.
Qed.

Lemma text_head ts : Forall tok_ok ts -> exists c l, text ts ++ [0] = c :: l /\ is_white c = false.
Proof.
  destruct 1 as [|t ts Ht Hts]; [by exists 0, []|]. destruct (tok_first t Ht) as (c & l & E & _ & Hw).
  rewrite text_cons, E. simpl. by eexists _, _.
Qed.

Lemma rest_token s t ts : rest_is s (t :: ts) -> drop s buf = tok_text t ++ 32 :: text ts ++ [0].
Proof. intros [E _]. by rewrite E, text_cons, <-app_assoc. Qed.

Lemma skip_blank s t ts : rest_is s (t :: ts) -> Forall tok_ok ts ->
  scan buf es is_white (s + length (tok_text t)) = (s + length (tok_text t) + 1)%nat.
Proof.
  intros HR Hts. destruct (text_head ts Hts) as (c & l & E & Hc).
  apply (scan_run is_white _ [32] c l); [|by repeat constructor|done|].
  - rewrite <-drop_drop, (rest_token _ _ _ HR), drop_app_length, E. done.
  - destruct HR as [_ <-]. rewrite text_cons, length_app. simpl. lia.
Qed.

Lemma p_gettoken_rest s t ts : rest_is s (t :: ts) -> Forall tok_ok (t :: ts) ->
  p_gettoken buf es s = Parsed (tok_code t, s, (s + length (tok_text t))%nat) (s + length (tok_text t) + 1)%nat.
Proof.
  intros HR Hok. unfold p_gettoken, gettoken. rewrite (rest_white _ _ HR Hok).
  apply Forall_cons in Hok as [Ht Hts]. pose proof (skip_blank _ _ _ HR Hts) as Hskip.
  pose proof (rest_token _ _ _ HR) as E. destruct t as [w|c|]; cbn [tok_text tok_code] in *.
  - destruct Ht as [Hne Hw]. destruct w as [|c w]; [done|]. pose proof (Forall_inv Hw) as [H0 Hc].
    destruct (word_char c Hc) as (_ & H1 & H2 & _). rewrite (chr_drop _ _ _ E).
    rewrite (proj2 (Z.eqb_neq _ _) H0), bool_decide_false, (proj2 (Z.eqb_neq _ _) H2) by done.
    assert (Es : scan buf es is_word s = (s + length (c :: w))%nat).
    { apply (scan_run is_word s (c :: w) 32 (text ts ++ [0])); [done| |done|].
      - eapply Forall_impl; [exact Hw|]. by intros ? [_ ?].
      - destruct HR as [_ <-]. rewrite text_cons, length_app. cbn [tok_text]. lia. }
    by rewrite Es, Hskip.
  - destruct (symbol_char c Ht) as (H0 & _). rewrite (chr_drop _ _ _ E), (proj2 (Z.eqb_neq _ _) H0).
    cbn [length] in *. rewrite Nat.add_1_r in *.
    destruct (decide (c = ch ">")) as [->|Hgt].
    + rewrite bool_decide_false by (cbn; set_solver). cbn [app] in E. rewrite Z.eqb_refl.
      assert (E2 : chr buf (S s) = 32) by (eapply chr_drop; rewrite <-Nat.add_1_r, <-drop_drop, E; reflexivity).
      rewrite E2. change (32 =? ch ">") with false. cbn iota. by rewrite Hskip.
    + rewrite bool_decide_true by (revert Ht Hgt; cbn; set_solver). by rewrite Hskip.
  - rewrite (chr_drop _ _ _ E). cbn [app length] in *.
    assert (E2 : chr buf (S s) = ch ">") by (eapply chr_drop; rewrite <-Nat.add_1_r, <-drop_drop, E; reflexivity).
    rewrite E2. rewrite bool_decide_false by (cbn; set_solver).
    change (ch ">" =? 0) with false. rewrite Z.eqb_refl. cbn iota. replace (S (S s)) with (s + 2)%nat by lia. by rewrite Hskip.
Qed.

(** ** Commands whose strings lie in the buffer *)
Definition lies (q e : nat) (w : list Z) : Prop :=
  (exists l, drop q buf = w ++ 32 :: l) /\ e = (q + length w)%nat /\ word_ok w.
Fixpoint lays (c : cmd) (sc : scmd) : Prop :=
  match c, sc with
  | Execcmd argv, SExec ws => Forall2 (fun a w => lies a.1 a.2 w) argv ws
  | Redircmd c q e m d, SRedir sc w m' d' => lays c sc /\ lies q e w /\ m = m' /\ d = d'
  | Pipecmd l r, SPipe sl sr | Listcmd l r, SList sl sr => lays l sl /\ lays r sr
  | Backcmd c, SBack sc => lays c sc
  | _, _ => False
  end.
Definition rlays (r : redir) (d : rdir) : Prop :=
  match d with
  | RIn w => lies (r_file r) (r_efile r) w /\ r_mode r = O_RDONLY /\ r_fd r = 0
  | ROut w | RApp w => lies (r_file r) (r_efile r) w /\ r_mode r = Z.lor O_WRONLY O_CREATE /\ r_fd r = 1
  end.

Lemma lays_redirs rs ds : Forall2 rlays rs ds -> forall c sc, lays c sc -> lays (foldl redirect c rs) (foldl sredir sc ds).
Proof.
  induction 1 as [|r d rs ds Hr _ IH]; intros c sc Hc; [done|]. simpl. apply IH.
  destruct d; destruct Hr as (? & ? & ?); simpl; tauto.
Qed.

(** A parse gives a result [Q], unless it nests too deeply. *)
Definition yields {A} (o : parsed A) (Q : A -> nat -> Prop) : Prop :=
  match o with Parsed a s => Q a s | Failed _ => False | Deep => True end.
Lemma yields_bind {A B} (m : P A) (f : A -> P B) s Q :
  yields (m s) (fun a s' => yields (f a s') Q) -> yields ((m ≫= f) s) Q.
Proof. unfold mbind, P_bind. by destruct (m s). Qed.
Lemma yields_mono {A} (o : parsed A) (Q Q' : A -> nat -> Prop) : (forall a s, Q a s -> Q' a s) -> yields o Q -> yields o Q'.
Proof. destruct o; simpl; auto. Qed.

Lemma y_peek {B} toks (f : bool -> P B) s ts b Q : rest_is s ts -> Forall tok_ok ts ->
  match ts with [] => false | t :: _ => bool_decide (tok_head t ∈ codes toks) end = b ->
  yields (f b s) Q -> yields ((p_peek buf es toks ≫= f) s) Q.
Proof. intros HR Hok Hb HQ. apply yields_bind. by rewrite (p_peek_rest _ _ _ HR Hok), Hb. Qed.

Lemma y_token {B} (f : Z * nat * nat -> P B) s t ts Q : rest_is s (t :: ts) -> Forall tok_ok (t :: ts) ->
  (forall s', rest_is s' ts -> yields (f (tok_code t, s, (s + length (tok_text t))%nat) s') Q) ->
  yields ((p_gettoken buf es ≫= f) s) Q.
Proof.
  intros HR Hok HQ. apply yields_bind. rewrite (p_gettoken_rest _ _ _ HR Hok). by apply HQ, rest_next.
Qed.

(** The next token, if there is one, starts with one of the characters. *)
Definition follow (cs : string) (ts : list token) : Prop :=
  match ts with [] => True | t :: _ => tok_head t ∈ codes cs end.

Lemma rest_lies s w ts : rest_is s (TWord w :: ts) -> word_ok w -> lies s (s + length w) w.
Proof. intros HR Hw. split; [|done]. exists (text ts ++ [0]). exact (rest_token _ _ _ HR). Qed.

Lemma rdir_toks_shape d : rdir_ok d -> exists t w, rdir_toks d = [t; TWord w] /\ tok_ok t /\ tok_head t ∈ codes "<>" /\
  word_ok w /\ (forall q e, lies q e w ->
    rlays (if tok_code t =? ch "<" then Redir q e O_RDONLY 0 else Redir q e (Z.lor O_WRONLY O_CREATE) 1) d).
Proof.
  intros Hd. destruct d as [w|w|w]; simpl in Hd; eexists _, w; (split; [reflexivity|]);
    (split; [cbn; set_solver|]); (split; [cbn; set_solver|]); (split; [exact Hd|]); intros q e Hl; by split.
Qed.

Lemma rdir_toks_ok ds : Forall rdir_ok ds -> Forall tok_ok (mjoin (rdir_toks <$> ds)).
Proof.
  induction 1 as [|d ds Hd _ IH]; [constructor|]. simpl. apply Forall_app. split; [|exact IH].
  destruct (rdir_toks_shape d Hd) as (t & w & -> & Ht & _ & Hw & _). by repeat constructor; destruct Hw.
Qed.

Lemma y_redirs ds k : forall fuel s, Forall rdir_ok ds -> Forall tok_ok k ->
  match k with [] => True | t :: _ => tok_head t ∉ codes "<>" end ->
  rest_is s (mjoin (rdir_toks <$> ds) ++ k) ->
  yields (parseredirs_loop buf es fuel s) (fun rs s' => Forall2 rlays rs ds /\ rest_is s' k).
Proof.
  induction ds as [|d ds IH]; intros fuel s Hds Hk Hf HR.
  - assert (Hp : forall f : bool -> P (list redir), yields (f false s) (fun rs s' => Forall2 rlays rs [] /\ rest_is s' k) ->
      yields ((p_peek buf es "<>" ≫= f) s) (fun rs s' => Forall2 rlays rs [] /\ rest_is s' k)).
    { intros f Hq. eapply y_peek; [exact HR|exact Hk| |exact Hq]. destruct k as [|t k]; [done|].
      by apply bool_decide_false. }
    destruct fuel; cbn [parseredirs_loop]; apply Hp; by split.
  - apply Forall_cons in Hds as [Hd Hds]. pose proof (rdir_toks_ok ds Hds) as Hts.
    destruct (rdir_toks_shape d Hd) as (t & w & E & Ht & Hh & Hw & Hl).
    change (mjoin (rdir_toks <$> d :: ds)) with (rdir_toks d ++ mjoin (rdir_toks <$> ds)) in HR. rewrite E in HR. cbn [app] in HR.
    assert (Hok : Forall tok_ok (t :: TWord w :: mjoin (rdir_toks <$> ds) ++ k)).
    { constructor; [done|]. constructor; [done|]. by apply Forall_app. }
    destruct fuel as [|fuel]; cbn [parseredirs_loop];
      (eapply y_peek; [exact HR|exact Hok|by apply bool_decide_true|]); [done|]. cbn [negb].
    eapply y_token; [exact HR|exact Hok|]. intros s1 R1. apply Forall_cons in Hok as [_ Hok].
    eapply y_token; [exact R1|exact Hok|]. intros s2 R2. cbn [tok_code tok_text]. rewrite Z.eqb_refl. cbn [negb].
    apply yields_bind. eapply yields_mono; [|by apply IH]. intros rs s3 [Hrs R3]. simpl. split; [|done].
    constructor; [|done]. by apply Hl, (rest_lies _ _ _ R1).
Qed.

Lemma arg_toks_ok args : Forall (fun a => word_ok a.1 /\ Forall rdir_ok a.2) args -> Forall tok_ok (mjoin (arg_toks <$> args)).
Proof.
  induction 1 as [|a args [Hw Hr] _ IH]; [constructor|]. simpl. constructor; [done|]. apply Forall_app.
  split; [by apply rdir_toks_ok|exact IH].
Qed.

Lemma word_no_symbol cs w : word_ok w -> Forall (fun c => is_word c = false) (codes cs) -> tok_head (TWord w) ∉ codes cs.
Proof.
  intros [Hne Hw] Hcs Hin. destruct w as [|c w]; [done|]. apply Forall_cons in Hw as [[_ Hc] _].
  rewrite Forall_forall in Hcs. specialize (Hcs _ Hin). unfold tok_head in Hcs. simpl in Hcs. congruence.
Qed.

(** The tokens after a command do not continue it. *)
Lemma follow_not cs cs' k : follow cs k -> Forall (fun c => c ∉ codes cs') (codes cs) ->
  match k with [] => True | t :: _ => tok_head t ∉ codes cs' end.
Proof. destruct k as [|t k]; [done|]. simpl. intros Hin Hcs. rewrite Forall_forall in Hcs. by apply Hcs. Qed.
Lemma peek_not cs cs' k : follow cs k -> Forall (fun c => c ∉ codes cs') (codes cs) ->
  match k with [] => false | t :: _ => bool_decide (tok_head t ∈ codes cs') end = false.
Proof.
  intros Hf Hcs. pose proof (follow_not _ _ _ Hf Hcs) as Hn. destruct k; [done|]. by apply bool_decide_false.
Qed.

Lemma args_head cs' args k : Forall (fun a => word_ok a.1 /\ Forall rdir_ok a.2) args -> follow "|)&;" k ->
  Forall (fun c => c ∉ codes cs') (codes "|)&;") -> Forall (fun c => is_word c = false) (codes cs') ->
  match mjoin (arg_toks <$> args) ++ k with [] => True | t :: _ => tok_head t ∉ codes cs' end.
Proof.
  intros Hargs Hf Hcs Hw. destruct args as [|[w ds] args]; [by apply (follow_not "|)&;")|].
  apply Forall_cons in Hargs as [[Hw' _] _]. by apply word_no_symbol.
Qed.

Lemma y_args args k : forall fuel argc s,
  Forall (fun a => word_ok a.1 /\ Forall rdir_ok a.2) args -> (argc + length args < MAXARGS)%nat ->
  Forall tok_ok k -> follow "|)&;" k -> rest_is s (mjoin (arg_toks <$> args) ++ k) ->
  yields (parseexec_loop buf es fuel argc s) (fun r s' =>
    Forall2 (fun a w => lies a.1 a.2 w) r.1 args.*1 /\ Forall2 rlays r.2 (mjoin args.*2) /\ rest_is s' k).
Proof.
  induction args as [|[w ds] args IH]; intros fuel argc s Hargs Hn Hk Hf HR.
  - destruct k as [|t k]; (destruct fuel as [|fuel]; cbn [parseexec_loop]).
    + eapply y_peek; [exact HR|exact Hk|reflexivity|]. done.
    + eapply y_peek; [exact HR|exact Hk|reflexivity|]. cbn iota. apply yields_bind. rewrite (p_gettoken_end s HR).
      by repeat (split; [apply Forall2_nil_2|]).
    + eapply y_peek; [exact HR|exact Hk|by apply bool_decide_true|]. cbn iota. by repeat (split; [apply Forall2_nil_2|]).
    + eapply y_peek; [exact HR|exact Hk|by apply bool_decide_true|]. cbn iota. by repeat (split; [apply Forall2_nil_2|]).
  - apply Forall_cons in Hargs as [[Hw Hds] Hargs]. cbn [fst snd] in Hw, Hds. cbn [length] in Hn.
    pose proof (rdir_toks_ok ds Hds) as Hd. pose proof (arg_toks_ok args Hargs) as Ha.
    change (mjoin (arg_toks <$> (w, ds) :: args) ++ k) with ((TWord w :: mjoin (rdir_toks <$> ds) ++ mjoin (arg_toks <$> args)) ++ k) in HR.
    cbn [app] in HR. rewrite <-app_assoc in HR.
    assert (Hok : Forall tok_ok (mjoin (rdir_toks <$> ds) ++ mjoin (arg_toks <$> args) ++ k)) by (by repeat (apply Forall_app; split)).
    assert (Hok1 : Forall tok_ok (TWord w :: mjoin (rdir_toks <$> ds) ++ mjoin (arg_toks <$> args) ++ k)) by (by constructor).
    destruct fuel as [|fuel]; cbn [parseexec_loop];
      (eapply y_peek; [exact HR|exact Hok1|apply bool_decide_false, word_no_symbol; [done|by repeat constructor]|]); [done|].
    cbn iota. eapply y_token; [exact HR|exact Hok1|]. intros s1 R1. cbn [tok_code tok_text].
    change (ch "a" =? 0) with false. rewrite Z.eqb_refl. cbn [negb]. rewrite (proj2 (Nat.leb_gt _ _)) by lia.
    apply yields_bind. eapply yields_mono; [|eapply (y_redirs ds (mjoin (arg_toks <$> args) ++ k)); [done|by apply Forall_app| |exact R1]].
    + intros rs s2 [Hrs R2]. apply yields_bind. eapply yields_mono; [|apply IH; [done|lia|done|done|exact R2]].
      intros [argv rs'] s3 (H1 & H2 & H3). simpl in *. split; [|split; [|done]].
      * constructor; [|done]. by apply (rest_lies _ _ _ HR).
      * by apply Forall2_app.
    + apply args_head; [done|done|repeat constructor; cbn; set_solver|by repeat constructor].
Qed.

Lemma y_back n k : forall fuel c s, Forall tok_ok k -> follow ");" k ->
  rest_is s (replicate n (TSym (ch "&")) ++ k) ->
  yields (parseback buf es fuel c s) (fun c' s' => c' = Nat.iter n Backcmd c /\ rest_is s' k).
Proof.
  induction n as [|n IH]; intros fuel c s Hk Hf HR.
  - destruct fuel as [|fuel]; cbn [parseback]; (eapply y_peek; [exact HR|exact Hk|apply (peek_not ");"); [done|]|]);
      try (repeat constructor; cbn; set_solver); done.
  - cbn [replicate app] in HR.
    assert (Hok : Forall tok_ok (TSym (ch "&") :: replicate n (TSym (ch "&")) ++ k)).
    { change (Forall tok_ok (replicate (S n) (TSym (ch "&")) ++ k)). apply Forall_app. split; [|done].
      apply Forall_replicate. cbn. set_solver. }
    destruct fuel as [|fuel]; cbn [parseback];
      (eapply y_peek; [exact HR|exact Hok|apply bool_decide_true; cbn; set_solver|]); [done|]. cbn [negb].
    eapply y_token; [exact HR|exact Hok|]. intros s1 R1. eapply yields_mono; [|by apply IH].
    intros c' s2 [-> R2]. split; [|done]. by rewrite Nat.iter_swap.
Qed.

Lemma syntax_toks_ok :
  (forall l, sline_ok l -> Forall tok_ok (line_toks l)) /\
  (forall p, pipeline_ok p -> Forall tok_ok (pipeline_toks p)) /\
  (forall e, simple_ok e -> Forall tok_ok (simple_toks e)).
Proof.
  assert (Hb : forall n, Forall tok_ok (replicate n (TSym (ch "&")))) by (intros; apply Forall_replicate; cbn; set_solver).
  apply syntax_ind; cbn [sline_ok pipeline_ok simple_ok line_toks pipeline_toks simple_toks].
  - intros p IHp n Hp. apply Forall_app. auto.
  - intros p IHp n l IHl [Hp Hl]. repeat (apply Forall_app; split); auto. constructor; [cbn; set_solver|auto].
  - auto.
  - intros e IHe p IHp [He Hp]. apply Forall_app. split; [auto|]. constructor; [cbn; set_solver|auto].
  - intros rs args (Hr & Ha & _). apply Forall_app. split; [by apply rdir_toks_ok|by apply arg_toks_ok].
  - intros l IHl rs [Hl Hr]. constructor; [cbn; set_solver|]. apply Forall_app. split; [auto|].
    constructor; [cbn; set_solver|by apply rdir_toks_ok].
Qed.

Lemma lays_back n : forall c sc, lays c sc -> lays (Nat.iter n Backcmd c) (Nat.iter n SBack sc).
Proof. induction n as [|n IH]; intros c sc Hc; [done|]. simpl. by apply IH. Qed.

Definition y_line l := forall depth k s, sline_ok l -> Forall tok_ok k -> follow ")" k -> rest_is s (line_toks l ++ k) ->
  yields (parseline buf es depth s) (fun c s' => lays c (line_cmd l) /\ rest_is s' k).
Definition y_pipeline p := forall depth k s, pipeline_ok p -> Forall tok_ok k -> follow ")&;" k -> rest_is s (pipeline_toks p ++ k) ->
  yields (parsepipe buf es depth s) (fun c s' => lays c (pipeline_cmd p) /\ rest_is s' k).
Definition y_simple e := forall depth k s, simple_ok e -> Forall tok_ok k -> follow "|)&;" k -> rest_is s (simple_toks e ++ k) ->
  yields (parseexec buf es depth s) (fun c s' => lays c (simple_cmd e) /\ rest_is s' k).

(** The [&]s and what follows a pipeline. *)
Lemma follow_back n k : follow ");" k -> follow ")&;" (replicate n (TSym (ch "&")) ++ k).
Proof. destruct n; simpl; [|intros _; cbn; set_solver]. destruct k; [done|]. cbn. set_solver. Qed.
Lemma follow_weaken cs cs' k : follow cs k -> Forall (fun c => c ∈ codes cs') (codes cs) -> follow cs' k.
Proof. destruct k as [|t k]; [done|]. simpl. intros Hin Hcs. rewrite Forall_forall in Hcs. by apply Hcs. Qed.

Lemma y_line_end p n : y_pipeline p -> y_line (LEnd p n).
Proof.
  intros IHp [|d] k s Hp Hk Hf HR; [done|]. cbn [parseline line_toks line_cmd sline_ok] in *. rewrite <-app_assoc in HR.
  assert (Hf' : follow ");" k) by (eapply follow_weaken; [done|]; repeat constructor; cbn; set_solver).
  assert (Hb : Forall tok_ok (replicate n (TSym (ch "&")) ++ k)).
  { apply Forall_app. split; [|done]. apply Forall_replicate. cbn. set_solver. }
  apply yields_bind. eapply yields_mono; [|apply IHp; [done|exact Hb|by apply follow_back|exact HR]]. intros c s1 [Hc R1].
  apply yields_bind. eapply yields_mono; [|by apply (y_back n k)]. intros c1 s2 [-> R2].
  eapply y_peek; [exact R2|exact Hk|apply (peek_not ")"); [done|]; repeat constructor; cbn; set_solver|].
  split; [by apply lays_back|done].
Qed.

Lemma y_line_seq p n l : y_pipeline p -> y_line l -> y_line (LSeq p n l).
Proof.
  intros IHp IHl [|d] k s [Hp Hl] Hk Hf HR; [done|]. cbn [parseline line_toks line_cmd] in *. rewrite <-!app_assoc in HR. cbn [app] in HR.
  assert (Hl1 : Forall tok_ok (TSym (ch ";") :: line_toks l ++ k)).
  { constructor; [cbn; set_solver|]. apply Forall_app. split; [by apply syntax_toks_ok|done]. }
  assert (Hb : Forall tok_ok (replicate n (TSym (ch "&")) ++ TSym (ch ";") :: line_toks l ++ k)).
  { apply Forall_app. split; [|done]. apply Forall_replicate. cbn. set_solver. }
  apply yields_bind. eapply yields_mono; [|apply IHp; [done|exact Hb|apply follow_back; cbn; set_solver|exact HR]]. intros c s1 [Hc R1].
  apply yields_bind. eapply yields_mono; [|apply (y_back n); [exact Hl1|cbn; set_solver|exact R1]]. intros c1 s2 [-> R2].
  eapply y_peek; [exact R2|exact Hl1|apply bool_decide_true; cbn; set_solver|]. cbn iota.
  eapply y_token; [exact R2|exact Hl1|]. intros s3 R3.
  apply yields_bind. eapply yields_mono; [|by apply (IHl _ k)]. intros c2 s4 [Hc2 R4]. split; [|done].
  split; [by apply lays_back|done].
Qed.

Lemma y_pipe_one e : y_simple e -> y_pipeline (POne e).
Proof.
  intros IHe [|d] k s He Hk Hf HR; [done|]. cbn [parsepipe pipeline_toks pipeline_cmd pipeline_ok] in *.
  apply yields_bind. eapply yields_mono; [|apply IHe; [done|exact Hk| |exact HR]].
  - intros c s1 [Hc R1]. eapply y_peek; [exact R1|exact Hk|apply (peek_not ")&;"); [done|]; repeat constructor; cbn; set_solver|].
    done.
  - eapply follow_weaken; [done|]. repeat constructor; cbn; set_solver.
Qed.

Lemma y_pipe_more e p : y_simple e -> y_pipeline p -> y_pipeline (PMore e p).
Proof.
  intros IHe IHp [|d] k s [He Hp] Hk Hf HR; [done|]. cbn [parsepipe pipeline_toks pipeline_cmd] in *. rewrite <-app_assoc in HR. cbn [app] in HR.
  assert (Hp1 : Forall tok_ok (TSym (ch "|") :: pipeline_toks p ++ k)).
  { constructor; [cbn; set_solver|]. apply Forall_app. split; [by apply syntax_toks_ok|done]. }
  apply yields_bind. eapply yields_mono; [|apply IHe; [done|exact Hp1|cbn; set_solver|exact HR]].
  intros c s1 [Hc R1]. eapply y_peek; [exact R1|exact Hp1|apply bool_decide_true; cbn; set_solver|]. cbn iota.
  eapply y_token; [exact R1|exact Hp1|]. intros s2 R2.
  apply yields_bind. eapply yields_mono; [|by apply (IHp _ k)]. intros c2 s3 [Hc2 R3]. by split.
Qed.

Lemma y_simple_exec rs args : y_simple (Simple rs args).
Proof.
  intros [|d] k s (Hrs & Hargs & Hn) Hk Hf HR; [done|]. cbn [parseexec simple_toks simple_cmd] in *. rewrite <-app_assoc in HR.
  assert (Ha : Forall tok_ok (mjoin (arg_toks <$> args) ++ k)) by (apply Forall_app; split; [by apply arg_toks_ok|done]).
  eapply (y_peek "(" _ _ _ false); [exact HR|apply Forall_app; split; [by apply rdir_toks_ok|done]| |].
  - destruct Hrs as [|r rs Hr _].
    + assert (Hh := args_head "(" args k Hargs Hf ltac:(repeat constructor; cbn; set_solver) ltac:(by repeat constructor)). change (mjoin (rdir_toks <$> [])) with (@nil token). cbn [app].
      destruct (mjoin (arg_toks <$> args) ++ k); [done|]. by apply bool_decide_false.
    + destruct (rdir_toks_shape r Hr) as (t & w & E & _ & Hh & _).
      change (mjoin (rdir_toks <$> r :: rs)) with (rdir_toks r ++ mjoin (rdir_toks <$> rs)). rewrite E. cbn [app].
      apply bool_decide_false. revert Hh. change (codes "<>") with [60; 62]. change (codes "(") with [40].
      rewrite !elem_of_cons, !elem_of_nil. lia.
  - cbn iota. apply yields_bind.
    eapply yields_mono; [|eapply (y_redirs rs (mjoin (arg_toks <$> args) ++ k)); [done|exact Ha| |exact HR]].
    + intros rs1 s1 [H1 R1]. apply yields_bind.
      eapply yields_mono; [|eapply (y_args args k); [done|exact Hn|exact Hk|exact Hf|exact R1]].
      intros [argv rs2] s2 (H2 & H3 & R2). simpl in H2, H3. split; [|exact R2]. apply lays_redirs; [by apply Forall2_app|exact H2].
    + apply args_head; [done|done|repeat constructor; cbn; set_solver|by repeat constructor].
Qed.

Lemma y_simple_block l rs : y_line l -> y_simple (Block l rs).
Proof.
  intros IHl [|d] k s [Hl Hrs] Hk Hf HR; cbn [parseexec simple_toks simple_cmd] in *; [done|].
  assert (Hk1 : Forall tok_ok (TSym (ch ")") :: mjoin (rdir_toks <$> rs) ++ k)).
  { constructor; [cbn; set_solver|]. apply Forall_app. split; [by apply rdir_toks_ok|done]. }
  cbn [app] in HR. rewrite <-app_assoc in HR. cbn [app] in HR.
  assert (Hok : Forall tok_ok (TSym (ch "(") :: line_toks l ++ TSym (ch ")") :: mjoin (rdir_toks <$> rs) ++ k)).
  { constructor; [cbn; set_solver|]. apply Forall_app. split; [by apply syntax_toks_ok|done]. }
  eapply y_peek; [exact HR|exact Hok|apply bool_decide_true; cbn; set_solver|]. cbn iota.
  destruct d as [|d]; [done|]. cbn [parseblock].
  eapply y_peek; [exact HR|exact Hok|apply bool_decide_true; cbn; set_solver|]. cbn [negb].
  eapply y_token; [exact HR|exact Hok|]. intros s1 R1.
  apply yields_bind. eapply yields_mono; [|apply (IHl d _ s1 Hl Hk1); [cbn; set_solver|exact R1]]. intros c s2 [Hc R2].
  eapply y_peek; [exact R2|exact Hk1|apply bool_decide_true; cbn; set_solver|]. cbn [negb].
  eapply y_token; [exact R2|exact Hk1|]. intros s3 R3.
  apply yields_bind. eapply yields_mono; [|eapply (y_redirs rs k); [done|exact Hk| |exact R3]].
  - intros rs1 s4 [H4 R4]. split; [by apply lays_redirs|done].
  - apply (follow_not "|)&;"); [done|]. repeat constructor; cbn; set_solver.
Qed.

Lemma y_parse l : y_line l.
Proof.
  revert l. apply (line_ind3 y_line y_pipeline y_simple).
  - intros. by apply y_line_end.
  - intros. by apply y_line_seq.
  - intros. by apply y_pipe_one.
  - intros. by apply y_pipe_more.
  - intros. apply y_simple_exec.
  - intros. by apply y_simple_block.
Qed.

(** ** Terminating the strings *)
Fixpoint ends (c : cmd) : list nat :=
  match c with
  | Execcmd argv => argv.*2
  | Redircmd c _ e _ _ => ends c ++ [e]
  | Pipecmd l r | Listcmd l r => ends l ++ ends r
  | Backcmd c => ends c
  end.
Definition nul_at (l : list nat) (b : list Z) : list Z := foldl (fun b e => <[e := 0]> b) b l.

Lemma nulterminate_ends c : forall b, nulterminate c b = nul_at (ends c) b.
Proof.
  unfold nul_at. induction c as [argv|c IH q e m d|l IHl r IHr|l IHl r IHr|c IH]; intros b; simpl.
  - revert b. induction argv as [|a argv IH]; intros b; [done|]. simpl. apply IH.
  - by rewrite foldl_app, IH.
  - by rewrite foldl_app, IHl, IHr.
  - by rewrite foldl_app, IHl, IHr.
  - apply IH.
Qed.

Lemma nul_at_lookup l : forall b k, nul_at l b !! k = if decide (k ∈ l) then (fun _ => 0) <$> b !! k else b !! k.
Proof.
  induction l as [|e l IH]; intros b k; [done|]. change (nul_at (e :: l) b) with (nul_at l (<[e := 0]> b)). rewrite IH.
  destruct (decide (k = e)) as [->|Hne].
  - rewrite (decide_True (P := e ∈ e :: l)) by set_solver. destruct (decide (e < length b)%nat) as [Hlt|Hge].
    + rewrite list_lookup_insert_eq by done. destruct (lookup_lt_is_Some_2 b e Hlt) as [x ->]. by case_decide.
    + rewrite list_insert_ge by lia. rewrite (lookup_ge_None_2 b e) by lia. by case_decide.
  - rewrite list_lookup_insert_ne by done. destruct (decide (k ∈ l)); [rewrite decide_True by set_solver|rewrite decide_False by set_solver]; done.
Qed.

Lemma cstr_prefix w : forall l, (forall i x, w !! i = Some x -> l !! i = Some x /\ x <> 0) -> l !! length w = Some 0 -> cstr l = Some w.
Proof.
  induction w as [|c w IH]; intros [|c' l] Hw Hl; [done|by injection Hl as ->|by destruct (Hw 0%nat c eq_refl) as [[=] _]|].
  cbn [cstr].
  destruct (Hw 0%nat c eq_refl) as [[= <-] Hc]. rewrite (proj2 (Z.eqb_neq _ _) Hc), IH; [done| |done].
  intros i x Hx. apply (Hw (S i) x Hx).
Qed.

Lemma lies_str E q e w : lies q e w -> e ∈ E -> (forall e, e ∈ E -> buf !! e = Some 32) -> str (nul_at E buf) q = w.
Proof.
  intros [[l Hd] [-> [_ Hw]]] He HE. unfold str.
  assert (Hk : forall k, buf !! (q + k)%nat = (w ++ 32 :: l) !! k) by (intros k; by rewrite <-lookup_drop, Hd).
  rewrite (cstr_prefix w); [done| |].
  - intros i x Hx. rewrite Forall_lookup in Hw. destruct (Hw i x Hx) as [H0 Hc]. split; [|done].
    rewrite lookup_drop, nul_at_lookup, Hk, (lookup_app_l_Some _ _ _ _ Hx). rewrite decide_False; [done|].
    intros Hin. apply HE in Hin. rewrite Hk, (lookup_app_l_Some _ _ _ _ Hx) in Hin. injection Hin as ->.
    by destruct (word_char 32 Hc) as (_ & _ & _ & ?).
  - rewrite lookup_drop, nul_at_lookup, decide_True by done. by rewrite HE.
Qed.

Lemma lays_strs E c : forall sc, lays c sc -> (forall e, e ∈ ends c -> e ∈ E) -> (forall e, e ∈ E -> buf !! e = Some 32) ->
  strs (nul_at E buf) c = sc.
Proof.
  induction c as [argv|c IH q e m d|l IHl r IHr|l IHl r IHr|c IH]; intros [ws|sc w m' d'|sl sr|sl sr|sc] HL HE H32; try done; simpl in HL, HE |- *.
  - f_equal. induction HL as [|a w argv ws Ha _ IH]; [done|]. simpl. f_equal.
    + eapply lies_str; [exact Ha|apply HE; simpl; set_solver|done].
    + apply IH. intros e He. apply HE. simpl. set_solver.
  - destruct HL as (Hc & Hl & -> & ->). f_equal; [apply IH; [done|set_solver|done]|].
    eapply lies_str; [exact Hl|apply HE; set_solver|done].
  - destruct HL as [Hl Hr]. f_equal; [apply IHl|apply IHr]; try done; set_solver.
  - destruct HL as [Hl Hr]. f_equal; [apply IHl|apply IHr]; try done; set_solver.
  - f_equal. by apply IH.
Qed.

Lemma lies_end q e w : lies q e w -> buf !! e = Some 32.
Proof. intros [[l Hd] [-> _]]. rewrite <-lookup_drop, Hd. by rewrite lookup_app_r, Nat.sub_diag. Qed.

Lemma lays_ends c : forall sc, lays c sc -> forall e, e ∈ ends c -> buf !! e = Some 32.
Proof.
  induction c as [argv|c IH q e m d|l IHl r IHr|l IHl r IHr|c IH]; intros [ws|sc w m' d'|sl sr|sl sr|sc] HL x Hx; try done; simpl in HL, Hx.
  - induction HL as [|a w argv ws Ha _ IH]; [by apply elem_of_nil in Hx|]. simpl in Hx.
    apply elem_of_cons in Hx as [->|Hx]; [by eapply lies_end|auto].
  - destruct HL as (Hc & Hl & _). apply elem_of_app in Hx as [Hx| ->%list_elem_of_singleton]; [by eapply IH|by eapply lies_end].
  - destruct HL as [Hl Hr]. apply elem_of_app in Hx as [Hx|Hx]; [by eapply IHl|by eapply IHr].
  - destruct HL as [Hl Hr]. apply elem_of_app in Hx as [Hx|Hx]; [by eapply IHl|by eapply IHr].
  - by eapply IH.
Qed.
End reading.

Lemma text_nonzero ts : Forall tok_ok ts -> Forall (fun c => c <> 0) (text ts).
Proof.
  induction 1 as [|t ts Ht _ IH]; [constructor|]. rewrite text_cons. apply Forall_app. split; [|by constructor].
  destruct t as [w|c|]; simpl in *.
  - destruct Ht as [_ Hw]. eapply Forall_impl; [exact Hw|]. by intros c [? _].
  - constructor; [by destruct (symbol_char c Ht)|constructor].
  - by repeat constructor.
Qed.

Lemma parses l : sline_ok l ->
  exists c buf' s, parsecmd (4 * length (text (line_toks l)) + 4) (text (line_toks l) ++ [0]) = Parsed (c, buf') s /\
    strs buf' c = line_cmd l.
Proof.
  intros Hl. set (t := text (line_toks l)). set (es := length t). set (buf := t ++ [0]).
  assert (Hok : Forall tok_ok (line_toks l)) by (by apply syntax_toks_ok).
  assert (Hes : strlen buf = Some es) by (apply strlen_spec; exists t, []; split; [done|]; split; [done|]; by apply text_nonzero).
  assert (HR : rest_is buf es 0 (line_toks l ++ [])) by (by rewrite app_nil_r).
  pose proof (y_parse buf es l (4 * es + 4)%nat [] 0%nat Hl ltac:(constructor) I HR) as Hy.
  destruct (parse_stops buf es (strlen_end _ _ Hes) (4 * es + 4) 0 ltac:(lia)) as [Hp _]. specialize (Hp ltac:(lia)).
  unfold parsecmd. rewrite Hes. destruct (parseline buf es _ 0%nat) as [c s| |]; [|done..]. destruct Hy as [Hy R].
  assert (Epk : peek buf es EmptyString s = (false, s)).
  { pose proof (p_peek_rest buf es EmptyString s [] R ltac:(constructor)) as E. unfold p_peek in E.
    destruct (peek buf es EmptyString s) as [b s']. by injection E as -> ->. }
  rewrite Epk. assert (Es : s = es) by (destruct R as [_ <-]; simpl; lia). rewrite Es, Nat.eqb_refl. cbn [negb].
  eexists _, _, _. split; [reflexivity|]. rewrite nulterminate_ends.
  by apply lays_strs; [|done|by eapply lays_ends].
Qed.

(** C16: The parser of the shell inverts printing: the text of a command line of
    the grammar, with pipelines, lists, background commands, redirections and
    parentheses, parses to the command that the line means, with its words as
    NUL-terminated strings in the buffer. *)
Theorem parse_print (l : line) (Hl : sline_ok l) :
  exists c buf' s, parsecmd (4 * length (text (line_toks l)) + 4) (text (line_toks l) ++ [0]) = Parsed (c, buf') s /\
    strs buf' c = line_cmd l.
Proof. by apply parses. Qed.

Lemma parse_print_witness :
  let l := LSeq (PMore (Simple [] [(codes "ls", [])]) (POne (Simple [RIn (codes "in")] [(codes "wc", [ROut (codes "out")])]))) 1
             (LEnd (POne (Block (LEnd (POne (Simple [] [(codes "a", []); (codes "b", [])])) 0) [RApp (codes "log")])) 0) in
  text (line_toks l) = codes "ls | < in wc > out & ; ( a b ) >> log " /\
  exists c buf' s, parsecmd (4 * length (text (line_toks l)) + 4) (text (line_toks l) ++ [0]) = Parsed (c, buf') s /\
    strs buf' c = line_cmd l.
Proof.
  intros l. split; [reflexivity|]. apply (parse_print l).
  repeat split; repeat (constructor || split || discriminate); vm_compute; lia.
Defined.

(** ** Running commands *)

(** What a file descriptor is open on; [OOther] is what the shell was started with. *)
Inductive fobj :=
| OFile (path : list Z) (mode : Z)
| ORead (pipe : nat)
| OWrite (pipe : nat)
| OOther (n : nat).
Abbreviation fdtab := (gmap Z fobj).

(** The lowest free descriptor of the [NOFILE] ones. *)
Fixpoint alloc_from (k : nat) (fd : Z) (t : fdtab) : Z :=
  match k with
  | O => -1
  | S k' => match t !! fd with None => fd | Some _ => alloc_from k' (fd + 1) t end
  end.
Definition alloc (t : fdtab) : Z := alloc_from 16 0 t.

(** The programs that a process and its children execute, with their descriptors,
    when no system call fails; [n] counts the pipes. *)
Fixpoint launches (a : act) (t : fdtab) (n : nat) : list (list (list Z) * fdtab) * nat :=
  match a with
  | AExit => ([], n)
  | AExec argv _ => ([(argv, t)], n)
  | AClose fd k => launches k (delete fd t) n
  | AOpen file mode k => launches (k (alloc t)) (<[alloc t := OFile file mode]> t) n
  | APipe k =>
      let r := alloc t in
      let t := <[r := ORead n]> t in
      let w := alloc t in
      launches (k (Some (r, w))) (<[w := OWrite n]> t) (S n)
  | ADup fd k => launches k (match t !! fd with Some o => <[alloc t := o]> t | None => t end) n
  | AFork _ child parent =>
      let '(l1, n1) := launches child t n in
      let '(l2, n2) := launches parent t n1 in (l1 ++ l2, n2)
  | AWait k => launches k t n
  | AChdir _ k => launches (k 0) t n
  | APrint _ k => launches k t n
  end.

(** What a command means. *)
Fixpoint runs (c : scmd) (t : fdtab) (n : nat) : list (list (list Z) * fdtab) * nat :=
  match c with
  | SExec [] => ([], n)
  | SExec argv => ([(argv, t)], n)
  | SRedir c file mode fd => runs c (<[fd := OFile file mode]> t) n
  | SPipe l r =>
      let '(l1, n1) := runs l (<[1 := OWrite n]> t) (S n) in
      let '(l2, n2) := runs r (<[0 := ORead n]> t) n1 in (l1 ++ l2, n2)
  | SList l r =>
      let '(l1, n1) := runs l t n in
      let '(l2, n2) := runs r t n1 in (l1 ++ l2, n2)
  | SBack c => runs c t n
  end.

(** Redirections are of the standard input and output. *)
Fixpoint std_redirs (c : scmd) : Prop :=
  match c with
  | SExec _ => True
  | SRedir c _ _ fd => (fd = 0 \/ fd = 1) /\ std_redirs c
  | SPipe l r | SList l r => std_redirs l /\ std_redirs r
  | SBack c => std_redirs c
  end.
(** Descriptors 0, 1 and 2 are open, and no others. *)
Definition std (t : fdtab) : Prop := forall fd, is_Some (t !! fd) <-> 0 <= fd < 3.

Lemma alloc_from_spec k fd t : 0 <= k -> (forall i, fd <= i < fd + k -> is_Some (t !! i)) -> t !! (fd + k) = None ->
  forall m, k < Z.of_nat m -> alloc_from m fd t = fd + k.
Proof.
  intros Hk. revert fd. pattern k. apply natlike_ind; [|clear k Hk|done].
  - intros fd _ Hn [|m] Hm; [lia|]. rewrite Z.add_0_r in *. simpl. by rewrite Hn.
  - intros k Hk IH fd Hs Hn [|m] Hm; [lia|]. simpl. destruct (Hs fd ltac:(lia)) as [o ->].
    rewrite (IH (fd + 1)); [lia| |by replace (fd + 1 + k) with (fd + Z.succ k) by lia|lia].
    intros i Hi. apply Hs. lia.
Qed.
Lemma alloc_spec fd t : 0 <= fd < 16 -> (forall i, 0 <= i < fd -> is_Some (t !! i)) -> t !! fd = None -> alloc t = fd.
Proof. intros Hfd Hs Hn. unfold alloc. rewrite (alloc_from_spec fd 0); [done|lia|done|done|lia]. Qed.

Lemma std_None t fd : std t -> ~ 0 <= fd < 3 -> t !! fd = None.
Proof. intros Ht Hfd. apply eq_None_not_Some. by rewrite (Ht fd). Qed.
Lemma std_insert t fd o : std t -> 0 <= fd < 3 -> std (<[fd := o]> t).
Proof.
  intros Ht Hfd i. destruct (decide (fd = i)) as [->|Hne]; [rewrite lookup_insert_eq; by split|].
  rewrite lookup_insert_ne by done. apply Ht.
Qed.
Lemma alloc_closed t fd : std t -> fd = 0 \/ fd = 1 -> alloc (delete fd t) = fd.
Proof.
  intros Ht Hfd. apply alloc_spec; [lia| |apply lookup_delete_eq]. intros i Hi.
  rewrite lookup_delete_ne by lia. apply Ht. lia.
Qed.
Lemma alloc_pipe t o : std t -> alloc t = 3 /\ alloc (<[3 := o]> t) = 4.
Proof.
  intros Ht. split; (apply alloc_spec; [lia| |]).
  - intros i Hi. by apply Ht.
  - apply std_None; [done|lia].
  - intros i Hi. destruct (decide (i = 3)) as [->|]; [by rewrite lookup_insert_eq|]. rewrite lookup_insert_ne by done. apply Ht. lia.
  - rewrite lookup_insert_ne by done. apply std_None; [done|lia].
Qed.

(** The end [fd'] of a pipe at 3 and 4 becomes the descriptor [fd] of a child. *)
Lemma dup_end t o3 o4 fd fd' o : std t -> fd = 0 \/ fd = 1 -> fd' = 3 /\ o = o3 \/ fd' = 4 /\ o = o4 ->
  let t1 := delete fd (<[4 := o4]> (<[3 := o3]> t)) in
  t1 !! fd' = Some o /\ alloc t1 = fd /\ delete 4 (delete 3 (<[fd := o]> t1)) = <[fd := o]> t.
Proof.
  intros Ht Hfd Ho t1. split; [|split].
  - unfold t1. rewrite lookup_delete_ne by lia. destruct Ho as [[-> ->]|[-> ->]].
    + rewrite lookup_insert_ne by done. by rewrite lookup_insert_eq.
    + by rewrite lookup_insert_eq.
  - apply alloc_spec; [lia| |apply lookup_delete_eq]. intros i Hi. unfold t1.
    rewrite lookup_delete_ne, !lookup_insert_ne by lia. apply Ht. lia.
  - apply map_eq. intros i. unfold t1. destruct (decide (i = 4)) as [->|H4].
    { rewrite lookup_delete_eq, lookup_insert_ne by lia. symmetry. apply std_None; [done|lia]. }
    rewrite lookup_delete_ne by done. destruct (decide (i = 3)) as [->|H3].
    { rewrite lookup_delete_eq, lookup_insert_ne by lia. symmetry. apply std_None; [done|lia]. }
    rewrite lookup_delete_ne by done. destruct (decide (i = fd)) as [->|Hne]; [by rewrite !lookup_insert_eq|].
    by rewrite !lookup_insert_ne, lookup_delete_ne, !lookup_insert_ne by done.
Qed.

Lemma launches_runs buf c : forall t n, std t -> std_redirs (strs buf c) -> launches (runcmd buf c) t n = runs (strs buf c) t n.
Proof.
  induction c as [argv|c IH q e m fd|l IHl r IHr|l IHl r IHr|c IH]; intros t n Ht Hc; cbn [runcmd strs runs std_redirs] in *.
  - by destruct ((fun a => str buf a.1) <$> argv).
  - destruct Hc as [Hfd Hc]. cbn [launches]. rewrite (alloc_closed t fd Ht Hfd), insert_delete_eq.
    rewrite (proj2 (Z.ltb_ge _ _)) by lia. apply IH; [apply std_insert; [done|lia]|done].
  - destruct Hc as [Hl Hr]. cbn [launches]. destruct (alloc_pipe t (ORead n) Ht) as [E3 E4]. rewrite E3, E4.
    cbn [fork1 launches].
    destruct (dup_end t (ORead n) (OWrite n) 1 4 (OWrite n) Ht ltac:(by right) ltac:(by right)) as (L1 & L2 & L3).
    destruct (dup_end t (ORead n) (OWrite n) 0 3 (ORead n) Ht ltac:(by left) ltac:(by left)) as (R1 & R2 & R3).
    rewrite L1, L2, L3, R1, R2, R3. rewrite IHl by (first [done|apply std_insert; [done|lia]]).
    destruct (runs (strs buf l) _ _) as [l1 n1]. rewrite IHr by (first [done|apply std_insert; [done|lia]]).
    destruct (runs (strs buf r) _ _) as [l2 n2]. by rewrite app_nil_r.
  - destruct Hc as [Hl Hr]. cbn [fork1 launches]. rewrite IHl by done. destruct (runs (strs buf l) t n) as [l1 n1].
    by rewrite IHr.
  - cbn [fork1 launches]. rewrite IH by done. destruct (runs (strs buf c) t n) as [l1 n1]. by rewrite app_nil_r.
Qed.

Lemma line_std_redirs :
  (forall l, std_redirs (line_cmd l)) /\ (forall p, std_redirs (pipeline_cmd p)) /\ (forall e, std_redirs (simple_cmd e)).
Proof.
  assert (Hb : forall n c, std_redirs c -> std_redirs (Nat.iter n SBack c)) by (intros n c Hc; by induction n).
  assert (Hr : forall rs c, std_redirs c -> std_redirs (foldl sredir c rs)).
  { induction rs as [|r rs IH]; intros c Hc; [done|]. simpl. apply IH. destruct r; simpl; auto. }
  apply syntax_ind; cbn [line_cmd pipeline_cmd simple_cmd]; intros; try (split; [by auto|done]); auto.
  - by apply Hr.
Qed.


