(* ===== verification/Mkfs.v ===== *)
(** mkfs.c: the program that makes the file-system image.

    The image is a map from block numbers to blocks, which has the blocks that have
    been written. A failing check or system call ends the program: [Panic]. *)
From stdpp Require Import base tactics list numbers strings gmap.
From Stdlib Require Import Ascii.
From S2P Require Import Prelude CString FsTypes State Spinlock Console Log Fs.

#[local] Open Scope Z_scope.

Record mkst := Mkst { img : gmap Z (list Z); freeinode : Z; freeblock : Z }.
#[global] Instance eta_mkst : Eta mkst := fun s => Mkst (img s) (freeinode s) (freeblock s).
#[global] Instance eta_dinode : Eta dinode :=
  fun d => Dinode (d_type d) (d_major d) (d_minor d) (d_nlink d) (d_size d) (d_addrs d).
Abbreviation MK := (M mkst).

(** ** Layout *)
Definition NINODES : Z := 200.
Definition nbitmap : Z := FSSIZE / (BSIZE * 8) + 1.
Definition ninodeblocks : Z := NINODES / IPB + 1.
Definition nlog : Z := LOGSIZE.
Definition nmeta : Z := 2 + nlog + ninodeblocks + nbitmap.
Definition nblocks : Z := FSSIZE - nmeta.

(** Intel byte order: the number whose bytes in memory are those of [x], lowest
    first, on a host that is little-endian itself. *)
Definition xshort (x : Z) : Z := rd16 (le16 x) 0.
Definition xint (x : Z) : Z := rd32 (le32 x) 0.

Definition sb : superblock := {|
  sb_size := xint FSSIZE; sb_nblocks := xint nblocks; sb_ninodes := xint NINODES; sb_nlog := xint nlog;
  sb_logstart := xint 2; sb_inodestart := xint (2 + nlog); sb_bmapstart := xint (2 + nlog + ninodeblocks) |}.
(** [memmove(buf, &sb, sizeof(sb))] into a block of zeros. *)
Definition encode_sb (s : superblock) : list Z :=
  splice 0 (le32 (sb_size s) ++ le32 (sb_nblocks s) ++ le32 (sb_ninodes s) ++ le32 (sb_nlog s) ++
    le32 (sb_logstart s) ++ le32 (sb_inodestart s) ++ le32 (sb_bmapstart s)) zero_block.

(** ** Sectors and inodes *)
Definition wsect (sec : Z) (buf : list Z) : MK unit := modify (fun s => s <| img ::= <[sec := buf]> |>).
Definition rsect (sec : Z) : MK (list Z) := fun s =>
  match img s !! sec with Some b => Ret b s | None => Panic "read" s end.

Definition winode (inum : Z) (ip : dinode) : MK unit :=
  buf ← rsect (IBLOCK inum sb);
  wsect (IBLOCK inum sb) (write_dinode (dinode_off inum) ip buf).
Definition rinode (inum : Z) : MK dinode :=
  buf ← rsect (IBLOCK inum sb);
  mret (read_dinode buf (dinode_off inum)).

Definition ialloc (type : Z) : MK Z :=
  inum ← gets freeinode;
  modify (fun s => s <| freeinode ::= fun n => u32 (n + 1) |>);;
  winode inum (Dinode (xshort type) 0 0 (xshort 1) (xint 0) (replicate 13 0));;
  mret inum.

(** [freeblock++] *)
Definition newblock : MK Z :=
  b ← gets freeblock;
  modify (fun s => s <| freeblock ::= fun n => u32 (n + 1) |>);;
  mret b.

Definition balloc (used : Z) : MK unit :=
  if BSIZE * 8 <=? used then panic "assert"
  else wsect (sb_bmapstart sb) (foldl (fun d i => set_bit i d) zero_block (seqZ 0 used)).

(** The block [x] of [iappend] for the file's block [fbn], and the inode with it:
    the entry [k] of the indirect block, and the direct and indirect cases. *)
Definition indirect_entry (ind : Z) (k : nat) : MK Z :=
  indirect ← rsect ind;
  if rd32 indirect (4 * k) =? 0 then
    b ← newblock;
    wsect ind (wr32 (4 * k) (xint b) indirect);;
    mret (xint b)
  else mret (xint (rd32 indirect (4 * k))).

Definition addr (d : dinode) (n : Z) : Z := default 0 (d_addrs d !! Z.to_nat n).
Definition file_block (din : dinode) (fbn : Z) : MK (Z * dinode) :=
  if fbn <? NDIRECT then
    (if xint (addr din fbn) =? 0 then
       b ← newblock;
       mret (xint b, din <| d_addrs ::= <[Z.to_nat fbn := xint b]> |>)
     else mret (xint (addr din fbn), din))
  else
    (din ← (if xint (addr din NDIRECT) =? 0 then
              b ← newblock; mret (din <| d_addrs ::= <[Z.to_nat NDIRECT := xint b]> |>)
            else mret din);
     x ← indirect_entry (xint (addr din NDIRECT)) (Z.to_nat (fbn - NDIRECT));
     mret (x, din)).

(** [while(n > 0)]: a turn appends at least one byte. *)
Fixpoint iappend_loop (fuel : nat) (din : dinode) (off : Z) (p : list Z) : MK (dinode * Z) :=
  match p, fuel with
  | [], _ => mret (din, off)
  | _, O => nofuel
  | _, S f =>
      let fbn := off / BSIZE in
      if MAXFILE <=? fbn then panic "assert"
      else
        '(x, din) ← file_block din fbn;
        let n1 := Z.to_nat (Z.min (Z.of_nat (length p)) ((fbn + 1) * BSIZE - off)) in
        buf ← rsect x;
        wsect x (splice (Z.to_nat (off - fbn * BSIZE)) (take n1 p) buf);;
        iappend_loop f din (off + Z.of_nat n1) (drop n1 p)
  end.
Definition iappend (inum : Z) (p : list Z) : MK unit :=
  din ← rinode inum;
  '(din, off) ← iappend_loop (length p) din (xint (d_size din)) p;
  winode inum (din <| d_size := xint off |>).

(** ** main *)
Definition dirent (inum : Z) (name : list Z) : list Z := le16 (xshort inum) ++ take DIRSIZ (name ++ replicate DIRSIZ 0).

(** [read] of a file, [BSIZE] bytes at a time. *)
Fixpoint append_file (fuel : nat) (inum : Z) (data : list Z) : MK unit :=
  match data, fuel with
  | [], _ => mret tt
  | _, O => nofuel
  | _, S f => iappend inum (take (Z.to_nat BSIZE) data);; append_file f inum (drop (Z.to_nat BSIZE) data)
  end.

(** The name without the underscore that the programs' files have. *)
Definition shortname (name : list Z) : list Z :=
  match name with c :: l => if c =? ch "_" then l else name | [] => [] end.

(** A file of the command line: its name, and what it holds if it can be opened. *)
Definition add_file (rootino : Z) (f : list Z * option (list Z)) : MK unit :=
  if bool_decide (ch "/" ∈ f.1) then panic "assert"
  else match f.2 with
    | None => panic "open"
    | Some data =>
        inum ← ialloc T_FILE;
        iappend rootino (dirent inum (shortname f.1));;
        append_file (length data) inum data
    end.

(** The directory's size is rounded up to a block. *)
Definition fix_root (rootino : Z) : MK unit :=
  din ← rinode rootino;
  winode rootino (din <| d_size := xint ((xint (d_size din) / BSIZE + 1) * BSIZE) |>).

Definition mkfs (files : list (list Z * option (list Z))) : MK unit :=
  modify (fun s => s <| freeblock := nmeta |>);;
  for_all (seqZ 0 FSSIZE) (fun i => wsect i zero_block);;
  wsect 1 (encode_sb sb);;
  rootino ← ialloc T_DIR;
  if negb (rootino =? ROOTINO) then panic "assert"
  else
    iappend rootino (dirent rootino (codes "."));;
    iappend rootino (dirent rootino (codes ".."));;
    for_all files (add_file rootino);;
    fix_root rootino;;
    b ← gets freeblock;
    balloc b.

Definition mkst0 : mkst := Mkst ∅ 1 0.
