(* ===== verification/MkfsSpec.v ===== *)
(** mkfs.c makes an image with the files it was given, and a log that the kernel
    can start from. *)
From stdpp Require Import base tactics list numbers strings gmap.
From Stdlib Require Import Ascii.
From S2P Require Import Prelude CString FsTypes State Spinlock Console Log Fs FsSpec Ide Bio CacheSpec CrashSpec Crash Mkfs.

#[local] Open Scope Z_scope.

Lemma xint_small x : in_u32 x -> xint x = x.
Proof.
  intros Hx. unfold xint. pose proof (rd32_le32 [] x []) as E. simpl length in E. rewrite app_nil_l, app_nil_r in E.
  rewrite E. by apply Z.mod_small.
Qed.

(** ** One inode

    [bs] are its data blocks, and [ind] its indirect block, or 0. *)
Definition NB : nat := 512.

Record shape (im : gmap Z (list Z)) (din : dinode) (bs : list Z) (ind : Z) : Prop := {
  sh_addrs : d_addrs din = take 12 (bs ++ replicate 12 0) ++ [ind];
  sh_range : Forall (fun b => 0 < b < FSSIZE) bs;
  sh_len : (length bs <= 140)%nat;
  sh_none : (length bs <= 12)%nat -> ind = 0;
  sh_some : (12 < length bs)%nat -> 0 < ind < FSSIZE /\
    exists b, im !! ind = Some b /\ length b = NB /\
      forall j, (j < 128)%nat -> rd32 b (4 * j) = default 0 (bs !! (12 + j)%nat)
}.

(** The blocks that belong to it. *)
Definition owned (bs : list Z) (ind : Z) : list Z := bs ++ (if ind =? 0 then [] else [ind]).

Lemma owned_ind bs ind : ind <> 0 -> ind ∈ owned bs ind.
Proof. intros Hi. unfold owned. rewrite (proj2 (Z.eqb_neq _ _) Hi). apply elem_of_app. right. by apply list_elem_of_singleton. Qed.

(** The bytes in the blocks, zeros after the last one. *)
Definition contents (im : gmap Z (list Z)) (bs data : list Z) : Prop :=
  forall k, (k < NB * length bs)%nat ->
    exists a b, bs !! (k / NB)%nat = Some a /\ im !! a = Some b /\ b !! (k mod NB)%nat = Some (default 0 (data !! k)).

Lemma shape_frame im im' din bs ind :
  shape im din bs ind -> (ind <> 0 -> im' !! ind = im !! ind) -> shape im' din bs ind.
Proof.
  intros [H1 H2 H3 H4 H5] Hf. split; try done. intros Hl. destruct (H5 Hl) as [Hi (b & Hb & Hr)].
  split; [done|]. exists b. split; [|done]. rewrite Hf; [done|lia].
Qed.

Lemma contents_frame im im' bs data :
  contents im bs data -> (forall b, b ∈ bs -> im' !! b = im !! b) -> contents im' bs data.
Proof.
  intros Hc Hf k Hk0. destruct (Hc k Hk0) as (a & b & Ha & Hb & Hk). exists a, b. split; [done|].
  split; [|done]. rewrite Hf; [done|]. by eapply list_elem_of_lookup_2.
Qed.

Lemma shape_direct im din bs ind i : shape im din bs ind -> (i < 12)%nat ->
  default 0 (d_addrs din !! i) = default 0 (bs !! i).
Proof.
  intros HS Hi. rewrite (sh_addrs _ _ _ _ HS).
  assert (Hl : length (take 12 (bs ++ replicate 12 0)) = 12%nat) by (rewrite length_take, length_app, length_replicate; lia).
  rewrite lookup_app_l, lookup_take_lt by lia. destruct (decide (i < length bs)%nat) as [Hlt|Hge].
  - by rewrite lookup_app_l.
  - rewrite lookup_app_r by lia. rewrite (lookup_ge_None_2 bs) by lia.
    destruct (replicate 12 0 !! _) eqn:E; [|done]. by apply lookup_replicate in E as [-> _].
Qed.
Lemma shape_ind im din bs ind : shape im din bs ind -> default 0 (d_addrs din !! 12%nat) = ind.
Proof.
  intros HS. rewrite (sh_addrs _ _ _ _ HS).
  assert (Hl : length (take 12 (bs ++ replicate 12 0)) = 12%nat) by (rewrite length_take, length_app, length_replicate; lia).
  by rewrite lookup_app_r, Hl, Nat.sub_diag by lia.
Qed.

(** ** Allocating blocks *)

(** The blocks that have not been allocated are zero. *)
Definition fresh (s : mkst) : Prop := forall b, freeblock s <= b < FSSIZE -> img s !! b = Some zero_block.

Lemma newblock_spec s : 0 <= freeblock s < FSSIZE ->
  newblock s = Ret (freeblock s) (s <| freeblock := freeblock s + 1 |>).
Proof.
  intros Hb. unfold newblock, gets, modify, mbind, M_bind. cbn [obind]. unfold mret, M_ret. f_equal.
  change FSSIZE with 1000 in Hb. destruct s as [i f b]. simpl in *. unfold upd. simpl. f_equal.
  apply u32_small. unfold in_u32. lia.
Qed.

Lemma rd32_zero k : rd32 zero_block k = 0.
Proof.
  assert (Hz : forall i, byte_at zero_block i = 0).
  { intros i. unfold byte_at, zero_block. destruct (replicate 512 0 !! i) eqn:E; [|done]. by apply lookup_replicate in E as [-> _]. }
  unfold rd32, rd16. by rewrite !Hz.
Qed.

(** The entries of an indirect block. *)
Definition entries (b bs : list Z) : Prop :=
  length b = NB /\ forall j, (j < 128)%nat -> rd32 b (4 * j) = default 0 (bs !! (12 + j)%nat).

Lemma entries_add b bs x k : entries b bs -> length bs = (12 + k)%nat -> (k < 128)%nat -> in_u32 x ->
  entries (wr32 (4 * k) x b) (bs ++ [x]).
Proof.
  intros [Hl He] Hbs Hk Hx. unfold wr32.
  assert (Hlw : length (le32 x) = 4%nat) by done. assert (Hfit : (4 * k + length (le32 x) <= length b)%nat) by (rewrite Hl; unfold NB; lia).
  split; [by rewrite length_splice|]. intros j Hj. destruct (decide (j = k)) as [->|Hne].
  - rewrite <-(Nat.add_0_r (4 * k)) at 2. rewrite rd32_splice_in by lia.
    rewrite lookup_app_r, <-Hbs, Nat.sub_diag by lia. simpl.
    pose proof (xint_small x Hx) as E. unfold xint in E. exact E.
  - rewrite rd32_splice_out by lia. rewrite He by done. f_equal. destruct (decide (12 + j < length bs)%nat).
    + by rewrite lookup_app_l.
    + rewrite !lookup_ge_None_2; [done|rewrite length_app; simpl; lia|lia].
Qed.

Lemma block_u32 b : 0 <= b < FSSIZE -> in_u32 b.
Proof. change FSSIZE with 1000. unfold in_u32. lia. Qed.

Lemma indirect_entry_old s ind b bs k x :
  img s !! ind = Some b -> entries b bs -> (k < 128)%nat -> bs !! (12 + k)%nat = Some x -> 0 < x < FSSIZE ->
  indirect_entry ind k s = Ret x s.
Proof.
  intros Hb [_ He] Hk Hx Hr. unfold indirect_entry, rsect, mbind, M_bind. rewrite Hb. cbn [obind].
  rewrite He, Hx by done. cbn [default]. unfold default, id. rewrite (proj2 (Z.eqb_neq _ _)) by lia.
  unfold mret, M_ret. by rewrite xint_small by (apply block_u32; lia).
Qed.

Lemma indirect_entry_new s ind b bs k :
  img s !! ind = Some b -> entries b bs -> (k < 128)%nat -> length bs = (12 + k)%nat -> 0 < freeblock s < FSSIZE ->
  indirect_entry ind k s =
    Ret (freeblock s) (s <| freeblock := freeblock s + 1 |> <| img ::= <[ind := wr32 (4 * k) (freeblock s) b]> |>).
Proof.
  intros Hb [_ He] Hk Hx Hr. unfold indirect_entry, rsect, mbind, M_bind. rewrite Hb. cbn [obind].
  rewrite He, lookup_ge_None_2 by lia. cbn [default]. unfold default, id. rewrite Z.eqb_refl, newblock_spec by lia. cbn [obind].
  unfold wsect, modify. cbn [obind]. unfold mret, M_ret. by rewrite xint_small by (apply block_u32; lia).
Qed.

(** The result of [file_block]: the inode has the block, and what was allocated for
    it is at the end of the allocated blocks. *)
Record blocked (s : mkst) (din : dinode) (bs : list Z) (ind : Z) (fbn : nat)
    (x : Z) (din' : dinode) (s' : mkst) (bs' : list Z) (ind' : Z) : Prop := {
  bk_din : exists a, din' = din <| d_addrs := a |>;
  bk_shape : shape (img s') din' bs' ind';
  bk_at : bs' !! fbn = Some x;
  bk_bs : bs' = bs \/ bs' = bs ++ [x] /\ fbn = length bs /\ freeblock s <= x;
  bk_owned : owned bs' ind' ≡ₚ owned bs ind ++ seqZ (freeblock s) (freeblock s' - freeblock s);
  bk_free : freeblock s <= freeblock s' <= FSSIZE;
  bk_img : forall b, ind' = 0 \/ b <> ind' -> img s' !! b = img s !! b;
  bk_inode : freeinode s' = freeinode s
}.

Lemma addrs_snoc bs ind x : (length bs < 12)%nat ->
  <[length bs := x]> (take 12 (bs ++ replicate 12 0) ++ [ind]) = take 12 ((bs ++ [x]) ++ replicate 12 0) ++ [ind].
Proof.
  intros Hl. assert (Hlt : length (take 12 (bs ++ replicate 12 0)) = 12%nat) by (rewrite length_take, length_app, length_replicate; lia).
  rewrite insert_app_l by lia. f_equal. apply list_eq. intros i. destruct (decide (i = length bs)) as [->|Hne].
  - rewrite list_lookup_insert_eq, lookup_take_lt, <-app_assoc, lookup_app_r, Nat.sub_diag by lia. done.
  - rewrite list_lookup_insert_ne by done. destruct (decide (i < 12)%nat); [|by rewrite !lookup_take_ge by lia].
    rewrite !lookup_take_lt by done. destruct (decide (i < length bs)%nat).
    + by rewrite !lookup_app_l by (rewrite ?length_app; simpl; lia).
    + rewrite !lookup_app_r by (rewrite ?length_app; simpl; lia). rewrite length_app. change (length [x]) with 1%nat.
      by rewrite !lookup_replicate_2 by lia.
Qed.

Lemma seqZ_one a : seqZ a 1 = [a].
Proof. done. Qed.

Lemma file_block_direct s din bs ind fbn :
  shape (img s) din bs ind -> (fbn < 12)%nat -> (fbn <= length bs)%nat ->
  0 < freeblock s -> (fbn = length bs -> freeblock s < FSSIZE) -> freeblock s <= FSSIZE ->
  exists x din' s' bs' ind', file_block din (Z.of_nat fbn) s = Ret (x, din') s' /\ blocked s din bs ind fbn x din' s' bs' ind'.
Proof.
  intros HS Hf Hle Hfb0 Hroom Hfb. unfold file_block. rewrite (proj2 (Z.ltb_lt _ _)) by (change NDIRECT with 12; lia).
  unfold addr. rewrite Nat2Z.id, (shape_direct _ _ _ _ _ HS Hf). pose proof (sh_range _ _ _ _ HS) as HR.
  destruct (decide (fbn < length bs)%nat) as [Hlt|Hge].
  - destruct (lookup_lt_is_Some_2 bs fbn Hlt) as [x Hx]. rewrite Hx. cbn [default]. unfold default, id.
    assert (Hxr : 0 < x < FSSIZE) by exact (Forall_lookup_1 _ _ _ _ HR Hx).
    rewrite xint_small by (apply block_u32; lia). rewrite (proj2 (Z.eqb_neq _ _)) by lia.
    exists x, din, s, bs, ind. split; [done|]. split; try done.
    + exists (d_addrs din). by destruct din.
    + by left.
    + by rewrite Z.sub_diag, app_nil_r.
  - assert (Efb : fbn = length bs) by lia. specialize (Hroom Efb). rewrite lookup_ge_None_2 by lia. cbn [default]. unfold default, id.
    rewrite xint_small, Z.eqb_refl by (unfold in_u32; lia). unfold mbind, M_bind. rewrite newblock_spec by lia. cbn [obind].
    unfold mret, M_ret. rewrite !xint_small by (apply block_u32; lia).
    eexists _, _, _, (bs ++ [freeblock s]), ind. split; [reflexivity|]. split.
    + by eexists.
    + destruct HS as [S1 S2 S3 S4 S5]. split; simpl.
      * rewrite S1, Efb. apply addrs_snoc. lia.
      * apply Forall_app. split; [done|]. apply Forall_singleton. lia.
      * rewrite length_app. simpl. lia.
      * intros _. apply S4. lia.
      * rewrite length_app. simpl. lia.
    + by rewrite Efb, lookup_app_r, Nat.sub_diag.
    + by right.
    + simpl. replace (freeblock s + 1 - freeblock s) with 1 by lia. rewrite seqZ_one. unfold owned.
      rewrite (sh_none _ _ _ _ HS) by lia. rewrite Z.eqb_refl. by rewrite !app_nil_r.
    + simpl. lia.
    + done.
    + done.
Qed.

(** A new entry of the indirect block [ind1], which the inode has in state [s1]. *)
Lemma blocked_entry s din bs ind s1 din1 ind1 b :
  (exists a, din1 = din <| d_addrs := a |>) -> d_addrs din1 = take 12 (bs ++ replicate 12 0) ++ [ind1] ->
  Forall (fun b => 0 < b < FSSIZE) bs -> (12 <= length bs < 140)%nat -> 0 < ind1 < FSSIZE ->
  img s1 = img s -> freeinode s1 = freeinode s -> img s !! ind1 = Some b -> entries b bs ->
  freeblock s <= freeblock s1 < FSSIZE -> 0 < freeblock s1 ->
  owned bs ind1 ≡ₚ owned bs ind ++ seqZ (freeblock s) (freeblock s1 - freeblock s) ->
  exists s', indirect_entry ind1 (length bs - 12) s1 = Ret (freeblock s1) s' /\
    blocked s din bs ind (length bs) (freeblock s1) din1 s' (bs ++ [freeblock s1]) ind1.
Proof.
  intros Hdin Ha HR Hl Hi Him Hin Hb He Hf Hf0 Ho.
  rewrite (indirect_entry_new s1 ind1 b bs) by (first [by rewrite Him|done|lia]).
  eexists. split; [reflexivity|]. pose proof (entries_add b bs (freeblock s1) (length bs - 12) He ltac:(lia) ltac:(lia) ltac:(apply block_u32; lia)) as [E1 E2].
  split; simpl.
  - exact Hdin.
  - split; simpl.
    + rewrite Ha. f_equal. rewrite !take_app_le by (rewrite ?length_app; simpl; lia). done.
    + apply Forall_app. split; [done|]. apply Forall_singleton. lia.
    + rewrite length_app. simpl. lia.
    + rewrite length_app. simpl. lia.
    + intros _. split; [done|]. eexists. rewrite lookup_insert_eq. split; [done|]. by split.
  - by rewrite lookup_app_r, Nat.sub_diag.
  - right; split; [done|]; split; [done|lia].
  - replace (freeblock s1 + 1 - freeblock s) with ((freeblock s1 - freeblock s) + 1) by lia.
    rewrite seqZ_app by lia. replace (freeblock s + (freeblock s1 - freeblock s)) with (freeblock s1) by lia. rewrite seqZ_one.
    rewrite app_assoc, <-Ho. unfold owned. rewrite <-!app_assoc. apply Permutation_app_head. apply Permutation_app_comm.
  - lia.
  - intros b' Hne. rewrite lookup_insert_ne by (destruct Hne; [lia|done]). by rewrite Him.
  - done.
Qed.

Lemma file_block_indirect s din bs ind fbn :
  shape (img s) din bs ind -> fresh s -> (12 <= fbn < 140)%nat -> (fbn <= length bs)%nat -> 0 < freeblock s ->
  (fbn = length bs -> freeblock s + (if (fbn =? 12)%nat then 2 else 1) <= FSSIZE) -> freeblock s <= FSSIZE ->
  exists x din' s' bs' ind', file_block din (Z.of_nat fbn) s = Ret (x, din') s' /\ blocked s din bs ind fbn x din' s' bs' ind'.
Proof.
  intros HS Hfresh Hf Hle Hfb0 Hroom Hfb. unfold file_block. change NDIRECT with 12.
  rewrite (proj2 (Z.ltb_ge _ _)) by lia. unfold addr. change (Z.to_nat 12) with 12%nat. rewrite (shape_ind _ _ _ _ HS).
  replace (Z.to_nat (Z.of_nat fbn - 12)) with (fbn - 12)%nat by lia. pose proof (sh_range _ _ _ _ HS) as HR.
  destruct (decide (12 < length bs)%nat) as [Hl|Hl].
  - destruct (sh_some _ _ _ _ HS Hl) as [Hi (b & Hb & He)]. rewrite xint_small by (apply block_u32; lia).
    rewrite (proj2 (Z.eqb_neq _ _)) by lia. unfold mbind, M_bind. unfold mret, M_ret. cbn [obind].
    rewrite (shape_ind _ _ _ _ HS), xint_small by (apply block_u32; lia).
    destruct (decide (fbn < length bs)%nat) as [Hlt|Hge].
    + destruct (lookup_lt_is_Some_2 bs fbn Hlt) as [x Hx].
      rewrite (indirect_entry_old s ind b bs (fbn - 12) x); [|done|done|lia|by replace (12 + (fbn - 12))%nat with fbn by lia|exact (Forall_lookup_1 _ _ _ _ HR Hx)].
      cbn [obind]. exists x, din, s, bs, ind. split; [done|]. split; try done.
      * exists (d_addrs din). by destruct din.
      * by left.
      * by rewrite Z.sub_diag, app_nil_r.
    + assert (Efb : fbn = length bs) by lia. specialize (Hroom Efb). rewrite (proj2 (Nat.eqb_neq _ _)) in Hroom by lia.
      destruct (blocked_entry s din bs ind s din ind b) as (s' & E & HB); try done; try lia.
      * exists (d_addrs din). by destruct din.
      * apply (sh_addrs _ _ _ _ HS).
      * by rewrite Z.sub_diag, app_nil_r.
      * rewrite Efb, E. cbn [obind]. by eexists _, _, _, _, _.
  - assert (Efb : fbn = length bs) by lia. assert (El : length bs = 12%nat) by lia. specialize (Hroom Efb).
    rewrite Efb, El in Hroom. change (12 =? 12)%nat with true in Hroom. cbn iota in Hroom.
    rewrite (sh_none _ _ _ _ HS) by lia. rewrite xint_small, Z.eqb_refl by (unfold in_u32; lia).
    unfold mbind, M_bind. rewrite newblock_spec by lia. cbn [obind]. unfold mret, M_ret. cbn [obind].
    rewrite (xint_small (freeblock s)) by (apply block_u32; lia).
    set (s1 := s <| freeblock := freeblock s + 1 |>). set (din1 := din <| d_addrs ::= _ |>).
    assert (Ha : d_addrs din1 = take 12 (bs ++ replicate 12 0) ++ [freeblock s]).
    { unfold din1. simpl. rewrite (sh_addrs _ _ _ _ HS).
      assert (Hlt : length (take 12 (bs ++ replicate 12 0)) = 12%nat) by (rewrite length_take, length_app, length_replicate; lia).
      by rewrite insert_app_r_alt, Hlt by lia. }
    assert (Ead : default 0 (d_addrs din1 !! 12%nat) = freeblock s).
    { rewrite Ha. assert (Hlt : length (take 12 (bs ++ replicate 12 0)) = 12%nat) by (rewrite length_take, length_app, length_replicate; lia).
      by rewrite lookup_app_r, Hlt by lia. }
    change (Z.to_nat 12) with 12%nat. rewrite Ead, xint_small by (apply block_u32; lia). rewrite Efb.
    destruct (blocked_entry s din bs 0 s1 din1 (freeblock s) zero_block) as (s' & E & HB); try done; try lia.
    + by eexists.
    + by apply Hfresh; lia.
    + split; [done|]. intros j Hj. by rewrite lookup_ge_None_2, rd32_zero by lia.
    + unfold s1. simpl. lia.
    + unfold s1. simpl. lia.
    + unfold s1, owned. simpl. replace (freeblock s + 1 - freeblock s) with 1 by lia. rewrite seqZ_one.
      rewrite (proj2 (Z.eqb_neq _ _)) by lia. by rewrite app_nil_r.
    + rewrite E. cbn [obind]. eexists _, _, _, _, _. split; [reflexivity|].
      rewrite (sh_none _ _ _ _ HS) by lia. exact HB.
Qed.

Lemma file_block_spec s din bs ind fbn :
  shape (img s) din bs ind -> fresh s -> (fbn < 140)%nat -> (fbn <= length bs)%nat -> 0 < freeblock s ->
  (fbn = length bs -> freeblock s + (if (fbn =? 12)%nat then 2 else 1) <= FSSIZE) -> freeblock s <= FSSIZE ->
  exists x din' s' bs' ind', file_block din (Z.of_nat fbn) s = Ret (x, din') s' /\ blocked s din bs ind fbn x din' s' bs' ind'.
Proof.
  intros HS Hf Hlt Hle H0 Hroom Hfb. destruct (decide (fbn < 12)%nat).
  - apply file_block_direct; try done. intros E. specialize (Hroom E). rewrite (proj2 (Nat.eqb_neq _ _)) in Hroom by lia. lia.
  - apply file_block_indirect; try done. lia.
Qed.

(** ** Appending to a file *)

(** The data blocks and all blocks of a file of [n] bytes. *)
Definition nblk (n : nat) : nat := ((n + 511) / 512)%nat.
Definition nall (n : nat) : nat := (nblk n + if (12 <? nblk n)%nat then 1 else 0)%nat.

Lemma nblk_spec n k : nblk n = k <-> (n <= 512 * k /\ 512 * k < n + 512)%nat.
Proof.
  unfold nblk. pose proof (Nat.div_mod_eq (n + 511) 512) as E. pose proof (Nat.mod_upper_bound (n + 511) 512 ltac:(lia)). lia.
Qed.
Lemma nall_mono n m : (n <= m)%nat -> (nall n <= nall m)%nat.
Proof.
  intros H. assert (Hn : (nblk n <= nblk m)%nat) by (apply Nat.Div0.div_le_mono; lia). unfold nall.
  destruct (Nat.ltb_spec 12 (nblk n)), (Nat.ltb_spec 12 (nblk m)); lia.
Qed.

(** Every block of the disk has been written. *)
Definition full (im : gmap Z (list Z)) : Prop :=
  forall b, 0 <= b < FSSIZE -> exists l, im !! b = Some l /\ length l = NB.

Record node (im : gmap Z (list Z)) (din : dinode) (bs : list Z) (ind : Z) (data : list Z) : Prop := {
  nd_shape : shape im din bs ind;
  nd_contents : contents im bs data;
  nd_len : length bs = nblk (length data)
}.

Lemma owned_length im din bs ind data : node im din bs ind data -> length (owned bs ind) = nall (length data).
Proof.
  intros [HS _ Hl]. unfold owned, nall. rewrite length_app, <-Hl. destruct (Nat.ltb_spec 12 (length bs)) as [H|H].
  - destruct (sh_some _ _ _ _ HS H) as [Hi _]. rewrite (proj2 (Z.eqb_neq _ _)) by lia. done.
  - rewrite (sh_none _ _ _ _ HS) by lia. done.
Qed.

(** Writing a piece at the end of the file, inside of its last block. *)
Lemma contents_write im bs data piece x buf :
  contents im bs data -> bs !! (length data / NB)%nat = Some x -> NoDup bs -> im !! x = Some buf -> length buf = NB ->
  (length data mod NB + length piece <= NB)%nat ->
  contents (<[x := splice (length data mod NB) piece buf]> im) bs (data ++ piece).
Proof.
  intros Hc Hx Hnd Hb Hl Hp k Hk0. unfold NB in *. set (n := length data) in *.
  assert (Hlook : forall i, splice (n mod 512) piece buf !! i =
    if decide (n mod 512 <= i < n mod 512 + length piece)%nat then piece !! (i - n mod 512)%nat else buf !! i).
  { intros i. unfold splice. assert (Ht : length (take (n mod 512) buf) = (n mod 512)%nat) by (rewrite length_take; lia).
    case_decide as E.
    - by rewrite lookup_app_r, Ht, lookup_app_l by lia.
    - destruct (decide (i < n mod 512)%nat); [by rewrite lookup_app_l, lookup_take_lt by lia|].
      rewrite lookup_app_r, Ht, lookup_app_r, lookup_drop by lia. f_equal. lia. }
  pose proof (Nat.div_mod_eq n 512) as En. pose proof (Nat.mod_upper_bound n 512 ltac:(lia)) as Mn.
  pose proof (Nat.div_mod_eq k 512) as Ek. pose proof (Nat.mod_upper_bound k 512 ltac:(lia)) as Mk.
  destruct (decide (n <= k < n + length piece)%nat) as [Hk|Hk].
  - exists x, (splice (n mod 512) piece buf). rewrite lookup_insert_eq, Hlook.
    assert (Hdm : (k / 512 = n / 512)%nat) by (destruct (decide (k / 512 = n / 512)%nat) as [E|E]; [done|nia]).
    rewrite Hdm. split; [done|]. split; [done|]. rewrite decide_True, lookup_app_r by (fold n; lia). fold n.
    replace (k mod 512 - n mod 512)%nat with (k - n)%nat by lia.
    destruct (lookup_lt_is_Some_2 piece (k - n)) as [y ->]; [lia|done].
  - assert (Ey : default 0 ((data ++ piece) !! k) = default 0 (data !! k)).
    { destruct (decide (k < n)%nat); [by rewrite lookup_app_l|]. rewrite lookup_app_r by (fold n; lia).
      by rewrite !lookup_ge_None_2 by (fold n; lia). }
    rewrite Ey. destruct (Hc k Hk0) as (a & b & Ha & Hb' & Hk'). unfold NB in *.
    destruct (decide (a = x)) as [->|Hne]; [|exists a, b; by rewrite lookup_insert_ne].
    exists x, (splice (n mod 512) piece buf). rewrite lookup_insert_eq, Hlook. split; [done|]. split; [done|].
    assert (Eq : (k / 512 = n / 512)%nat) by (by eapply NoDup_lookup).
    rewrite decide_False by lia. by simplify_eq.
Qed.

Record appended (s : mkst) (din : dinode) (bs : list Z) (ind : Z) (data : list Z)
    (din' : dinode) (s' : mkst) (bs' : list Z) (ind' : Z) : Prop := {
  ap_din : exists a, din' = din <| d_addrs := a |>;
  ap_node : node (img s') din' bs' ind' data;
  ap_owned : owned bs' ind' ≡ₚ owned bs ind ++ seqZ (freeblock s) (freeblock s' - freeblock s);
  ap_free : freeblock s <= freeblock s' <= FSSIZE;
  ap_img : forall b, b ∉ owned bs' ind' -> img s' !! b = img s !! b;
  ap_full : full (img s');
  ap_fresh : fresh s';
  ap_inode : freeinode s' = freeinode s
}.

Lemma owned_nodup s s' bs ind bs' ind' : freeblock s <= freeblock s' ->
  NoDup (owned bs ind) -> (forall b, b ∈ owned bs ind -> b < freeblock s) ->
  owned bs' ind' ≡ₚ owned bs ind ++ seqZ (freeblock s) (freeblock s' - freeblock s) ->
  NoDup (owned bs' ind') /\ (forall b, b ∈ owned bs' ind' -> b < freeblock s').
Proof.
  intros Hle Hnd Hlt Hp. rewrite Hp. split.
  - apply NoDup_app. split; [done|]. split; [|apply NoDup_seqZ]. intros b Hb. apply Hlt in Hb. rewrite elem_of_seqZ. lia.
  - intros b. rewrite Hp, elem_of_app, elem_of_seqZ. intros [Hb|Hb]; [|lia]. pose proof (Hlt b Hb). lia.
Qed.

Lemma block_index n k : nblk n = k -> (n / 512 <= k)%nat /\ ((n / 512 = k)%nat -> (n = 512 * k)%nat).
Proof.
  intros [H1 H2]%nblk_spec. pose proof (Nat.div_mod_eq n 512). pose proof (Nat.mod_upper_bound n 512 ltac:(lia)). lia.
Qed.
Lemma nblk_grow n m : (0 < m)%nat -> (n mod 512 + m <= 512)%nat -> nblk (n + m) = S (n / 512).
Proof.
  intros Hm Hp. apply nblk_spec. pose proof (Nat.div_mod_eq n 512). pose proof (Nat.mod_upper_bound n 512 ltac:(lia)). lia.
Qed.

Section append_step.
Context (s : mkst) (din : dinode) (bs : list Z) (ind : Z) (data piece : list Z).
Hypothesis HN : node (img s) din bs ind data.
Hypothesis Hfull : full (img s).
Hypothesis Hfresh : fresh s.
Hypothesis Hnd : NoDup (owned bs ind).
Hypothesis Hlt : forall b, b ∈ owned bs ind -> b < freeblock s.
Hypothesis Hfb : 0 < freeblock s <= FSSIZE.
Hypothesis Hsize : (length data < 140 * 512)%nat.
Hypothesis Hpos : (0 < length piece)%nat.
Hypothesis Hfit : (length data mod NB + length piece <= NB)%nat.
Hypothesis Hroom : freeblock s + Z.of_nat (nall (length data + length piece)) <= FSSIZE + Z.of_nat (nall (length data)).

Lemma step_room : (length data / 512 = length bs)%nat ->
  freeblock s + (if (length data / 512 =? 12)%nat then 2 else 1) <= FSSIZE.
Proof.
  intros E. unfold NB in Hfit. pose proof (nblk_grow _ _ Hpos Hfit) as Eg. unfold nall in Hroom. rewrite Eg in Hroom.
  pose proof (nd_len _ _ _ _ _ HN) as El. rewrite <-El, E in Hroom. rewrite E. revert Hroom.
  destruct (Nat.ltb_spec 12 (S (length bs))), (Nat.ltb_spec 12 (length bs)), (Nat.eqb_spec (length bs) 12); lia.
Qed.

Lemma append_step : exists x din' s1 buf bs' ind',
  file_block din (Z.of_nat (length data / 512)) s = Ret (x, din') s1 /\ img s1 !! x = Some buf /\
  appended s din bs ind (data ++ piece) din' (s1 <| img ::= <[x := splice (length data mod NB) piece buf]> |>) bs' ind'.
Proof.
  pose proof (nd_len _ _ _ _ _ HN) as El. destruct (block_index _ _ (eq_sym El)) as [Hle _].
  assert (Hf140 : (length data / 512 < 140)%nat) by (apply Nat.Div0.div_lt_upper_bound; lia).
  destruct (file_block_spec s din bs ind (length data / 512) (nd_shape _ _ _ _ _ HN) Hfresh Hf140 Hle ltac:(lia) step_room ltac:(lia))
    as (x & din' & s1 & bs' & ind' & E & [B1 B2 B3 B4 B5 B6 B7 B8]).
  destruct (owned_nodup s s1 _ _ _ _ ltac:(lia) Hnd Hlt B5) as [Hnd' Hlt'].
  assert (Hxo : x ∈ owned bs' ind') by (unfold owned; apply elem_of_app; left; by eapply list_elem_of_lookup_2).
  assert (Hx : 0 < x < FSSIZE) by exact (Forall_lookup_1 _ _ _ _ (sh_range _ _ _ _ B2) B3).
  assert (Hfull1 : full (img s1)).
  { intros b Hb. destruct (decide (ind' = 0 \/ b <> ind')) as [Hc|Hc]; [rewrite B7 by done; by apply Hfull|].
    assert (Hi : ind' <> 0 /\ b = ind') by (destruct (decide (ind' = 0)), (decide (b = ind')); tauto). destruct Hi as [Hi ->].
    destruct (decide (12 < length bs')%nat) as [Hl|Hl]; [|by destruct Hi; apply (sh_none _ _ _ _ B2); lia].
    destruct (sh_some _ _ _ _ B2 Hl) as [_ (l & ? & ? & _)]. by exists l. }
  destruct (Hfull1 x ltac:(lia)) as (buf & Hbuf & Hlen). exists x, din', s1, buf, bs', ind'. split; [exact E|]. split; [exact Hbuf|].
  assert (Hbi : forall b, b ∈ bs' -> ind' = 0 \/ b <> ind').
  { intros b Hb. destruct (decide (ind' = 0)) as [|Hi]; [by left|right]. intros ->. unfold owned in Hnd'.
    rewrite (proj2 (Z.eqb_neq _ _) Hi) in Hnd'. apply NoDup_app in Hnd' as (_ & Hd & _). apply (Hd _ Hb). by apply list_elem_of_singleton. }
  assert (Hxb : x ∈ bs') by (by eapply list_elem_of_lookup_2).
  split; simpl; try done.
  - split.
    + eapply shape_frame; [exact B2|]. intros Hi. rewrite lookup_insert_ne; [done|]. by destruct (Hbi x Hxb).
    + apply contents_write; [|exact B3|by apply NoDup_app in Hnd' as [? _]|exact Hbuf|exact Hlen|exact Hfit].
      intros k Hk. destruct (decide (k < NB * length bs)%nat) as [Hk1|Hk1].
      * destruct (nd_contents _ _ _ _ _ HN k Hk1) as (a & l & Ha & Hl & Hkl). exists a, l.
        assert (Ha' : bs' !! (k / NB)%nat = Some a) by (destruct B4 as [->|[-> _]]; [done|by apply lookup_app_l_Some]).
        split; [done|]. split; [|done]. rewrite B7; [done|]. apply Hbi. by eapply list_elem_of_lookup_2.
      * destruct B4 as [->|(-> & E4 & Hxf)]; [done|]. rewrite length_app in Hk. change (length [x]) with 1%nat in Hk. unfold NB in *.
        exists x, zero_block. assert (Ek : (k / 512 = length bs)%nat).
        { pose proof (Nat.div_mod_eq k 512). pose proof (Nat.mod_upper_bound k 512 ltac:(lia)). nia. }
        rewrite Ek, lookup_app_r, Nat.sub_diag by lia. split; [done|]. split.
        -- rewrite B7 by (by apply Hbi). apply Hfresh. lia.
        -- rewrite (lookup_ge_None_2 data); [|pose proof (proj1 (nblk_spec (length data) _) (eq_sym El)); lia].
           apply lookup_replicate_2. apply Nat.mod_upper_bound. lia.
    + unfold NB in Hfit. rewrite length_app, nblk_grow by done. destruct B4 as [->|(-> & E4 & _)].
      * apply lookup_lt_Some in B3. rewrite El in B3 |- *. destruct (proj1 (nblk_spec (length data) _) eq_refl) as [H1 H2].
        pose proof (Nat.div_mod_eq (length data) 512). pose proof (Nat.mod_upper_bound (length data) 512 ltac:(lia)). lia.
      * rewrite length_app, E4. change (length [x]) with 1%nat. lia.
  - intros b Hb. rewrite lookup_insert_ne by (intros ->; done). apply B7.
    destruct (decide (ind' = 0)) as [|Hi]; [by left|right]. intros ->. by apply Hb, owned_ind.
  - intros b Hb. destruct (decide (x = b)) as [->|Hne]; [|rewrite lookup_insert_ne by done; by apply Hfull1].
    rewrite lookup_insert_eq. eexists. split; [done|]. rewrite length_splice by (rewrite Hlen; done). done.
  - intros b Hb. change (<[x := splice (length data mod NB) piece buf]> (img s1) !! b = Some zero_block).
    change (freeblock s1 <= b < FSSIZE) in Hb. pose proof (Hlt' x Hxo). rewrite lookup_insert_ne by lia. rewrite B7; [apply Hfresh; lia|].
    destruct (decide (ind' = 0)) as [|Hi]; [by left|right]. intros ->.
    assert (ind' < freeblock s1) by (by apply Hlt', owned_ind). lia.
Qed.
End append_step.

Lemma appended_refl s din bs ind data : node (img s) din bs ind data -> full (img s) -> fresh s -> 0 < freeblock s <= FSSIZE ->
  appended s din bs ind data din s bs ind.
Proof.
  intros. split; try done; [exists (d_addrs din); by destruct din|by rewrite Z.sub_diag, app_nil_r|lia].
Qed.

Lemma appended_trans s din bs ind d1 din1 s1 bs1 ind1 d2 din2 s2 bs2 ind2 :
  appended s din bs ind d1 din1 s1 bs1 ind1 -> appended s1 din1 bs1 ind1 d2 din2 s2 bs2 ind2 ->
  appended s din bs ind d2 din2 s2 bs2 ind2.
Proof.
  intros [[a1 A1] A2 A3 A4 A5 A6 A7 A8] [[a2 B1] B2 B3 B4 B5 B6 B7 B8]. split; try done.
  - exists a2. rewrite B1, A1. done.
  - rewrite B3, A3, <-app_assoc. apply Permutation_app_head.
    replace (freeblock s2 - freeblock s) with ((freeblock s1 - freeblock s) + (freeblock s2 - freeblock s1)) by lia.
    rewrite seqZ_app by lia. by replace (freeblock s + (freeblock s1 - freeblock s)) with (freeblock s1) by lia.
  - lia.
  - intros b Hb. rewrite B5 by done. apply A5. intros Hb1. apply Hb. rewrite B3. apply elem_of_app. by left.
  - congruence.
Qed.

Lemma appended_count s din bs ind data d1 din1 s1 bs1 ind1 :
  node (img s) din bs ind data -> appended s din bs ind d1 din1 s1 bs1 ind1 ->
  freeblock s1 + Z.of_nat (nall (length data)) = freeblock s + Z.of_nat (nall (length d1)).
Proof.
  intros HN [_ A2 A3 A4 _ _ _ _]. apply Permutation_length in A3. rewrite length_app, length_seqZ in A3.
  rewrite (owned_length _ _ _ _ _ HN), (owned_length _ _ _ _ _ A2) in A3. lia.
Qed.

(** The loop of [iappend]. *)
Lemma iappend_loop_spec fuel : forall s din bs ind data p,
  node (img s) din bs ind data -> full (img s) -> fresh s -> NoDup (owned bs ind) ->
  (forall b, b ∈ owned bs ind -> b < freeblock s) -> 0 < freeblock s <= FSSIZE ->
  (length data + length p <= 140 * 512)%nat ->
  freeblock s + Z.of_nat (nall (length data + length p)) <= FSSIZE + Z.of_nat (nall (length data)) ->
  (length p <= fuel)%nat ->
  exists din' s' bs' ind', iappend_loop fuel din (Z.of_nat (length data)) p s = Ret (din', Z.of_nat (length data + length p)) s' /\
    appended s din bs ind (data ++ p) din' s' bs' ind'.
Proof.
  induction fuel as [|fuel IH]; intros s din bs ind data p HN Hfull Hfresh Hnd Hlt Hfb Hsize Hroom Hf;
    (destruct p as [|c p0]; [exists din, s, bs, ind; rewrite Nat.add_0_r, app_nil_r; split; [done|by apply appended_refl]|]);
    [simpl in Hf; lia|].
  cbn [iappend_loop]. set (p := c :: p0) in *. assert (Hp : (0 < length p)%nat) by (simpl; lia). clearbody p. clear c p0.
  set (n := length data) in *. set (m := Nat.min (length p) (512 - n mod 512)).
  pose proof (Nat.div_mod_eq n 512) as En. pose proof (Nat.mod_upper_bound n 512 ltac:(lia)) as Mn.
  change BSIZE with (Z.of_nat 512). rewrite <-Nat2Z.inj_div.
  rewrite (proj2 (Z.leb_gt _ _)) by (change MAXFILE with 140; lia).
  replace (Z.to_nat (Z.of_nat (length p) `min` ((Z.of_nat (n / 512) + 1) * Z.of_nat 512 - Z.of_nat n))) with m by lia.
  replace (Z.to_nat (Z.of_nat n - Z.of_nat (n / 512) * Z.of_nat 512)) with (n mod 512)%nat by lia.
  assert (Hm : length (take m p) = m) by (rewrite length_take; lia).
  destruct (append_step s din bs ind data (take m p)) as (x & din1 & s1 & buf & bs1 & ind1 & E1 & Ex & A1); try done;
    fold n; rewrite ?Hm; [lia|lia|unfold NB; lia| |].
  { pose proof (nall_mono (n + m) (n + length p) ltac:(lia)). lia. }
  set (s2 := s1 <| img ::= _ |>) in *.
  unfold mbind, M_bind. fold n in E1. rewrite E1. cbn [obind]. unfold rsect. rewrite Ex. cbn [obind]. unfold wsect, modify. cbn [obind].
  change (s1 <| img ::= <[x := splice (n mod 512) (take m p) buf]> |>) with s2.
  pose proof (appended_count _ _ _ _ _ _ _ _ _ _ HN A1) as Hcnt. rewrite length_app, Hm in Hcnt. fold n in Hcnt.
  destruct (owned_nodup s s2 _ _ _ _ ltac:(apply (ap_free _ _ _ _ _ _ _ _ _ A1)) Hnd Hlt (ap_owned _ _ _ _ _ _ _ _ _ A1)) as [Hnd2 Hlt2].
  destruct (IH s2 din1 bs1 ind1 (data ++ take m p) (drop m p)) as (din' & s' & bs' & ind' & E' & A'); try done;
    rewrite ?length_app, ?Hm, ?length_drop; fold n; try lia; try apply A1.
  { pose proof (ap_free _ _ _ _ _ _ _ _ _ A1). lia. }
  { replace (n + m + (length p - m))%nat with (n + length p)%nat by lia. lia. }
  exists din', s', bs', ind'. rewrite length_app, Hm, length_drop in E'. fold n in E'.
  rewrite <-Nat2Z.inj_add, E'. split; [do 2 f_equal; f_equal; lia|].
  eapply appended_trans; [exact A1|]. by rewrite <-app_assoc, take_drop in A'.
Qed.

(** ** The image *)
Record gnode := Gnode { g_din : dinode; g_bs : list Z; g_ind : Z; g_data : list Z }.
Definition g_owned (g : gnode) : list Z := owned (g_bs g) (g_ind g).

(** The inode [inum] of an image. *)
Definition inode_of (im : gmap Z (list Z)) (inum : Z) : dinode :=
  read_dinode (default [] (im !! IBLOCK inum sb)) (dinode_off inum).

(** Every inode is in one directory. *)
Definition linked (din : dinode) : Prop := dinode_ok din /\ d_nlink din = 1.

(** The inodes [G], from number 1 on; the inode [skip] may not have been stored. *)
Record inv (skip : option nat) (G : list gnode) (s : mkst) : Prop := {
  gi_inode : freeinode s = Z.of_nat (length G) + 1;
  gi_max : (length G <= 200)%nat;
  gi_full : full (img s);
  gi_fresh : fresh s;
  gi_fb : nmeta <= freeblock s <= FSSIZE;
  gi_meta : forall b, 0 <= b < 32 -> img s !! b = Some (if b =? 1 then encode_sb sb else zero_block);
  gi_din : forall i g, G !! i = Some g -> skip <> Some i -> inode_of (img s) (Z.of_nat i + 1) = g_din g;
  gi_ok : forall i g, G !! i = Some g -> linked (g_din g) /\ d_size (g_din g) = Z.of_nat (length (g_data g));
  gi_node : forall i g, G !! i = Some g -> node (img s) (g_din g) (g_bs g) (g_ind g) (g_data g);
  gi_owned : mjoin (g_owned <$> G) ≡ₚ seqZ nmeta (freeblock s - nmeta)
}.

Lemma iblock_range i : (i < 200)%nat -> 32 <= IBLOCK (Z.of_nat i + 1) sb < 58.
Proof.
  intros Hi. unfold IBLOCK. change (sb_inodestart sb) with 32. change IPB with 8.
  pose proof (Z.div_pos (Z.of_nat i + 1) 8 ltac:(lia) ltac:(lia)).
  assert ((Z.of_nat i + 1) / 8 < 26) by (apply Z.div_lt_upper_bound; lia). lia.
Qed.

(** Storing an inode changes only that inode. *)
Lemma store_inode im i j din buf :
  dinode_ok din -> im !! IBLOCK (Z.of_nat i + 1) sb = Some buf -> length buf = NB ->
  let im' := <[IBLOCK (Z.of_nat i + 1) sb := write_dinode (dinode_off (Z.of_nat i + 1)) din buf]> im in
  inode_of im' (Z.of_nat j + 1) = if decide (i = j) then din else inode_of im (Z.of_nat j + 1).
Proof.
  intros Hok Hb Hl im'. unfold inode_of, im'.
  destruct (write_dinode_spec din buf (Z.of_nat i + 1) (Z.of_nat j + 1) Hok Hl ltac:(lia) ltac:(lia)) as (_ & H1 & H2).
  destruct (decide (IBLOCK (Z.of_nat i + 1) sb = IBLOCK (Z.of_nat j + 1) sb)) as [E|E].
  - rewrite <-E, lookup_insert_eq, Hb. cbn [default]. unfold default, id. case_decide as Eij; [by subst|].
    apply H2. unfold IBLOCK in E. change IPB with 8 in *. intros Em. apply Eij.
    pose proof (Z.div_mod (Z.of_nat i + 1) 8 ltac:(lia)). pose proof (Z.div_mod (Z.of_nat j + 1) 8 ltac:(lia)). lia.
  - rewrite lookup_insert_ne by done. rewrite decide_False; [done|]. by intros ->.
Qed.

Lemma owned_range skip G s i g b : inv skip G s -> G !! i = Some g -> b ∈ g_owned g -> nmeta <= b < freeblock s.
Proof.
  intros HI Hg Hb. assert (Hin : b ∈ mjoin (g_owned <$> G)).
  { apply list_elem_of_join. exists (g_owned g). split; [done|]. apply list_elem_of_fmap. exists g. split; [done|]. by eapply list_elem_of_lookup_2. }
  rewrite (gi_owned _ _ _ HI), elem_of_seqZ in Hin. lia.
Qed.

(** A change outside of the blocks of the inodes. *)
Lemma node_frame im im' din bs ind data :
  node im din bs ind data -> (forall b, b ∈ owned bs ind -> im' !! b = im !! b) -> node im' din bs ind data.
Proof.
  intros [H1 H2 H3] Hf. split; [| |done].
  - eapply shape_frame; [exact H1|]. intros Hi. by apply Hf, owned_ind.
  - eapply contents_frame; [exact H2|]. intros b Hb. apply Hf. unfold owned. apply elem_of_app. by left.
Qed.

Lemma node_addrs im din din' bs ind data : node im din bs ind data -> d_addrs din' = d_addrs din -> node im din' bs ind data.
Proof. intros [[S1 S2 S3 S4 S5] H2 H3] E. split; try done. split; try done. congruence. Qed.

Definition with_din (g : gnode) (din : dinode) : gnode := Gnode din (g_bs g) (g_ind g) (g_data g).

Lemma winode_spec skip G s i g din :
  inv skip G s -> G !! i = Some g -> skip = None \/ skip = Some i -> linked din ->
  d_addrs din = d_addrs (g_din g) -> d_size din = Z.of_nat (length (g_data g)) ->
  exists s', winode (Z.of_nat i + 1) din s = Ret tt s' /\
    inv None (<[i := with_din g din]> G) s' /\ freeblock s' = freeblock s.
Proof.
  intros HI Hg Hskip Hlk Ha Hsz. pose proof (proj1 Hlk) as Hok. pose proof (lookup_lt_Some _ _ _ Hg) as Hi. pose proof (gi_max _ _ _ HI) as Hmax.
  pose proof (iblock_range i ltac:(lia)) as Hbr. set (bn := IBLOCK (Z.of_nat i + 1) sb) in *.
  destruct (gi_full _ _ _ HI bn ltac:(change FSSIZE with 1000; lia)) as (buf & Hbuf & Hlen).
  set (d' := write_dinode (dinode_off (Z.of_nat i + 1)) din buf).
  assert (Hd' : length d' = NB).
  { destruct (write_dinode_spec din buf (Z.of_nat i + 1) 0 Hok Hlen ltac:(lia) ltac:(lia)) as (E & _).
    unfold d'. by rewrite E. }
  unfold winode, rsect, wsect, modify, mbind, M_bind. fold bn. rewrite Hbuf. cbn [obind]. fold d'.
  eexists. split; [reflexivity|]. split; [|done]. pose proof (gi_fb _ _ _ HI) as Hfb. change nmeta with 59 in Hfb.
  assert (Hin : forall j g', <[i := with_din g din]> G !! j = Some g' -> j = i /\ g' = with_din g din \/ j <> i /\ G !! j = Some g').
  { intros j g'. destruct (decide (i = j)) as [->|Hne]; [rewrite list_lookup_insert_eq by done; intros [= <-]; by left|].
    rewrite list_lookup_insert_ne by done. by right. }
  assert (Hnode : forall j g', G !! j = Some g' -> node (<[bn := d']> (img s)) (g_din g') (g_bs g') (g_ind g') (g_data g')).
  { intros j g' Hj. eapply node_frame; [exact (gi_node _ _ _ HI j g' Hj)|]. intros b Hb.
    pose proof (owned_range _ _ _ _ _ _ HI Hj Hb) as Hr. change nmeta with 59 in Hr. rewrite lookup_insert_ne by lia. done. }
  split; simpl.
  - rewrite length_insert. apply (gi_inode _ _ _ HI).
  - by rewrite length_insert.
  - intros b Hb. destruct (decide (bn = b)) as [<-|Hne]; [rewrite lookup_insert_eq; by exists d'|].
    rewrite lookup_insert_ne by done. by apply (gi_full _ _ _ HI).
  - intros b Hb. change (<[bn := d']> (img s) !! b = Some zero_block). change (freeblock s <= b < FSSIZE) in Hb.
    rewrite lookup_insert_ne by lia. by apply (gi_fresh _ _ _ HI).
  - exact (gi_fb _ _ _ HI).
  - intros b Hb. rewrite lookup_insert_ne by lia. by apply (gi_meta _ _ _ HI).
  - intros j g' Hj _. unfold bn, d'. rewrite (store_inode _ i j din buf Hok Hbuf Hlen).
    destruct (Hin j g' Hj) as [[-> ->]|[Hne Hj']]; [by rewrite decide_True|]. rewrite decide_False by done.
    apply (gi_din _ _ _ HI j g' Hj'). destruct Hskip as [-> | ->]; congruence.
  - intros j g' Hj. destruct (Hin j g' Hj) as [[-> ->]|[Hne Hj']]; [done|by apply (gi_ok _ _ _ HI j)].
  - intros j g' Hj. destruct (Hin j g' Hj) as [[-> ->]|[Hne Hj']]; [|by apply (Hnode j)].
    simpl. eapply node_addrs; [by apply (Hnode i g)|done].
  - rewrite list_fmap_insert, list_insert_id; [apply (gi_owned _ _ _ HI)|]. by rewrite list_lookup_fmap, Hg.
Qed.

Lemma join_disjoint {A} (l : list (list A)) : NoDup (mjoin l) -> forall i j a b x,
  l !! i = Some a -> l !! j = Some b -> x ∈ a -> x ∈ b -> i = j.
Proof.
  induction l as [|c l IH]; intros Hnd i j a b x Hi Hj Ha Hb; [done|]. simpl in Hnd. apply NoDup_app in Hnd as (_ & Hd & Hnd).
  assert (Hjoin : forall k d, l !! k = Some d -> x ∈ d -> x ∈ mjoin l).
  { intros k d Hk Hx. apply list_elem_of_join. exists d. split; [done|]. by eapply list_elem_of_lookup_2. }
  destruct i as [|i], j as [|j]; simplify_eq/=; [done| | |].
  - exfalso. by eapply Hd, Hjoin.
  - exfalso. by eapply Hd, Hjoin.
  - f_equal. by eapply IH.
Qed.

Lemma join_extend {A} (l : list (list A)) i a a' x : l !! i = Some a -> a' ≡ₚ a ++ x -> mjoin (<[i := a']> l) ≡ₚ mjoin l ++ x.
Proof.
  revert i. induction l as [|c l IH]; intros [|i] Hi Hp; simplify_eq/=.
  - rewrite Hp, <-!app_assoc. apply Permutation_app_head. apply Permutation_app_comm.
  - by rewrite IH, app_assoc.
Qed.

Section iappend.
Context (G : list gnode) (s : mkst) (i : nat) (g : gnode) (p : list Z).
Hypothesis HI : inv None G s.
Hypothesis Hg : G !! i = Some g.

Lemma node_private : NoDup (g_owned g) /\ (forall b, b ∈ g_owned g -> b < freeblock s).
Proof.
  split; [|intros b Hb; by eapply owned_range].
  assert (Hnd : NoDup (mjoin (g_owned <$> G))) by (rewrite (gi_owned _ _ _ HI); apply NoDup_seqZ).
  assert (Hl : (g_owned <$> G) !! i = Some (g_owned g)) by (by rewrite list_lookup_fmap, Hg).
  rewrite <-(take_drop_middle _ _ _ Hl), join_app in Hnd. apply NoDup_app in Hnd as (_ & _ & Hnd).
  by apply NoDup_app in Hnd as (Hnd & _).
Qed.

(** The state after the loop: all inodes but [i] are as they were. *)
Lemma appended_inv din' s1 bs' ind' data' din1 :
  appended s (g_din g) (g_bs g) (g_ind g) data' din' s1 bs' ind' ->
  d_addrs din1 = d_addrs din' -> linked din1 -> d_size din1 = Z.of_nat (length data') ->
  inv (Some i) (<[i := Gnode din1 bs' ind' data']> G) s1.
Proof.
  intros [A1 A2 A3 A4 A5 A6 A7 A8] Ha Hok Hsz. pose proof (lookup_lt_Some _ _ _ Hg) as Hi.
  pose proof (gi_fb _ _ _ HI) as Hfb. pose proof (gi_max _ _ _ HI) as Hmax. change nmeta with 59 in *.
  assert (Hlow : forall b, b < 59 -> img s1 !! b = img s !! b).
  { intros b Hb. apply A5. rewrite A3. intros [Hin|Hin]%elem_of_app; [|apply elem_of_seqZ in Hin; lia].
    pose proof (owned_range _ _ _ _ _ _ HI Hg Hin) as Hr. change nmeta with 59 in Hr. lia. }
  assert (Hin : forall j g', <[i := Gnode din1 bs' ind' data']> G !! j = Some g' ->
    j = i /\ g' = Gnode din1 bs' ind' data' \/ j <> i /\ G !! j = Some g').
  { intros j g'. destruct (decide (i = j)) as [->|Hne]; [rewrite list_lookup_insert_eq by done; intros [= <-]; by left|].
    rewrite list_lookup_insert_ne by done. by right. }
  split; try done.
  - rewrite A8, length_insert. apply (gi_inode _ _ _ HI).
  - by rewrite length_insert.
  - change nmeta with 59. lia.
  - intros b Hb. rewrite Hlow by lia. by apply (gi_meta _ _ _ HI).
  - intros j g' Hj Hne. destruct (Hin j g' Hj) as [[-> _]|[_ Hj']]; [done|].
    rewrite <-(gi_din _ _ _ HI j g' Hj') by done. unfold inode_of. rewrite Hlow; [done|].
    apply lookup_lt_Some in Hj'. pose proof (iblock_range j ltac:(lia)). lia.
  - intros j g' Hj. destruct (Hin j g' Hj) as [[-> ->]|[_ Hj']]; [done|by apply (gi_ok _ _ _ HI j)].
  - intros j g' Hj. destruct (Hin j g' Hj) as [[-> ->]|[Hne Hj']]; [by eapply node_addrs|].
    eapply node_frame; [exact (gi_node _ _ _ HI j g' Hj')|]. intros b Hb. apply A5. rewrite A3.
    intros [Hb'|Hb']%elem_of_app.
    + apply Hne. eapply (join_disjoint (g_owned <$> G)); [rewrite (gi_owned _ _ _ HI); apply NoDup_seqZ| | |exact Hb|exact Hb'];
        by rewrite list_lookup_fmap, ?Hg, ?Hj'.
    + pose proof (owned_range _ _ _ _ _ _ HI Hj' Hb). apply elem_of_seqZ in Hb'. lia.
  - rewrite list_fmap_insert, (join_extend _ i (g_owned g) _ (seqZ (freeblock s) (freeblock s1 - freeblock s))), (gi_owned _ _ _ HI).
    + change nmeta with 59. replace (freeblock s1 - 59) with ((freeblock s - 59) + (freeblock s1 - freeblock s)) by lia.
      rewrite seqZ_app by lia. by replace (59 + (freeblock s - 59)) with (freeblock s) by lia.
    + by rewrite list_lookup_fmap, Hg.
    + exact A3.
Qed.
End iappend.

Lemma shape_dinode_ok im din bs ind a sz :
  dinode_ok din -> shape im (din <| d_addrs := a |>) bs ind -> in_u32 sz -> dinode_ok (din <| d_addrs := a |> <| d_size := sz |>).
Proof.
  intros [H1 H2 H3 H4 _ _] HS Hsz. pose proof (sh_addrs _ _ _ _ HS) as Ha.
  change (d_addrs (din <| d_addrs := a |>)) with a in Ha. split; try done.
  change (d_addrs (din <| d_addrs := a |> <| d_size := sz |>)) with a. rewrite Ha.
  split; [rewrite length_app, length_take, length_app, length_replicate; change (length [ind]) with 1%nat; lia|].
  apply Forall_app. split.
  - apply Forall_take, Forall_app. split; [|apply Forall_replicate; unfold in_u32; lia].
    eapply Forall_impl; [exact (sh_range _ _ _ _ HS)|]. intros b Hb. apply block_u32. simpl in Hb. lia.
  - apply Forall_singleton. destruct (decide (12 < length bs)%nat) as [Hl|Hl].
    + destruct (sh_some _ _ _ _ HS Hl) as [Hi _]. apply block_u32. lia.
    + rewrite (sh_none _ _ _ _ HS) by lia. unfold in_u32. lia.
Qed.

Lemma iappend_spec G s i g p :
  inv None G s -> G !! i = Some g -> (length (g_data g) + length p <= 140 * 512)%nat ->
  freeblock s + Z.of_nat (nall (length (g_data g) + length p)) <= FSSIZE + Z.of_nat (nall (length (g_data g))) ->
  exists s' g', iappend (Z.of_nat i + 1) p s = Ret tt s' /\ inv None (<[i := g']> G) s' /\
    g_data g' = g_data g ++ p /\ d_type (g_din g') = d_type (g_din g) /\
    freeblock s' + Z.of_nat (nall (length (g_data g))) = freeblock s + Z.of_nat (nall (length (g_data g) + length p)).
Proof.
  intros HI Hg Hsize Hroom. destruct (gi_ok _ _ _ HI i g Hg) as [[Hok Hnl] Hsz]. pose proof (gi_fb _ _ _ HI) as Hfb. change nmeta with 59 in Hfb.
  pose proof (lookup_lt_Some _ _ _ Hg) as Hi. pose proof (gi_max _ _ _ HI) as Hmax.
  destruct (node_private G s i g HI Hg) as [Hnd Hlt].
  destruct (gi_full _ _ _ HI (IBLOCK (Z.of_nat i + 1) sb)) as (buf & Hbuf & _).
  { pose proof (iblock_range i ltac:(lia)). change FSSIZE with 1000. lia. }
  unfold iappend, rinode, rsect, mbind, M_bind. rewrite Hbuf. cbn [obind]. unfold mret at 1, M_ret at 1. cbn [obind].
  pose proof (gi_din _ _ _ HI i g Hg ltac:(done)) as Hd. unfold inode_of in Hd. rewrite Hbuf in Hd. unfold default, id in Hd. rewrite Hd.
  rewrite Hsz, xint_small by (unfold in_u32; lia).
  destruct (iappend_loop_spec (length p) s (g_din g) (g_bs g) (g_ind g) (g_data g) p) as (din' & s1 & bs' & ind' & E & A); try done; try lia.
  { by apply (gi_node _ _ _ HI i). } { apply (gi_full _ _ _ HI). } { apply (gi_fresh _ _ _ HI). }
  rewrite E. cbn [obind]. destruct (ap_din _ _ _ _ _ _ _ _ _ A) as [a Ea].
  set (off := Z.of_nat (length (g_data g) + length p)). assert (Hoff : in_u32 off) by (unfold in_u32; lia).
  rewrite (xint_small off Hoff). set (din1 := din' <| d_size := off |>).
  assert (Hok1 : linked din1).
  { split; [|unfold din1; by rewrite Ea]. unfold din1. rewrite Ea. eapply shape_dinode_ok; [exact Hok| |exact Hoff].
    rewrite <-Ea. apply (nd_shape _ _ _ _ _ (ap_node _ _ _ _ _ _ _ _ _ A)). }
  assert (Hsz1 : d_size din1 = Z.of_nat (length (g_data g ++ p))) by (unfold din1, off; simpl; by rewrite length_app).
  pose proof (appended_inv G s i g HI Hg din' s1 bs' ind' _ din1 A eq_refl Hok1 Hsz1) as HI1.
  assert (Hg1 : <[i := Gnode din1 bs' ind' (g_data g ++ p)]> G !! i = Some (Gnode din1 bs' ind' (g_data g ++ p))) by (by apply list_lookup_insert_eq).
  destruct (winode_spec _ _ s1 i _ din1 HI1 Hg1 ltac:(by right) Hok1 eq_refl Hsz1) as (s' & E' & HI' & Efb).
  rewrite list_insert_insert_eq in HI'. exists s', (Gnode din1 bs' ind' (g_data g ++ p)).
  split; [exact E'|]. split; [exact HI'|]. split; [done|]. split; [unfold din1; by rewrite Ea|].
  rewrite Efb, (appended_count _ _ _ _ _ _ _ _ _ _ (gi_node _ _ _ HI i g Hg) A), length_app. done.
Qed.

(** A new inode. *)
Definition empty_node (type : Z) : gnode := Gnode (Dinode type 0 0 1 0 (replicate 13 0)) [] 0 [].

Lemma ialloc_spec G s type : inv None G s -> (length G < 200)%nat -> 0 <= type < 2^15 ->
  exists s', ialloc type s = Ret (Z.of_nat (length G) + 1) s' /\ inv None (G ++ [empty_node type]) s' /\ freeblock s' = freeblock s.
Proof.
  intros HI Hl Ht.
  assert (Hok : linked (Dinode type 0 0 1 0 (replicate 13 0))).
  { split; [|done]. split; try (unfold in_i16, in_u32; simpl; lia). split; [done|]. apply Forall_replicate. unfold in_u32. lia. }
  set (s1 := s <| freeinode := Z.of_nat (length G) + 1 + 1 |>).
  assert (HI1 : inv (Some (length G)) (G ++ [empty_node type]) s1).
  { destruct HI as [H1 H2 H3 H4 H5 H6 H7 H8 H9 H10].
    assert (Hin : forall j g', (G ++ [empty_node type]) !! j = Some g' -> G !! j = Some g' \/ j = length G /\ g' = empty_node type).
    { intros j g'. destruct (decide (j < length G)%nat); [rewrite lookup_app_l by done; by left|].
      rewrite lookup_app_r by lia. intros Hj. apply list_lookup_singleton_Some in Hj as [Hj <-]. right. split; [lia|done]. }
    split; try done.
    - rewrite length_app. simpl. lia.
    - rewrite length_app. simpl. lia.
    - intros j g' Hj Hne. destruct (Hin j g' Hj) as [Hj'|[-> _]]; [by apply H7|done].
    - intros j g' Hj. destruct (Hin j g' Hj) as [Hj'|[_ ->]]; [by apply (H8 j)|done].
    - intros j g' Hj. destruct (Hin j g' Hj) as [Hj'|[_ ->]]; [by apply (H9 j)|].
      split; [split; try done; simpl; try lia; apply Forall_nil_2|intros k Hk; change (k < NB * 0)%nat in Hk; lia|done].
    - rewrite fmap_app, join_app, H10. simpl. by rewrite app_nil_r. }
  destruct (winode_spec _ _ s1 (length G) (empty_node type) (Dinode type 0 0 1 0 (replicate 13 0)) HI1) as (s' & E & HI' & Efb); try done.
  { by rewrite lookup_app_r, Nat.sub_diag. } { by right. }
  exists s'. rewrite insert_app_r_alt, Nat.sub_diag in HI' by lia. split; [|split; [exact HI'|exact Efb]].
  unfold ialloc, gets, modify, mbind, M_bind. cbn [obind].
  assert (Eu : s <| freeinode ::= fun n => u32 (n + 1) |> = s1).
  { unfold s1. pose proof (gi_inode _ _ _ HI) as Hin. destruct s as [im fi fb]. simpl in Hin |- *. unfold upd. simpl. f_equal.
    rewrite Hin. apply u32_small. unfold in_u32. lia. }
  rewrite Eu, (gi_inode _ _ _ HI). assert (Ex : xshort type = type).
  { unfold xshort. pose proof (rd16_le16 [] type []) as E2. simpl length in E2. rewrite app_nil_l, app_nil_r in E2. rewrite E2. apply Z.mod_small. lia. }
  change (xshort 1) with 1. change (xint 0) with 0. rewrite Ex, E. done.
Qed.

(** ** Files *)
Definition used (G : list gnode) : nat := sum_list ((fun g => nall (length (g_data g))) <$> G).

Lemma used_app G1 G2 : used (G1 ++ G2) = (used G1 + used G2)%nat.
Proof.
  induction G1 as [|g G1 IH]; [done|]. change (nall (length (g_data g)) + used (G1 ++ G2) = nall (length (g_data g)) + used G1 + used G2)%nat.
  lia.
Qed.

Lemma blocks_count G s : inv None G s -> freeblock s = nmeta + Z.of_nat (used G).
Proof.
  intros HI. pose proof (Permutation_length (gi_owned _ _ _ HI)) as Hl. rewrite length_seqZ in Hl.
  pose proof (gi_fb _ _ _ HI) as Hfb. enough (length (mjoin (g_owned <$> G)) = used G) by lia.
  assert (Hn : forall g, g ∈ G -> length (g_owned g) = nall (length (g_data g))).
  { intros g [i Hg]%list_elem_of_lookup. eapply owned_length, (gi_node _ _ _ HI i g Hg). }
  clear -Hn. induction G as [|g G IH]; [done|].
  change (length (g_owned g ++ mjoin (g_owned <$> G)) = nall (length (g_data g)) + used G)%nat.
  rewrite length_app, Hn, IH; [done| |by apply list_elem_of_here]. intros g' Hg'. apply Hn. by apply list_elem_of_further.
Qed.

Lemma append_file_spec fuel : forall G s i g data,
  inv None G s -> G !! i = Some g -> (length (g_data g) + length data <= 140 * 512)%nat ->
  freeblock s + Z.of_nat (nall (length (g_data g) + length data)) <= FSSIZE + Z.of_nat (nall (length (g_data g))) ->
  (length data <= fuel)%nat ->
  exists s' g', append_file fuel (Z.of_nat i + 1) data s = Ret tt s' /\ inv None (<[i := g']> G) s' /\
    g_data g' = g_data g ++ data /\ d_type (g_din g') = d_type (g_din g).
Proof.
  induction fuel as [|fuel IH]; intros G s i g data HI Hg Hsize Hroom Hf;
    (destruct data as [|c data0]; [exists s, g; rewrite app_nil_r, list_insert_id by done; done|]); [simpl in Hf; lia|].
  cbn [append_file]. set (data := c :: data0) in *. assert (Hp : (0 < length data)%nat) by (simpl; lia). clearbody data.
  change (Z.to_nat BSIZE) with 512%nat. set (p := take 512 data). set (rest := drop 512 data).
  assert (Ed : data = p ++ rest) by (symmetry; apply take_drop). assert (Hl : (length data = length p + length rest)%nat) by (by rewrite Ed at 1; rewrite length_app).
  assert (Hp0 : (0 < length p)%nat) by (unfold p; rewrite length_take; lia).
  destruct (iappend_spec G s i g p HI Hg) as (s1 & g1 & E1 & HI1 & D1 & T1 & F1); [lia| |].
  { pose proof (nall_mono (length (g_data g) + length p) (length (g_data g) + length data) ltac:(lia)). lia. }
  assert (Hg1 : <[i := g1]> G !! i = Some g1) by (apply list_lookup_insert_eq; by eapply lookup_lt_Some).
  assert (L1 : length (g_data g1) = (length (g_data g) + length p)%nat) by (by rewrite D1, length_app).
  destruct (IH (<[i := g1]> G) s1 i g1 rest HI1 Hg1) as (s2 & g2 & E2 & HI2 & D2 & T2); [lia| |lia|].
  { rewrite L1. replace (length (g_data g) + length p + length rest)%nat with (length (g_data g) + length data)%nat by lia. lia. }
  exists s2, g2. unfold mbind, M_bind. rewrite E1. cbn [obind]. rewrite list_insert_insert_eq in HI2.
  split; [exact E2|]. split; [exact HI2|]. split; [|congruence]. by rewrite D2, D1, <-app_assoc, <-Ed.
Qed.

(** ** The tree: the type and the bytes of every inode, from number 1 on *)
Abbreviation tree := (list (Z * list Z)).
Definition view (G : list gnode) : tree := (fun g => (d_type (g_din g), g_data g)) <$> G.
Definition holds (v : tree) (s : mkst) : Prop := exists G, inv None G s /\ view G = v.
Definition size (v : tree) : nat := sum_list ((fun f => nall (length f.2)) <$> v).

Lemma size_app v1 v2 : size (v1 ++ v2) = (size v1 + size v2)%nat.
Proof. induction v1 as [|f v IH]; [done|]. change (nall (length f.2) + size (v ++ v2) = nall (length f.2) + size v + size v2)%nat. lia. Qed.
Lemma size_view G : size (view G) = used G.
Proof. unfold size, view, used. by rewrite <-list_fmap_compose. Qed.
Lemma size_insert v i t d d' : v !! i = Some (t, d) ->
  (size (<[i := (t, d')]> v) + nall (length d) = size v + nall (length d'))%nat.
Proof.
  intros Hv. pose proof (lookup_lt_Some _ _ _ Hv). rewrite <-(take_drop_middle _ _ _ Hv) at 2.
  rewrite insert_take_drop, !size_app by done.
  change (size (take i v) + (nall (length d') + size (drop (S i) v)) + nall (length d) =
    size (take i v) + (nall (length d) + size (drop (S i) v)) + nall (length d'))%nat. lia.
Qed.

Lemma holds_count v s : holds v s -> freeblock s = nmeta + Z.of_nat (size v).
Proof. intros (G & HI & <-). rewrite size_view. by apply blocks_count. Qed.

Lemma view_lookup G i t d : view G !! i = Some (t, d) -> exists g, G !! i = Some g /\ d_type (g_din g) = t /\ g_data g = d.
Proof. unfold view. rewrite list_lookup_fmap. intros (g & Hg & E)%fmap_Some. simplify_eq. by exists g. Qed.

Lemma holds_ialloc v s type : holds v s -> (length v < 200)%nat -> 0 <= type < 2^15 ->
  exists s', ialloc type s = Ret (Z.of_nat (length v) + 1) s' /\ holds (v ++ [(type, [])]) s'.
Proof.
  intros (G & HI & <-) Hl Ht. unfold view in *. rewrite length_fmap in Hl |- *.
  destruct (ialloc_spec G s type HI Hl Ht) as (s' & E & HI' & _). exists s'. split; [exact E|].
  exists (G ++ [empty_node type]). split; [exact HI'|]. unfold view. by rewrite fmap_app.
Qed.

Section holds_append.
Context (v : tree) (s : mkst) (i : nat) (t : Z) (d p : list Z).
Hypothesis HH : holds v s.
Hypothesis Hv : v !! i = Some (t, d).
Hypothesis Hsize : (length d + length p <= 140 * 512)%nat.
Hypothesis Hroom : (size (<[i := (t, (d ++ p))]> v) <= 941)%nat.

Lemma append_room : freeblock s + Z.of_nat (nall (length d + length p)) <= FSSIZE + Z.of_nat (nall (length d)).
Proof.
  rewrite (holds_count _ _ HH). pose proof (size_insert v i t d (d ++ p) Hv) as E. rewrite length_app in E.
  change nmeta with 59. change FSSIZE with 1000. lia.
Qed.
Lemma holds_iappend : exists s', iappend (Z.of_nat i + 1) p s = Ret tt s' /\ holds (<[i := (t, (d ++ p))]> v) s'.
Proof.
  pose proof append_room as Hr. destruct HH as (G & HI & <-). destruct (view_lookup _ _ _ _ Hv) as (g & Hg & <- & <-).
  destruct (iappend_spec G s i g p HI Hg Hsize Hr) as (s' & g' & E & HI' & D & T & _). exists s'. split; [exact E|].
  exists (<[i := g']> G). split; [exact HI'|]. unfold view. by rewrite list_fmap_insert, T, D.
Qed.
Lemma holds_append_file : exists s', append_file (length p) (Z.of_nat i + 1) p s = Ret tt s' /\ holds (<[i := (t, (d ++ p))]> v) s'.
Proof.
  pose proof append_room as Hr. destruct HH as (G & HI & <-). destruct (view_lookup _ _ _ _ Hv) as (g & Hg & <- & <-).
  destruct (append_file_spec (length p) G s i g p HI Hg Hsize Hr (le_n _)) as (s' & g' & E & HI' & D & T). exists s'. split; [exact E|].
  exists (<[i := g']> G). split; [exact HI'|]. unfold view. by rewrite list_fmap_insert, T, D.
Qed.
End holds_append.

Lemma length_dirent n name : length (dirent n name) = 16%nat.
Proof. unfold dirent. rewrite length_app, length_take, length_app, length_replicate. change (length (le16 _)) with 2%nat. unfold DIRSIZ. lia. Qed.

Lemma holds_add_file root fs s name data (root' := root ++ dirent (Z.of_nat (length fs) + 2) (shortname name)) :
  holds ((T_DIR, root) :: fs) s -> ch "/" ∉ name -> (length fs < 199)%nat -> (length root + 16 <= 140 * 512)%nat ->
  (length data <= 140 * 512)%nat -> (size ((T_DIR, root') :: fs ++ [(T_FILE, data)]) <= 941)%nat ->
  exists s', add_file 1 (name, Some data) s = Ret tt s' /\ holds ((T_DIR, root') :: fs ++ [(T_FILE, data)]) s'.
Proof.
  intros HH Hn Hl Hr Hd Hs. change (size (?a :: ?b)) with (nall (length a.2) + size b)%nat in Hs. cbn [snd] in Hs.
  rewrite size_app in Hs. change (size [(T_FILE, data)]) with (nall (length data) + 0)%nat in Hs.
  unfold add_file. cbn [fst snd]. rewrite bool_decide_false by done. unfold mbind, M_bind.
  destruct (holds_ialloc _ _ T_FILE HH) as (s1 & E1 & H1); [simpl; lia|done|]. rewrite E1. cbn [obind length].
  replace (Z.of_nat (S (length fs)) + 1) with (Z.of_nat (length fs) + 2) by lia.
  destruct (holds_iappend _ s1 0 T_DIR root (dirent (Z.of_nat (length fs) + 2) (shortname name)) H1) as (s2 & E2 & H2); [done| | |].
  { rewrite length_dirent. lia. }
  { change (<[0%nat := ?y]> ((?x :: ?l) ++ ?k)) with (y :: l ++ k). change (size (?a :: ?b)) with (nall (length a.2) + size b)%nat.
    rewrite size_app. change (size [(T_FILE, [])]) with 0%nat. fold root'. cbn [snd]. lia. }
  change (Z.of_nat 0 + 1) with 1 in E2. rewrite E2. cbn [obind].
  change (<[0%nat := ?y]> ((?x :: ?l) ++ ?k)) with (y :: l ++ k) in H2. fold root' in H2.
  assert (Hins : forall y, <[S (length fs) := y]> ((T_DIR, root') :: fs ++ [(T_FILE, [])]) = (T_DIR, root') :: fs ++ [y]).
  { intros y. cbn [insert list_insert]. f_equal. change (<[length fs := y]> (fs ++ [(T_FILE, [])]) = fs ++ [y]).
    by rewrite insert_app_r_alt, Nat.sub_diag by lia. }
  destruct (holds_append_file _ s2 (S (length fs)) T_FILE [] data H2) as (s3 & E3 & H3).
  { change (((fs ++ [(T_FILE, [])]) !! length fs) = Some (T_FILE, [])). by rewrite lookup_app_r, Nat.sub_diag by lia. }
  { exact Hd. }
  { rewrite Hins. change (size (?a :: ?b)) with (nall (length a.2) + size b)%nat. rewrite size_app.
    change (size [(T_FILE, [] ++ data)]) with (nall (length data) + 0)%nat. cbn [snd]. lia. }
  replace (Z.of_nat (S (length fs)) + 1) with (Z.of_nat (length fs) + 2) in E3 by lia. exists s3. split; [exact E3|].
  by rewrite Hins in H3.
Qed.

(** ** The whole program *)
Abbreviation files := (list (list Z * list Z)).
Definition given (l : files) : list (list Z * option (list Z)) := (fun f => (f.1, Some f.2)) <$> l.
Definition root_data (l : files) : list Z :=
  dirent 1 (codes ".") ++ dirent 1 (codes "..") ++ mjoin (imap (fun k f => dirent (Z.of_nat k + 2) (shortname f.1)) l).
Definition tree_of (l : files) : tree := (T_DIR, root_data l) :: ((fun f => (T_FILE, f.2)) <$> l).

Lemma root_data_snoc l f : root_data (l ++ [f]) = root_data l ++ dirent (Z.of_nat (length l) + 2) (shortname f.1).
Proof. unfold root_data. rewrite imap_app, join_app, <-!app_assoc. do 3 f_equal. simpl. by rewrite app_nil_r, Nat.add_0_r. Qed.
Lemma length_root_data l : length (root_data l) = (16 * (length l + 2))%nat.
Proof.
  induction l as [|f l IH] using rev_ind; [by vm_compute|]. rewrite root_data_snoc, !length_app, IH, length_dirent. simpl. lia.
Qed.
Lemma tree_of_snoc l f : tree_of (l ++ [f]) =
  (T_DIR, root_data l ++ dirent (Z.of_nat (length l) + 2) (shortname f.1)) :: ((fun f => (T_FILE, f.2)) <$> l) ++ [(T_FILE, f.2)].
Proof. unfold tree_of. by rewrite root_data_snoc, fmap_app. Qed.
Lemma size_tree_mono l1 l2 : (size (tree_of l1) <= size (tree_of (l1 ++ l2)))%nat.
Proof.
  unfold tree_of. change (size (?a :: ?b)) with (nall (length a.2) + size b)%nat. rewrite fmap_app, size_app. cbn [snd].
  pose proof (nall_mono (length (root_data l1)) (length (root_data (l1 ++ l2)))) as H.
  rewrite !length_root_data, length_app in H. rewrite !length_root_data, length_app. lia.
Qed.

(** What can be put on the disk. *)
Definition fits (l : files) : Prop :=
  Forall (fun f => (ch "/" ∉ f.1) /\ (length f.2 <= 140 * 512)%nat) l /\ (length l <= 199)%nat /\ (size (tree_of l) <= 941)%nat.

Lemma holds_files todo : forall l s, fits (l ++ todo) -> holds (tree_of l) s ->
  exists s', for_all (given todo) (add_file 1) s = Ret tt s' /\ holds (tree_of (l ++ todo)) s'.
Proof.
  induction todo as [|f todo IH]; intros l s HF HH; [exists s; by rewrite app_nil_r|].
  assert (Ea : l ++ f :: todo = (l ++ [f]) ++ todo) by (by rewrite <-app_assoc). rewrite Ea in HF |- *.
  destruct HF as (HF & Hl & Hs). assert (Hf : (ch "/" ∉ f.1) /\ (length f.2 <= 140 * 512)%nat).
  { rewrite Forall_forall in HF. apply HF. apply elem_of_app. left. apply elem_of_app. right. by apply list_elem_of_singleton. }
  rewrite !length_app in Hl. change (length [f]) with 1%nat in Hl. pose proof (size_tree_mono (l ++ [f]) todo) as Hm.
  destruct (holds_add_file (root_data l) ((fun f => (T_FILE, f.2)) <$> l) s f.1 f.2 HH) as (s1 & E1 & H1); rewrite ?length_fmap.
  { apply Hf. } { lia. } { rewrite length_root_data. lia. } { apply Hf. } { rewrite <-tree_of_snoc. lia. }
  rewrite length_fmap, <-tree_of_snoc in H1. change (given (f :: todo)) with ((f.1, Some f.2) :: given todo).
  cbn [for_all]. unfold mbind, M_bind. rewrite E1. cbn [obind]. apply IH; [|exact H1].
  split; [done|]. split; [|done]. rewrite !length_app. change (length [f]) with 1%nat. lia.
Qed.

(** The blank disk. *)
Lemma zeroed l : forall s, exists s', for_all l (fun i => wsect i zero_block) s = Ret tt s' /\
  freeblock s' = freeblock s /\ freeinode s' = freeinode s /\
  forall b, img s' !! b = if decide (b ∈ l) then Some zero_block else img s !! b.
Proof.
  induction l as [|a l IH]; intros s; [exists s; by split_and!; [..|intros b; rewrite decide_False by set_solver]|].
  cbn [for_all]. unfold mbind, M_bind, wsect at 1, modify. cbn [obind].
  destruct (IH (s <| img ::= <[a := zero_block]> |>)) as (s' & E & E1 & E2 & E3). exists s'.
  split; [exact E|]. split; [exact E1|]. split; [exact E2|]. intros b. rewrite E3.
  change (img (s <| img ::= <[a := zero_block]> |>)) with (<[a := zero_block]> (img s)).
  destruct (decide (b ∈ l)); [by rewrite decide_True by set_solver|]. destruct (decide (a = b)) as [->|Hne].
  - by rewrite lookup_insert_eq, decide_True by set_solver.
  - rewrite lookup_insert_ne by done. by rewrite decide_False by set_solver.
Qed.

Lemma blank_holds s : freeblock s = nmeta -> freeinode s = 1 ->
  (forall b, 0 <= b < FSSIZE -> img s !! b = Some zero_block) -> holds [] (s <| img ::= <[1 := encode_sb sb]> |>).
Proof.
  intros Hb Hi Hz. exists []. split; [|done].
  assert (Himg : forall b, img (s <| img ::= <[1 := encode_sb sb]> |>) !! b = if decide (1 = b) then Some (encode_sb sb) else img s !! b).
  { intros b. change (img (s <| img ::= <[1 := encode_sb sb]> |>)) with (<[1 := encode_sb sb]> (img s)). apply lookup_insert. }
  split; try done.
  - simpl. lia.
  - intros b Hr. rewrite Himg. case_decide; [by eexists|]. rewrite Hz by done. by eexists.
  - intros b Hr. change (freeblock s <= b < FSSIZE) in Hr. rewrite Hb in Hr. change nmeta with 59 in Hr.
    rewrite Himg, decide_False by lia. apply Hz. lia.
  - change (nmeta <= freeblock s <= FSSIZE). rewrite Hb. by vm_compute.
  - intros b Hr. rewrite Himg. case_decide; [by subst|]. rewrite Hz by (change FSSIZE with 1000; lia).
    by rewrite (proj2 (Z.eqb_neq _ _)) by lia.
  - change ([] ≡ₚ seqZ nmeta (freeblock s - nmeta)). by rewrite Hb, Z.sub_diag.
Qed.

(** The image, as a reader of the disk sees it: the block of an inode's address
    [n], the byte [k] of its file, and all of its blocks. *)
Definition file_addr (im : gmap Z (list Z)) (d : dinode) (n : nat) : Z :=
  if (n <? 12)%nat then default 0 (d_addrs d !! n)
  else rd32 (default [] (im !! default 0 (d_addrs d !! 12%nat))) (4 * (n - 12)).
Definition file_byte (im : gmap Z (list Z)) (d : dinode) (k : nat) : option Z :=
  b ← im !! file_addr im d (k / 512); b !! (k mod 512)%nat.
Definition file_blocks (im : gmap Z (list Z)) (d : dinode) (n : nat) : list Z :=
  (file_addr im d <$> seq 0 (nblk n)) ++
  (if default 0 (d_addrs d !! 12%nat) =? 0 then [] else [default 0 (d_addrs d !! 12%nat)]).

Lemma shape_addr im din bs ind n : shape im din bs ind -> (n < length bs)%nat -> bs !! n = Some (file_addr im din n).
Proof.
  intros HS Hn. destruct (lookup_lt_is_Some_2 _ _ Hn) as [a Ha]. rewrite Ha. f_equal. unfold file_addr.
  destruct (Nat.ltb_spec n 12) as [H|H].
  - by rewrite (shape_direct _ _ _ _ n HS H), Ha.
  - rewrite (shape_ind _ _ _ _ HS). destruct (sh_some _ _ _ _ HS ltac:(lia)) as (_ & b & Hb & _ & Hr). rewrite Hb. change (default [] (Some b)) with b.
    pose proof (sh_len _ _ _ _ HS). rewrite Hr by lia. replace (12 + (n - 12))%nat with n by lia. by rewrite Ha.
Qed.
Lemma node_byte im din bs ind data k : node im din bs ind data -> (k < 512 * nblk (length data))%nat ->
  file_byte im din k = Some (default 0 (data !! k)).
Proof.
  intros [HS HC HL] Hk. rewrite <-HL in Hk. destruct (HC k Hk) as (a & b & Ha & Hb & Hx). unfold file_byte. unfold NB in *.
  rewrite (shape_addr _ _ _ _ (k / 512) HS) in Ha by (apply Nat.Div0.div_lt_upper_bound; lia). simplify_eq. by rewrite Hb.
Qed.
Lemma node_blocks im din bs ind data : node im din bs ind data -> file_blocks im din (length data) = owned bs ind.
Proof.
  intros [HS HC HL]. unfold file_blocks, owned. rewrite (shape_ind _ _ _ _ HS), <-HL. f_equal. apply list_eq. intros n.
  rewrite list_lookup_fmap. destruct (decide (n < length bs)%nat) as [Hn|Hn].
  - rewrite lookup_seq_lt by done. simpl. by rewrite (shape_addr _ _ _ _ n HS Hn).
  - rewrite (lookup_ge_None_2 bs) by lia. by rewrite lookup_seq_ge by lia.
Qed.

(** An image that holds the tree [v]: the superblock, an empty log, the inodes with
    their types, sizes and bytes, each block of the disk in one file, and the bitmap
    of the blocks in use. The root directory's size is a number of whole blocks. *)
Definition rounded (n : nat) : Z := (Z.of_nat n / BSIZE + 1) * BSIZE.
Record image (v : tree) (im : gmap Z (list Z)) : Prop := {
  im_full : full im;
  im_sb : decode_sb (default [] (im !! 1)) = sb;
  im_log : im !! sb_logstart sb = Some zero_block;
  im_inode : forall i t data, v !! i = Some (t, data) ->
    d_type (inode_of im (Z.of_nat i + 1)) = t /\
    d_nlink (inode_of im (Z.of_nat i + 1)) = 1 /\
    d_size (inode_of im (Z.of_nat i + 1)) = if (i =? 0)%nat then rounded (length data) else Z.of_nat (length data);
  im_data : forall i t data k, v !! i = Some (t, data) -> (k < 512 * nblk (length data))%nat ->
    file_byte im (inode_of im (Z.of_nat i + 1)) k = Some (default 0 (data !! k));
  im_indirect : forall i t data, v !! i = Some (t, data) -> (12 < nblk (length data))%nat ->
    default 0 (d_addrs (inode_of im (Z.of_nat i + 1)) !! 12%nat) <> 0;
  im_blocks : mjoin (imap (fun i f => file_blocks im (inode_of im (Z.of_nat i + 1)) (length f.2)) v)
    ≡ₚ seqZ nmeta (Z.of_nat (size v));
  im_bitmap : exists bm, im !! sb_bmapstart sb = Some bm /\
    forall b, 0 <= b < BPB -> bit_used bm b = (b <? nmeta + Z.of_nat (size v))
}.

(** The bitmap. *)
Lemma bits_used n : (n <= 4096)%nat ->
  let bm := foldl (fun d i => set_bit i d) zero_block (seqZ 0 (Z.of_nat n)) in
  length bm = 512%nat /\ forall b, 0 <= b < BPB -> bit_used bm b = (b <? Z.of_nat n).
Proof.
  induction n as [|n IH]; intros Hn; cbv zeta.
  - split; [done|]. intros b Hb. rewrite (proj2 (Z.ltb_ge _ _)) by lia. rewrite bit_used_testbit by lia.
    unfold byte_at. destruct (foldl _ _ _ !! _) as [c|] eqn:E; [|apply Z.testbit_0_l].
    change (zero_block !! Z.to_nat (b / 8) = Some c) in E. apply lookup_replicate in E as [-> _]. apply Z.testbit_0_l.
  - destruct IH as [IHl IHb]; [lia|]. replace (Z.of_nat (S n)) with (Z.of_nat n + 1) by lia.
    rewrite seqZ_app, foldl_app, Z.add_0_l by lia. rewrite seqZ_one. cbn [foldl].
    split; [unfold set_bit; by rewrite length_alter|]. intros b Hb. rewrite bit_used_set by (rewrite ?IHl; lia).
    rewrite IHb by done. destruct (Z.eqb_spec b (Z.of_nat n)), (Z.ltb_spec b (Z.of_nat n)), (Z.ltb_spec b (Z.of_nat n + 1)); try done; lia.
Qed.

(** The last two writes: the root's size and the bitmap. *)
Section finish.
Context (G : list gnode) (s : mkst) (g : gnode) (buf : list Z).
Hypothesis HI : inv None G s.
Hypothesis Hg : G !! 0%nat = Some g.
Hypothesis Hbuf : img s !! 32 = Some buf.
Hypothesis Hlen : length buf = NB.
Hypothesis Hsmall : (length (g_data g) <= 140 * 512)%nat.

Let din : dinode := (g_din g) <| d_size := rounded (length (g_data g)) |>.
Let bm : list Z := foldl (fun d i => set_bit i d) zero_block (seqZ 0 (freeblock s)).
Let im : gmap Z (list Z) := <[58 := bm]> (<[32 := write_dinode (dinode_off 1) din buf]> (img s)).

Lemma rounded_u32 : in_u32 (rounded (length (g_data g))).
Proof.
  unfold rounded, in_u32. change BSIZE with 512. pose proof (Z.div_mod (Z.of_nat (length (g_data g))) 512 ltac:(lia)).
  pose proof (Z.mod_pos_bound (Z.of_nat (length (g_data g))) 512 ltac:(lia)). lia.
Qed.
Lemma din_ok : dinode_ok din.
Proof. destruct (gi_ok _ _ _ HI _ _ Hg) as [[[H1 H2 H3 H4 H5 H6] _] _]. split; try done. apply rounded_u32. Qed.

Lemma finish_inode i g' : G !! i = Some g' -> inode_of im (Z.of_nat i + 1) = if (i =? 0)%nat then din else g_din g'.
Proof.
  intros Hi. pose proof (lookup_lt_Some _ _ _ Hi). pose proof (gi_max _ _ _ HI). pose proof (iblock_range i ltac:(lia)) as Hr.
  assert (E : inode_of im (Z.of_nat i + 1) = inode_of (<[32 := write_dinode (dinode_off 1) din buf]> (img s)) (Z.of_nat i + 1)).
  { unfold inode_of, im. by rewrite lookup_insert_ne by lia. }
  rewrite E. etrans; [exact (store_inode (img s) 0 i din buf din_ok Hbuf Hlen)|].
  destruct i as [|i]; [by rewrite decide_True|]. rewrite decide_False by done. by apply (gi_din _ _ _ HI).
Qed.

Lemma finish_node i g' : G !! i = Some g' -> node im (inode_of im (Z.of_nat i + 1)) (g_bs g') (g_ind g') (g_data g').
Proof.
  intros Hi. rewrite (finish_inode _ _ Hi). apply (node_addrs _ (g_din g')).
  - eapply node_frame; [exact (gi_node _ _ _ HI i g' Hi)|]. intros b Hb. pose proof (owned_range _ _ _ _ _ _ HI Hi Hb) as Hr.
    change nmeta with 59 in Hr. unfold im. by rewrite !lookup_insert_ne by lia.
  - destruct (Nat.eqb_spec i 0) as [->|]; [|done]. by simplify_eq.
Qed.

Lemma finish_image : image (view G) im.
Proof.
  pose proof (blocks_count _ _ HI) as Hc. rewrite <-size_view in Hc. pose proof (gi_fb _ _ _ HI) as Hfb. change FSSIZE with 1000 in Hfb. change nmeta with 59 in Hfb.
  destruct (bits_used (Z.to_nat (freeblock s)) ltac:(lia)) as [Hbl Hbits]. rewrite Z2Nat.id in Hbl, Hbits by lia. fold bm in Hbl, Hbits.
  split.
  - intros b Hb. destruct (decide (58 = b)) as [<-|H1]; [exists bm; split; [apply lookup_insert_eq|done]|].
    unfold im. rewrite lookup_insert_ne by done. destruct (decide (32 = b)) as [<-|H2].
    + eexists. split; [apply lookup_insert_eq|]. destruct (write_dinode_spec din buf 1 0 din_ok Hlen ltac:(lia) ltac:(lia)) as [-> _]. done.
    + rewrite lookup_insert_ne by done. by apply (gi_full _ _ _ HI).
  - unfold im. rewrite !lookup_insert_ne, (gi_meta _ _ _ HI 1) by done. by vm_compute.
  - unfold im. change (sb_logstart sb) with 2. by rewrite !lookup_insert_ne, (gi_meta _ _ _ HI 2) by done.
  - intros i t data (g' & Hi & <- & <-)%view_lookup. rewrite (finish_inode _ _ Hi). destruct (gi_ok _ _ _ HI _ _ Hi) as [[_ Hn] Hs].
    destruct (Nat.eqb_spec i 0) as [->|]; [|done]. by simplify_eq.
  - intros i t data k (g' & Hi & <- & <-)%view_lookup. eapply node_byte. by apply finish_node.
  - intros i t data (g' & Hi & <- & <-)%view_lookup Hn. destruct (finish_node _ _ Hi) as [HS _ Hl].
    rewrite (shape_ind _ _ _ _ HS). destruct (sh_some _ _ _ _ HS ltac:(lia)) as [? _]. lia.
  - replace (Z.of_nat (size (view G))) with (freeblock s - nmeta) by lia. rewrite <-(gi_owned _ _ _ HI).
    enough (E : imap (fun i f => file_blocks im (inode_of im (Z.of_nat i + 1)) (length f.2)) (view G) = g_owned <$> G) by (by rewrite E).
    apply list_eq. intros i. unfold view. rewrite list_lookup_imap, !list_lookup_fmap.
    destruct (G !! i) as [g'|] eqn:Hi; [|done]. simpl. f_equal. eapply node_blocks. by apply finish_node.
  - exists bm. split; [apply lookup_insert_eq|]. by rewrite <-Hc.
Qed.

Lemma finish_runs : exists s', (fix_root 1;; b ← gets freeblock; balloc b) s = Ret tt s' /\ image (view G) (img s').
Proof.
  pose proof (gi_fb _ _ _ HI) as Hfb. exists (s <| img := im |>). split; [|exact finish_image].
  unfold fix_root, rinode, rsect, winode, mbind, M_bind. change (IBLOCK 1 sb) with 32. rewrite Hbuf. cbn [obind].
  unfold mret, M_ret. cbn [obind]. unfold rsect. rewrite Hbuf. cbn [obind].
  pose proof (gi_din _ _ _ HI 0%nat g Hg ltac:(done)) as Hd. unfold inode_of in Hd. change (IBLOCK (Z.of_nat 0 + 1) sb) with 32 in Hd.
  rewrite Hbuf in Hd. unfold default, id in Hd. change (Z.of_nat 0 + 1) with 1 in Hd. rewrite Hd.
  destruct (gi_ok _ _ _ HI _ _ Hg) as [_ ->].
  rewrite (xint_small (Z.of_nat _)) by (unfold in_u32; lia). fold (rounded (length (g_data g))). rewrite xint_small by exact rounded_u32. fold din.
  unfold wsect, modify, gets. cbn [obind]. unfold balloc. change (freeblock (s <| img ::= _ |>)) with (freeblock s).
  rewrite (proj2 (Z.leb_gt _ _)) by (change (BSIZE * 8) with 4096; change FSSIZE with 1000 in Hfb; lia). done.
Qed.
End finish.

(** The image as the disk of the machine. *)
Definition disk_of (im : gmap Z (list Z)) : gmap (Z * Z) (list Z) := kmap (pair ROOTDEV) im.
#[local] Instance pair_inj (d : Z) : Inj (=) (=) (pair (B := Z) d).
Proof. by intros x y [= ->]. Qed.
Lemma blk_disk_of im bn b : im !! bn = Some b -> blk (disk_of im) bn = b.
Proof. intros Hb. unfold blk, disk_block, disk_of. change (1, bn) with (pair ROOTDEV bn). rewrite (lookup_kmap (pair ROOTDEV)). by rewrite Hb. Qed.

Lemma image_boots v im : image v im ->
  log_at (sb_logstart sb) (disk_of im) /\ recovers (sb_logstart sb) (blk (disk_of im)) (disk_of im).
Proof.
  intros HI. destruct (im_full _ _ HI 1 ltac:(by vm_compute)) as (b1 & Hb1 & _).
  pose proof (im_sb _ _ HI) as Hsb. rewrite Hb1 in Hsb. change (default [] (Some b1)) with b1 in Hsb. split.
  - split; rewrite ?(blk_disk_of _ _ _ Hb1), ?Hsb; by vm_compute.
  - apply recovers_empty; rewrite ?(blk_disk_of _ _ _ (im_log _ _ HI)); [by vm_compute..|done].
Qed.

Lemma mkfs_runs (l : files) : fits l -> exists s', mkfs (given l) mkst0 = Ret tt s' /\ image (tree_of l) (img s').
Proof.
  intros HF.
  unfold mkfs, mbind, M_bind, modify. cbn [obind].
  destruct (zeroed (seqZ 0 FSSIZE) (mkst0 <| freeblock := nmeta |>)) as (s1 & -> & Hb1 & Hi1 & Hz1). cbn [obind].
  assert (H0 : holds [] (s1 <| img ::= <[1 := encode_sb sb]> |>)).
  { apply blank_holds; [done..|]. intros b Hb. rewrite Hz1, decide_True; [done|]. apply elem_of_seqZ. lia. }
  unfold wsect at 1, modify. cbn [obind]. set (s2 := s1 <| img ::= _ |>) in *. clearbody s2.
  destruct (holds_ialloc _ _ T_DIR H0) as (s3 & E3 & H3); [simpl; lia|by vm_compute|].
  rewrite E3. cbn [obind length]. change (Z.of_nat 0 + 1) with 1. change (negb (1 =? ROOTINO)) with false. cbn iota.
  destruct (holds_iappend _ s3 0 T_DIR [] (dirent 1 (codes ".")) H3) as (s4 & E4 & H4); [done|apply Nat.leb_le; by vm_compute..|].
  change (Z.of_nat 0 + 1) with 1 in E4. rewrite E4. cbn [obind].
  destruct (holds_iappend _ s4 0 T_DIR (dirent 1 (codes ".")) (dirent 1 (codes "..")) H4) as (s5 & E5 & H5); [done|apply Nat.leb_le; by vm_compute..|].
  change (Z.of_nat 0 + 1) with 1 in E5. rewrite E5. cbn [obind].
  destruct (holds_files l [] s5 HF) as (s6 & E6 & H6); [exact H5|]. rewrite E6. cbn [obind].
  change ([] ++ l) with l in H6. destruct H6 as (G & HI & HG). destruct (view_lookup G 0 T_DIR (root_data l)) as (g & Hg & _ & Hd); [by rewrite HG|].
  destruct (gi_full _ _ _ HI 32 ltac:(by vm_compute)) as (buf & Hbuf & Hlen).
  destruct HF as (_ & Hl & _). rewrite <-HG. apply (finish_runs G s6 g buf HI Hg Hbuf Hlen).
  rewrite Hd, length_root_data. lia.
Qed.

(** C13: [mkfs] of files that fit on the disk finishes, and its image has, from inode
    1 on, the root directory with an entry for every file and then the files, with
    their types, sizes and bytes; no block belongs to two of them, and the bitmap
    marks the blocks in use; and the log is where the kernel looks for it and is
    empty, so that the kernel's recovery leaves every block of the image as it is. *)
Theorem mkfs_image (l : files) (HF : fits l) : exists s',
  mkfs (given l) mkst0 = Ret tt s' /\ image (tree_of l) (img s') /\
  log_at 2 (disk_of (img s')) /\ recovers 2 (blk (disk_of (img s'))) (disk_of (img s')).
Proof.
  destruct (mkfs_runs l HF) as (s' & E & HI). exists s'. split; [exact E|]. split; [exact HI|]. exact (image_boots _ _ HI).
Qed.
Definition two_files : files := [(codes "README", [104; 105]); (codes "_cat", replicate (Z.to_nat 7000) 1)].
Lemma two_files_fit : fits two_files.
Proof.
  unfold two_files. split.
  - assert (Hc : forall n, ch "/" ∉ n <-> existsb (Z.eqb (ch "/")) n = false).
    { intros n. rewrite <-not_true_iff_false, existsb_exists. split; intros H1 H2; apply H1.
      - destruct H2 as (x & Hx & ->%Z.eqb_eq). by apply list_elem_of_In.
      - exists (ch "/"). split; [by apply list_elem_of_In|by apply Z.eqb_refl]. }
    repeat (apply Forall_cons_2; [split; [apply Hc; by vm_compute|apply Nat.leb_le; by vm_compute]|]). apply Forall_nil_2.
  - split; apply Nat.leb_le; by vm_compute.
Qed.
Lemma mkfs_image_witness : exists s',
  mkfs (given two_files) mkst0 = Ret tt s' /\ image (tree_of two_files) (img s') /\
  log_at 2 (disk_of (img s')) /\ recovers 2 (blk (disk_of (img s'))) (disk_of (img s')).
Proof. apply (mkfs_image two_files), two_files_fit. Defined.
