(* ===== verification/FsImage.v ===== *)
(** From mkfs to the kernel: on the disk that mkfs.c makes, [namei] and [readi] of fs.c
    find the files that were given to it. *)
From stdpp Require Import base tactics list numbers strings gmap.
From S2P Require Import Prelude CString FsTypes State Spinlock Console Kalloc Vm Sched Process Args Sysproc Trap Sleeplock Ide Bio Log Fs.
From S2P Require Import SchedInv Sample SchedOps Policy Dispatch Calls WakeSpec FsSpec TaskOps CacheSpec FsRead FsPath CrashSpec Crash Mkfs MkfsSpec.

#[local] Open Scope Z_scope.

(** The entries of the root directory, and the inode that a name stands for. *)
Definition names (l : files) : list (Z * list Z) :=
  (1, codes ".") :: (1, codes "..") :: imap (fun k f => (Z.of_nat k + 2, shortname f.1)) l.
Definition inum_of (l : files) (e : list Z) : option Z :=
  fst <$> List.find (fun x => bool_decide (take DIRSIZ e = take DIRSIZ x.2)) (names l).

(** ** Directory entries *)
Lemma join_chunk (L : list (list Z)) k r : Forall (fun x => length x = 16%nat) L -> (r < 16)%nat ->
  mjoin L !! (16 * k + r)%nat = L !! k ≫= (fun x => x !! r).
Proof.
  intros HL Hr. revert k. induction HL as [|x L Hx _ IH]; intros k; [done|]. cbn [mjoin list_join]. destruct k as [|k].
  - rewrite lookup_app_l by lia. done.
  - rewrite lookup_app_r by lia. replace (16 * S k + r - length x)%nat with (16 * k + r)%nat by lia. apply IH.
Qed.

(** The 16 bytes of entry [k], zeros after the last one. *)
Lemma chunk_entry (L : list (list Z)) k : Forall (fun x => length x = 16%nat) L ->
  (fun r => default 0 (mjoin L !! (16 * k + r)%nat)) <$> seq 0 16 = default (replicate 16 0) (L !! k).
Proof.
  intros HL. apply list_eq. intros r. rewrite list_lookup_fmap. destruct (decide (r < 16)%nat) as [Hr|Hr].
  - rewrite lookup_seq_lt by done. cbn [fmap option_fmap option_map]. change (0 + r)%nat with r. rewrite join_chunk by done.
    destruct (L !! k) as [x|] eqn:E; cbn [mbind option_bind default].
    + pose proof (Forall_lookup_1 _ _ _ _ HL E) as Hx. simpl in Hx. destruct (lookup_lt_is_Some_2 x r) as [y Hy]; [lia|].
      unfold default, id. by rewrite Hy.
    + symmetry. unfold default, id. by apply lookup_replicate_2.
  - rewrite lookup_seq_ge by lia. symmetry. apply lookup_ge_None_2. destruct (L !! k) as [x|] eqn:E.
    + pose proof (Forall_lookup_1 _ _ _ _ HL E) as Hx. simpl in *. lia.
    + unfold default, id. rewrite length_replicate. lia.
Qed.

Lemma root_data_names l : root_data l = mjoin ((fun x => dirent x.1 x.2) <$> names l).
Proof. unfold root_data, names. rewrite !fmap_cons, fmap_imap. done. Qed.
Lemma length_names l : length (names l) = (length l + 2)%nat.
Proof. unfold names. cbn [length]. rewrite length_imap. lia. Qed.

(** A name of the list of files has no NUL, and its inode number fits in 16 bits. *)
Lemma names_ok l : Forall (fun f => 0 ∉ f.1) l -> (length l <= 199)%nat ->
  Forall (fun x => 1 <= x.1 <= Z.of_nat (length l) + 1 /\ (0 ∉ x.2)) (names l).
Proof.
  intros Hn Hl. assert (Hd : forall x : Z * list Z, x = (1, codes ".") \/ x = (1, codes "..") -> 1 <= x.1 <= Z.of_nat (length l) + 1 /\ (0 ∉ x.2)).
  { intros x [-> | ->]; (split; [simpl; lia|apply (bool_decide_unpack (0 ∉ _)); by vm_compute]). }
  unfold names. constructor; [by apply Hd; left|]. constructor; [by apply Hd; right|]. apply Forall_lookup_2. intros k x Hx.
  rewrite list_lookup_imap in Hx. destruct (l !! k) as [f|] eqn:Ef; [|done]. injection Hx as <-. cbn [fst snd].
  pose proof (lookup_lt_Some _ _ _ Ef). split; [lia|]. pose proof (Forall_lookup_1 _ _ _ _ Hn Ef) as H0. unfold shortname.
  simpl in H0. destruct (f.1) as [|c name]; [done|]. destruct (_ =? _); set_solver.
Qed.

Lemma entry_inum n name : 0 <= n < 2^16 -> de_inum (dirent n name) = n.
Proof.
  intros Hn. assert (Hx : forall v l, rd16 (le16 v ++ l) 0 = v mod 2^16) by (intros v l0; apply (rd16_le16 [])).
  assert (Es : xshort n = n) by (unfold xshort; rewrite <-(app_nil_r (le16 n)), Hx; by apply Z.mod_small).
  unfold de_inum, dirent. rewrite Hx, Es. by apply Z.mod_small.
Qed.
Lemma entry_name n name : 0 ∉ name -> cut DIRSIZ (de_name (dirent n name)) = take DIRSIZ name.
Proof.
  intros H0. change (de_name (dirent n name)) with (take DIRSIZ (name ++ replicate DIRSIZ 0)).
  destruct (decide (DIRSIZ <= length name)%nat) as [Hl|Hl].
  - rewrite take_app_le by done. by apply cut_take.
  - rewrite take_app_ge, take_replicate, (take_ge name) by lia. destruct (DIRSIZ - length name)%nat as [|r] eqn:Er; [lia|].
    rewrite Nat.min_l by lia. apply cut_terminated; [done|lia].
Qed.

Lemma find_fmap {A B} (f : A -> B) (P : B -> bool) (l : list A) : List.find P (f <$> l) = f <$> List.find (fun x => P (f x)) l.
Proof. induction l as [|x l IH]; [done|]. rewrite fmap_cons. simpl. by destruct (P (f x)). Qed.
Lemma find_app {A} (P : A -> bool) (l1 l2 : list A) : (forall x, x ∈ l2 -> P x = false) -> List.find P (l1 ++ l2) = List.find P l1.
Proof.
  intros H2. induction l1 as [|x l1 IH]; simpl; [|by destruct (P x)]. induction l2 as [|x l2 IH]; [done|]. simpl.
  rewrite H2 by set_solver. apply IH. set_solver.
Qed.
Lemma find_ext_in {A} (P P' : A -> bool) (l : list A) : Forall (fun x => P x = P' x) l -> List.find P l = List.find P' l.
Proof. induction 1 as [|x l Hx _ IH]; [done|]. simpl. by rewrite Hx, IH. Qed.

(** Looking a name up among the entries, as the kernel does. *)
Lemma find_entry l e : Forall (fun f => 0 ∉ f.1) l -> (length l <= 199)%nat ->
  de_inum <$> List.find (is_entry e) ((fun x => dirent x.1 x.2) <$> names l) = inum_of l e.
Proof.
  intros Hn Hl. pose proof (names_ok l Hn Hl) as Hok. rewrite find_fmap. unfold inum_of.
  rewrite (find_ext_in _ (fun x => bool_decide (take DIRSIZ e = take DIRSIZ x.2))).
  - rewrite <-option_fmap_compose. destruct (List.find _ (names l)) as [x|] eqn:Ef; [|done]. apply List.find_some in Ef as [Hx _].
    apply list_elem_of_In in Hx. destruct (proj1 (Forall_forall _ _) Hok x Hx) as [Hr _].
    change (Some (de_inum (dirent x.1 x.2)) = Some x.1). by rewrite entry_inum by lia.
  - eapply Forall_impl; [exact Hok|]. intros x [Hr H0]. unfold is_entry. rewrite entry_inum by lia.
    rewrite (proj2 (Z.eqb_neq _ _)) by lia. cbn [negb andb]. by rewrite entry_name.
Qed.

Section image.
Context (l : files) (im : gmap Z (list Z)).
Hypothesis HF : fits l.
Hypothesis HI : image (tree_of l) im.
Let cur := blk (disk_of im).

Lemma cur_block bn : 0 <= bn < FSSIZE -> exists b, im !! bn = Some b /\ cur bn = b /\ length b = 512%nat.
Proof. intros Hb. destruct (im_full _ _ HI bn Hb) as (b & E & Hl). exists b. split; [done|]. split; [by apply blk_disk_of|done]. Qed.

Lemma din_image n : 1 <= n <= 200 -> din cur sb n = inode_of im n.
Proof.
  intros Hn. pose proof (iblock_range (Z.to_nat (n - 1)) ltac:(lia)) as Hr. replace (Z.of_nat (Z.to_nat (n - 1)) + 1) with n in Hr by lia.
  destruct (cur_block (IBLOCK n sb)) as (b & E & Ec & _); [change FSSIZE with 1000; lia|]. unfold din, inode_of. by rewrite Ec, E.
Qed.

(** The blocks of a file are data blocks. *)
Section file.
Context (i : nat) (t : Z) (data : list Z).
Hypothesis Hi : tree_of l !! i = Some (t, data).
Let n := Z.of_nat i + 1.
Let d := inode_of im n.

Lemma inum_range : 1 <= n <= 200.
Proof.
  apply lookup_lt_Some in Hi. unfold tree_of in Hi. cbn [length] in Hi. rewrite length_fmap in Hi. destruct HF as (_ & Hl & _). unfold n. lia.
Qed.

Lemma blocks_range a : a ∈ file_blocks im d (length data) -> 0 < a < FSSIZE.
Proof.
  intros Ha. assert (Hin : a ∈ seqZ nmeta (Z.of_nat (size (tree_of l)))).
  { rewrite <-(im_blocks _ _ HI). apply list_elem_of_join. exists (file_blocks im d (length data)). split; [done|].
    apply list_elem_of_lookup. exists i. by rewrite list_lookup_imap, Hi. }
  apply elem_of_seqZ in Hin. destruct HF as (_ & _ & Hs). change nmeta with 59 in Hin. change FSSIZE with 1000. lia.
Qed.

Lemma addr_range k : (k < nblk (length data))%nat -> 0 < file_addr im d k < FSSIZE.
Proof.
  intros Hk. apply blocks_range. unfold file_blocks. apply elem_of_app. left. apply list_elem_of_fmap. exists k.
  split; [done|]. apply elem_of_seq. lia.
Qed.
Lemma indirect_range : (12 < nblk (length data))%nat -> 0 < default 0 (d_addrs d !! 12%nat) < FSSIZE.
Proof.
  intros Hk. pose proof (im_indirect _ _ HI _ _ _ Hi Hk) as Hne. apply blocks_range. unfold file_blocks. apply elem_of_app. right.
  rewrite (proj2 (Z.eqb_neq _ _)) by exact Hne. by apply list_elem_of_singleton.
Qed.

Lemma block_image k : (k < nblk (length data))%nat -> block_of (incore cur sb n) cur (Z.of_nat k) = file_addr im d k.
Proof.
  intros Hk. unfold block_of, file_addr, addr_at. change (i_addrs (incore cur sb n)) with (d_addrs (din cur sb n)).
  rewrite (din_image n inum_range). fold d. change NDIRECT with 12. destruct (Z.ltb_spec (Z.of_nat k) 12), (Nat.ltb_spec k 12); try lia.
  - by rewrite Nat2Z.id.
  - destruct (indirect_range ltac:(lia)) as [H1 H2]. destruct (cur_block (default 0 (d_addrs d !! 12%nat))) as (b & E & Ec & _); [lia|].
    change (Z.to_nat 12) with 12%nat. rewrite Ec, E. f_equal. lia.
Qed.

Lemma file_ok_image len : len <= Z.of_nat (512 * nblk (length data)) -> len <= 140 * 512 -> file_ok (incore cur sb n) cur len.
Proof.
  intros Hlen Hmax. split; [done|exact Hmax| |].
  - intros bn H0 Hb. unfold BSIZE in Hb. rewrite <-(Z2Nat.id bn H0). rewrite block_image by lia.
    pose proof (addr_range (Z.to_nat bn) ltac:(lia)) as Ha. split; [done|].
    destruct (cur_block (file_addr im d (Z.to_nat bn))) as (b & _ & -> & Hl); [lia|done].
  - intros Hb. unfold NDIRECT, BSIZE in Hb. unfold addr_at. change (i_addrs (incore cur sb n)) with (d_addrs (din cur sb n)).
    rewrite (din_image n inum_range). apply indirect_range. lia.
Qed.

Lemma byte_image k : (k < 512 * nblk (length data))%nat -> byte_of (incore cur sb n) cur (Z.of_nat k) = default 0 (data !! k).
Proof.
  intros Hk. pose proof (im_data _ _ HI _ _ _ k Hi Hk) as Hb. unfold file_byte in Hb. fold n d in Hb.
  unfold byte_of. change BSIZE with (Z.of_nat 512). rewrite <-Nat2Z.inj_div, <-Nat2Z.inj_mod, Nat2Z.id.
  assert (Hq : (k / 512 < nblk (length data))%nat) by (apply Nat.Div0.div_lt_upper_bound; lia). rewrite block_image by done.
  destruct (cur_block (file_addr im d (k / 512))) as (b & E & -> & _); [pose proof (addr_range _ Hq); lia|].
  rewrite E in Hb. cbn in Hb. by apply list_lookup_total_correct.
Qed.

Lemma bytes_image off m : (off + m <= 512 * nblk (length data))%nat ->
  bytes_of (incore cur sb n) cur (Z.of_nat off) m = (fun k => default 0 (data !! (off + k)%nat)) <$> seq 0 m.
Proof.
  intros Hm. unfold bytes_of. apply list_fmap_ext. intros ? k [-> Hk]%lookup_seq. rewrite <-Nat2Z.inj_add. apply byte_image. lia.
Qed.
End file.

(** The root directory, when its entries do not fill its last block. *)
Hypothesis Hnul : Forall (fun f => 0 ∉ f.1) l.
Hypothesis Hpart : ((length l + 2) mod 32 <> 0)%nat.

Lemma rounded_blocks : rounded (length (root_data l)) = Z.of_nat (512 * nblk (length (root_data l))) /\
  (length l + 2 <= 32 * nblk (length (root_data l)))%nat.
Proof.
  rewrite length_root_data. pose proof (proj1 (nblk_spec (16 * (length l + 2)) _) eq_refl) as Hn. unfold rounded.
  pose proof (Nat.div_mod_eq (length l + 2) 32) as E. pose proof (Nat.mod_upper_bound (length l + 2) 32 ltac:(lia)) as Hb.
  set (q := ((length l + 2) / 32)%nat) in *. split; [|lia].
  assert (Z.of_nat (16 * (length l + 2)) / BSIZE = Z.of_nat q) as ->.
  { symmetry. apply (Z.div_unique _ _ _ (Z.of_nat (16 * ((length l + 2) mod 32)))); unfold BSIZE; lia. }
  unfold BSIZE. lia.
Qed.

Lemma root_size : d_size (din cur sb 1) = Z.of_nat (512 * nblk (length (root_data l))).
Proof.
  rewrite din_image by lia. destruct (im_inode _ _ HI 0%nat T_DIR (root_data l) eq_refl) as (_ & _ & Hs). change (Z.of_nat 0 + 1) with 1 in Hs.
  rewrite Hs. apply rounded_blocks.
Qed.

Lemma root_dirents : dirents cur sb 1 = ((fun x => dirent x.1 x.2) <$> names l) ++
  replicate (32 * nblk (length (root_data l)) - (length l + 2)) (replicate 16 0).
Proof.
  destruct rounded_blocks as [_ Hfit]. set (nb := nblk (length (root_data l))) in *.
  assert (HL : Forall (fun x => length x = 16%nat) ((fun x => dirent x.1 x.2) <$> names l)).
  { apply Forall_fmap, Forall_true. intros x. apply length_dirent. }
  unfold dirents. rewrite root_size. fold nb.
  replace (Z.to_nat ((Z.of_nat (512 * nb) + 15) / 16)) with (32 * nb)%nat.
  2: { symmetry. replace (Z.of_nat (512 * nb) + 15) with (15 + Z.of_nat (32 * nb) * 16) by lia. rewrite Z.div_add by lia. change (15 / 16) with 0. lia. }
  apply list_eq. intros k. rewrite list_lookup_fmap. destruct (decide (k < 32 * nb)%nat) as [Hk|Hk].
  2: { rewrite lookup_seq_ge by lia. symmetry. apply lookup_ge_None_2. rewrite length_app, length_fmap, length_replicate, length_names. lia. }
  rewrite lookup_seq_lt by done. cbn [fmap option_fmap option_map]. change (0 + k)%nat with k.
  pose proof (bytes_image 0 T_DIR (root_data l) eq_refl (16 * k) 16 ltac:(fold nb; lia)) as Hb. change (Z.of_nat 0 + 1) with 1 in Hb.
  replace (Z.of_nat k * 16) with (Z.of_nat (16 * k)) by lia. rewrite Hb, root_data_names, chunk_entry by exact HL.
  destruct (decide (k < length l + 2)%nat) as [Hl|Hl].
  - rewrite lookup_app_l by (rewrite length_fmap, length_names; lia).
    destruct (lookup_lt_is_Some_2 ((fun x => dirent x.1 x.2) <$> names l) k) as [x Hx]; [rewrite length_fmap, length_names; lia|]. by rewrite Hx.
  - rewrite lookup_app_r by (rewrite length_fmap, length_names; lia). rewrite (lookup_ge_None_2 (_ <$> names l)) by (rewrite length_fmap, length_names; lia).
    symmetry. apply lookup_replicate_2. rewrite length_fmap, length_names. lia.
Qed.

(** The kernel's lookup in the root directory is the lookup among the names. *)
Lemma root_lookup e : dir_lookup cur sb 1 e = inum_of l e.
Proof.
  unfold dir_lookup. rewrite root_dirents, find_app; [apply find_entry; [done|apply HF]|].
  intros x [-> _]%elem_of_replicate. done.
Qed.

Definition on_image (n : Z) : Prop := 1 <= n <= Z.of_nat (length l) + 1.

Lemma root_good : good cur sb on_image 1.
Proof.
  destruct (im_inode _ _ HI 0%nat T_DIR (root_data l) eq_refl) as (Ht & Hn & _). change (Z.of_nat 0 + 1) with 1 in Ht, Hn.
  pose proof (proj1 (proj2 HF)) as Hl. pose proof (iblock_range 0 ltac:(lia)) as Hb.
  pose proof (proj1 (nblk_spec (length (root_data l)) _) eq_refl) as Hnb. pose proof (length_root_data l) as Hlr.
  split; rewrite ?root_size; rewrite ?din_image by lia.
  - change (Z.of_nat 0 + 1) with 1 in Hb. change FSSIZE with 1000. lia.
  - by rewrite Ht.
  - by rewrite Hn.
  - intros _. split; [lia|]. apply (file_ok_image 0 T_DIR (root_data l) eq_refl); [done|]. lia.
  - intros _. split.
    + replace (Z.of_nat (512 * nblk (length (root_data l)))) with (Z.of_nat (32 * nblk (length (root_data l))) * 16) by lia. apply Z.mod_mul. lia.
    + intros de. rewrite root_dirents, elem_of_app. intros [(x & -> & Hx)%list_elem_of_fmap|[-> _]%elem_of_replicate] Hne; [|done].
      destruct (proj1 (Forall_forall _ _) (names_ok l Hnul Hl) x Hx) as [Hr _]. rewrite entry_inum by lia. exact Hr.
Qed.

Lemma file_good k f (n := Z.of_nat k + 2) : l !! k = Some f ->
  good cur sb on_image n /\ d_type (din cur sb n) = T_FILE /\ d_size (din cur sb n) = Z.of_nat (length f.2).
Proof.
  clear Hpart. intros Hk. assert (Hi : tree_of l !! S k = Some (T_FILE, f.2)) by (unfold tree_of; simpl; by rewrite list_lookup_fmap, Hk).
  pose proof (lookup_lt_Some _ _ _ Hk) as Hlt. pose proof (proj1 (proj2 HF)) as Hl. pose proof (iblock_range (S k) ltac:(lia)) as Hb.
  destruct (im_inode _ _ HI _ _ _ Hi) as (Ht & Hn & Hs). change (S k =? 0)%nat with false in Hs. cbn iota in Hs.
  assert (En : Z.of_nat (S k) + 1 = n) by (unfold n; lia). rewrite En in Ht, Hn, Hs, Hb.
  destruct (Forall_lookup_1 _ _ _ _ (proj1 HF) Hk) as [_ Hlen]. cbn beta in Hlen.
  pose proof (proj1 (nblk_spec (length f.2) _) eq_refl) as Hnb.
  assert (Ed : din cur sb n = inode_of im n) by (apply din_image; unfold n; lia). rewrite Ed. split; [|by split].
  split; rewrite ?Ed.
  - change FSSIZE with 1000. lia.
  - by rewrite Ht.
  - by rewrite Hn.
  - intros _. rewrite Hs. split; [lia|]. rewrite <-En. apply (file_ok_image (S k) _ _ Hi); lia.
  - by rewrite Ht.
Qed.

Lemma image_good n : on_image n -> good cur sb on_image n.
Proof.
  intros Hn. unfold on_image in Hn. destruct (decide (n = 1)) as [->|Hne]; [exact root_good|].
  destruct (lookup_lt_is_Some_2 l (Z.to_nat (n - 2))) as [f Hf]; [lia|].
  replace n with (Z.of_nat (Z.to_nat (n - 2)) + 2) by lia. by apply (file_good _ f).
Qed.

Lemma file_bytes k f off m (n := Z.of_nat k + 2) : l !! k = Some f -> 0 <= off <= Z.of_nat (length f.2) -> 0 <= m ->
  bytes_of (incore cur sb n) cur off (Z.to_nat (Z.min m (Z.of_nat (length f.2) - off))) = take (Z.to_nat m) (drop (Z.to_nat off) f.2).
Proof.
  clear Hpart. intros Hk Ho Hm. assert (Hi : tree_of l !! S k = Some (T_FILE, f.2)) by (unfold tree_of; simpl; by rewrite list_lookup_fmap, Hk).
  pose proof (proj1 (nblk_spec (length f.2) _) eq_refl) as Hnb.
  pose proof (bytes_image (S k) T_FILE f.2 Hi (Z.to_nat off) (Z.to_nat (Z.min m (Z.of_nat (length f.2) - off))) ltac:(lia)) as Hb.
  replace (Z.of_nat (S k) + 1) with n in Hb by (unfold n; lia). rewrite Z2Nat.id in Hb by lia. rewrite Hb. apply list_eq. intros r.
  rewrite list_lookup_fmap. destruct (decide (r < Z.to_nat (Z.min m (Z.of_nat (length f.2) - off)))%nat) as [Hr|Hr].
  - rewrite lookup_seq_lt by done. rewrite lookup_take_lt, lookup_drop by lia. cbn [fmap option_fmap option_map]. change (0 + r)%nat with r.
    destruct (lookup_lt_is_Some_2 f.2 (Z.to_nat off + r)) as [x Hx]; [lia|]. by rewrite Hx.
  - rewrite lookup_seq_ge by lia. symmetry. apply lookup_ge_None_2. rewrite length_take, length_drop. lia.
Qed.
End image.


(** ** A machine with this disk *)
Definition image_machine (im : gmap Z (list Z)) : kst :=
  (disk_machine (disk_of im) log0) <| fss ::= fun f => f <| sblk := sb |> |>.
Definition no_devices : Devsw := {| dev_read := fun _ => None; dev_write := fun _ => None |}.

Lemma image_machine_rd im (D := disk_of im) : rd 5 6 ∅ ∅ (blk D) D (log0, sb, replicate NINODE inode0) (image_machine im).
Proof. split; [apply task_fsmod, disk_machine_task|by apply (cold_cache 6 (fss (image_machine im)))|done|done]. Qed.
Lemma image_machine_icache im : icache (blk (disk_of im)) sb 6 None (replicate NINODE inode0).
Proof. split; intros i ip [-> _]%lookup_replicate; [by split|done|done]. Qed.
Lemma image_machine_free : exists f1 f2, f1 <> f2 /\ refs (replicate NINODE inode0) !! f1 = Some 0 /\ refs (replicate NINODE inode0) !! f2 = Some 0.
Proof. by exists 0%nat, 1%nat. Qed.

Lemma two_files_names : Forall (fun f => 0 ∉ f.1) two_files.
Proof. unfold two_files. repeat (apply Forall_cons_2; [apply (bool_decide_unpack (0 ∉ _)); by vm_compute|]). apply Forall_nil_2. Qed.


Lemma namei_walks_witness : exists t, mkfs (given two_files) mkst0 = Ret tt t /\
  rexec true (fun s' => disk (fss s') = disk_of (img t)) (resumed 5 6) (fun r s' => exists ins',
    rd 5 6 ∅ ∅ (blk (disk_of (img t))) (disk_of (img t)) (log0, sb, ins') s' /\ icache (blk (disk_of (img t))) sb 6 None ins' /\
    match r with
    | None => walk (blk (disk_of (img t))) sb 1 (elements (codes "//README/x")) = None /\ refs ins' = refs (replicate NINODE inode0)
    | Some i => exists m, walk (blk (disk_of (img t))) sb 1 (elements (codes "//README/x")) = Some m /\ ref_to ins' i m /\
        refs ins' = alter (Z.add 1) i (refs (replicate NINODE inode0))
    end) (namei (fl := 1%nat) (dv := no_devices) (codes "//README/x") (image_machine (img t))).
Proof.
  destruct (mkfs_runs two_files two_files_fit) as (t & E & HI). exists t. split; [exact E|].
  apply (namei_walks (fl := 1%nat) (dv := no_devices) 5 6 ∅ (blk (disk_of (img t))) (disk_of (img t)) log0 sb
    (replicate NINODE inode0) (on_image two_files) (codes "//README/x") 1 (image_machine (img t))).
  - unfold wakeups. lia.
  - rewrite size_empty. unfold NBUF. lia.
  - apply image_machine_rd.
  - apply image_machine_icache.
  - exact image_machine_free.
  - apply (image_good two_files (img t) two_files_fit HI two_files_names). by vm_compute.
  - unfold starts. by rewrite decide_True.
  - unfold on_image. simpl length. lia.
  - apply (bool_decide_unpack (0 ∉ _)). by vm_compute.
Defined.
