(* ===== verification/Umalloc.v ===== *)
(** umalloc.c: the allocator of the user programs.

    A [Header] is 8 bytes; the state has the headers that have been stored, by their
    address, and the end of the memory of the process, which [sbrk] moves. [base] is
    the address of the static header. Addresses are 32 bits wide, and the arithmetic
    of the code wraps around. *)
From stdpp Require Import base tactics list numbers strings gmap.
From S2P Require Import Prelude.

#[local] Open Scope Z_scope.

Record heap := Heap { hdr : gmap Z (Z * Z); freep : Z; brk : Z; limit : Z }.
#[global] Instance eta_heap : Eta heap := fun s => Heap (hdr s) (freep s) (brk s) (limit s).
Abbreviation MH := (M heap).

(** [p->s.ptr] and [p->s.size] *)
Definition header_at (p : Z) (h : gmap Z (Z * Z)) : Z * Z := default (0, 0) (h !! p).
Definition ptr (p : Z) : MH Z := gets (fun s => (header_at p (hdr s)).1).
Definition size (p : Z) : MH Z := gets (fun s => (header_at p (hdr s)).2).
Definition set_ptr (p x : Z) : MH unit := modify (fun s => s <| hdr ::= fun h => <[p := (x, (header_at p h).2)]> h |>).
Definition set_size (p n : Z) : MH unit := modify (fun s => s <| hdr ::= fun h => <[p := ((header_at p h).1, n)]> h |>).
Definition set_freep (p : Z) : MH unit := modify (fun s => s <| freep := p |>).

(** [p + n] of a pointer to headers. *)
Definition plus (p n : Z) : Z := u32 (p + 8 * n).

(** The system call, for the [int] argument [n]: the old end of the memory, or -1.
    The kernel gives memory up to [limit]; a negative [n] for which the new size would
    not be smaller changes nothing. *)
Definition sbrk (n : Z) : MH Z := fun s =>
  if 0 <? n then
    if brk s + n <=? limit s then Ret (brk s) (s <| brk := brk s + n |>) else Ret (u32 (-1)) s
  else if (n =? 0) || (brk s <=? u32 (brk s + n)) then Ret (brk s) s
  else if u32 (brk s + n) =? 0 then Ret (u32 (-1)) s
  else Ret (brk s) (s <| brk := u32 (brk s + n) |>).

Section umalloc.
Context (base : Z).

(** The loop of [free]; [fuel] bounds its turns. *)
Fixpoint free_loop (fuel : nat) (bp p : Z) : MH Z :=
  next ← ptr p;
  if (p <? bp) && (bp <? next) then mret p
  else if (next <=? p) && ((p <? bp) || (bp <? next)) then mret p
  else match fuel with O => nofuel | S f => free_loop f bp next end.

Definition free (fuel : nat) (ap : Z) : MH unit :=
  let bp := plus ap (-1) in
  p ← gets freep;
  p ← free_loop fuel bp p;
  next ← ptr p;
  bsz ← size bp;
  (if plus bp bsz =? next then
     nsz ← size next;
     set_size bp (u32 (bsz + nsz));;
     nn ← ptr next;
     set_ptr bp nn
   else set_ptr bp next);;
  psz ← size p;
  (if plus p psz =? bp then
     bsz ← size bp;
     set_size p (u32 (psz + bsz));;
     bn ← ptr bp;
     set_ptr p bn
   else set_ptr p bp);;
  set_freep p.

Definition morecore (fuel : nat) (nu : Z) : MH Z :=
  let nu := if nu <? 4096 then 4096 else nu in
  p ← sbrk (i32 (u32 (nu * 8)));
  if p =? u32 (-1) then mret 0
  else
    set_size p nu;;
    free fuel (plus p 1);;
    gets freep.

(** The loop of [malloc]. *)
Fixpoint malloc_loop (fuel : nat) (nunits prevp p : Z) : MH Z :=
  sz ← size p;
  if nunits <=? sz then
    p ← (if sz =? nunits then n ← ptr p; set_ptr prevp n;; mret p
         else
           set_size p (u32 (sz - nunits));;
           sz ← size p;
           set_size (plus p sz) nunits;;
           mret (plus p sz));
    set_freep prevp;;
    mret (plus p 1)
  else
    match fuel with
    | O => nofuel
    | S f =>
        fp ← gets freep;
        if p =? fp then
          p ← morecore f nunits;
          if p =? 0 then mret 0 else n ← ptr p; malloc_loop f nunits p n
        else n ← ptr p; malloc_loop f nunits p n
    end.

Definition units (nbytes : Z) : Z := u32 (u32 (nbytes + 8 - 1) / 8 + 1).
Definition malloc (fuel : nat) (nbytes : Z) : MH Z :=
  fp ← gets freep;
  (if fp =? 0 then set_freep base;; set_ptr base base;; set_size base 0 else mret tt);;
  prevp ← gets freep;
  p ← ptr prevp;
  malloc_loop fuel (units nbytes) prevp p.
End umalloc.
