(* ===== verification/UmallocSpec.v ===== *)
(** The user allocator: the free list stays a ring of blocks in the order of their
    addresses, no two of them adjacent, and the free and the allocated blocks
    partition the heap. *)
From stdpp Require Import base tactics list numbers strings gmap.
From S2P Require Import Prelude Umalloc.

#[local] Open Scope Z_scope.

(** ** Blocks: an address and a number of headers *)
Abbreviation blocks := (list (Z * Z)).
Definition cells (b : Z * Z) : list Z := (fun i => b.1 + 8 * i) <$> seqZ 0 b.2.
Definition area (l : blocks) : list Z := mjoin (cells <$> l).

Lemma area_app l1 l2 : area (l1 ++ l2) = area l1 ++ area l2.
Proof. unfold area. by rewrite fmap_app, join_app. Qed.
Lemma area_cons b l : area (b :: l) = cells b ++ area l.
Proof. done. Qed.
Lemma cells_split a n m : 0 <= n -> 0 <= m -> cells (a, n + m) = cells (a, n) ++ cells (a + 8 * n, m).
Proof.
  intros Hn Hm. unfold cells. cbn [fst snd]. rewrite seqZ_app, fmap_app by done. f_equal.
  replace (0 + n) with (n + 0) by lia. rewrite <-(fmap_add_seqZ n 0 m), <-list_fmap_compose. apply list_fmap_ext. intros i x _. simpl. lia.
Qed.
Lemma elem_of_cells x a n : x ∈ cells (a, n) <-> exists i, 0 <= i < n /\ x = a + 8 * i.
Proof.
  unfold cells. rewrite list_elem_of_fmap. cbn [fst snd]. split.
  - intros (i & -> & Hi). apply elem_of_seqZ in Hi. exists i. split; [lia|done].
  - intros (i & Hi & ->). exists i. split; [done|]. apply elem_of_seqZ. lia.
Qed.
Lemma elem_of_area x l : x ∈ area l <-> exists b, b ∈ l /\ x ∈ cells b.
Proof.
  unfold area. rewrite list_elem_of_join. split.
  - intros (c & Hx & Hc). apply list_elem_of_fmap in Hc as (b & -> & Hb). by exists b.
  - intros (b & Hb & Hx). exists (cells b). split; [done|]. apply list_elem_of_fmap. by exists b.
Qed.

(** The blocks partition the memory from [lo] to [hi]. *)
Record tiled (lo hi : Z) (l : blocks) : Prop := {
  ti_pos : Forall (fun b => 0 < b.2) l;
  ti_area : exists n, 0 <= n /\ hi = lo + 8 * n /\ area l ≡ₚ cells (lo, n)
}.

Lemma tiled_perm lo hi l l' : l ≡ₚ l' -> tiled lo hi l -> tiled lo hi l'.
Proof.
  intros Hp [H1 (n & H2 & H3 & H4)]. split; [by rewrite <-Hp|]. exists n. split; [done|]. split; [done|].
  rewrite <-H4. unfold area. by rewrite Hp.
Qed.

Lemma tiled_range lo hi l a n : tiled lo hi l -> (a, n) ∈ l ->
  lo <= a /\ a + 8 * n <= hi /\ 0 < n /\ (a - lo) mod 8 = 0.
Proof.
  intros [H1 (N & HN & -> & Hp)] Hin. rewrite Forall_forall in H1. pose proof (H1 _ Hin) as Hn. simpl in Hn.
  assert (Hc : forall i, 0 <= i < n -> exists j, 0 <= j < N /\ a + 8 * i = lo + 8 * j).
  { intros i Hi. apply elem_of_cells. rewrite <-Hp. apply elem_of_area. exists (a, n). split; [done|]. apply elem_of_cells. by exists i. }
  destruct (Hc 0 ltac:(lia)) as (j & Hj & Ej). destruct (Hc (n - 1) ltac:(lia)) as (k & Hk & Ek).
  split; [lia|]. split; [lia|]. split; [done|]. replace (a - lo) with (j * 8) by lia. apply Z.mod_mul. lia.
Qed.

(** Two different blocks do not overlap. *)
Lemma tiled_apart lo hi l1 a n l2 b m l3 : tiled lo hi (l1 ++ (a, n) :: l2 ++ (b, m) :: l3) ->
  a + 8 * n <= b \/ b + 8 * m <= a.
Proof.
  intros HT. destruct (tiled_range _ _ _ a n HT ltac:(set_solver)) as (A1 & A2 & A3 & A4).
  destruct (tiled_range _ _ _ b m HT ltac:(set_solver)) as (B1 & B2 & B3 & B4).
  destruct HT as [_ (N & HN & _ & Hp)].
  assert (Hnd : NoDup (area (l1 ++ (a, n) :: l2 ++ (b, m) :: l3))).
  { rewrite Hp. unfold cells. apply NoDup_fmap_2_strong; [|apply NoDup_seqZ]. intros. lia. }
  rewrite area_app, area_cons, area_app, area_cons in Hnd. apply NoDup_app in Hnd as (_ & _ & Hnd).
  apply NoDup_app in Hnd as (_ & Hd & _).
  assert (Hno : forall x, x ∈ cells (a, n) -> x ∈ cells (b, m) -> False).
  { intros x Hx Hy. apply (Hd x Hx). apply elem_of_app. right. apply elem_of_app. by left. }
  apply Z.mod_divide in A4 as [u Hu]; [|lia]. apply Z.mod_divide in B4 as [v Hv]; [|lia].
  destruct (Z.le_gt_cases a b).
  - destruct (Z.le_gt_cases (a + 8 * n) b); [by left|]. exfalso. apply (Hno b); apply elem_of_cells; [exists (v - u)|exists 0]; lia.
  - destruct (Z.le_gt_cases (b + 8 * m) a); [by right|]. exfalso. apply (Hno a); apply elem_of_cells; [exists 0|exists (u - v)]; lia.
Qed.
Lemma tiled_disjoint lo hi l x y i j : tiled lo hi l -> l !! i = Some x -> l !! j = Some y -> i <> j ->
  x.1 + 8 * x.2 <= y.1 \/ y.1 + 8 * y.2 <= x.1.
Proof.
  assert (Hlt : forall i j x y, (i < j)%nat -> tiled lo hi l -> l !! i = Some x -> l !! j = Some y ->
    x.1 + 8 * x.2 <= y.1 \/ y.1 + 8 * y.2 <= x.1).
  { clear. intros i j [a n] [b m] Hlt HT Hi Hj. rewrite <-(take_drop_middle _ _ _ Hi) in HT.
    assert (Hj' : drop (S i) l !! (j - S i)%nat = Some (b, m)) by (rewrite lookup_drop; by replace (S i + (j - S i))%nat with j by lia).
    rewrite <-(take_drop_middle _ _ _ Hj') in HT. exact (tiled_apart _ _ _ _ _ _ _ _ _ HT). }
  intros HT Hi Hj Hne. destruct (decide (i < j)%nat); [by eapply Hlt|]. destruct (Hlt j i y x) as [H|H]; [lia|done..|by right|by left].
Qed.

(** ** The ring of free blocks *)
Definition first (R : blocks) (e : Z) : Z := match R with [] => e | b :: _ => b.1 end.
Fixpoint seg (h : gmap Z (Z * Z)) (R : blocks) (e : Z) : Prop :=
  match R with
  | [] => True
  | (a, n) :: R' => h !! a = Some (first R' e, n) /\ seg h R' e
  end.
(** The blocks are in order, with something between them. *)
Fixpoint gaps (lo : Z) (F : blocks) : Prop :=
  match F with
  | [] => True
  | (a, n) :: F' => lo < a /\ 0 < n /\ gaps (a + 8 * n) F'
  end.
Definition last_end (lo : Z) (F : blocks) : Z := match last F with None => lo | Some b => b.1 + 8 * b.2 end.

Lemma first_app R1 R2 e : first (R1 ++ R2) e = first R1 (first R2 e).
Proof. by destruct R1. Qed.
Lemma seg_app h R1 R2 e : seg h (R1 ++ R2) e <-> seg h R1 (first R2 e) /\ seg h R2 e.
Proof.
  induction R1 as [|[a n] R1 IH]; [by split; [|intros []]|]. change (seg h (((a, n) :: R1) ++ R2) e) with (h !! a = Some (first (R1 ++ R2) e, n) /\ seg h (R1 ++ R2) e).
  rewrite IH, first_app. simpl. tauto.
Qed.
Lemma seg_frame h R e x v : x ∉ R.*1 -> seg h R e -> seg (<[x := v]> h) R e.
Proof.
  induction R as [|[a n] R IH]; [done|]. cbn [fmap list_fmap fst]. intros [Hx Hr]%not_elem_of_cons [Ha HR].
  split; [by rewrite lookup_insert_ne|by apply IH].
Qed.
Lemma seg_next h R e i a n : seg h R e -> R !! i = Some (a, n) ->
  h !! a = Some (match R !! S i with Some b => b.1 | None => e end, n).
Proof.
  revert i. induction R as [|[a' n'] R IH]; intros [|i] HS Hi; simplify_eq/=.
  - destruct HS as [-> _]. by destruct R.
  - by apply IH; [apply HS|].
Qed.

Lemma gaps_app lo F1 F2 : gaps lo (F1 ++ F2) <-> gaps lo F1 /\ gaps (last_end lo F1) F2.
Proof.
  revert lo. induction F1 as [|[a n] F1 IH]; intros lo; [by split; [|intros []]|].
  change (gaps lo (((a, n) :: F1) ++ F2)) with (lo < a /\ 0 < n /\ gaps (a + 8 * n) (F1 ++ F2)). rewrite IH. simpl.
  replace (last_end lo ((a, n) :: F1)) with (last_end (a + 8 * n) F1); [tauto|]. unfold last_end. rewrite last_cons. by destruct (last F1).
Qed.
Lemma gaps_mono lo lo' F : lo' <= lo -> gaps lo F -> gaps lo' F.
Proof. destruct F as [|[a n] F]; [done|]. simpl. intros ? (? & ? & ?). split; [lia|done]. Qed.
Lemma gaps_above lo F b : gaps lo F -> b ∈ F -> lo < b.1 /\ 0 < b.2.
Proof.
  revert lo. induction F as [|[a n] F IH]; intros lo HG Hb; [by apply elem_of_nil in Hb|]. destruct HG as (? & ? & HG).
  apply elem_of_cons in Hb as [->|Hb]; [done|]. destruct (IH _ HG Hb). split; [lia|done].
Qed.
Lemma gaps_sorted lo F i j x y : gaps lo F -> F !! i = Some x -> F !! j = Some y -> (i < j)%nat -> x.1 + 8 * x.2 < y.1.
Proof.
  revert lo i j. induction F as [|[a n] F IH]; intros lo i j HG Hi Hj Hlt; [done|]. destruct HG as (_ & _ & HG).
  destruct j as [|j]; [lia|]. destruct i as [|i]; simplify_eq/=.
  - apply (gaps_above _ _ y HG). by eapply list_elem_of_lookup_2.
  - eapply (IH _ i j); [done..|lia].
Qed.

Section ring.
Context (base : Z) (F : blocks).
Let R : blocks := (base, 0) :: F.
Hypothesis HG : gaps base F.

Lemma ring_sorted i j x y : R !! i = Some x -> R !! j = Some y -> (i < j)%nat -> x.1 < y.1.
Proof.
  intros Hi Hj Hlt. destruct j as [|j]; [lia|]. destruct i as [|i]; simplify_eq/=.
  - apply (gaps_above _ _ y HG). by eapply list_elem_of_lookup_2.
  - pose proof (gaps_sorted _ _ _ _ _ _ HG Hi Hj ltac:(lia)). pose proof (gaps_above _ _ x HG ltac:(by eapply list_elem_of_lookup_2)). lia.
Qed.
Lemma ring_nodup : NoDup R.*1.
Proof.
  apply NoDup_alt. intros i j a Hi Hj. rewrite list_lookup_fmap in Hi, Hj.
  destruct (R !! i) as [x|] eqn:Ei, (R !! j) as [y|] eqn:Ej; simplify_eq/=.
  destruct (lt_eq_lt_dec i j) as [[Hlt|]|Hlt]; [|done|].
  - pose proof (ring_sorted _ _ _ _ Ei Ej Hlt). lia.
  - pose proof (ring_sorted _ _ _ _ Ej Ei Hlt). lia.
Qed.

(** Where a block is to be inserted. *)
Lemma split_at bp : bp ∉ F.*1 -> exists F1 F2, F = F1 ++ F2 /\
  Forall (fun b => b.1 < bp) F1 /\ Forall (fun b => bp < b.1) F2.
Proof.
  intros Hbp. clear R. revert base HG Hbp. induction F as [|[a n] F' IH]; intros lo HG' Hbp; [by exists [], []|].
  cbn [fmap list_fmap fst] in Hbp. apply not_elem_of_cons in Hbp as [Hne Hbp]. destruct HG' as (Hlo & Hn & HG').
  destruct (Z.lt_ge_cases a bp) as [Hlt|Hge].
  - destruct (IH _ HG' Hbp) as (F1 & F2 & -> & H1 & H2). exists ((a, n) :: F1), F2. split; [done|]. split; [by constructor|done].
  - exists [], ((a, n) :: F'). split; [done|]. split; [done|]. constructor; [simpl; lia|].
    apply Forall_forall. intros b Hb. pose proof (gaps_above _ _ b HG' Hb). lia.
Qed.

Section walk.
Context (s : heap) (bp : Z) (F1 F2 : blocks).
Hypothesis HS : seg (hdr s) R base.
Hypothesis HF : F = F1 ++ F2.
Hypothesis H1 : Forall (fun b => b.1 < bp) F1.
Hypothesis H2 : Forall (fun b => bp < b.1) F2.
Hypothesis Hb : base < bp.

Lemma ring_next i b : R !! i = Some b ->
  ptr b.1 s = Ret (match R !! S i with Some b' => b'.1 | None => base end) s /\ size b.1 s = Ret b.2 s.
Proof.
  intros Hi. destruct b as [a n]. unfold ptr, size, gets, header_at. cbn [fst snd]. by rewrite (seg_next _ _ _ _ _ _ HS Hi).
Qed.
Lemma before i b : R !! i = Some b -> (i <= length F1)%nat -> b.1 < bp.
Proof.
  intros Hi Hle. destruct i as [|i]; [by injection Hi as <-|]. change (F !! i = Some b) in Hi. rewrite HF, lookup_app_l in Hi by lia.
  exact (Forall_lookup_1 _ _ _ _ H1 Hi).
Qed.
Lemma after i b : R !! i = Some b -> (length F1 < i)%nat -> bp < b.1.
Proof.
  intros Hi Hlt. destruct i as [|i]; [lia|]. change (F !! i = Some b) in Hi. rewrite HF, lookup_app_r in Hi by lia. exact (Forall_lookup_1 _ _ _ _ H2 Hi).
Qed.

Lemma free_stop fuel p : R !! length F1 = Some p -> free_loop fuel bp p.1 s = Ret p.1 s.
Proof.
  intros Hp. destruct (ring_next _ _ Hp) as [Hn _]. pose proof (before _ _ Hp ltac:(lia)) as Hlt.
  assert (Hunf : free_loop fuel bp p.1 s = (next ← ptr p.1;
    if (p.1 <? bp) && (bp <? next) then mret p.1
    else if (next <=? p.1) && ((p.1 <? bp) || (bp <? next)) then mret p.1
    else match fuel with O => nofuel | S f => free_loop f bp next end) s) by (by destruct fuel).
  rewrite Hunf. unfold mbind, M_bind. rewrite Hn. cbn [obind]. rewrite (proj2 (Z.ltb_lt _ _) Hlt). cbn [andb orb].
  destruct (R !! S (length F1)) as [b'|] eqn:En.
  - pose proof (after _ _ En ltac:(lia)). by rewrite (proj2 (Z.ltb_lt bp _)) by lia.
  - rewrite (proj2 (Z.ltb_ge bp base)), (proj2 (Z.leb_le base p.1)); [done| |lia].
    destruct (length F1) as [|k]; [injection Hp as <-; simpl; lia|].
    pose proof (ring_sorted 0 (S k) _ _ eq_refl Hp ltac:(lia)) as H0. simpl in H0. lia.
Qed.

Lemma free_go f i b : R !! i = Some b -> i <> length F1 -> (length F1 < length R)%nat ->
  free_loop (S f) bp b.1 s = free_loop f bp (match R !! S i with Some b' => b'.1 | None => base end) s.
Proof.
  intros Hi Hne Hk. cbn [free_loop]. unfold mbind, M_bind. destruct (ring_next _ _ Hi) as [-> _]. cbn [obind].
  destruct (R !! S i) as [b'|] eqn:En.
  - pose proof (ring_sorted _ _ _ _ Hi En ltac:(lia)) as Hs. rewrite (proj2 (Z.leb_gt b'.1 b.1)) by lia.
    destruct (decide (i < length F1)%nat) as [Hlt|Hge].
    + pose proof (before _ _ En ltac:(lia)). by rewrite (proj2 (Z.ltb_ge bp b'.1)), andb_false_r by lia.
    + pose proof (after _ _ Hi ltac:(lia)). by rewrite (proj2 (Z.ltb_ge b.1 bp)) by lia.
  - apply lookup_ge_None in En. pose proof (after _ _ Hi ltac:(lia)).
    rewrite (proj2 (Z.ltb_ge b.1 bp)), (proj2 (Z.ltb_ge bp base)) by lia. by destruct (base <=? b.1).
Qed.

Lemma free_loop_spec fuel : forall d i b p, (d <= fuel)%nat -> R !! i = Some b -> R !! length F1 = Some p ->
  ((i + d) mod length R)%nat = length F1 -> free_loop fuel bp b.1 s = Ret p.1 s.
Proof.
  induction fuel as [|fuel IH]; intros d i b p Hd Hi Hp Em; pose proof (lookup_lt_Some _ _ _ Hi) as Hin;
    (destruct (decide (i = length F1)) as [->|Hne]; [rewrite Hi in Hp; injection Hp as <-; by apply free_stop|]);
    (destruct d as [|d]; [by rewrite Nat.add_0_r, Nat.mod_small in Em|]); [lia|].
  pose proof (lookup_lt_Some _ _ _ Hp) as Hk. rewrite (free_go _ _ _ Hi Hne Hk). destruct (R !! S i) as [b'|] eqn:En.
  - apply (IH d (S i) b' p); [lia|done|done|]. rewrite <-Em. f_equal. lia.
  - apply lookup_ge_None in En. apply (IH d 0%nat (base, 0) p); [lia|done|done|]. rewrite <-Em.
    replace (i + S d)%nat with (d + 1 * length R)%nat by lia. by rewrite Nat.Div0.mod_add.
Qed.
End walk.
End ring.

(** ** The heap

    [F] are the free blocks, [A] the allocated ones; the heap begins at [lo]. *)
Definition sized (h : gmap Z (Z * Z)) (b : Z * Z) : Prop := exists x, h !! b.1 = Some (x, b.2).

Record heap_ok (base lo : Z) (F A : blocks) (s : heap) : Prop := {
  ho_seg : seg (hdr s) ((base, 0) :: F) base;
  ho_gaps : gaps base F;
  ho_freep : exists i b, ((base, 0) :: F) !! i = Some b /\ freep s = b.1;
  ho_tiled : tiled lo (brk s) (F ++ A);
  ho_alloc : Forall (sized (hdr s)) A;
  ho_base : 0 < base /\ base + 8 <= lo;
  ho_limit : brk s <= limit s /\ limit s <= 2^31
}.

Lemma sized_frame h A x v : x ∉ A.*1 -> Forall (sized h) A -> Forall (sized (<[x := v]> h)) A.
Proof.
  intros Hx HA. rewrite Forall_forall in HA |- *. intros b Hb. destruct (HA b Hb) as [y Hy]. exists y.
  rewrite lookup_insert_ne; [done|]. intros ->. apply Hx. apply list_elem_of_fmap. by exists b.
Qed.

Lemma plus_small p n : 0 <= p + 8 * n < 2^32 -> plus p n = p + 8 * n.
Proof. intros. apply u32_small. done. Qed.

(** The accesses to a header. *)
Section access.
Context (h : gmap Z (Z * Z)) (fp bk lm p x n : Z).
Hypothesis Hp : h !! p = Some (x, n).
Lemma ptr_at : ptr p (Heap h fp bk lm) = Ret x (Heap h fp bk lm).
Proof. unfold ptr, gets, header_at. simpl. by rewrite Hp. Qed.
Lemma size_at : size p (Heap h fp bk lm) = Ret n (Heap h fp bk lm).
Proof. unfold size, gets, header_at. simpl. by rewrite Hp. Qed.
Lemma set_ptr_at y : set_ptr p y (Heap h fp bk lm) = Ret tt (Heap (<[p := (y, n)]> h) fp bk lm).
Proof. unfold set_ptr, modify, header_at, upd. simpl. by rewrite Hp. Qed.
Lemma set_size_at m : set_size p m (Heap h fp bk lm) = Ret tt (Heap (<[p := (x, m)]> h) fp bk lm).
Proof. unfold set_size, modify, header_at, upd. simpl. by rewrite Hp. Qed.
End access.

Section heap.
Context (base lo : Z) (F A : blocks) (s : heap).
Hypothesis HI : heap_ok base lo F A s.

Lemma block_range b : b ∈ F ++ A -> lo <= b.1 /\ b.1 + 8 * b.2 <= brk s /\ 0 < b.2.
Proof. destruct b as [a n]. intros Hb. destruct (tiled_range _ _ _ a n (ho_tiled _ _ _ _ _ HI) Hb) as (? & ? & ? & _). done. Qed.

(** A free and an allocated block do not overlap. *)
Lemma free_alloc x y : x ∈ F -> y ∈ A -> x.1 + 8 * x.2 <= y.1 \/ y.1 + 8 * y.2 <= x.1.
Proof.
  intros [i Hi]%list_elem_of_lookup [j Hj]%list_elem_of_lookup. pose proof (lookup_lt_Some _ _ _ Hi).
  eapply (tiled_disjoint _ _ _ x y i (length F + j) (ho_tiled _ _ _ _ _ HI)); [by apply lookup_app_l_Some| |lia].
  rewrite lookup_app_r by lia. by replace (length F + j - length F)%nat with j by lia.
Qed.
Lemma alloc_not_ring y : y ∈ A -> y.1 ∉ ((base, 0) :: F).*1.
Proof.
  intros Hy (x & Ex & Hx)%list_elem_of_fmap. pose proof (ho_base _ _ _ _ _ HI).
  destruct (block_range y) as (? & ? & ?); [apply elem_of_app; by right|].
  apply elem_of_cons in Hx as [->|Hx]; [simpl in Ex; lia|].
  destruct (block_range x) as (? & ? & ?); [apply elem_of_app; by left|]. destruct (free_alloc x y Hx Hy); lia.
Qed.
Lemma ring_not_alloc x : x ∈ ((base, 0) :: F).*1 -> x ∉ A.*1.
Proof. intros Hx (y & -> & Hy)%list_elem_of_fmap. by eapply alloc_not_ring. Qed.
End heap.

(** A block that is being freed is linked to the ring after it; [F3] is what follows
    it, without a block that has been joined to it. *)
Lemma join_next base lo F1 F2 A1 A2 a n h fp bk lm p0 :
  heap_ok base lo (F1 ++ F2) (A1 ++ (a, n) :: A2) (Heap h fp bk lm) ->
  Forall (fun b => a < b.1) F2 -> p0 = first F2 base ->
  exists n' F3, (if plus a n =? p0 then nsz ← size p0; set_size a (u32 (n + nsz));; nn ← ptr p0; set_ptr a nn
      else set_ptr a p0) (Heap h fp bk lm) = Ret tt (Heap (<[a := (first F3 base, n')]> h) fp bk lm) /\
    (exists x, F2 = x ++ F3) /\ gaps (a + 8 * n') F3 /\ n <= n' /\ a + 8 * n' <= bk /\
    cells (a, n) ++ area F2 = cells (a, n') ++ area F3.
Proof.
  intros HI H2 ->. set (A := A1 ++ (a, n) :: A2) in *. assert (Ha : (a, n) ∈ A) by (unfold A; set_solver).
  destruct (block_range _ _ _ _ _ HI (a, n)) as (B1 & B2 & B3); [apply elem_of_app; by right|]. simpl in B1, B2, B3.
  pose proof (ho_base _ _ _ _ _ HI) as HB. pose proof (ho_limit _ _ _ _ _ HI) as HL. simpl in HL.
  pose proof (ho_gaps _ _ _ _ _ HI) as HG. apply gaps_app in HG as [_ HG].
  pose proof (ho_alloc _ _ _ _ _ HI) as HA. rewrite Forall_forall in HA. destruct (HA _ Ha) as [x0 Hx0]. simpl in Hx0.
  rewrite plus_small by lia. destruct F2 as [|[b m] F3]; cbn [first fst].
  - rewrite (proj2 (Z.eqb_neq _ _)), (set_ptr_at _ _ _ _ _ _ _ Hx0) by lia. exists n, []. split; [done|]. split; [by exists []|done].
  - apply Forall_cons in H2 as [Hab _]. simpl in Hab. destruct HG as (_ & Hm & HG).
    destruct (block_range _ _ _ _ _ HI (b, m)) as (C1 & C2 & C3); [set_solver|]. simpl in C1, C2, C3.
    destruct (free_alloc _ _ _ _ _ HI (b, m) (a, n)) as [Hd|Hd]; [set_solver|done|simpl in Hd; lia|]. simpl in Hd.
    destruct (Z.eqb_spec (a + 8 * n) b) as [<-|Hne].
    + pose proof (ho_seg _ _ _ _ _ HI) as HS. rewrite app_comm_cons in HS. apply seg_app in HS as [_ [Hb _]]. simpl in Hb.
      unfold mbind, M_bind. rewrite (size_at _ _ _ _ _ _ _ Hb). cbn [obind]. rewrite (set_size_at _ _ _ _ _ _ _ Hx0). cbn [obind].
      rewrite (ptr_at _ _ _ _ _ (first F3 base) m) by (by rewrite lookup_insert_ne by lia). cbn [obind].
      rewrite (set_ptr_at _ _ _ _ _ x0 (u32 (n + m))) by apply lookup_insert_eq. rewrite insert_insert_eq, u32_small by (unfold in_u32; lia).
      exists (n + m), F3. split; [done|]. split; [by exists [(a + 8 * n, m)]|].
      split; [by replace (a + 8 * (n + m)) with (a + 8 * n + 8 * m) by lia|]. split; [lia|]. split; [lia|].
      rewrite cells_split, <-app_assoc by lia. done.
    + rewrite (set_ptr_at _ _ _ _ _ _ _ Hx0). exists n, ((b, m) :: F3). split; [done|]. split; [by exists []|].
      split; [|done]. split; [lia|]. split; [done|]. exact HG.
Qed.

(** The ring with the block [p] followed by [T]. *)
Lemma relink (base : Z) (R1 T : blocks) (p m m' : Z) h e :
  seg h (R1 ++ [(p, m)]) e -> seg h T base -> NoDup (R1 ++ (p, m) :: T : blocks).*1 ->
  seg (<[p := (first T base, m')]> h) (R1 ++ (p, m') :: T) base.
Proof.
  intros HS HT Hnd. rewrite fmap_app, fmap_cons in Hnd. apply NoDup_app in Hnd as (_ & Hd & Hnd). apply NoDup_cons in Hnd as [HpT _].
  apply seg_app in HS as [HS _]. apply seg_app. split; [apply seg_frame; [|exact HS]|].
  - intros Hp. apply (Hd p Hp). by left.
  - split; [apply lookup_insert_eq|]. by apply seg_frame.
Qed.

Lemma pred_split (base : Z) (F1 : blocks) (p m : Z) : ((base, 0) :: F1) !! length F1 = Some (p, m) ->
  exists R1, (base, 0) :: F1 = R1 ++ [(p, m)] /\ (R1 = [] /\ F1 = [] /\ p = base /\ m = 0 \/
    exists F0, R1 = (base, 0) :: F0 /\ F1 = F0 ++ [(p, m)]).
Proof.
  destruct (F1) as [|x F0 _] using rev_ind; intros Hp.
  - injection Hp as <- <-. exists []. split; [done|]. by left.
  - rewrite length_app in Hp. change (length [x]) with 1%nat in Hp. rewrite Nat.add_1_r in Hp. cbn [lookup list_lookup] in Hp.
    change ((F0 ++ [x]) !! length F0 = Some (p, m)) in Hp. rewrite lookup_app_r, Nat.sub_diag in Hp by lia. injection Hp as ->.
    exists ((base, 0) :: F0). split; [done|]. right. by exists F0.
Qed.

(** The second half of [free]: the block [(a, n)], which [F3] follows, is linked
    behind its predecessor [p], or joined to it. *)
Section join_prev.
Context (base p m a n e : Z) (F1 F3 : blocks) (h : gmap Z (Z * Z)) (fp bk lm : Z).
Hypothesis Hp : ((base, 0) :: F1) !! length F1 = Some (p, m).
Hypothesis G1 : gaps base F1.
Hypothesis G3 : gaps (a + 8 * n) F3.
Hypothesis Hn : 0 < n.
Hypothesis Hle : p + 8 * m <= a.
Hypothesis Hlt : p < a.
Hypothesis Hpos : 0 < p.
Hypothesis Hmax : a + 8 * n < 2^32.
Hypothesis HS : seg h ((base, 0) :: F1) e.
Hypothesis HT : seg h F3 base.
Hypothesis Ha : h !! a = Some (first F3 base, n).

Lemma pred_header : h !! p = Some (e, m) /\ 0 <= m /\ last_end base F1 = p + 8 * m.
Proof.
  split; [rewrite (seg_next _ _ _ _ _ _ HS Hp); by rewrite (lookup_ge_None_2 _ (S (length F1))) by (simpl; lia)|].
  destruct (pred_split _ _ _ _ Hp) as (R0 & _ & [(_ & -> & -> & ->)|(F0 & _ & ->)]).
  - split; [lia|]. unfold last_end. simpl. lia.
  - unfold last_end. rewrite last_snoc. split; [|done]. apply gaps_app in G1 as [_ (_ & ? & _)]. lia.
Qed.

Lemma link_prev : p + 8 * m < a ->
  seg (<[p := (a, m)]> h) ((base, 0) :: F1 ++ (a, n) :: F3) base /\ gaps base (F1 ++ (a, n) :: F3).
Proof.
  intros Hg. destruct pred_header as (_ & _ & Hend).
  assert (HG : gaps base (F1 ++ (a, n) :: F3)) by (apply gaps_app; split; [done|]; split; [lia|done]).
  split; [|done]. pose proof (ring_nodup base _ HG) as Hnd. destruct (pred_split _ _ _ _ Hp) as (R0 & ER & _).
  rewrite app_comm_cons, ER, <-app_assoc in Hnd. rewrite app_comm_cons, ER, <-app_assoc. rewrite ER in HS.
  apply (relink base R0 ((a, n) :: F3) p m m h e); [done|by split|done].
Qed.

Lemma merge_prev : p + 8 * m = a -> exists F0, F1 = F0 ++ [(p, m)] /\
  seg (<[p := (first F3 base, m + n)]> h) ((base, 0) :: F0 ++ (p, m + n) :: F3) base /\ gaps base (F0 ++ (p, m + n) :: F3).
Proof.
  intros Hg. destruct (pred_split _ _ _ _ Hp) as (R0 & ER & [(_ & _ & -> & ->)|(F0 & -> & EF)]); [lia|].
  exists F0. split; [done|]. assert (HG : gaps base (F0 ++ (p, m) :: F3)).
  { replace (F0 ++ (p, m) :: F3) with (F1 ++ F3) by (by rewrite EF, <-app_assoc). apply gaps_app. split; [done|].
    rewrite EF. unfold last_end. rewrite last_snoc. apply (gaps_mono (a + 8 * n)); [simpl; lia|done]. }
  pose proof (ring_nodup base _ HG) as Hnd. rewrite ER in HS. split.
  - rewrite app_comm_cons in Hnd |- *. by apply (relink base ((base, 0) :: F0) F3 p m (m + n) h e).
  - apply gaps_app in HG as [HG0 (H1 & H2 & _)]. apply gaps_app. split; [done|]. split; [done|]. split; [lia|].
    by replace (p + 8 * (m + n)) with (a + 8 * n) by lia.
Qed.

Lemma join_prev : exists F' v i b, (if plus p m =? a then bsz ← size a; set_size p (u32 (m + bsz));; bn ← ptr a; set_ptr p bn
      else set_ptr p a) (Heap h fp bk lm) = Ret tt (Heap (<[p := v]> h) fp bk lm) /\
    seg (<[p := v]> h) ((base, 0) :: F') base /\ gaps base F' /\ area F' = area F1 ++ cells (a, n) ++ area F3 /\
    ((base, 0) :: F') !! i = Some (p, b) /\ exists j c, ((base, 0) :: F') !! j = Some c /\ n <= c.2.
Proof.
  destruct pred_header as (Hh & Hm & _). rewrite plus_small by lia. destruct (Z.eqb_spec (p + 8 * m) a) as [E|E].
  - destruct (merge_prev E) as (F0 & EF & HS' & HG'). unfold mbind, M_bind. rewrite (size_at _ _ _ _ _ _ _ Ha). cbn [obind].
    rewrite (set_size_at _ _ _ _ _ _ _ Hh). cbn [obind]. rewrite (ptr_at _ _ _ _ _ (first F3 base) n) by (by rewrite lookup_insert_ne by lia).
    cbn [obind]. rewrite (set_ptr_at _ _ _ _ _ e (u32 (m + n))), insert_insert_eq, u32_small by (first [apply lookup_insert_eq|unfold in_u32; lia]).
    exists (F0 ++ (p, m + n) :: F3), (first F3 base, m + n), (S (length F0)), (m + n). split; [done|]. split; [done|]. split; [done|].
    assert (Hi : ((base, 0) :: F0 ++ (p, m + n) :: F3) !! S (length F0) = Some (p, m + n)).
    { change ((F0 ++ (p, m + n) :: F3) !! length F0 = Some (p, m + n)). by rewrite lookup_app_r, Nat.sub_diag by lia. }
    split; [|split; [done|]; exists (S (length F0)), (p, m + n); split; [done|simpl; lia]].
    rewrite EF, !area_app, !area_cons, cells_split, E, <-!app_assoc by lia. done.
  - destruct (link_prev ltac:(lia)) as [HS' HG']. rewrite (set_ptr_at _ _ _ _ _ _ _ Hh).
    exists (F1 ++ (a, n) :: F3), (a, m), (length F1), m. split; [done|]. split; [done|]. split; [done|].
    split; [by rewrite area_app, area_cons|]. split.
    + rewrite app_comm_cons. by apply lookup_app_l_Some.
    + exists (S (length F1)), (a, n). split; [|simpl; lia].
      change ((F1 ++ (a, n) :: F3) !! length F1 = Some (a, n)). by rewrite lookup_app_r, Nat.sub_diag by lia.
Qed.
End join_prev.

(** There are no more blocks than cells. *)
Lemma length_cells b : length (cells b) = Z.to_nat b.2.
Proof. unfold cells. by rewrite length_fmap, length_seqZ. Qed.
Lemma tiled_length lo hi l : tiled lo hi l -> 8 * Z.of_nat (length l) <= hi - lo.
Proof.
  intros [Hp (n & Hn & -> & Ha)]. apply Permutation_length in Ha. rewrite length_cells in Ha. simpl in Ha.
  enough (length l <= length (area l))%nat by lia. clear Ha. induction Hp as [|b l Hb Hp IH]; [done|].
  rewrite area_cons, length_app, length_cells. simpl. lia.
Qed.
Lemma free_count base lo F A s N : heap_ok base lo F A s -> limit s <= lo + 8 * Z.of_nat N -> (length F <= N)%nat.
Proof.
  intros HI HN. pose proof (tiled_length _ _ _ (ho_tiled _ _ _ _ _ HI)) as Hl. rewrite length_app in Hl.
  pose proof (ho_limit _ _ _ _ _ HI). lia.
Qed.

(** The distance from [i] to [k] on a ring of [n]. *)
Lemma ring_distance i k n : (i < n)%nat -> (k < n)%nat -> exists d, (d < n)%nat /\ ((i + d) mod n)%nat = k.
Proof.
  intros Hi Hk. destruct (decide (i <= k)%nat).
  - exists (k - i)%nat. split; [lia|]. rewrite Nat.mod_small; lia.
  - exists (k + n - i)%nat. split; [lia|]. replace (i + (k + n - i))%nat with (k + 1 * n)%nat by lia.
    rewrite Nat.Div0.mod_add. by apply Nat.mod_small.
Qed.

Lemma alloc_other base lo F A1 A2 a n s y : heap_ok base lo F (A1 ++ (a, n) :: A2) s -> y ∈ A1 ++ A2 ->
  y.1 + 8 * y.2 <= a \/ a + 8 * n <= y.1.
Proof.
  intros HI Hy. assert (HT : tiled lo (brk s) ((a, n) :: F ++ A1 ++ A2)).
  { eapply tiled_perm; [|exact (ho_tiled _ _ _ _ _ HI)]. rewrite app_assoc, <-Permutation_middle. by rewrite <-app_assoc. }
  apply list_elem_of_lookup in Hy as [j Hj].
  destruct (tiled_disjoint _ _ _ (a, n) y 0 (S (length F + j)) HT) as [H|H]; [done| |lia|by right|by left].
  change ((F ++ A1 ++ A2) !! (length F + j)%nat = Some y). rewrite lookup_app_r by lia. by replace (length F + j - length F)%nat with j by lia.
Qed.

Lemma tiled_freed base lo hi F1 F2 A1 A2 a n F' : tiled lo hi ((F1 ++ F2) ++ A1 ++ (a, n) :: A2) -> gaps base F' ->
  area F' = area F1 ++ cells (a, n) ++ area F2 -> tiled lo hi (F' ++ A1 ++ A2).
Proof.
  intros [Hp (N & HN & EN & Ha)] HG E. split.
  - apply Forall_app in Hp as [_ Hp]. apply Forall_app in Hp as [Hp1 Hp2]. apply Forall_cons in Hp2 as [_ Hp2].
    apply Forall_app. split; [|by apply Forall_app]. apply Forall_forall. intros y Hy. by apply (gaps_above _ _ y HG).
  - exists N. split; [done|]. split; [done|]. rewrite <-Ha, !area_app, area_cons, E, <-!app_assoc. apply Permutation_app_head.
    rewrite (Permutation_app_comm (cells (a, n))), <-!app_assoc. do 2 apply Permutation_app_head. apply Permutation_app_comm.
Qed.
Lemma sized_freed base lo F A1 A2 a n s p v w : heap_ok base lo F (A1 ++ (a, n) :: A2) s -> p ∈ ((base, 0) :: F).*1 ->
  Forall (sized (<[p := v]> (<[a := w]> (hdr s)))) (A1 ++ A2).
Proof.
  intros HI Hp. assert (HA : Forall (sized (hdr s)) (A1 ++ A2)).
  { pose proof (ho_alloc _ _ _ _ _ HI) as HA. apply Forall_app in HA as [? HA]. apply Forall_cons in HA as [_ ?]. by apply Forall_app. }
  apply sized_frame; [|apply sized_frame; [|exact HA]]; intros (y & Ey & Hy)%list_elem_of_fmap.
  - assert (Hy' : y ∈ A1 ++ (a, n) :: A2) by set_solver. apply (alloc_not_ring _ _ _ _ _ HI y Hy'). by rewrite <-Ey.
  - destruct (block_range _ _ _ _ _ HI y) as (? & ? & ?); [set_solver|].
    destruct (block_range _ _ _ _ _ HI (a, n)) as (? & ? & ?); [set_solver|]. simpl in *. destruct (alloc_other _ _ _ _ _ _ _ _ y HI Hy); lia.
Qed.

Section free.
Context (base lo : Z) (F A1 A2 : blocks) (a n : Z) (s : heap) (fuel : nat).
Hypothesis HI : heap_ok base lo F (A1 ++ (a, n) :: A2) s.
Hypothesis Hfuel : (length F <= fuel)%nat.

Lemma free_finds : exists F1 F2 p m, F = F1 ++ F2 /\ Forall (fun b => a < b.1) F2 /\
  ((base, 0) :: F) !! length F1 = Some (p, m) /\ ((base, 0) :: F1) !! length F1 = Some (p, m) /\
  free_loop fuel a (freep s) s = Ret p s /\ p + 8 * m <= a /\ p < a /\ 0 < p.
Proof.
  assert (Ha : (a, n) ∈ A1 ++ (a, n) :: A2) by set_solver. pose proof (ho_base _ _ _ _ _ HI) as HB.
  destruct (block_range _ _ _ _ _ HI (a, n)) as (B1 & B2 & B3); [apply elem_of_app; by right|]. simpl in B1, B2, B3.
  pose proof (alloc_not_ring _ _ _ _ _ HI (a, n) Ha) as Hnr. cbn [fst] in Hnr. rewrite fmap_cons in Hnr.
  apply not_elem_of_cons in Hnr as [_ Hnr].
  destruct (split_at base F (ho_gaps _ _ _ _ _ HI) a Hnr) as (F1 & F2 & EF & H1 & H2).
  assert (Hk : (length F1 < length ((base, 0%Z) :: F))%nat) by (rewrite EF; simpl; rewrite length_app; lia).
  destruct (lookup_lt_is_Some_2 _ _ Hk) as [[p m] Hp]. exists F1, F2, p, m. split; [done|]. split; [done|]. split; [done|].
  assert (Hp1 : ((base, 0) :: F1) !! length F1 = Some (p, m)).
  { rewrite EF, app_comm_cons, lookup_app_l in Hp by (simpl; lia). done. }
  split; [done|]. destruct (ho_freep _ _ _ _ _ HI) as (i & b & Hi & ->). split.
  - destruct (ring_distance i (length F1) (length ((base, 0) :: F)) ltac:(by eapply lookup_lt_Some) Hk) as (d & Hd & Em).
    apply (free_loop_spec base F (ho_gaps _ _ _ _ _ HI) s a F1 F2 (ho_seg _ _ _ _ _ HI) EF H1 H2 ltac:(lia) fuel d i b (p, m)); [simpl in Hd; lia|done..].
  - destruct (pred_split _ _ _ _ Hp1) as (R0 & _ & [(_ & _ & -> & ->)|(F0 & _ & EF1)]); [lia|].
    assert (HpF : (p, m) ∈ F) by (rewrite EF, EF1; set_solver).
    destruct (block_range _ _ _ _ _ HI (p, m)) as (C1 & C2 & C3); [apply elem_of_app; by left|]. simpl in C1, C2, C3.
    assert (Hlt : p < a) by (rewrite EF1 in H1; apply Forall_app in H1 as [_ H1]; apply Forall_cons in H1 as [H1 _]; exact H1).
    destruct (free_alloc _ _ _ _ _ HI (p, m) (a, n) HpF Ha) as [H|H]; simpl in H; lia.
Qed.

(** [free] of an allocated block. *)
Lemma free_spec : exists F' s', free fuel (a + 8) s = Ret tt s' /\ heap_ok base lo F' (A1 ++ A2) s' /\
  brk s' = brk s /\ limit s' = limit s /\ exists j c, ((base, 0) :: F') !! j = Some c /\ n <= c.2.
Proof.
  destruct free_finds as (F1 & F2 & p & m & EF & H2 & Hp & Hp1 & El & Hle & Hlt & Hpos).
  assert (Ha : (a, n) ∈ A1 ++ (a, n) :: A2) by set_solver. pose proof (ho_base _ _ _ _ _ HI) as HB. pose proof (ho_limit _ _ _ _ _ HI) as HL.
  destruct (block_range _ _ _ _ _ HI (a, n)) as (B1 & B2 & B3); [apply elem_of_app; by right|]. simpl in B1, B2, B3.
  pose proof (ho_seg _ _ _ _ _ HI) as HS. pose proof (ho_alloc _ _ _ _ _ HI) as HA.
  pose proof (alloc_not_ring _ _ _ _ _ HI (a, n) Ha) as Hnr. cbn [fst] in Hnr.
  rewrite Forall_forall in HA. destruct (HA _ Ha) as [x0 Hx0]. simpl in Hx0.
  pose proof (seg_next _ _ _ _ _ _ HS Hp) as Hpn. pose proof HI as HI'. rewrite EF in HI', HS, Hnr.
  assert (Enext : match ((base, 0) :: F) !! S (length F1) with Some b => b.1 | None => base end = first F2 base).
  { change (((base, 0) :: F) !! S (length F1)) with (F !! length F1). rewrite EF, lookup_app_r, Nat.sub_diag by lia. by destruct F2. }
  rewrite Enext in Hpn. rewrite app_comm_cons in HS, Hnr. apply seg_app in HS as [HS1 HS2]. rewrite fmap_app in Hnr. apply not_elem_of_app in Hnr as [Hn1 Hn2].
  destruct s as [h fp bk lm]. cbn [hdr freep brk limit] in *.
  destruct (join_next base lo F1 F2 A1 A2 a n h fp bk lm _ HI' H2 eq_refl) as (n' & F3 & E1 & [x Ex] & G3 & Hn' & Hend & Ear).
  assert (HS3 : seg h F3 base) by (rewrite Ex in HS2; by apply seg_app in HS2 as [_ HS2]).
  assert (Hn3 : a ∉ F3.*1) by (rewrite Ex, fmap_app in Hn2; by apply not_elem_of_app in Hn2 as [_ Hn2]).
  pose proof (ho_gaps _ _ _ _ _ HI') as HG. apply gaps_app in HG as [G1 _].
  destruct (join_prev base p m a n' (first F2 base) F1 F3 (<[a := (first F3 base, n')]> h) fp bk lm Hp1 G1 G3)
    as (F' & v & i & b & E2 & HS' & HG' & Ear' & Hi & Hj); [lia..|by apply seg_frame|by apply seg_frame|apply lookup_insert_eq|].
  exists F', (Heap (<[p := v]> (<[a := (first F3 base, n')]> h)) p bk lm). split; [|split; [|split; [done|split; [done|]]]].
  - unfold free. rewrite plus_small by lia. replace (a + 8 + 8 * -1) with a by lia.
    unfold mbind, M_bind, gets. cbn [obind freep]. rewrite El. cbn [obind]. rewrite (ptr_at _ _ _ _ _ _ _ Hpn). cbn [obind].
    rewrite (size_at _ _ _ _ _ _ _ Hx0). cbn [obind]. unfold mbind, M_bind in E1. rewrite E1. cbn [obind].
    rewrite (size_at _ _ _ _ _ (first F2 base) m) by (by rewrite lookup_insert_ne by lia). cbn [obind].
    unfold mbind, M_bind in E2. rewrite E2. done.
  - split; cbn [hdr freep brk limit]; try done.
    + by exists i, (p, b).
    + apply (tiled_freed base lo bk F1 F2 A1 A2 a n F' (ho_tiled _ _ _ _ _ HI') HG'). by rewrite Ear', Ear.
    + apply (sized_freed base lo F A1 A2 a n (Heap h fp bk lm) p v _ HI). apply list_elem_of_fmap. exists (p, m).
      split; [done|]. by eapply list_elem_of_lookup_2.
  - destruct Hj as (j & c & Hj & Hc). exists j, c. split; [done|lia].
Qed.
End free.

(** ** malloc *)
Section take.
Context (base lo : Z) (Fa Fb A : blocks) (q m p sz : Z) (h : gmap Z (Z * Z)) (fp bk lm : Z).
Hypothesis HI : heap_ok base lo (Fa ++ (p, sz) :: Fb) A (Heap h fp bk lm).
Hypothesis Hq : ((base, 0) :: Fa) !! length Fa = Some (q, m).

Lemma take_facts : lo <= p /\ p + 8 * sz <= bk /\ 0 < sz /\ q < p /\ h !! p = Some (first Fb base, sz) /\ h !! q = Some (p, m) /\
  gaps base Fa /\ last_end base Fa < p /\ gaps (p + 8 * sz) Fb.
Proof.
  destruct (block_range _ _ _ _ _ HI (p, sz)) as (B1 & B2 & B3); [set_solver|]. simpl in *.
  pose proof (ho_gaps _ _ _ _ _ HI) as HG. pose proof (ho_seg _ _ _ _ _ HI) as HS. cbn [hdr] in HS.
  assert (Hq' : ((base, 0) :: Fa ++ (p, sz) :: Fb) !! length Fa = Some (q, m)) by (rewrite app_comm_cons; by apply lookup_app_l_Some).
  assert (Hp' : ((base, 0) :: Fa ++ (p, sz) :: Fb) !! S (length Fa) = Some (p, sz)).
  { change ((Fa ++ (p, sz) :: Fb) !! length Fa = Some (p, sz)). by rewrite lookup_app_r, Nat.sub_diag by lia. }
  pose proof (ring_sorted base _ HG _ _ _ _ Hq' Hp' ltac:(lia)) as Hlt. simpl in Hlt.
  pose proof (seg_next _ _ _ _ _ _ HS Hq') as Eq. rewrite Hp' in Eq. simpl in Eq.
  rewrite app_comm_cons in HS. apply seg_app in HS as [_ [Ep _]]. apply gaps_app in HG as [G1 (G2 & _ & G3)]. done.
Qed.

Lemma take_gaps r : 0 <= r <= sz -> gaps (p + 8 * r) Fb.
Proof. intros Hr. destruct take_facts as (_ & _ & _ & _ & _ & _ & _ & _ & G3). eapply gaps_mono; [|exact G3]. lia. Qed.

Lemma take_whole : exists h', heap_ok base lo (Fa ++ Fb) ((p, sz) :: A) (Heap h' q bk lm) /\
  set_ptr q (first Fb base) (Heap h fp bk lm) = Ret tt (Heap h' fp bk lm).
Proof.
  destruct take_facts as (B1 & B2 & B3 & B4 & Ep & Eq & G1 & G2 & G3). pose proof (ho_seg _ _ _ _ _ HI) as HS. cbn [hdr] in HS.
  assert (HG : gaps base (Fa ++ Fb)) by (apply gaps_app; split; [done|]; eapply gaps_mono; [|apply (take_gaps 0)]; lia).
  exists (<[q := (first Fb base, m)]> h). split; [|by rewrite (set_ptr_at _ _ _ _ _ _ _ Eq)].
  destruct (pred_split _ _ _ _ Hq) as (R0 & ER & _). rewrite app_comm_cons in HS. apply seg_app in HS as [HS1 [_ HS2]].
  assert (Hq' : ((base, 0) :: Fa ++ Fb) !! length Fa = Some (q, m)) by (rewrite app_comm_cons; by apply lookup_app_l_Some).
  split; cbn [hdr freep brk limit]; try apply HI.
  - pose proof (ring_nodup base _ HG) as Hnd. rewrite app_comm_cons, ER, <-app_assoc in Hnd |- *.
    rewrite ER in HS1. eapply relink; [exact HS1|exact HS2|exact Hnd].
  - exact HG.
  - by exists (length Fa), (q, m).
  - eapply tiled_perm; [|exact (ho_tiled _ _ _ _ _ HI)]. rewrite <-!app_assoc. cbn [app]. apply Permutation_app_head, Permutation_middle.
  - assert (HqA : q ∉ A.*1).
    { apply (ring_not_alloc _ _ _ _ _ HI). apply list_elem_of_fmap. exists (q, m). split; [done|].
      rewrite app_comm_cons. apply elem_of_app. left. by eapply list_elem_of_lookup_2. }
    constructor; [exists (first Fb base); simpl; by rewrite lookup_insert_ne by lia|]. apply sized_frame; [done|]. apply HI.
Qed.

Lemma take_part nu (r := sz - nu) (a := p + 8 * r) : 0 < nu < sz -> exists h', heap_ok base lo (Fa ++ (p, r) :: Fb) ((a, nu) :: A) (Heap h' q bk lm) /\
  (set_size p (u32 (sz - nu));; sz ← size p; set_size (plus p sz) nu;; mret (plus p sz)) (Heap h fp bk lm) = Ret a (Heap h' fp bk lm).
Proof.
  intros Hlt. destruct take_facts as (B1 & B2 & B3 & B4 & Ep & Eq & G1 & G2 & G3). pose proof (ho_seg _ _ _ _ _ HI) as HS. cbn [hdr] in HS.
  pose proof (ho_limit _ _ _ _ _ HI) as HL. pose proof (ho_base _ _ _ _ _ HI) as HB. cbn [brk limit] in HL.
  set (h1 := <[p := (first Fb base, r)]> h). set (x := (header_at a h1).1). exists (<[a := (x, nu)]> h1).
  assert (HG : gaps base (Fa ++ (p, r) :: Fb)).
  { apply gaps_app. split; [done|]. split; [done|]. split; [lia|]. apply take_gaps. lia. }
  assert (Har : a ∉ ((base, 0) :: Fa ++ (p, r) :: Fb).*1).
  { intros (y & Ey & [->|Hy]%elem_of_cons)%list_elem_of_fmap; [simpl in Ey; lia|]. apply elem_of_app in Hy as [Hy|[->|Hy]%elem_of_cons]; [|simpl in Ey; lia|].
    - pose proof (ho_gaps _ _ _ _ _ HI) as HG0. apply list_elem_of_lookup in Hy as [i Hi]. pose proof (lookup_lt_Some _ _ _ Hi).
      pose proof (gaps_sorted _ _ i (length Fa) y (p, sz) HG0 ltac:(by apply lookup_app_l_Some) ltac:(by rewrite lookup_app_r, Nat.sub_diag by lia) ltac:(lia)) as Hs.
      pose proof (gaps_above _ _ y G1 ltac:(by eapply list_elem_of_lookup_2)). simpl in Hs. lia.
    - pose proof (gaps_above _ _ y G3 Hy). lia. }
  split; [split; cbn [hdr freep brk limit]; try apply HI|].
  - apply seg_frame; [exact Har|]. pose proof (ring_nodup base _ HG) as Hnd. rewrite app_comm_cons in HS, Hnd |- *.
    apply seg_app in HS as [HS1 [HS2 HS3]]. eapply (relink base _ Fb p sz r h (first Fb base)); [|exact HS3|].
    + apply seg_app. split; [exact HS1|]. split; [exact HS2|done].
    + by rewrite fmap_app, fmap_cons in Hnd |- *.
  - exact HG.
  - exists (length Fa), (q, m). split; [|done]. rewrite app_comm_cons. by apply lookup_app_l_Some.
  - destruct (ho_tiled _ _ _ _ _ HI) as [Hp (N & HN & EN & Ha)]. split.
    + rewrite !Forall_app, !Forall_cons in Hp |- *. destruct Hp as [(P1 & _ & P3) P4].
      split; [split; [done|split; [simpl; lia|done]]|constructor; [simpl; lia|done]].
    + exists N. split; [done|]. split; [done|]. rewrite <-Ha, !area_app, !area_cons. rewrite <-!app_assoc. apply Permutation_app_head.
      replace sz with (r + nu) by lia. rewrite cells_split by lia. rewrite <-!app_assoc. apply Permutation_app_head.
      rewrite !app_assoc. apply Permutation_app_tail. apply Permutation_app_comm.
  - assert (HaA : a ∉ A.*1).
    { intros (y & Ey & Hy)%list_elem_of_fmap. destruct (block_range _ _ _ _ _ HI y) as (? & ? & ?); [set_solver|].
      destruct (free_alloc _ _ _ _ _ HI (p, sz) y) as [H3|H3]; [set_solver|done|simpl in H3; lia..]. }
    constructor; [exists x; apply lookup_insert_eq|]. apply sized_frame; [done|]. apply sized_frame; [|apply HI].
    apply (ring_not_alloc _ _ _ _ _ HI). apply list_elem_of_fmap. exists (p, sz). split; [done|set_solver].
  - unfold mbind, M_bind. rewrite (set_size_at _ _ _ _ _ _ _ Ep). cbn [obind]. rewrite u32_small by (unfold in_u32; lia). fold r h1.
    rewrite (size_at h1 fp bk lm p (first Fb base) r) by apply lookup_insert_eq. cbn [obind]. rewrite plus_small by lia. done.
Qed.
End take.

(** The result of a successful [malloc] of [nu] headers. *)
Definition allocated (base lo : Z) (A : blocks) (nu : Z) (s : heap) (o : outcome heap Z) : Prop :=
  exists a F' s', o = Ret (a + 8) s' /\ heap_ok base lo F' ((a, nu) :: A) s' /\ limit s' = limit s.

Lemma malloc_take base lo F A s c q m p sz nu fuel :
  heap_ok base lo F A s -> ((base, 0) :: F) !! c = Some (q, m) -> ((base, 0) :: F) !! S c = Some (p, sz) -> 0 < nu <= sz ->
  allocated base lo A nu s (malloc_loop fuel nu q p s).
Proof.
  intros HI Hc Hp Hnu. change (F !! c = Some (p, sz)) in Hp. pose proof (take_drop_middle _ _ _ Hp) as EF.
  pose proof (lookup_lt_Some _ _ _ Hp) as Hlt. assert (Hl : length (take c F) = c) by (rewrite length_take; lia).
  set (Fa := take c F) in *. set (Fb := drop (S c) F) in *. rewrite <-EF in HI. destruct s as [h fp bk lm].
  assert (Hq : ((base, 0) :: Fa) !! length Fa = Some (q, m)).
  { rewrite <-EF, app_comm_cons, lookup_app_l in Hc by (simpl; lia). by rewrite Hl. }
  destruct (take_facts base lo Fa Fb A q m p sz h fp bk lm HI Hq) as (B1 & B2 & B3 & B4 & Ep & _).
  pose proof (ho_limit _ _ _ _ _ HI) as HL. pose proof (ho_base _ _ _ _ _ HI) as HB. cbn [brk limit] in HL.
  assert (Hunf : malloc_loop fuel nu q p (Heap h fp bk lm) =
    (p ← (if sz =? nu then n ← ptr p; set_ptr q n;; mret p
          else set_size p (u32 (sz - nu));; sz ← size p; set_size (plus p sz) nu;; mret (plus p sz));
     set_freep q;; mret (plus p 1)) (Heap h fp bk lm)).
  { destruct fuel; cbn [malloc_loop]; unfold mbind at 1, M_bind at 1; rewrite (size_at _ _ _ _ _ _ _ Ep); cbn [obind];
      by rewrite (proj2 (Z.leb_le nu sz)) by lia. }
  rewrite Hunf. destruct (Z.eqb_spec sz nu) as [->|Hne].
  - destruct (take_whole base lo Fa Fb A q m p nu h fp bk lm HI Hq) as (h' & HI' & E). exists p, (Fa ++ Fb), (Heap h' q bk lm).
    split; [|done]. unfold mbind, M_bind. rewrite (ptr_at _ _ _ _ _ _ _ Ep). cbn [obind]. rewrite E. cbn [obind mret M_ret].
    unfold set_freep, modify. cbn [obind]. rewrite plus_small by lia. done.
  - destruct (take_part base lo Fa Fb A q m p sz h fp bk lm HI Hq nu) as (h' & HI' & E); [lia..|].
    exists (p + 8 * (sz - nu)), (Fa ++ (p, sz - nu) :: Fb), (Heap h' q bk lm). split; [|done].
    unfold mbind at 1, M_bind at 1. rewrite E. cbn [obind]. unfold set_freep, modify, mbind, M_bind. cbn [obind].
    rewrite plus_small by lia. done.
Qed.

(** The walk of [malloc] along the ring: it starts behind [freep], whose index is
    [i]; at turn [t] it is at the index [(i + 1 + t) mod n]. *)
Section scan.
Context (base lo : Z) (F A : blocks) (s : heap) (i : nat) (b : Z * Z) (nu : Z).
Let R : blocks := (base, 0) :: F.
Let n : nat := length R.
Hypothesis HI : heap_ok base lo F A s.
Hypothesis Hi : R !! i = Some b.
Hypothesis Hfp : freep s = b.1.
Hypothesis Hnu : 0 < nu.

(** [p] is the block of turn [t], and [q] the one before. *)
Definition at_turn (t : nat) (q : Z) (p : Z * Z) : Prop :=
  R !! ((i + 1 + t) mod n)%nat = Some p /\
  (((i + 1 + t) mod n)%nat <> 0%nat -> exists m, R !! ((i + 1 + t) mod n - 1)%nat = Some (q, m)).

Lemma turn_small t p q : at_turn t q p -> p.2 < nu -> (t < n - 1)%nat ->
  exists p', at_turn (S t) p.1 p' /\ forall f, malloc_loop (S f) nu q p.1 s = malloc_loop f nu p.1 p'.1 s.
Proof.
  intros [Hp _] Hs Ht. set (c := ((i + 1 + t) mod n)%nat) in *. pose proof (lookup_lt_Some _ _ _ Hp) as Hc. fold n in Hc.
  pose proof (lookup_lt_Some _ _ _ Hi) as Hin. fold n in Hin.
  assert (Hci : c <> i).
  { intros E. unfold c in E. destruct (decide (i + 1 + t < n)%nat); [rewrite Nat.mod_small in E by lia; lia|].
    replace (i + 1 + t)%nat with (i + 1 + t - n + 1 * n)%nat in E by lia. rewrite Nat.Div0.mod_add, Nat.mod_small in E by lia. lia. }
  assert (Ec : ((i + 1 + S t) mod n)%nat = (S c mod n)%nat).
  { unfold c. replace (i + 1 + S t)%nat with (S (i + 1 + t)) by lia. rewrite <-(Nat.Div0.add_mod_idemp_r 1). done. }
  destruct (ring_next base F s (ho_seg _ _ _ _ _ HI) c p Hp) as [En Esz].
  assert (Hne : p.1 <> freep s).
  { rewrite Hfp. intros E. destruct (decide (c < i)%nat).
    - pose proof (ring_sorted base F (ho_gaps _ _ _ _ _ HI) c i p b Hp Hi ltac:(lia)). lia.
    - pose proof (ring_sorted base F (ho_gaps _ _ _ _ _ HI) i c b p Hi Hp ltac:(lia)). lia. }
  assert (Hstep : forall p', match R !! S c with Some b' => b'.1 | None => base end = p' ->
    forall f, malloc_loop (S f) nu q p.1 s = malloc_loop f nu p.1 p' s).
  { intros p' Ep f. cbn [malloc_loop]. unfold mbind, M_bind. rewrite Esz. cbn [obind]. rewrite (proj2 (Z.leb_gt nu p.2) Hs).
    unfold gets at 1. cbn [obind]. rewrite (proj2 (Z.eqb_neq _ _) Hne), En. cbn [obind]. fold R. by rewrite Ep. }
  unfold at_turn. rewrite Ec. destruct (R !! S c) as [p'|] eqn:Es.
  - pose proof (lookup_lt_Some _ _ _ Es) as Hsc. fold n in Hsc. exists p'. rewrite Nat.mod_small by done. split; [|by apply Hstep].
    split; [done|]. intros _. exists p.2. replace (S c - 1)%nat with c by lia. rewrite Hp. by destruct p.
  - apply lookup_ge_None in Es. fold n in Es. exists (base, 0). replace (S c) with n by lia. rewrite Nat.Div0.mod_same.
    split; [|by apply Hstep]. split; [done|]. done.
Qed.

Lemma turn_fits t p q fuel : at_turn t q p -> nu <= p.2 -> allocated base lo A nu s (malloc_loop fuel nu q p.1 s).
Proof.
  intros [Hp Hq] Hs. destruct ((i + 1 + t) mod n)%nat as [|c] eqn:E; [injection Hp as <-; simpl in Hs; lia|].
  destruct Hq as [m Hq]; [done|]. replace (S c - 1)%nat with c in Hq by lia. destruct p as [p sz].
  by eapply malloc_take.
Qed.

Lemma turn_zero : exists p, at_turn 0 b.1 p /\ ptr b.1 s = Ret p.1 s.
Proof.
  destruct (ring_next base F s (ho_seg _ _ _ _ _ HI) i b Hi) as [En _]. pose proof (lookup_lt_Some _ _ _ Hi) as Hin. fold n in Hin. fold R in En.
  unfold at_turn. rewrite Nat.add_0_r, Nat.add_1_r. destruct (R !! S i) as [p|] eqn:Es.
  - pose proof (lookup_lt_Some _ _ _ Es) as Hs. fold n in Hs. exists p. rewrite Nat.mod_small by done. split; [|done].
    split; [done|]. intros _. exists b.2. replace (S i - 1)%nat with i by lia. rewrite Hi. by destruct b.
  - apply lookup_ge_None in Es. fold n in Es. exists (base, 0). replace (S i) with n by lia. rewrite Nat.Div0.mod_same. by split.
Qed.

(** The walk finds a block that is large enough, if there is one. *)
Lemma scan_finds d c j : R !! j = Some c -> nu <= c.2 -> forall t q p fuel, at_turn t q p -> ((i + 1 + t + d) mod n)%nat = j ->
  (t + d < n)%nat -> (d <= fuel)%nat -> allocated base lo A nu s (malloc_loop fuel nu q p.1 s).
Proof.
  intros Hj Hc. induction d as [|d IH]; intros t q p fuel Hp Em Ht Hf; (destruct (Z.le_gt_cases nu p.2) as [Hs|Hs]; [by eapply turn_fits|]).
  - rewrite Nat.add_0_r in Em. destruct Hp as [Hp _]. rewrite Em, Hj in Hp. injection Hp as <-. lia.
  - destruct fuel as [|fuel]; [lia|]. destruct (turn_small t p q Hp Hs ltac:(lia)) as (p' & Hp' & E). rewrite E.
    apply (IH (S t)); [done| |lia|lia]. rewrite <-Em. f_equal. lia.
Qed.

(** Otherwise it comes back to [freep], and asks for more memory. *)
Lemma scan_wraps : Forall (fun x => x.2 < nu) R -> forall d t q p fuel, at_turn t q p -> (t + d = n - 1)%nat -> (d < fuel)%nat ->
  malloc_loop fuel nu q p.1 s =
    (r ← morecore (fuel - S d) nu; if r =? 0 then mret 0 else k ← ptr r; malloc_loop (fuel - S d) nu r k) s.
Proof.
  intros Hall. pose proof (lookup_lt_Some _ _ _ Hi) as Hin. fold n in Hin.
  assert (Hsmall : forall t q p, at_turn t q p -> p.2 < nu) by (intros t q p [Hp _]; exact (Forall_lookup_1 _ _ _ _ Hall Hp)).
  induction d as [|d IH]; intros t q p fuel Hp Ht Hf; (destruct fuel as [|fuel]; [lia|]); pose proof (Hsmall _ _ _ Hp) as Hs.
  - destruct Hp as [Hp _]. replace ((i + 1 + t) mod n)%nat with i in Hp.
    2: { replace (i + 1 + t)%nat with (i + 1 * n)%nat by lia. by rewrite Nat.Div0.mod_add, Nat.mod_small. }
    rewrite Hi in Hp. injection Hp as <-. replace (S fuel - 1)%nat with fuel by lia.
    destruct (ring_next base F s (ho_seg _ _ _ _ _ HI) i b Hi) as [_ Esz]. cbn [malloc_loop]. unfold mbind at 1, M_bind at 1.
    rewrite Esz. cbn [obind]. rewrite (proj2 (Z.leb_gt nu b.2) Hs). unfold mbind at 1, M_bind at 1, gets at 1. cbn [obind].
    by rewrite Hfp, Z.eqb_refl.
  - destruct (turn_small t p q Hp Hs ltac:(lia)) as (p' & Hp' & E). rewrite E. rewrite (IH (S t) p.1 p' fuel Hp'); [done|lia..].
Qed.
End scan.

Lemma freep_positive base lo F A s : heap_ok base lo F A s -> 0 < freep s.
Proof.
  intros HI. destruct (ho_freep _ _ _ _ _ HI) as (i & b & Hi & ->). pose proof (ho_base _ _ _ _ _ HI).
  destruct i as [|i]; [injection Hi as <-; simpl; lia|]. change (F !! i = Some b) in Hi.
  pose proof (gaps_above _ _ b (ho_gaps _ _ _ _ _ HI) ltac:(by eapply list_elem_of_lookup_2)). lia.
Qed.

(** More memory. *)
Section morecore.
Context (base lo : Z) (F A : blocks) (s : heap) (nu : Z) (fuel : nat).
Let N : Z := if nu <? 4096 then 4096 else nu.
Hypothesis HI : heap_ok base lo F A s.
Hypothesis Hnu : 0 < nu < 2^28.
Hypothesis Hfuel : (length F <= fuel)%nat.

Lemma more_ok h : brk s + 8 * N <= limit s -> h = hdr s ->
  heap_ok base lo F ((brk s, N) :: A) (Heap (<[brk s := ((header_at (brk s) h).1, N)]> h) (freep s) (brk s + 8 * N) (limit s)).
Proof.
  intros Hr ->. assert (HN : 0 < N) by (unfold N; destruct (Z.ltb_spec nu 4096); lia).
  pose proof (ho_base _ _ _ _ _ HI) as HB. pose proof (ho_limit _ _ _ _ _ HI) as HL.
  destruct (ho_tiled _ _ _ _ _ HI) as [Tp (m & Hm & Em & Ta)].
  assert (Hnew : forall y, y ∈ F ++ A -> y.1 < brk s) by (intros y Hy; destruct (block_range _ _ _ _ _ HI y Hy) as (? & ? & ?); lia).
  split; cbn [hdr freep brk limit]; try apply HI.
  - apply seg_frame; [|apply HI]. intros (y & Ey & [->|Hy]%elem_of_cons)%list_elem_of_fmap; [simpl in Ey; lia|].
    pose proof (Hnew y ltac:(set_solver)). lia.
  - split; [apply Forall_app; apply Forall_app in Tp as [? ?]; split; [done|by constructor]|].
    exists (m + N). split; [lia|]. split; [lia|]. rewrite cells_split, <-Em, <-Ta by lia.
    rewrite !area_app, area_cons. rewrite <-app_assoc. apply Permutation_app_head, Permutation_app_comm.
  - constructor; [eexists; apply lookup_insert_eq|]. apply sized_frame; [|apply HI].
    intros (y & Ey & Hy)%list_elem_of_fmap. pose proof (Hnew y ltac:(set_solver)). lia.
  - lia.
Qed.

Lemma morecore_spec :
  (limit s < brk s + 8 * N /\ morecore fuel nu s = Ret 0 s) \/
  exists F' s' i b j c, morecore fuel nu s = Ret b.1 s' /\ heap_ok base lo F' A s' /\ limit s' = limit s /\
    ((base, 0) :: F') !! i = Some b /\ freep s' = b.1 /\ ((base, 0) :: F') !! j = Some c /\ nu <= c.2 /\ 0 < b.1.
Proof.
  assert (HN : nu <= N < 2^28 /\ 0 < N) by (unfold N; destruct (Z.ltb_spec nu 4096); lia).
  pose proof (ho_base _ _ _ _ _ HI) as HB. pose proof (ho_limit _ _ _ _ _ HI) as HL.
  pose proof (tiled_length _ _ _ (ho_tiled _ _ _ _ _ HI)) as Hlen.
  unfold morecore, mbind, M_bind, sbrk. fold N. rewrite (u32_small (N * 8)) by (unfold in_u32; lia). rewrite (i32_small (N * 8)) by (unfold in_i32; lia).
  rewrite (proj2 (Z.ltb_lt 0 _)) by lia. rewrite (Z.mul_comm N 8). destruct (Z.leb_spec (brk s + 8 * N) (limit s)) as [Hr|Hr]; [right|left; by split].
  cbn [obind]. rewrite (proj2 (Z.eqb_neq _ _)) by (change (u32 (-1)) with 4294967295; lia).
  pose proof (more_ok (hdr s) Hr eq_refl) as HI1. unfold set_size at 1, modify. cbn [obind].
  set (s1 := Heap _ _ _ _) in HI1. match goal with |- context [free fuel _ ?x] => change x with s1 end.
  destruct (free_spec base lo F [] A (brk s) N s1 fuel HI1 Hfuel) as (F' & s' & E & HI' & _ & El & j & c & Hj & Hc).
  rewrite plus_small by lia. replace (brk s + 8 * 1) with (brk s + 8) by lia. rewrite E. cbn [obind gets].
  destruct (ho_freep _ _ _ _ _ HI') as (i & b & Hi & Hfp). exists F', s', i, b, j, c. unfold gets. rewrite Hfp.
  split; [done|]. split; [done|]. split; [by rewrite El|]. split; [done|]. split; [done|]. split; [done|]. split; [lia|].
  rewrite <-Hfp. by eapply freep_positive.
Qed.
End morecore.

(** Before the first call. *)
Definition unused (base lo : Z) (s : heap) : Prop :=
  freep s = 0 /\ brk s = lo /\ 0 < base /\ base + 8 <= lo /\ lo <= limit s /\ limit s <= 2^31.
Definition ready (base lo : Z) (A : blocks) (s : heap) : Prop := (A = [] /\ unused base lo s) \/ exists F, heap_ok base lo F A s.

(** The first lines of [malloc]. *)
Lemma malloc_init base lo A s : ready base lo A s ->
  exists F s1, (fp ← gets freep; if fp =? 0 then set_freep base;; set_ptr base base;; set_size base 0 else mret tt) s = Ret tt s1 /\
    heap_ok base lo F A s1 /\ brk s1 = brk s /\ limit s1 = limit s.
Proof.
  unfold mbind, M_bind, gets. cbn [obind]. intros [[-> (E & Hb & H1 & H2 & H3 & H4)]|[F HI]].
  - rewrite E, Z.eqb_refl. destruct s as [h fp bk lm]. cbn [freep brk limit] in *. subst.
    exists [], (Heap (<[base := (base, 0)]> h) base lo lm). split; [|split; [|done]].
    + unfold set_freep, set_ptr, modify, upd. cbn [obind hdr]. simpl.
      rewrite (set_size_at _ _ _ _ _ base (header_at base h).2) by apply lookup_insert_eq. by rewrite insert_insert_eq.
    + split; cbn [hdr freep brk limit]; try done.
      * split; [apply lookup_insert_eq|done].
      * by exists 0%nat, (base, 0).
      * split; [apply Forall_nil_2|]. exists 0. split; [lia|]. split; [lia|done].
  - pose proof (freep_positive _ _ _ _ _ HI). exists F, s. split; [|done]. by rewrite (proj2 (Z.eqb_neq _ _)) by lia.
Qed.

Lemma units_spec n : 0 <= n < 2^31 - 16 -> n <= 8 * (units n - 1) < n + 8 /\ 0 < units n < 2^28.
Proof.
  intros Hn. unfold units. rewrite (u32_small (n + 8 - 1)) by (unfold in_u32; lia).
  pose proof (Z.div_mod (n + 8 - 1) 8 ltac:(lia)). pose proof (Z.mod_pos_bound (n + 8 - 1) 8 ltac:(lia)).
  rewrite u32_small by (unfold in_u32; lia). lia.
Qed.

Section malloc.
Context (base lo : Z) (F A : blocks) (s : heap) (nu : Z) (fuel N : nat).
Hypothesis HI : heap_ok base lo F A s.
Hypothesis Hnu : 0 < nu < 2^28.
Hypothesis HN : limit s <= lo + 8 * Z.of_nat N.
Hypothesis Hfuel : (2 * N + 2 <= fuel)%nat.

Lemma malloc_loop_spec : exists o, (prevp ← gets freep; p ← ptr prevp; malloc_loop fuel nu prevp p) s = o /\
  (o = Ret 0 s /\ Forall (fun b => b.2 < nu) F /\ limit s < brk s + 8 * Z.max nu 4096 \/ allocated base lo A nu s o).
Proof.
  destruct (ho_freep _ _ _ _ _ HI) as (i & b & Hi & Hfp). pose proof (free_count _ _ _ _ _ _ HI HN) as Hlen.
  destruct (turn_zero base lo F A s i b HI Hi Hfp) as (p & Hp & Ep). exists (malloc_loop fuel nu b.1 p.1 s). split.
  { unfold mbind, M_bind, gets. cbn [obind]. by rewrite Hfp, Ep. }
  destruct (decide (Exists (fun b => nu <= b.2) F)) as [Hex|Hno].
  - right. apply Exists_exists in Hex as (c & [j Hj]%list_elem_of_lookup & Hc).
    assert (Hj' : ((base, 0) :: F) !! S j = Some c) by done. pose proof (lookup_lt_Some _ _ _ Hj').
    destruct (ring_distance ((i + 1) mod length ((base, 0%Z) :: F)) (S j) (length ((base, 0) :: F)) ltac:(apply Nat.mod_upper_bound; done) ltac:(done)) as (d & Hd & Em).
    eapply (scan_finds base lo F A s i b nu HI Hi Hfp ltac:(lia) d c (S j) Hj' Hc 0 b.1 p fuel Hp); [|lia|simpl in Hd; lia].
    rewrite Nat.add_0_r, <-Em. symmetry. apply Nat.Div0.add_mod_idemp_l.
  - assert (Hall : Forall (fun x => x.2 < nu) F).
    { apply not_Exists_Forall in Hno; [|intros x; apply _]. eapply Forall_impl; [exact Hno|]. intros x Hx. simpl in Hx. lia. }
    rewrite (scan_wraps base lo F A s i b nu HI Hi Hfp ltac:(constructor; [simpl; lia|done]) (length F) 0 b.1 p fuel Hp) by (simpl; lia).
    set (f := (fuel - S (length F))%nat). assert (Hf : (N <= f)%nat) by (unfold f; lia).
    destruct (morecore_spec base lo F A s nu f HI Hnu ltac:(lia)) as [[Hr E]|(F' & s' & i' & b' & j & c & E & HI' & El & Hi' & Hfp' & Hj & Hc & Hpos)].
    + left. unfold mbind, M_bind. rewrite E. cbn [obind]. split; [done|]. split; [done|]. destruct (Z.ltb_spec nu 4096); lia.
    + right. unfold mbind, M_bind. rewrite E. cbn [obind]. rewrite (proj2 (Z.eqb_neq _ _)) by lia.
      destruct (turn_zero base lo F' A s' i' b' HI' Hi' Hfp') as (p' & Hp' & Ep'). rewrite Ep'. cbn [obind].
      pose proof (free_count _ _ _ _ _ _ HI' ltac:(by rewrite El)) as Hlen'. pose proof (lookup_lt_Some _ _ _ Hj).
      destruct (ring_distance ((i' + 1) mod length ((base, 0%Z) :: F')) j (length ((base, 0) :: F')) ltac:(apply Nat.mod_upper_bound; done) ltac:(done)) as (d & Hd & Em).
      destruct (scan_finds base lo F' A s' i' b' nu HI' Hi' Hfp' ltac:(lia) d c j Hj Hc 0 b'.1 p' f Hp') as (a & F2 & s2 & E2 & HI2 & El2); [|lia|simpl in Hd; lia|].
      * rewrite Nat.add_0_r, <-Em. symmetry. apply Nat.Div0.add_mod_idemp_l.
      * exists a, F2, s2. split; [done|]. split; [done|]. by rewrite El2.
Qed.
End malloc.

Lemma malloc_spec base lo A s n fuel N : ready base lo A s -> 0 <= n < 2^31 - 16 ->
  limit s <= lo + 8 * Z.of_nat N -> (2 * N + 2 <= fuel)%nat ->
  (exists F s', malloc base fuel n s = Ret 0 s' /\ heap_ok base lo F A s' /\ limit s' = limit s /\
    Forall (fun b => b.2 < units n) F /\ limit s < brk s' + 8 * Z.max (units n) 4096) \/
  allocated base lo A (units n) s (malloc base fuel n s).
Proof.
  intros HR Hn HN Hf. destruct (malloc_init _ _ _ _ HR) as (F & s1 & E & HI & Eb & El). destruct (units_spec n Hn) as [_ Hu].
  destruct (malloc_loop_spec base lo F A s1 (units n) fuel N HI Hu ltac:(by rewrite El) Hf) as (o & Eo & Ho).
  assert (Em : malloc base fuel n s = o).
  { etrans; [|exact Eo]. change (malloc base fuel n s) with
      (obind (fun _ => prevp ← gets freep; p ← ptr prevp; malloc_loop fuel (units n) prevp p)
        ((fp ← gets freep; if fp =? 0 then set_freep base;; set_ptr base base;; set_size base 0 else mret tt) s)).
    by rewrite E. }
  rewrite Em. destruct Ho as [(-> & Hs & Hr)|(a & F' & s' & -> & HI' & El')].
  - left. exists F, s1. split; [done|]. split; [done|]. split; [done|]. split; [done|]. by rewrite <-El.
  - right. exists a, F', s'. split; [done|]. split; [done|]. by rewrite El'.
Qed.

(** ** Programs that allocate and free

    [live] are the pointers that a program has, with the numbers of bytes it asked
    for, the newest first; [Free k] frees the [k]-th of them. *)
Inductive op := Malloc (nbytes : Z) | Free (k : nat).
Fixpoint run (base : Z) (fuel : nat) (ops : list op) (live : list (Z * Z)) : MH (list (Z * Z)) :=
  match ops with
  | [] => mret live
  | Malloc n :: ops' => r ← malloc base fuel n; run base fuel ops' (if r =? 0 then live else (r, n) :: live)
  | Free k :: ops' =>
      match live !! k with
      | Some x => free fuel x.1;; run base fuel ops' (delete k live)
      | None => run base fuel ops' live
      end
  end.
Definition op_small (o : op) : Prop := match o with Malloc n => 0 <= n < 2^31 - 16 | Free _ => True end.

(** A pointer of the program and its block. *)
Definition points (x b : Z * Z) : Prop := x.1 = b.1 + 8 /\ 0 <= x.2 <= 8 * (b.2 - 1).

Lemma run_ready base lo fuel N ops : (2 * N + 2 <= fuel)%nat -> Forall op_small ops -> forall live A s,
  ready base lo A s -> Forall2 points live A -> limit s <= lo + 8 * Z.of_nat N ->
  exists live' A' s', run base fuel ops live s = Ret live' s' /\ ready base lo A' s' /\ Forall2 points live' A' /\ limit s' = limit s.
Proof.
  intros Hf Hops. induction Hops as [|o ops Ho Hops IH]; intros live A s HR HP HN; [by exists live, A, s|]. destruct o as [n|k]; cbn [run].
  - unfold mbind, M_bind. destruct (malloc_spec base lo A s n fuel N HR Ho HN Hf) as [(F & s1 & E & HI & El & _)|(a & F & s1 & E & HI & El)]; rewrite E; cbn [obind].
    + destruct (IH live A s1) as (live' & A' & s' & E' & HR' & HP' & El'); [right; by exists F|done|by rewrite El|].
      exists live', A', s'. split; [exact E'|]. by rewrite El', El.
    + pose proof (ho_base _ _ _ _ _ HI). destruct (block_range _ _ _ _ _ HI (a, units n)) as (? & _); [set_solver|]. simpl in *.
      rewrite (proj2 (Z.eqb_neq _ _)) by lia. destruct (units_spec n Ho) as [Hu _].
      destruct (IH ((a + 8, n) :: live) ((a, units n) :: A) s1) as (live' & A' & s' & E' & HR' & HP' & El'); [right; by exists F| |by rewrite El|].
      * constructor; [split; simpl; lia|done].
      * exists live', A', s'. split; [exact E'|]. by rewrite El', El.
  - destruct (live !! k) as [x|] eqn:Hk; [|by apply (IH live A s)].
    destruct (Forall2_lookup_l _ _ _ _ _ HP Hk) as ([a m] & Ha & [Ex _]). simpl in Ex.
    destruct HR as [[-> _]|[F HI]]; [done|]. pose proof (take_drop_middle _ _ _ Ha) as EA. rewrite <-EA in HI.
    destruct (free_spec base lo F _ _ a m s fuel HI) as (F' & s1 & E & HI' & _ & El & _).
    { pose proof (free_count _ _ _ _ _ _ HI HN). lia. }
    unfold mbind, M_bind. rewrite Ex, E. cbn [obind].
    destruct (IH (delete k live) (delete k A) s1) as (live' & A' & s' & E' & HR' & HP' & El').
    + right. exists F'. by rewrite delete_take_drop.
    + by apply Forall2_delete.
    + by rewrite El.
    + exists live', A', s'. split; [exact E'|]. by rewrite El', El.
Qed.

(** With nothing allocated, the free blocks are joined to one. *)
Definition whole (lo hi : Z) : blocks := if hi =? lo then [] else [(lo, (hi - lo) / 8)].
Lemma tiled_whole base lo hi F : tiled lo hi F -> gaps base F -> F = whole lo hi.
Proof.
  intros HT0 HG. destruct (ti_area _ _ _ HT0) as (N & HN & -> & Ha). unfold whole.
  replace (lo + 8 * N - lo) with (N * 8) by lia. rewrite Z.div_mul by lia. destruct F as [|[a n] F].
  - apply Permutation_length in Ha. rewrite length_cells in Ha. simpl in Ha. by rewrite (proj2 (Z.eqb_eq _ _)) by lia.
  - destruct (tiled_range _ _ _ a n HT0 ltac:(set_solver)) as (A1 & A2 & A3 & A4). apply Z.mod_divide in A4 as [u Hu]; [|lia].
    destruct F as [|[b m] F].
    + rewrite (proj2 (Z.eqb_neq _ _)) by lia. assert (n = N) as ->.
      { apply Permutation_length in Ha. unfold area in Ha. simpl in Ha. rewrite app_nil_r, !length_cells in Ha. simpl in Ha. lia. }
      do 2 f_equal. assert (Hlo : lo ∈ cells (a, N)).
      { rewrite <-(app_nil_r (cells (a, N))). change (lo ∈ area [(a, N)]). rewrite Ha. apply elem_of_cells. exists 0. lia. }
      apply elem_of_cells in Hlo as (i & Hi & El). lia.
    + exfalso. destruct HG as (_ & _ & Hb & Hm & HG).
      destruct (tiled_range _ _ _ b m HT0 ltac:(set_solver)) as (B1 & B2 & B3 & _).
      assert (Hx : a + 8 * n ∈ area ((a, n) :: (b, m) :: F)) by (rewrite Ha; apply elem_of_cells; exists (u + n); lia).
      apply elem_of_area in Hx as ([c k] & Hc & (i & Hi & Ei)%elem_of_cells).
      apply elem_of_cons in Hc as [[= -> ->]|[[= -> ->]|Hc]%elem_of_cons]; [lia|lia|].
      pose proof (gaps_above _ _ _ HG Hc). simpl in *. lia.
Qed.



(** [malloc] fails only for want of memory: it returns a new block if a free one
    is large enough for the request and a header, or if the process can grow by what
    [morecore] asks for; the blocks that were allocated stay as they are. *)
Theorem malloc_succeeds (base lo : Z) (F A : blocks) (s : heap) (n : Z) (fuel N : nat)
    (HI : heap_ok base lo F A s) (Hn : 0 <= n < 2^31 - 16) (HN : limit s <= lo + 8 * Z.of_nat N) (Hf : (2 * N + 2 <= fuel)%nat) :
  (Exists (fun b => units n <= b.2) F \/ brk s + 8 * Z.max (units n) 4096 <= limit s) ->
  exists a m F' s', malloc base fuel n s = Ret (a + 8) s' /\ n <= 8 * (m - 1) /\ heap_ok base lo F' ((a, m) :: A) s'.
Proof.
  intros Hroom. destruct (units_spec n Hn) as [Hu Hu'].
  destruct (malloc_loop_spec base lo F A s (units n) fuel N HI Hu' HN Hf) as (o & Eo & Ho).
  assert (Em : malloc base fuel n s = o).
  { etrans; [|exact Eo]. change (malloc base fuel n s) with
      (obind (fun _ => prevp ← gets freep; p ← ptr prevp; malloc_loop fuel (units n) prevp p)
        ((if freep s =? 0 then set_freep base;; set_ptr base base;; set_size base 0 else mret tt) s)).
    pose proof (freep_positive _ _ _ _ _ HI). by rewrite (proj2 (Z.eqb_neq _ _)) by lia. }
  rewrite Em. destruct Ho as [(_ & Hsmall & Hlim)|(a & F' & s' & -> & HI' & _)].
  - exfalso. destruct Hroom as [Hex|Hr]; [|lia]. apply Exists_exists in Hex as (b & Hb & Hs). rewrite Forall_forall in Hsmall.
    specialize (Hsmall b Hb). simpl in *. lia.
  - exists a, (units n), F', s'. split; [done|]. split; [lia|done].
Qed.
Lemma malloc_succeeds_witness : exists a m F' s',
  malloc 16 (Z.to_nat 20002) 1000 (Heap (<[16 := (16, 0)]> ∅) 16 4096 84096) = Ret (a + 8) s' /\ 1000 <= 8 * (m - 1) /\
  heap_ok 16 4096 F' ((a, m) :: []) s'.
Proof.
  apply (malloc_succeeds 16 4096 [] [] (Heap (<[16 := (16, 0)]> ∅) 16 4096 84096) 1000 (Z.to_nat 20002) (Z.to_nat 10000)).
  - split; simpl.
    + split; [apply lookup_insert_eq|done].
    + exact I.
    + by exists 0%nat, (16, 0).
    + split; [constructor|]. exists 0. split; [lia|]. split; [lia|]. reflexivity.
    + constructor.
    + lia.
    + split; vm_compute; discriminate.
  - split; vm_compute; (discriminate || reflexivity).
  - rewrite Z2Nat.id; discriminate.
  - apply Nat.leb_le. vm_compute. reflexivity.
  - right. vm_compute. discriminate.
Defined.

(** A request of almost 4 GB: the number of headers wraps around to one, and the
    caller gets a pointer to a block without a byte. *)
Lemma malloc_wraps n : 2^32 - 8 < n < 2^32 -> units n = 1.
Proof.
  intros Hn. unfold units, u32. rewrite <-(Z_mod_plus_full (n + 8 - 1) (-1) (2^32)). rewrite (Z.mod_small (n + 8 - 1 + _)) by lia.
  rewrite Z.div_small by lia. done.
Qed.
