(* ===== verification/Boot.v ===== *)
(** bootmain.c: the boot loader, and that it loads the kernel.

    The drive is the device of the ATA ports 0x1F0 to 0x1F7: a command 0x20 reads
    the sector whose number is in the registers. [sector] is the contents of the
    disk; [status] are the values of the status port that the loader will see before
    the drive is ready for good. *)
From stdpp Require Import base tactics list numbers strings gmap.
From S2P Require Import Prelude CString FsTypes State Spinlock Console Kalloc Vm Sched Process Args Sleeplock Ide Bio Log Fs Exec.

#[local] Open Scope Z_scope.

Record boot := Boot { ram : memory; port : gmap Z Z; status : list Z }.
#[global] Instance eta_boot : Eta boot := fun s => Boot (ram s) (port s) (status s).
Abbreviation MB := (M boot).

Definition SECTSIZE : Z := 512.
(** The scratch space for the ELF header. *)
Definition ELF : Z := 0x10000.

Section bootmain.
Context (sector : Z -> list Z).

Definition outb (p v : Z) : MB unit := modify (fun s => s <| port ::= <[p := v mod 256]> |>).
Definition reg (s : boot) (p : Z) : Z := default 0 (port s !! p).
(** The sector number in the registers of the drive. *)
Definition lba (s : boot) : Z :=
  reg s 0x1F3 + 2^8 * reg s 0x1F4 + 2^16 * reg s 0x1F5 + 2^24 * (reg s 0x1F6 mod 16).

Fixpoint waitdisk_loop (l : list Z) : list Z :=
  match l with
  | [] => []
  | v :: l' => if Z.land v 0xC0 =? 0x40 then l' else waitdisk_loop l'
  end.
Definition waitdisk : MB unit := modify (fun s => s <| status ::= waitdisk_loop |>).

(** [insl(0x1F0, dst, cnt)] after a read command. *)
Definition insl (dst cnt : Z) : MB unit :=
  modify (fun s => s <| ram ::= fun m => st_list m dst (take (Z.to_nat (4 * cnt)) (sector (lba s))) |>).

Definition readsect (dst offset : Z) : MB unit :=
  waitdisk;;
  outb 0x1F2 1;;
  outb 0x1F3 offset;;
  outb 0x1F4 (Z.shiftr offset 8);;
  outb 0x1F5 (Z.shiftr offset 16);;
  outb 0x1F6 (Z.lor (Z.shiftr offset 24) 0xE0);;
  outb 0x1F7 0x20;;
  waitdisk;;
  insl dst (SECTSIZE / 4).

Fixpoint readseg_loop (fuel : nat) (pa epa offset : Z) : MB unit :=
  if pa <? epa then
    match fuel with
    | O => nofuel
    | S f => readsect pa offset;; readseg_loop f (u32 (pa + SECTSIZE)) epa (u32 (offset + 1))
    end
  else mret tt.
Definition readseg (fuel : nat) (pa count offset : Z) : MB unit :=
  let epa := u32 (pa + count) in
  let pa := u32 (pa - offset mod SECTSIZE) in
  let offset := u32 (offset / SECTSIZE + 1) in
  readseg_loop fuel pa epa offset.

(** The loop over the program headers, which are read from the scratch space. *)
Fixpoint load_loop (fuel : nat) (ph eph : Z) : MB unit :=
  if ph <? eph then
    match fuel with
    | O => nofuel
    | S f =>
        m ← gets ram;
        let pa := ld32 m (ph + 12) in
        let filesz := ld32 m (ph + 16) in
        let memsz := ld32 m (ph + 20) in
        readseg (Z.to_nat (filesz / SECTSIZE + 2)) pa filesz (ld32 m (ph + 4));;
        mwhen (filesz <? memsz) (modify (fun s => s <| ram ::= fun m => stosb m (u32 (pa + filesz)) 0 (Z.to_nat (memsz - filesz)) |>));;
        load_loop f (u32 (ph + 32)) eph
    end
  else mret tt.

(** The entry point that is called, or [None] if this is not an ELF file. *)
Definition bootmain : MB (option Z) :=
  readseg 10 ELF 4096 0;;
  m ← gets ram;
  if negb (ld32 m ELF =? ELF_MAGIC) then mret None
  else
    let ph := u32 (ELF + ld32 m (ELF + 28)) in
    let phnum := ld8 m (ELF + 44) + 2^8 * ld8 m (ELF + 45) in
    load_loop (Z.to_nat phnum) ph (u32 (ph + 32 * phnum));;
    m ← gets ram;
    mret (Some (ld32 m (ELF + 24))).

(** ** What is loaded *)
Hypothesis sector_ok : forall n, length (sector n) = 512%nat /\ Forall (fun c => 0 <= c < 256) (sector n).

(** The byte [k] of the kernel file, which begins at sector 1. *)
Definition kbyte (k : Z) : Z := default 0 (sector (k / 512 + 1) !! Z.to_nat (k mod 512)).

Lemma kbyte_range k : 0 <= kbyte k < 256.
Proof.
  unfold kbyte. destruct (sector (k / 512 + 1) !! _) as [c|] eqn:E; [|done].
  exact (Forall_lookup_1 _ _ _ _ (proj2 (sector_ok _)) E).
Qed.

Lemma ld8_st_list l : forall m a b, Forall (fun c => 0 <= c < 256) l ->
  ld8 (st_list m a l) b = if decide (a <= b < a + Z.of_nat (length l)) then default 0 (l !! Z.to_nat (b - a)) else ld8 m b.
Proof.
  induction l as [|c l IH]; intros m a b Hl; cbn [st_list length].
  - by rewrite decide_False by lia.
  - apply Forall_cons in Hl as [Hc Hl]. rewrite IH by done. destruct (decide (a = b)) as [->|Hne].
    + rewrite decide_False, decide_True by lia. rewrite Z.sub_diag. simpl. rewrite ld8_st8_eq. by apply Z.mod_small.
    + destruct (decide (a + 1 <= b < a + 1 + Z.of_nat (length l))) as [H|H].
      * rewrite decide_True by lia. replace (Z.to_nat (b - a)) with (S (Z.to_nat (b - (a + 1)))) by lia. done.
      * rewrite decide_False by lia. by apply ld8_st8_ne.
Qed.

(** The sector number reaches the drive. *)
Lemma drive_head x : 0 <= x < 16 -> Z.lor x 0xE0 mod 256 mod 16 = x.
Proof.
  intros Hx. assert (Hall : Forall (fun x => Z.lor x 0xE0 mod 256 mod 16 = x) (seqZ 0 16)) by (repeat constructor).
  rewrite Forall_forall in Hall. apply Hall. apply elem_of_seqZ. lia.
Qed.
Definition command (offset : Z) (p : gmap Z Z) : gmap Z Z :=
  <[0x1F7 := 0x20 mod 256]> (<[0x1F6 := Z.lor (Z.shiftr offset 24) 0xE0 mod 256]> (<[0x1F5 := Z.shiftr offset 16 mod 256]>
    (<[0x1F4 := Z.shiftr offset 8 mod 256]> (<[0x1F3 := offset mod 256]> (<[0x1F2 := 1 mod 256]> p))))).
Lemma lba_command r offset p l : 0 <= offset < 2^28 -> lba (Boot r (command offset p) l) = offset.
Proof.
  intros Ho. unfold lba, reg, command. cbn [port].
  rewrite (lookup_insert_ne _ 0x1F7 0x1F3), (lookup_insert_ne _ 0x1F6 0x1F3), (lookup_insert_ne _ 0x1F5 0x1F3), (lookup_insert_ne _ 0x1F4 0x1F3), lookup_insert_eq by done.
  rewrite (lookup_insert_ne _ 0x1F7 0x1F4), (lookup_insert_ne _ 0x1F6 0x1F4), (lookup_insert_ne _ 0x1F5 0x1F4), lookup_insert_eq by done.
  rewrite (lookup_insert_ne _ 0x1F7 0x1F5), (lookup_insert_ne _ 0x1F6 0x1F5), lookup_insert_eq by done.
  rewrite (lookup_insert_ne _ 0x1F7 0x1F6), lookup_insert_eq by done. cbn [default].
  unfold default, id. rewrite drive_head; rewrite !Z.shiftr_div_pow2 by lia.
  - pose proof (Z.div_mod offset 256 ltac:(lia)). pose proof (Z.div_mod (offset / 2^8) 256 ltac:(lia)).
    pose proof (Z.div_mod (offset / 2^16) 256 ltac:(lia)).
    rewrite Zdiv.Zdiv_Zdiv in * by lia. change (2^8 * 256) with (2^16) in *. change (2^16 * 256) with (2^24) in *. change (2^8) with 256 in *. lia.
  - split; [apply Z.div_pos; lia|apply Z.div_lt_upper_bound; lia].
Qed.
Lemma readsect_spec dst offset s : 0 <= offset < 2^28 ->
  exists s', readsect dst offset s = Ret tt s' /\ ram s' = st_list (ram s) dst (sector offset).
Proof.
  intros Ho. destruct s as [m p l]. exists (Boot (st_list m dst (take (Z.to_nat (4 * (SECTSIZE / 4)))
    (sector (lba (Boot m (command offset p) (waitdisk_loop (waitdisk_loop l))))))) (command offset p) (waitdisk_loop (waitdisk_loop l))).
  split; [reflexivity|]. cbn [ram]. rewrite lba_command by done. rewrite take_ge; [done|]. by rewrite (proj1 (sector_ok offset)).
Qed.

(** [readseg]: the sectors of [count] bytes from [offset] of the kernel file on. *)
Lemma readseg_loop_spec fuel : forall pa epa sec s,
  0 <= pa < 2^32 - 512 -> 0 <= epa <= 2^32 - 512 -> 0 <= sec -> sec * 512 + (epa - pa) <= 2^37 - 512 -> epa - pa <= 512 * Z.of_nat fuel ->
  exists s' e, readseg_loop fuel pa epa sec s = Ret tt s' /\ epa <= e < Z.max (epa + 512) (pa + 1) /\
    forall b, ld8 (ram s') b = if decide (pa <= b < e) then kbyte ((sec - 1) * 512 + (b - pa)) else ld8 (ram s) b.
Proof.
  induction fuel as [|fuel IH]; intros pa epa sec s Hpa Hepa Hsec Hmax Hf; cbn [readseg_loop]; destruct (Z.ltb_spec pa epa) as [Hlt|Hge].
  - lia.
  - exists s, epa. split; [done|]. split; [lia|]. intros b. by rewrite decide_False by lia.
  - destruct (readsect_spec pa sec s ltac:(lia)) as (s1 & E1 & R1). unfold mbind, M_bind. rewrite E1. cbn [obind].
    change SECTSIZE with 512. rewrite (u32_small (pa + 512)), (u32_small (sec + 1)) by (unfold in_u32; lia).
    assert (Hb : forall b, ld8 (ram s1) b = if decide (pa <= b < pa + 512) then kbyte ((sec - 1) * 512 + (b - pa)) else ld8 (ram s) b).
    { intros b. rewrite R1, ld8_st_list by apply sector_ok. rewrite (proj1 (sector_ok sec)). change (Z.of_nat 512) with 512. case_decide as Hd; [|done].
      unfold kbyte. rewrite Z.div_add_l, Z.div_small, (Z.add_comm (_ * _)), Z.mod_add, Z.mod_small by lia. by replace (sec - 1 + 0 + 1) with sec by lia. }
    destruct (decide (pa + 512 < 2^32 - 512)) as [Hsm|Hbig].
    + destruct (IH (pa + 512) epa (sec + 1) s1) as (s' & e & E & He & Hm); [lia..|]. exists s', (Z.max e (pa + 512)). split; [exact E|].
      split; [lia|]. intros b. rewrite Hm. destruct (decide (pa + 512 <= b < e)) as [H|H].
      * rewrite decide_True by lia. f_equal. lia.
      * rewrite Hb. destruct (decide (pa <= b < pa + 512)); [by rewrite decide_True by lia|by rewrite decide_False by lia].
    + exists s1, (pa + 512). split; [|split; [lia|exact Hb]]. destruct fuel; cbn [readseg_loop]; by rewrite (proj2 (Z.ltb_ge _ _)) by lia.
  - exists s, epa. split; [done|]. split; [lia|]. intros b. by rewrite decide_False by lia.
Qed.

Lemma readseg_spec fuel pa count offset s (r := offset mod 512) :
  0 <= offset -> r <= pa -> 0 <= count -> pa + count <= 2^32 - 512 -> pa < 2^32 - 512 -> offset + count <= 2^36 -> count + r <= 512 * Z.of_nat fuel ->
  exists s' e, readseg fuel pa count offset s = Ret tt s' /\ pa + count <= e < pa + count + 512 /\
    forall b, ld8 (ram s') b = if decide (pa - r <= b < e) then kbyte (offset + (b - pa)) else ld8 (ram s) b.
Proof.
  intros Ho Hr Hc Hmax Hpa Hoff Hf. pose proof (Z.div_mod offset 512 ltac:(lia)) as Ed. pose proof (Z.mod_pos_bound offset 512 ltac:(lia)) as Hm.
  fold r in Ed, Hm. pose proof (Z.div_pos offset 512 Ho ltac:(lia)) as Hd.
  unfold readseg. change SECTSIZE with 512. fold r. rewrite !u32_small by (unfold in_u32; lia).
  destruct (readseg_loop_spec fuel (pa - r) (pa + count) (offset / 512 + 1) s) as (s' & e & E & He & Hb); [lia..|].
  exists s', e. split; [exact E|]. split; [lia|]. intros b. rewrite Hb. case_decide; [|done]. f_equal. lia.
Qed.

(** ** The segments of the kernel *)
Definition kword (k : Z) : Z := kbyte k + 2^8 * kbyte (k + 1) + 2^16 * kbyte (k + 2) + 2^24 * kbyte (k + 3).
Record segment := Segment { sg_off : Z; sg_pa : Z; sg_filesz : Z; sg_memsz : Z }.
Definition segment_at (k : Z) : segment := Segment (kword (k + 4)) (kword (k + 12)) (kword (k + 16)) (kword (k + 20)).
Definition phnum : nat := Z.to_nat (kbyte 44 + 2^8 * kbyte 45).
Definition segments_from (k : Z) (n : nat) : list segment := (fun i => segment_at (k + 32 * Z.of_nat i)) <$> seq 0 n.
Definition segments : list segment := segments_from (kword 28) phnum.

(** The memory of a segment, and the memory that is written for it. *)
Definition extent (g : segment) (b : Z) : Prop := sg_pa g <= b < sg_pa g + Z.max (sg_filesz g) (sg_memsz g).
Definition touched (g : segment) (b : Z) : Prop :=
  sg_pa g - sg_off g mod 512 <= b < sg_pa g + Z.max (sg_filesz g + 512) (sg_memsz g).
Definition scratch (b : Z) : Prop := ELF <= b < ELF + 4096.

(** A segment can be loaded: it is in the memory and in the file, and not in the
    scratch space; segments are in increasing order. *)
Record seg_ok (g : segment) : Prop := {
  so_low : sg_off g mod 512 <= sg_pa g;
  so_high : sg_pa g + Z.max (sg_filesz g) (sg_memsz g) < 2^32 - 512;
  so_file : sg_off g + sg_filesz g <= 2^36;
  so_scratch : forall b, touched g b -> ~ scratch b
}.
Definition in_order (g h : segment) : Prop := forall b, touched h b -> ~ extent g b.

Definition loaded (m : memory) (g : segment) : Prop :=
  forall b, extent g b -> ld8 m b = if decide (b < sg_pa g + sg_filesz g) then kbyte (sg_off g + (b - sg_pa g)) else 0.
Definition header (m : memory) : Prop := forall b, scratch b -> ld8 m b = kbyte (b - ELF).

Lemma kword_range k : 0 <= kword k < 2^32.
Proof. unfold kword. pose proof (kbyte_range k). pose proof (kbyte_range (k + 1)). pose proof (kbyte_range (k + 2)). pose proof (kbyte_range (k + 3)). lia. Qed.

Lemma header_word m k : header m -> 0 <= k <= 4092 -> ld32 m (ELF + k) = kword k.
Proof.
  intros Hh Hk. unfold ld32, kword. rewrite !Hh by (unfold scratch; lia).
  replace (ELF + k - ELF) with k by lia. replace (ELF + k + 1 - ELF) with (k + 1) by lia.
  replace (ELF + k + 2 - ELF) with (k + 2) by lia. by replace (ELF + k + 3 - ELF) with (k + 3) by lia.
Qed.

(** One turn of the loop. *)
Lemma load_one k f eph s (g := segment_at k) : header (ram s) -> 0 <= k <= 4064 -> ELF + k < eph -> seg_ok g ->
  exists s', load_loop (S f) (ELF + k) eph s = load_loop f (ELF + k + 32) eph s' /\
    loaded (ram s') g /\ forall b, ~ touched g b -> ld8 (ram s') b = ld8 (ram s) b.
Proof.
  intros Hh Hk He [G1 G2 G3 G4]. cbn [load_loop]. rewrite (proj2 (Z.ltb_lt _ _) He). unfold mbind, M_bind, gets. cbn [obind].
  replace (ELF + k + 4) with (ELF + (k + 4)) by lia. replace (ELF + k + 12) with (ELF + (k + 12)) by lia.
  replace (ELF + k + 16) with (ELF + (k + 16)) by lia. replace (ELF + k + 20) with (ELF + (k + 20)) by lia.
  rewrite !header_word by (done || lia). change (kword (k + 4)) with (sg_off g). change (kword (k + 12)) with (sg_pa g).
  change (kword (k + 16)) with (sg_filesz g). change (kword (k + 20)) with (sg_memsz g).
  assert (R1 : 0 <= sg_off g) by apply kword_range. assert (R2 : 0 <= sg_pa g) by apply kword_range.
  assert (R3 : 0 <= sg_filesz g) by apply kword_range. assert (R4 : 0 <= sg_memsz g) by apply kword_range.
  pose proof (Z.div_mod (sg_filesz g) 512 ltac:(lia)). pose proof (Z.mod_pos_bound (sg_filesz g) 512 ltac:(lia)).
  pose proof (Z.mod_pos_bound (sg_off g) 512 ltac:(lia)). pose proof (Z.div_pos (sg_filesz g) 512 R3 ltac:(lia)).
  destruct (readseg_spec (Z.to_nat (sg_filesz g / SECTSIZE + 2)) (sg_pa g) (sg_filesz g) (sg_off g) s) as (s1 & e & E1 & He1 & Hb1);
    [lia..|change SECTSIZE with 512; lia|]. rewrite E1. cbn [obind]. rewrite (u32_small (ELF + k + 32)) by (unfold in_u32, ELF; lia).
  rewrite (u32_small (sg_pa g + sg_filesz g)) by (unfold in_u32; lia).
  set (m2 := if sg_filesz g <? sg_memsz g then stosb (ram s1) (sg_pa g + sg_filesz g) 0 (Z.to_nat (sg_memsz g - sg_filesz g)) else ram s1).
  exists (Boot m2 (port s1) (status s1)). split; [unfold m2, mwhen, modify, upd; destruct s1; by destruct (sg_filesz g <? sg_memsz g)|].
  assert (Hm2 : forall b, ld8 m2 b = if decide (sg_pa g + sg_filesz g <= b < sg_pa g + sg_memsz g) then 0 else ld8 (ram s1) b).
  { intros b. unfold m2. destruct (Z.ltb_spec (sg_filesz g) (sg_memsz g)); [|by rewrite decide_False by lia].
    rewrite ld8_stosb, Z2Nat.id by lia. replace (sg_pa g + sg_filesz g + (sg_memsz g - sg_filesz g)) with (sg_pa g + sg_memsz g) by lia. done. }
  cbn [ram]. unfold loaded, extent, touched. split; intros b Hb; rewrite Hm2.
  - destruct (decide (b < sg_pa g + sg_filesz g)); [|by rewrite decide_True by lia].
    rewrite decide_False by lia. rewrite Hb1, decide_True by lia. done.
  - rewrite decide_False by lia. rewrite Hb1. by rewrite decide_False by lia.
Qed.

Lemma segments_cons k n : segments_from k (S n) = segment_at k :: segments_from (k + 32) n.
Proof.
  unfold segments_from. cbn [seq fmap list_fmap]. f_equal; [f_equal; lia|]. rewrite <-fmap_S_seq, <-list_fmap_compose.
  apply list_fmap_ext. intros i x _. simpl. f_equal. lia.
Qed.

Lemma load_loop_spec n : forall k s, header (ram s) -> 0 <= k -> k + 32 * Z.of_nat n <= 4096 ->
  Forall seg_ok (segments_from k n) -> ForallOrdPairs in_order (segments_from k n) ->
  exists s', load_loop n (ELF + k) (ELF + k + 32 * Z.of_nat n) s = Ret tt s' /\ header (ram s') /\
    Forall (loaded (ram s')) (segments_from k n) /\
    forall b, Forall (fun g => ~ touched g b) (segments_from k n) -> ld8 (ram s') b = ld8 (ram s) b.
Proof.
  induction n as [|n IH]; intros k s Hh Hk Hn Hok Hord.
  - exists s. cbn [load_loop]. rewrite (proj2 (Z.ltb_ge _ _)) by lia. split; [done|]. split; [done|]. split; [constructor|done].
  - rewrite segments_cons in *. apply Forall_cons in Hok as [Hg Hok]. inversion Hord as [|? ? Hb Hord']; subst.
    destruct (load_one k n (ELF + k + 32 * Z.of_nat (S n)) s Hh ltac:(lia) ltac:(lia) Hg) as (s1 & E1 & L1 & F1). rewrite E1.
    replace (ELF + k + 32) with (ELF + (k + 32)) by lia.
    replace (ELF + k + 32 * Z.of_nat (S n)) with (ELF + (k + 32) + 32 * Z.of_nat n) by lia.
    destruct (IH (k + 32) s1) as (s' & E & Hh' & HL & HF); [|lia|lia|done|done|].
    { intros b Hs. rewrite F1; [by apply Hh|]. intros Ht. by apply (so_scratch _ Hg b). }
    exists s'. split; [exact E|]. split; [exact Hh'|]. split.
    + constructor; [|exact HL]. intros b Hx. rewrite HF; [by apply L1|]. rewrite Forall_forall in Hb |- *.
      intros h Hh1 Ht. by apply (Hb h Hh1 b).
    + intros b Hx. apply Forall_cons in Hx as [Hx1 Hx2]. by rewrite HF, F1.
Qed.
End bootmain.


(** A disk with a small kernel: one segment of 600 bytes. *)
Definition small_header : list Z :=
  [0x7F; 0x45; 0x4C; 0x46] ++ replicate 20 0 ++ [0; 0; 0x10; 0] ++ [52; 0; 0; 0] ++ replicate 12 0 ++ [1; 0] ++ replicate 6 0 ++
  [1; 0; 0; 0] ++ [0; 0x10; 0; 0] ++ replicate 4 0 ++ [0; 0; 0x10; 0] ++ [0x58; 2; 0; 0] ++ [0xE8; 3; 0; 0] ++ replicate 436 0.
Definition small_kernel (n : Z) : list Z := if n =? 1 then small_header else replicate 512 (if n =? 9 then 7 else 0).

