(* ===== verification/Mp.v ===== *)
(** mp.c: the processors and the I/O APIC that the BIOS tables describe.

    [m] is the memory with the tables. A loop that does not end is [NoFuel] for
    every fuel. *)
From stdpp Require Import base tactics list numbers strings gmap.
From S2P Require Import Prelude CString FsTypes State Spinlock Console Kalloc.

#[local] Open Scope Z_scope.

Record mpst := Mpst { apicids : list Z; ioapicid : Z; lapic : Z; imcr : list (Z * Z) }.
#[global] Instance eta_mpst : Eta mpst := fun s => Mpst (apicids s) (ioapicid s) (lapic s) (imcr s).
Abbreviation MP := (M mpst).

(** mp.h: the sizes of the structs, and the types of the entries *)
Definition sizeof_mp : Z := 16.
Definition sizeof_mpconf : Z := 44.
Definition sizeof_mpproc : Z := 20.
Definition sizeof_mpioapic : Z := 8.
Definition MPPROC : Z := 0.
Definition MPBUS : Z := 1.
Definition MPIOAPIC : Z := 2.
Definition MPIOINTR : Z := 3.
Definition MPLINTR : Z := 4.

Section mp.
Context (m : memory).

Definition ld16 (a : Z) : Z := ld8 m a + 2^8 * ld8 m (a + 1).

(** [sum(addr, len)], as a [uchar] *)
Definition sum (addr len : Z) : Z := foldl (fun s i => s + ld8 m (addr + i)) 0 (seqZ 0 len) mod 2^8.
(** [memcmp(p, sig, 4) == 0] *)
Definition signed (p : Z) (sig : list Z) : bool := forallb (fun ic => ld8 m (p + Z.of_nat ic.1) =? ic.2) (imap pair sig).

Fixpoint mpsearch1_loop (n : nat) (p e : Z) : Z :=
  if p <? e then
    if signed p (codes "_MP_") && (sum p sizeof_mp =? 0) then p
    else match n with O => 0 | S n' => mpsearch1_loop n' (p + sizeof_mp) e end
  else 0.
Definition mpsearch1 (a len : Z) : Z := mpsearch1_loop (Z.to_nat (len / sizeof_mp)) (P2V a) (P2V a + len).

Definition mpsearch : Z :=
  let bda := P2V 0x400 in
  let p := Z.shiftl (Z.lor (Z.shiftl (ld8 m (bda + 0x0F)) 8) (ld8 m (bda + 0x0E))) 4 in
  let mp :=
    if negb (p =? 0) then mpsearch1 p 1024
    else mpsearch1 (u32 (Z.lor (Z.shiftl (ld8 m (bda + 0x14)) 8) (ld8 m (bda + 0x13)) * 1024 - 1024)) 1024 in
  if negb (mp =? 0) then mp else mpsearch1 0xF0000 0x10000.

(** The floating pointer and the configuration table, or [None]. *)
Definition mpconfig : option (Z * Z) :=
  let mp := mpsearch in
  if (mp =? 0) || (ld32 m (mp + 4) =? 0) then None
  else
    let conf := P2V (ld32 m (mp + 4)) in
    if negb (signed conf (codes "PCMP")) then None
    else if negb (ld8 m (conf + 6) =? 1) && negb (ld8 m (conf + 6) =? 4) then None
    else if negb (sum conf (ld16 (conf + 4)) =? 0) then None
    else Some (mp, conf).

(** The loop over the table; the result is [ismp]. The [break] of the default case
    leaves the [switch], not the loop. *)
Fixpoint mpinit_loop (fuel : nat) (p e : Z) (ismp : bool) : MP bool :=
  if p <? e then
    match fuel with
    | O => nofuel
    | S f =>
        if ld8 m p =? MPPROC then
          modify (fun s => if (length (apicids s) <? NCPU)%nat then s <| apicids ::= fun l => l ++ [ld8 m (p + 1)] |> else s);;
          mpinit_loop f (p + sizeof_mpproc) e ismp
        else if ld8 m p =? MPIOAPIC then
          modify (fun s => s <| ioapicid := ld8 m (p + 1) |>);;
          mpinit_loop f (p + sizeof_mpioapic) e ismp
        else if (ld8 m p =? MPBUS) || (ld8 m p =? MPIOINTR) || (ld8 m p =? MPLINTR) then mpinit_loop f (p + 8) e ismp
        else mpinit_loop f p e false
    end
  else mret ismp.

(** [port23] is what [inb(0x23)] returns. *)
Definition mpinit (fuel : nat) (port23 : Z) : MP unit :=
  match mpconfig with
  | None => panic "Expect to run on an SMP"
  | Some (mp, conf) =>
      modify (fun s => s <| lapic := ld32 m (conf + 36) |>);;
      ismp ← mpinit_loop fuel (conf + sizeof_mpconf) (conf + ld16 (conf + 4)) true;
      if negb ismp then panic "Didn't find a suitable machine"
      else mwhen (negb (ld8 m (mp + 12) =? 0))
             (modify (fun s => s <| imcr ::= fun l => l ++ [(0x22, 0x70); (0x23, Z.lor port23 1)] |>))
  end.

(** ** The entries of a table *)
Inductive entry := Proc (id : Z) | Ioapic (id : Z) | Other (type : Z).
Definition entry_size (e : entry) : Z := match e with Proc _ => sizeof_mpproc | _ => 8 end.
Definition entry_at (p : Z) (e : entry) : Prop :=
  match e with
  | Proc id => ld8 m p = MPPROC /\ ld8 m (p + 1) = id
  | Ioapic id => ld8 m p = MPIOAPIC /\ ld8 m (p + 1) = id
  | Other t => ld8 m p = t /\ (t = MPBUS \/ t = MPIOINTR \/ t = MPLINTR)
  end.
Fixpoint table (p : Z) (l : list entry) : Prop :=
  match l with
  | [] => True
  | e :: l' => entry_at p e /\ table (p + entry_size e) l'
  end.
Definition table_size (l : list entry) : Z := foldr (fun e n => entry_size e + n) 0 l.

(** What the entries say. *)
Definition scan_entry (s : mpst) (e : entry) : mpst :=
  match e with
  | Proc id => s <| apicids := take NCPU (apicids s ++ [id]) |>
  | Ioapic id => s <| ioapicid := id |>
  | Other _ => s
  end.

Lemma entry_size_pos e : 0 < entry_size e.
Proof. by destruct e. Qed.
Lemma table_size_nonneg l : 0 <= table_size l.
Proof. induction l as [|e l IH]; [done|]. simpl. pose proof (entry_size_pos e). fold (table_size l). lia. Qed.

(** A known entry is taken, and the loop goes on behind it. *)
Lemma mpinit_entry f p e x b s : entry_at p x -> p < e -> (length (apicids s) <= NCPU)%nat ->
  mpinit_loop (S f) p e b s = mpinit_loop f (p + entry_size x) e b (scan_entry s x) /\
  (length (apicids (scan_entry s x)) <= NCPU)%nat.
Proof.
  intros Hx Hlt Hl. cbn [mpinit_loop]. rewrite (proj2 (Z.ltb_lt _ _) Hlt). destruct x as [id|id|t]; cbn [entry_at scan_entry] in *.
  - destruct Hx as [-> ->]. rewrite Z.eqb_refl. unfold mbind, M_bind, modify. cbn [obind]. destruct s as [l i a o]. cbn [apicids] in *.
    destruct (Nat.ltb_spec (length l) NCPU) as [H|H].
    + rewrite take_ge by (rewrite length_app; simpl; lia). split; [done|]. simpl. rewrite length_app. simpl. lia.
    + rewrite take_app_le, take_ge by lia. done.
  - destruct Hx as [-> ->]. done.
  - destruct Hx as [-> [-> |[-> | ->]]]; done.
Qed.

Lemma mpinit_table l : forall fuel p e b s, table p l -> p + table_size l <= e -> (length (apicids s) <= NCPU)%nat ->
  mpinit_loop (length l + fuel) p e b s = mpinit_loop fuel (p + table_size l) e b (foldl scan_entry s l).
Proof.
  induction l as [|x l IH]; intros fuel p e b s HT He Hl; [by rewrite Z.add_0_r|]. destruct HT as [Hx HT].
  change (table_size (x :: l)) with (entry_size x + table_size l) in *. pose proof (entry_size_pos x). pose proof (table_size_nonneg l).
  cbn [length Nat.add foldl]. destruct (mpinit_entry (length l + fuel) p e x b s Hx ltac:(lia) Hl) as [-> Hl'].
  rewrite IH; [f_equal; lia|done|lia|done].
Qed.

Lemma scan_apicids l : forall s, (length (apicids s) <= NCPU)%nat -> apicids (foldl scan_entry s l) =
  take NCPU (apicids s ++ omap (fun e => match e with Proc id => Some id | _ => None end) l).
Proof.
  induction l as [|x l IH]; intros s Hs; cbn [foldl]; [rewrite app_nil_r, take_ge; done|].
  destruct x as [id|id|t]; cbn [scan_entry]; rewrite IH; try done.
  - change (apicids (s <| apicids := take NCPU (apicids s ++ [id]) |>)) with (take NCPU (apicids s ++ [id])).
    cbn [omap list_omap]. change (id :: omap ?f l) with ([id] ++ omap f l). rewrite app_assoc.
    destruct (decide (length (apicids s) < NCPU)%nat); [by rewrite (take_ge (_ ++ [id])) by (rewrite length_app; simpl; lia)|].
    rewrite (take_app_le (apicids s)) by lia. rewrite <-app_assoc, !(take_app_le (apicids s)) by lia.
    rewrite (take_ge (apicids s)) by lia. by rewrite take_app_le, take_ge by lia.
  - change (apicids (s <| apicids := take NCPU (apicids s ++ [id]) |>)) with (take NCPU (apicids s ++ [id])). rewrite length_take. lia.
Qed.

Lemma scan_rest s l : lapic (foldl scan_entry s l) = lapic s /\ imcr (foldl scan_entry s l) = imcr s /\
  ioapicid (foldl scan_entry s l) = default (ioapicid s) (last (omap (fun e => match e with Ioapic id => Some id | _ => None end) l)).
Proof.
  induction l as [|x l (IH1 & IH2 & IH3)] using rev_ind; [done|]. rewrite foldl_app, omap_app. cbn [foldl].
  destruct x as [id|id|t]; cbn [scan_entry omap list_omap]; rewrite ?app_nil_r, ?last_snoc; done.
Qed.

(** C28: [mpinit] reads the configuration table that the BIOS has left: of a table
    with known entries, it takes the first [NCPU] processors in the order of the
    table, the last I/O APIC, and the address of the local APIC, and it programs the
    interrupt mode register if there is one. *)
Theorem mpinit_finds (mp conf : Z) (l : list entry) (s : mpst) (port23 : Z)
    (Hconf : mpconfig = Some (mp, conf)) (Ht : table (conf + sizeof_mpconf) l)
    (Hlen : ld16 (conf + 4) = sizeof_mpconf + table_size l) (Hs : apicids s = []) :
  exists s', mpinit (length l) port23 s = Ret tt s' /\
    apicids s' = take NCPU (omap (fun e => match e with Proc id => Some id | _ => None end) l) /\
    ioapicid s' = default (ioapicid s) (last (omap (fun e => match e with Ioapic id => Some id | _ => None end) l)) /\
    lapic s' = ld32 m (conf + 36) /\
    imcr s' = imcr s ++ if ld8 m (mp + 12) =? 0 then [] else [(0x22, 0x70); (0x23, Z.lor port23 1)].
Proof.
  unfold mpinit. rewrite Hconf. unfold mbind, M_bind, modify. cbn [obind]. set (s1 := s <| lapic := ld32 m (conf + 36) |>).
  assert (Hs1 : (length (apicids s1) <= NCPU)%nat) by (change (apicids s1) with (apicids s); rewrite Hs; simpl; lia).
  rewrite <-(Nat.add_0_r (length l)), Hlen, Z.add_assoc, mpinit_table by (done || lia).
  cbn [mpinit_loop]. rewrite Z.ltb_irrefl. unfold mret, M_ret. cbn [obind negb].
  pose proof (scan_apicids l s1 Hs1) as Ea. change (apicids s1) with (apicids s) in Ea. rewrite Hs in Ea.
  destruct (scan_rest s1 l) as (El & Ei & Eo). set (s2 := foldl scan_entry s1 l) in *. clearbody s2.
  unfold mwhen. destruct (ld8 m (mp + 12) =? 0); eexists; (split; [reflexivity|]); destruct s2 as [a i lp o];
    cbn [apicids ioapicid lapic imcr] in *; subst; simpl; rewrite ?app_nil_r; done.
Qed.

(** An entry of another type keeps [mpinit] in its loop for ever: the default
    case of the [switch] means to leave the loop, and then to panic. *)
Theorem mpinit_hangs (mp conf : Z) (l : list entry) (s : mpst) (port23 : Z) (fuel : nat)
    (Hconf : mpconfig = Some (mp, conf)) (Ht : table (conf + sizeof_mpconf) l)
    (Hlen : sizeof_mpconf + table_size l < ld16 (conf + 4)) (Hs : apicids s = [])
    (Hbad : 4 < ld8 m (conf + sizeof_mpconf + table_size l)) :
  exists s', mpinit fuel port23 s = NoFuel s'.
Proof.
  unfold mpinit. rewrite Hconf. unfold mbind, M_bind, modify. cbn [obind].
  set (p := conf + sizeof_mpconf + table_size l) in *. set (e := conf + ld16 (conf + 4)).
  assert (Hstuck : forall f b s, mpinit_loop f p e b s = NoFuel s).
  { induction f as [|f IH]; intros b s0; cbn [mpinit_loop]; rewrite (proj2 (Z.ltb_lt _ _)) by (unfold p, e; lia); [done|].
    unfold MPPROC, MPIOAPIC, MPBUS, MPIOINTR, MPLINTR. rewrite !(proj2 (Z.eqb_neq _ _)) by lia. apply IH. }
  assert (Hall : forall k fuel q b s, table q k -> q + table_size k = p -> (length (apicids s) <= NCPU)%nat ->
    exists s', mpinit_loop fuel q e b s = NoFuel s').
  { clear - Hstuck Hlen. induction k as [|x k IH]; intros fuel q b s HT Hq Hl.
    - exists s. replace q with p by (simpl in Hq; lia). apply Hstuck.
    - destruct HT as [Hx HT]. change (table_size (x :: k)) with (entry_size x + table_size k) in Hq.
      pose proof (entry_size_pos x). pose proof (table_size_nonneg k). assert (Hqe : q < e) by (unfold p, e in *; lia).
      destruct fuel as [|fuel]; [exists s; cbn [mpinit_loop]; by rewrite (proj2 (Z.ltb_lt _ _) Hqe)|].
      destruct (mpinit_entry fuel q e x b s Hx Hqe Hl) as [-> Hl']. apply IH; [done|lia|done]. }
  destruct (Hall l fuel (conf + sizeof_mpconf) true (s <| lapic := ld32 m (conf + 36) |>) Ht eq_refl) as [s' E].
  - change (apicids (s <| lapic := ld32 m (conf + 36) |>)) with (apicids s). rewrite Hs. simpl. lia.
  - exists s'. by rewrite E.
Qed.
End mp.

(** A machine with two processors; [bad] is one whose table has an unknown entry. *)
Definition bios (conf : list Z) : memory :=
  st_list (st_list (st_list ∅ (P2V 0x40E) [0xC0; 0x9F])
    (P2V 0x9FC00) (codes "_MP_" ++ [0; 0xFD; 9; 0; 1; 4; 153; 0; 1; 0; 0; 0])) (P2V 0x9FD00) conf.
Definition conf_header (len checksum : Z) : list Z :=
  codes "PCMP" ++ [len; 0; 4; checksum] ++ replicate 24 0 ++ [0; 0; 3; 0] ++ [0; 0; 0xE0; 0xFE] ++ replicate 4 0.
Definition two_cpus : memory :=
  bios (conf_header 92 142 ++ [0; 0; 20; 3] ++ replicate 16 0 ++ [0; 1; 20; 1] ++ replicate 16 0 ++ [2; 2; 17; 1; 0; 0; 0xC0; 0xFE]).
Definition bad_table : memory := bios (conf_header 72 131 ++ [0; 0; 20; 3] ++ replicate 16 0 ++ [9] ++ replicate 7 0).

Lemma mpinit_finds_witness : exists s', mpinit two_cpus 3 0 (Mpst [] 0 0 []) = Ret tt s' /\
  apicids s' = [0; 1] /\ ioapicid s' = 2 /\ lapic s' = 0xFEE00000 /\ imcr s' = [(0x22, 0x70); (0x23, 1)].
Proof.
  apply (mpinit_finds two_cpus (P2V 0x9FC00) (P2V 0x9FD00) [Proc 0; Proc 1; Ioapic 2] (Mpst [] 0 0 []) 0).
  - vm_compute. reflexivity.
  - repeat split; vm_compute; reflexivity.
  - vm_compute. reflexivity.
  - reflexivity.
Defined.
Lemma mpinit_hangs_witness : exists s', mpinit bad_table 1000 0 (Mpst [] 0 0 []) = NoFuel s'.
Proof.
  apply (mpinit_hangs bad_table (P2V 0x9FC00) (P2V 0x9FD00) [Proc 0] (Mpst [] 0 0 []) 0 1000).
  - vm_compute. reflexivity.
  - repeat split; vm_compute; reflexivity.
  - vm_compute. reflexivity.
  - reflexivity.
  - vm_compute. reflexivity.
Defined.
