(* ===== verification/Apic.v ===== *)
(** The interrupt controllers and the clock: lapic.c, ioapic.c, picirq.c, and
    [uartinit] of uart.c.

    The local APIC is the trace of the writes to its registers, and the values that
    its registers deliver; the I/O APIC has its registers; ports are the trace of the
    bytes sent to them. *)
From stdpp Require Import base tactics list numbers strings gmap.
From S2P Require Import Prelude CString FsTypes State Spinlock Console Kalloc Vm Sched Process Args Trap.

#[local] Open Scope Z_scope.

Record apic := Apic {
  lapic_on : bool;               (* lapic != 0 *)
  lwrites : list (Z * Z);        (* lapic[index] = value *)
  lver : Z;                      (* lapic[VER] *)
  delivs : list Z;               (* what lapic[ICRLO] will deliver, then 0 *)
  ioregs : gmap Z Z;             (* the registers of the I/O APIC *)
  outs : list (Z * Z);           (* outb(port, value) *)
  vector : Z                     (* the warm reset vector: wrv[1], wrv[0] = 0 *)
}.
#[global] Instance eta_apic : Eta apic := fun s =>
  Apic (lapic_on s) (lwrites s) (lver s) (delivs s) (ioregs s) (outs s) (vector s).
Abbreviation MA := (M apic).

Definition outb (p v : Z) : MA unit := modify (fun s => s <| outs ::= fun l => l ++ [(p, v mod 256)] |>).

(** ** lapic.c *)
Definition ID : Z := 0x0020 / 4.
Definition VER : Z := 0x0030 / 4.
Definition TPR : Z := 0x0080 / 4.
Definition EOI : Z := 0x00B0 / 4.
Definition SVR : Z := 0x00F0 / 4.
Definition ENABLE : Z := 0x00000100.
Definition ESR : Z := 0x0280 / 4.
Definition ICRLO : Z := 0x0300 / 4.
Definition INIT : Z := 0x00000500.
Definition STARTUP : Z := 0x00000600.
Definition DELIVS : Z := 0x00001000.
Definition ASSERT : Z := 0x00004000.
Definition LEVEL : Z := 0x00008000.
Definition BCAST : Z := 0x00080000.
Definition ICRHI : Z := 0x0310 / 4.
Definition TIMER : Z := 0x0320 / 4.
Definition X1 : Z := 0x0000000B.
Definition PERIODIC : Z := 0x00020000.
Definition PCINT : Z := 0x0340 / 4.
Definition LINT0 : Z := 0x0350 / 4.
Definition LINT1 : Z := 0x0360 / 4.
Definition ERROR : Z := 0x0370 / 4.
Definition MASKED : Z := 0x00010000.
Definition TICR : Z := 0x0380 / 4.
Definition TDCR : Z := 0x03E0 / 4.
Definition IRQ_ERROR : Z := 19.

Definition lapicw (index value : Z) : MA unit := modify (fun s => s <| lwrites ::= fun l => l ++ [(index, u32 value)] |>).

(** [while(lapic[ICRLO] & DELIVS)] *)
Fixpoint deliv_loop (l : list Z) : list Z :=
  match l with
  | [] => []
  | v :: l' => if Z.land v DELIVS =? 0 then l' else deliv_loop l'
  end.

Definition lapicinit : MA unit :=
  on ← gets lapic_on;
  if negb on then mret tt
  else
    lapicw SVR (Z.lor ENABLE (T_IRQ0 + IRQ_SPURIOUS));;
    lapicw TDCR X1;;
    lapicw TIMER (Z.lor PERIODIC (T_IRQ0 + IRQ_TIMER));;
    lapicw TICR 10000000;;
    lapicw LINT0 MASKED;;
    lapicw LINT1 MASKED;;
    ver ← gets lver;
    mwhen (4 <=? Z.land (Z.shiftr ver 16) 0xFF) (lapicw PCINT MASKED);;
    lapicw ERROR (T_IRQ0 + IRQ_ERROR);;
    lapicw ESR 0;;
    lapicw ESR 0;;
    lapicw EOI 0;;
    lapicw ICRHI 0;;
    lapicw ICRLO (Z.lor (Z.lor BCAST INIT) LEVEL);;
    modify (fun s => s <| delivs ::= deliv_loop |>);;
    lapicw TPR 0.

Definition lapiceoi : MA unit :=
  on ← gets lapic_on;
  mwhen on (lapicw EOI 0).

Definition CMOS_PORT : Z := 0x70.
Definition CMOS_RETURN : Z := 0x71.

Definition lapicstartap (apicid addr : Z) : MA unit :=
  outb CMOS_PORT 0xF;;
  outb (CMOS_PORT + 1) 0x0A;;
  modify (fun s => s <| vector := Z.shiftr addr 4 mod 2^16 |>);;
  lapicw ICRHI (Z.shiftl apicid 24);;
  lapicw ICRLO (Z.lor (Z.lor INIT LEVEL) ASSERT);;
  lapicw ICRLO (Z.lor INIT LEVEL);;
  for_all (seqZ 0 2) (fun _ =>
    lapicw ICRHI (Z.shiftl apicid 24);;
    lapicw ICRLO (Z.lor STARTUP (Z.shiftr addr 12))).

(** ** ioapic.c *)
Definition REG_ID : Z := 0x00.
Definition REG_VER : Z := 0x01.
Definition REG_TABLE : Z := 0x10.
Definition INT_DISABLED : Z := 0x00010000.

Definition ioapicread (reg : Z) : MA Z := gets (fun s => default 0 (ioregs s !! reg)).
Definition ioapicwrite (reg data : Z) : MA unit := modify (fun s => s <| ioregs ::= <[reg := u32 data]> |>).

(** [ioapicid] is what mp.c has found; the result is whether the message that this
    is not a multiprocessor is printed. *)
Definition ioapicinit (ioapicid : Z) : MA bool :=
  ver ← ioapicread REG_VER;
  let maxintr := Z.land (Z.shiftr ver 16) 0xFF in
  id ← ioapicread REG_ID;
  for_all (seqZ 0 (maxintr + 1)) (fun i =>
    ioapicwrite (REG_TABLE + 2 * i) (Z.lor INT_DISABLED (T_IRQ0 + i));;
    ioapicwrite (REG_TABLE + 2 * i + 1) 0);;
  mret (negb (Z.shiftr id 24 =? ioapicid)).

Definition ioapicenable (irq cpunum : Z) : MA unit :=
  ioapicwrite (REG_TABLE + 2 * irq) (T_IRQ0 + irq);;
  ioapicwrite (REG_TABLE + 2 * irq + 1) (Z.shiftl cpunum 24).

(** ** picirq.c *)
Definition IO_PIC1 : Z := 0x20.
Definition IO_PIC2 : Z := 0xA0.
Definition picinit : MA unit := outb (IO_PIC1 + 1) 0xFF;; outb (IO_PIC2 + 1) 0xFF.

(** ** uart.c: [status] is what [inb(COM1+5)] delivers; the result is [uart]. The
    announcement is printed by [uartputc] when there is a port. *)
Definition COM1 : Z := 0x3f8.
Definition uartinit (status : Z) : MA bool :=
  outb (COM1 + 2) 0;;
  outb (COM1 + 3) 0x80;;
  outb (COM1 + 0) (115200 / 9600);;
  outb (COM1 + 1) 0;;
  outb (COM1 + 3) 0x03;;
  outb (COM1 + 4) 0;;
  outb (COM1 + 1) 0x01;;
  if status =? 0xFF then mret false
  else
    ioapicenable IRQ_COM1 0;;
    for_all (codes ("xv6..." +:+ nl)) (fun c => outb (COM1 + 0) c);;
    mret true.

(** The entry of the redirection table for an interrupt: the two registers. *)
Definition route (s : apic) (i : Z) : Z * Z :=
  (default 0 (ioregs s !! (REG_TABLE + 2 * i)), default 0 (ioregs s !! (REG_TABLE + 2 * i + 1))).
(** The last call that enables interrupt [i], if there is one: its processor. *)
Definition enabled (calls : list (Z * Z)) (i : Z) : option Z := snd <$> last (filter (fun c => c.1 = i) calls).


Lemma for_all_modify {S I} (f : I -> S -> S) (body : I -> M S unit) (l : list I) :
  (forall x s, body x s = Ret tt (f x s)) -> forall s, for_all l body s = Ret tt (foldl (fun s x => f x s) s l).
Proof. intros Hb. induction l as [|x l IH]; intros s; [done|]. cbn [for_all foldl]. unfold mbind, M_bind. rewrite Hb. apply IH. Qed.

(** Writing an entry. *)
Definition set_route (i lo hi : Z) (s : apic) : apic :=
  s <| ioregs ::= <[REG_TABLE + 2 * i := u32 lo]> |> <| ioregs ::= <[REG_TABLE + 2 * i + 1 := u32 hi]> |>.
Lemma route_set i lo hi s j : route (set_route i lo hi s) j = if decide (i = j) then (u32 lo, u32 hi) else route s j.
Proof.
  unfold route, set_route. simpl. case_decide as E; [subst|].
  - by rewrite lookup_insert_ne, !lookup_insert_eq by lia.
  - by rewrite !lookup_insert_ne by lia.
Qed.
Lemma routes_set (f : Z * Z -> Z * Z) l s j :
  route (foldl (fun s c => set_route c.1 (f c).1 (f c).2 s) s l) j =
  match last (filter (fun c => c.1 = j) l) with Some c => (u32 (f c).1, u32 (f c).2) | None => route s j end.
Proof.
  induction l as [|c l IH] using rev_ind; [done|]. rewrite foldl_app, filter_app. cbn [foldl]. rewrite route_set.
  case_decide as E; rewrite filter_cons; cbn [filter list_filter].
  - by rewrite decide_True, last_snoc by done.
  - by rewrite decide_False, app_nil_r by done.
Qed.

Lemma masked_word i : 0 <= i < 256 -> u32 (Z.lor INT_DISABLED (T_IRQ0 + i)) = Z.lor INT_DISABLED (T_IRQ0 + i).
Proof.
  intros Hi. assert (Hall : forallb (fun i => u32 (Z.lor INT_DISABLED (T_IRQ0 + i)) =? Z.lor INT_DISABLED (T_IRQ0 + i)) (seqZ 0 256) = true) by (by vm_compute).
  rewrite forallb_forall in Hall. apply Z.eqb_eq, Hall, list_elem_of_In, elem_of_seqZ. lia.
Qed.

(** Interrupt routing. After [ioapicinit] and any calls of [ioapicenable], every
    interrupt of the I/O APIC has its own vector; it goes to the processor of the
    last call for it, and is masked if there was none. *)
Theorem ioapic_routes (ioapicid : Z) (calls : list (Z * Z)) (s : apic) (n := Z.land (Z.shiftr (default 0 (ioregs s !! REG_VER)) 16) 0xFF) :
  exists s', (ioapicinit ioapicid;; for_all calls (fun c => ioapicenable c.1 c.2)) s = Ret tt s' /\
    forall i, 0 <= i <= n -> route s' i =
      match enabled calls i with
      | Some cpu => (T_IRQ0 + i, u32 (Z.shiftl cpu 24))
      | None => (Z.lor INT_DISABLED (T_IRQ0 + i), 0)
      end.
Proof.
  assert (Hn : 0 <= n < 256).
  { unfold n. change 0xFF with (Z.ones 8). rewrite Z.land_ones by lia. apply Z.mod_pos_bound. lia. }
  set (f := fun c : Z * Z => (Z.lor INT_DISABLED (T_IRQ0 + c.1), 0)). set (g := fun c : Z * Z => (T_IRQ0 + c.1, Z.shiftl c.2 24)).
  set (s1 := foldl (fun s c => set_route c.1 (f c).1 (f c).2 s) s ((fun i => (i, 0)) <$> seqZ 0 (n + 1))).
  exists (foldl (fun s c => set_route c.1 (g c).1 (g c).2 s) s1 calls). split.
  - unfold ioapicinit, mbind, M_bind, ioapicread, gets. cbn [obind]. fold n.
    pose proof (for_all_modify (fun i => set_route i (Z.lor INT_DISABLED (T_IRQ0 + i)) 0)) as Hf. unfold mbind, M_bind in Hf.
    rewrite Hf by done. cbn [obind]. unfold mret, M_ret. cbn [obind].
    pose proof (for_all_modify (fun c => set_route c.1 (T_IRQ0 + c.1) (Z.shiftl c.2 24)) (fun c => ioapicenable c.1 c.2) calls) as Hg.
    rewrite Hg by done. unfold s1. rewrite foldl_fmap. done.
  - intros i Hi. rewrite routes_set. unfold enabled. destruct (last (filter (fun c => c.1 = i) calls)) as [c|] eqn:El; cbn [fmap option_fmap option_map].
    + apply last_Some_elem_of, list_elem_of_filter in El as [<- _]. unfold g. cbn [fst snd]. f_equal. apply u32_small. unfold in_u32, T_IRQ0. lia.
    + unfold s1. rewrite routes_set. 
      destruct (last (filter (fun c : Z * Z => c.1 = i) ((fun i => (i, 0)) <$> seqZ 0 (n + 1)))) as [c|] eqn:El1.
      * apply last_Some_elem_of, list_elem_of_filter in El1 as [<- _]. unfold f. cbn [fst snd]. f_equal. apply masked_word. lia.
      * exfalso. apply last_None in El1. assert (Hin : (i, 0) ∈ filter (fun c : Z * Z => c.1 = i) ((fun i => (i, 0)) <$> seqZ 0 (n + 1))).
        { apply list_elem_of_filter. split; [done|]. apply list_elem_of_fmap. exists i. split; [done|]. apply elem_of_seqZ. lia. }
        rewrite El1 in Hin. by apply elem_of_nil in Hin.
Qed.

(** ** The real-time clock

    [clock n reg] is what register [reg] of the clock delivers at the [n]-th read;
    the state is the number of reads. *)
Record rtcdate := Rtcdate { second : Z; minute : Z; hour : Z; day : Z; month : Z; year : Z }.
#[global] Instance rtcdate_eq_dec : EqDecision rtcdate.
Proof. solve_decision. Defined.
Definition CMOS_STATA : Z := 0x0a.
Definition CMOS_STATB : Z := 0x0b.
Definition CMOS_UIP : Z := Z.shiftl 1 7.
Definition SECS : Z := 0x00.
Definition MINS : Z := 0x02.
Definition HOURS : Z := 0x04.
Definition DAY : Z := 0x07.
Definition MONTH : Z := 0x08.
Definition YEAR : Z := 0x09.
Abbreviation MC := (M nat).

Section clock.
Context (clock : nat -> Z -> Z).

Definition cmos_read (reg : Z) : MC Z := fun n => Ret (clock n reg mod 256) (S n).
Definition fill_rtcdate : MC rtcdate :=
  second ← cmos_read SECS;
  minute ← cmos_read MINS;
  hour ← cmos_read HOURS;
  day ← cmos_read DAY;
  month ← cmos_read MONTH;
  year ← cmos_read YEAR;
  mret (Rtcdate second minute hour day month year).

Definition CONV (x : Z) : Z := Z.shiftr x 4 * 10 + Z.land x 0xf.
Definition convert (t : rtcdate) : rtcdate :=
  Rtcdate (CONV (second t)) (CONV (minute t)) (CONV (hour t)) (CONV (day t)) (CONV (month t)) (CONV (year t)).

(** The loop that reads the time until two readings agree. *)
Fixpoint cmostime_loop (fuel : nat) : MC rtcdate :=
  match fuel with
  | O => nofuel
  | S f =>
      t1 ← fill_rtcdate;
      a ← cmos_read CMOS_STATA;
      if negb (Z.land a CMOS_UIP =? 0) then cmostime_loop f
      else
        t2 ← fill_rtcdate;
        if bool_decide (t1 = t2) then mret t1 else cmostime_loop f
  end.
Definition cmostime (fuel : nat) : MC rtcdate :=
  sb ← cmos_read CMOS_STATB;
  t1 ← cmostime_loop fuel;
  let t1 := if Z.land sb (Z.shiftl 1 2) =? 0 then convert t1 else t1 in
  mret (Rtcdate (second t1) (minute t1) (hour t1) (day t1) (month t1) (year t1 + 2000)).
End clock.

(** How the clock keeps a date: in BCD or in binary, with the year of the century. *)
Definition bcd (x : Z) : Z := x / 10 * 16 + x mod 10.
Definition keeps (b : bool) (t : rtcdate) (reg : Z) : option Z :=
  let enc := if b then bcd else id in
  if reg =? SECS then Some (enc (second t)) else if reg =? MINS then Some (enc (minute t))
  else if reg =? HOURS then Some (enc (hour t)) else if reg =? DAY then Some (enc (day t))
  else if reg =? MONTH then Some (enc (month t)) else if reg =? YEAR then Some (enc (year t))
  else if reg =? CMOS_STATB then Some (if b then 2 else 6) else None.
Definition fields (t : rtcdate) : list Z := [second t; minute t; hour t; day t; month t; year t].

Lemma conv_bcd x : 0 <= x < 100 -> 0 <= bcd x < 256 /\ CONV (bcd x) = x.
Proof.
  intros Hx. assert (Hall : forallb (fun x => (0 <=? bcd x) && (bcd x <? 256) && (CONV (bcd x) =? x)) (seqZ 0 100) = true) by (by vm_compute).
  rewrite forallb_forall in Hall. specialize (Hall x ltac:(apply list_elem_of_In, elem_of_seqZ; lia)).
  apply andb_true_iff in Hall as [[H1 H2]%andb_true_iff H3]. lia.
Qed.

(** A clock that is set to [t] from the [n]-th read on. *)
Definition steady (clock : nat -> Z -> Z) (b : bool) (t : rtcdate) (n : nat) : Prop :=
  forall k reg, (n <= k)%nat -> match keeps b t reg with Some v => clock k reg = v | None => True end.

Section steady.
Context (clock : nat -> Z -> Z) (b : bool) (t : rtcdate) (u : nat).
Hypothesis Hst : forall k reg, match keeps b t reg with Some v => clock k reg = v | None => True end.
Hypothesis Hf : Forall (fun x => 0 <= x < 100) (fields t).
Hypothesis Hu : forall k, (u <= k)%nat -> Z.land (clock k CMOS_STATA mod 256) CMOS_UIP = 0.

Let enc (x : Z) : Z := if b then bcd x else x.
Let shown : rtcdate := Rtcdate (enc (second t)) (enc (minute t)) (enc (hour t)) (enc (day t)) (enc (month t)) (enc (year t)).

Lemma enc_range x : x ∈ fields t -> 0 <= enc x < 256.
Proof.
  intros Hx. rewrite Forall_forall in Hf. specialize (Hf x Hx). unfold enc. destruct b; [by apply conv_bcd|lia].
Qed.

Lemma fill_steady n : fill_rtcdate clock n = Ret shown (6 + n)%nat.
Proof.
  assert (Hr : forall k reg x, keeps b t reg = Some (enc x) -> x ∈ fields t -> cmos_read clock reg k = Ret (enc x) (S k)).
  { intros k reg x Hk Hx. unfold cmos_read. pose proof (Hst k reg) as H. rewrite Hk in H. rewrite H, Z.mod_small by (by apply enc_range). done. }
  unfold fill_rtcdate, mbind, M_bind.
  assert (Hk : keeps b t SECS = Some (enc (second t)) /\ keeps b t MINS = Some (enc (minute t)) /\ keeps b t HOURS = Some (enc (hour t)) /\
    keeps b t DAY = Some (enc (day t)) /\ keeps b t MONTH = Some (enc (month t)) /\ keeps b t YEAR = Some (enc (year t))) by (unfold keeps, enc; destruct b; done).
  destruct Hk as (K1 & K2 & K3 & K4 & K5 & K6). unfold fields in Hr.
  rewrite (Hr _ _ _ K1) by set_solver. cbn [obind]. rewrite (Hr _ _ _ K2) by set_solver. cbn [obind]. rewrite (Hr _ _ _ K3) by set_solver. cbn [obind].
  rewrite (Hr _ _ _ K4) by set_solver. cbn [obind]. rewrite (Hr _ _ _ K5) by set_solver. cbn [obind]. by rewrite (Hr _ _ _ K6) by set_solver.
Qed.

Lemma cmostime_turn f n : cmostime_loop clock (S f) n =
  if Z.land (clock (6 + n)%nat CMOS_STATA mod 256) CMOS_UIP =? 0 then Ret shown (13 + n)%nat else cmostime_loop clock f (7 + n)%nat.
Proof.
  cbn [cmostime_loop]. unfold mbind, M_bind. rewrite fill_steady. cbn [obind]. unfold cmos_read. cbn [obind].
  destruct (Z.land (clock (6 + n)%nat CMOS_STATA mod 256) CMOS_UIP =? 0); cbn [negb]; [|done].
  rewrite fill_steady. cbn [obind]. by rewrite bool_decide_true by done.
Qed.
Lemma cmostime_loop_steady fuel : forall n, (u <= n + fuel)%nat -> exists n', cmostime_loop clock (S fuel) n = Ret shown n'.
Proof.
  induction fuel as [|fuel IH]; intros n Hn; rewrite cmostime_turn;
    (destruct (Z.eqb_spec (Z.land (clock (6 + n)%nat CMOS_STATA mod 256) CMOS_UIP) 0) as [E|E]; [by eexists|]).
  - destruct E. apply Hu. lia.
  - apply IH. lia.
Qed.
End steady.

(** [cmostime] gives the date that the clock keeps, whether in BCD or in binary,
    once the clock does not report an update in progress; the year is counted from
    2000. *)
Theorem cmostime_exact (clock : nat -> Z -> Z) (b : bool) (t : rtcdate) (u : nat)
    (Hst : forall k reg, match keeps b t reg with Some v => clock k reg = v | None => True end)
    (Hf : Forall (fun x => 0 <= x < 100) (fields t))
    (Hu : forall k, (u <= k)%nat -> Z.land (clock k CMOS_STATA mod 256) CMOS_UIP = 0) :
  exists n, cmostime clock (S u) 0%nat =
    Ret (Rtcdate (second t) (minute t) (hour t) (day t) (month t) (year t + 2000)) n.
Proof.
  unfold cmostime, mbind, M_bind, cmos_read. cbn [obind].
  destruct (cmostime_loop_steady clock b t u Hst Hf Hu u 1 ltac:(lia)) as [n ->]. cbn [obind]. exists n.
  pose proof (Hst 0%nat CMOS_STATB) as Hb. change (keeps b t CMOS_STATB) with (Some (if b then 2 else 6)) in Hb. rewrite Hb.
  unfold fields in Hf. rewrite !Forall_cons in Hf. destruct Hf as (H1 & H2 & H3 & H4 & H5 & H6 & _). destruct b; [|done].
  change (Z.land (2 mod 256) (Z.shiftl 1 2) =? 0) with true. unfold convert. cbn [second minute hour day month year].
  unfold mret, M_ret. do 2 f_equal; try (by apply conv_bcd). f_equal. by apply conv_bcd.
Qed.

(** A clock at 23:59:58 on 31 December 2024, busy at its first reads. *)
Definition new_year (k : nat) (reg : Z) : Z :=
  default (if (k <? 20)%nat then 0x80 else 0) (keeps true (Rtcdate 58 59 23 31 12 24) reg).
Lemma cmostime_exact_witness : exists n, cmostime new_year 21 0%nat = Ret (Rtcdate 58 59 23 31 12 2024) n.
Proof.
  apply (cmostime_exact new_year true (Rtcdate 58 59 23 31 12 24) 20).
  - intros k reg. unfold new_year. destruct (keeps true (Rtcdate 58 59 23 31 12 24) reg); [reflexivity|exact I].
  - repeat constructor; discriminate.
  - intros k Hk. unfold new_year. rewrite (proj2 (Nat.ltb_ge _ _) Hk). reflexivity.
Defined.
