(* ===== verification/ConsoleSpec.v ===== *)
(** The console: the cursor stays on the display, and the line discipline is the
    editing of one line in front of the committed input (console.c). *)
From stdpp Require Import base tactics list numbers strings gmap.
From Stdlib Require Import Ascii.
From S2P Require Import Prelude Ring CString FsTypes State Spinlock Console Kalloc Vm Sched Process Args Sleeplock Ide Bio Log Fs ConsoleDev SchedInv Sample SchedOps Policy Dispatch Calls WakeSpec.

#[local] Open Scope Z_scope.

(** ** The display *)
Record cga_ok (g : cga) : Prop := {
  cga_len : length (crt g) = 2000%nat;
  cga_pos : 0 <= pos g < 1920
}.

Lemma cgaputc_ok c g : cga_ok g -> exists g', cgaputc c g = Some g' /\ cga_ok g'.
Proof.
  intros [Hl Hp]. unfold cgaputc. set (g1 := cga_advance c g).
  assert (H1 : length (crt g1) = 2000%nat /\ 0 <= pos g1 <= 1999).
  { unfold g1, cga_advance. pose proof (Z.rem_bound_pos (pos g) 80 ltac:(lia) ltac:(lia)).
    destruct (c =? newline); [simpl; split; [done|]|].
    - rewrite Z.rem_mod_nonneg in * by lia. pose proof (Z.div_mod (pos g) 80 ltac:(lia)). lia.
    - destruct (c =? BACKSPACE).
      + destruct (Z.ltb_spec 0 (pos g)); simpl; lia.
      + simpl. rewrite length_insert. lia. }
  destruct H1 as [Hl1 Hp1]. rewrite (proj2 (Z.ltb_ge _ _)), (proj2 (Z.ltb_ge _ _)) by lia. simpl.
  destruct (Z.leb_spec 24 (pos g1 / 80)) as [E|E].
  - assert (1920 <= pos g1) by (pose proof (Z.div_mod (pos g1) 80 ltac:(lia)); pose proof (Z.mod_pos_bound (pos g1) 80); lia).
    eexists. split; [done|]. split; simpl; [|lia]. rewrite length_insert. unfold cga_scroll. simpl.
    rewrite !length_app, length_take, length_replicate, length_drop, !length_app, length_take, !length_drop. lia.
  - eexists. split; [done|]. split; simpl; [by rewrite length_insert|].
    pose proof (Z.div_mod (pos g1) 80 ltac:(lia)). pose proof (Z.mod_pos_bound (pos g1) 80). lia.
Qed.

(** Whatever is printed, [cgaputc] never panics: the cursor stays in the first
    24 rows of the display and every store is inside its memory. *)
Theorem display_safe (out : list Z) (g : cga) (Hg : cga_ok g) :
  exists g', display out g = Some g' /\ cga_ok g'.
Proof.
  revert g Hg. induction out as [|c out IH]; intros g Hg; [by exists g|].
  cbn [display]. destruct (cgaputc_ok c g Hg) as (g1 & -> & H1). simpl. by apply IH.
Qed.

Lemma display_safe_witness :
  exists g', display (BACKSPACE :: 10 :: codes "$ ls") (Cga (replicate 2000 0) 1900) = Some g' /\ cga_ok g'.
Proof. apply display_safe. split; [reflexivity|simpl; lia]. Defined.

(** ** The line discipline *)

(** What waits to be read, and the line that is being edited. *)
Definition in_count (a b : Z) : nat := Z.to_nat (u32 (b - a)).
Definition committed (x : input_t) : list Z := ring INPUT_BUF (in_buf x) (in_r x) (in_count (in_r x) (in_w x)).
Definition line (x : input_t) : list Z := ring INPUT_BUF (in_buf x) (in_w x) (in_count (in_w x) (in_e x)).

Record input_ok (x : input_t) : Prop := {
  io_buf : length (in_buf x) = Z.to_nat INPUT_BUF;
  io_r : in_u32 (in_r x);
  io_w : in_u32 (in_w x);
  io_e : in_u32 (in_e x);
  io_full : u32 (in_w x - in_r x) + u32 (in_e x - in_w x) <= INPUT_BUF;
  io_line : newline ∉ line x
}.

(** The specification: [(cm, ln)] after one character. *)
Definition edit (c : Z) (st : list Z * list Z) : list Z * list Z :=
  let '(cm, ln) := st in
  if c =? C "P" then (cm, ln)
  else if c =? C "U" then (cm, [])
  else if (c =? C "H") || (c =? 0x7f) then (cm, removelast ln)
  else if (c =? 0) || (INPUT_BUF <=? Z.of_nat (length cm + length ln)) then (cm, ln)
  else
    let c := if c =? 13 then newline else c in
    if (c =? newline) || (c =? C "D") || (Z.of_nat (length cm + length ln) + 1 =? INPUT_BUF)
    then (cm ++ ln ++ [c], []) else (cm, ln ++ [c]).

Lemma in_mod x : u32 x mod INPUT_BUF = x mod INPUT_BUF.
Proof. apply u32_mod. by exists (2^25). Qed.

Section input.
Context (x : input_t) (Hx : input_ok x).
Let nw := u32 (in_w x - in_r x).
Let ne := u32 (in_e x - in_w x).

Lemma in_sizes : length (committed x) = Z.to_nat nw /\ length (line x) = Z.to_nat ne /\
  0 <= nw /\ 0 <= ne /\ nw + ne <= INPUT_BUF /\ u32 (in_e x - in_r x) = nw + ne.
Proof.
  destruct Hx as [_ Hr Hw He Hf _]. pose proof (u32_range (in_w x - in_r x)). pose proof (u32_range (in_e x - in_w x)).
  unfold committed, line, in_count. rewrite !length_ring. split; [done|]. split; [done|].
  fold nw ne in Hf. unfold in_u32 in *. fold nw ne. split; [lia|]. split; [lia|]. split; [done|].
  unfold nw, ne in *. rewrite !u32_diff in * by done. unfold INPUT_BUF in Hf. repeat case_match; lia.
Qed.

Lemma in_e_mod : in_e x mod INPUT_BUF = (in_w x + Z.of_nat (Z.to_nat ne)) mod INPUT_BUF.
Proof.
  destruct in_sizes as (_ & _ & _ & ? & _). rewrite Z2Nat.id by done.
  rewrite (u32_dist (in_e x) (in_w x)) at 1 by apply Hx. apply in_mod.
Qed.

(** The last character of the line. *)
Lemma line_snoc : 0 < ne -> line x = removelast (line x) ++ [in_at (u32 (in_e x - 1)) x] /\
  line (x <| in_e := u32 (in_e x - 1) |>) = removelast (line x) /\
  u32 (u32 (in_e x - 1) - in_w x) = ne - 1.
Proof.
  intros Hne. destruct Hx as [_ _ Hw He _ _].
  assert (Hd : u32 (u32 (in_e x - 1) - in_w x) = ne - 1).
  { unfold u32 at 1 2. rewrite Zminus_mod_idemp_l. replace (in_e x - 1 - in_w x) with (in_e x - in_w x - 1) by lia.
    rewrite <-Zminus_mod_idemp_l. fold (u32 (in_e x - in_w x)). fold ne. apply Z.mod_small.
    pose proof (u32_range (in_e x - in_w x)) as H. unfold in_u32 in H. fold ne in H. lia. }
  assert (Hl : line (x <| in_e := u32 (in_e x - 1) |>) = ring INPUT_BUF (in_buf x) (in_w x) (Z.to_nat (ne - 1))).
  { unfold line, in_count. simpl. by rewrite Hd. }
  assert (Hs : line x = ring INPUT_BUF (in_buf x) (in_w x) (Z.to_nat (ne - 1)) ++ [in_at (u32 (in_e x - 1)) x]).
  { unfold line, in_count. fold ne. replace (Z.to_nat ne) with (S (Z.to_nat (ne - 1))) by lia.
    rewrite ring_snoc. do 2 f_equal. unfold in_at. do 3 f_equal. rewrite Z2Nat.id, in_mod by lia.
    replace (in_w x + (ne - 1)) with (in_w x + ne - 1) by lia.
    rewrite <-(Zminus_mod_idemp_l (in_e x)), <-(Zminus_mod_idemp_l (in_w x + ne)). do 2 f_equal.
    rewrite in_e_mod. rewrite Z2Nat.id by lia. done. }
  rewrite Hl, Hs, removelast_last. done.
Qed.

Lemma rubout_ok : 0 < ne -> input_ok (x <| in_e := u32 (in_e x - 1) |>) /\
  committed (x <| in_e := u32 (in_e x - 1) |>) = committed x.
Proof.
  intros Hne. destruct (line_snoc Hne) as (Hs & Hl & Hd). destruct in_sizes as (_ & _ & _ & _ & Hf & _).
  split; [|done]. pose proof Hx as [Hb Hr Hw He _ Hn]. split; simpl; try done; [apply u32_range| |].
  - rewrite Hd. fold nw. lia.
  - rewrite Hl. rewrite Hs in Hn. set_solver.
Qed.

(** A character at the end of the line. *)
Definition typed (c : Z) : input_t :=
  x <| in_buf ::= <[Z.to_nat (in_e x mod INPUT_BUF) := c]> |> <| in_e := u32 (in_e x + 1) |>.

Lemma typed_spec c : nw + ne < INPUT_BUF -> committed (typed c) = committed x /\ line (typed c) = line x ++ [c] /\
  u32 (u32 (in_e x + 1) - in_w x) = ne + 1 /\ length (in_buf (typed c)) = length (in_buf x).
Proof.
  intros Hlt. destruct in_sizes as (_ & _ & Hw0 & He0 & _ & Hsum). pose proof in_e_mod as Hm.
  assert (Hd : u32 (u32 (in_e x + 1) - in_w x) = ne + 1).
  { unfold u32 at 1 2. rewrite Zminus_mod_idemp_l. replace (in_e x + 1 - in_w x) with (in_e x - in_w x + 1) by lia.
    rewrite <-Zplus_mod_idemp_l. fold (u32 (in_e x - in_w x)). fold ne. apply Z.mod_small.
    unfold INPUT_BUF in Hlt. lia. }
  assert (Hr : in_e x mod INPUT_BUF = (in_r x + (nw + ne)) mod INPUT_BUF).
  { rewrite <-Hsum. rewrite (u32_dist (in_e x) (in_r x)) at 1 by apply Hx. apply in_mod. }
  split; [|split; [|split; [done|apply length_insert]]].
  - unfold committed, typed, in_count. simpl. fold nw. apply (ring_insert INPUT_BUF ltac:(done) _ _ _ (nw + ne)); [done|lia].
  - unfold line, typed, in_count. simpl. rewrite Hd. fold ne.
    replace (Z.to_nat (ne + 1)) with (S (Z.to_nat ne)) by lia. apply ring_push; [done|apply Hx|done|lia].
Qed.

(** Committing the line. *)
Lemma commit_spec : committed (x <| in_w := in_e x |>) = committed x ++ line x /\
  line (x <| in_w := in_e x |>) = [].
Proof.
  destruct in_sizes as (_ & _ & Hw0 & He0 & _ & Hsum). unfold committed, line, in_count. simpl.
  rewrite Hsum, Z.sub_diag. split; [|done]. fold nw ne. rewrite Z2Nat.inj_add, ring_app by done. f_equal.
  apply ring_ext; [done|]. rewrite Z2Nat.id by done. symmetry.
  rewrite (u32_dist (in_w x) (in_r x)) by apply Hx. fold nw. apply in_mod.
Qed.
End input.

Lemma counters_eq a b : in_u32 a -> in_u32 b -> (a =? b) = (u32 (a - b) =? 0).
Proof.
  intros Ha Hb. apply eq_true_iff_eq. rewrite !Z.eqb_eq, u32_diff by done. unfold in_u32 in *.
  destruct (Z.leb_spec b a); lia.
Qed.

Lemma line_empty x : input_ok x -> (in_e x =? in_w x) = bool_decide (line x = []).
Proof.
  intros Hx. destruct (in_sizes x Hx) as (_ & Hl & _ & ? & _). rewrite counters_eq by apply Hx.
  apply eq_true_iff_eq. rewrite Z.eqb_eq, bool_decide_eq_true. split.
  - intros E. rewrite E in Hl. by apply length_zero_iff_nil.
  - intros E. rewrite E in Hl. simpl in Hl. lia.
Qed.

(** What no key changes but by waking readers. *)
Definition con_frame (s s' : kst) : Prop := klk s' = klk s /\ ptab s' = ptab s.

Section keys.
Context (Out In : kst -> Prop).

Lemma wp_rubout s x (Q : unit -> kst -> Prop) :
  input (fss s) = x -> input_ok x -> line x <> [] ->
  (forall s' x', input (fss s') = x' -> input_ok x' -> committed x' = committed x ->
    line x' = removelast (line x) -> con_frame s s' -> Q tt s') ->
  wp Out In Q (rubout s).
Proof.
  intros <- Hx Hne HQ. set (x := input (fss s)) in *. destruct (in_sizes x Hx) as (_ & Hl & _ & ? & _).
  assert (0 < u32 (in_e x - in_w x)) by (destruct (line x); [done|simpl in Hl; lia]).
  destruct (rubout_ok x Hx) as [Ho Hc]; [done|]. destruct (line_snoc x Hx) as (_ & Hs & _); [done|].
  unfold rubout. apply exec_bind. cbn [upd_input fsmod modify exec consputc].
  eapply (HQ _ (x <| in_e := u32 (in_e x - 1) |>)); [reflexivity|done..|by split].
Qed.

Lemma wp_kill_line fuel s x (Q : unit -> kst -> Prop) :
  input (fss s) = x -> input_ok x -> (length (line x) <= fuel)%nat ->
  (forall s' x', input (fss s') = x' -> input_ok x' -> committed x' = committed x ->
    line x' = [] -> con_frame s s' -> Q tt s') ->
  wp Out In Q (kill_line fuel s).
Proof.
  revert s x. induction fuel as [|fuel IH]; intros s x E Hx Hf HQ; cbn [kill_line]; apply exec_bind;
    cbn [fsget gets exec]; rewrite E, line_empty by done; destruct (line x) as [|c ln] eqn:El;
    try (simpl in Hf; lia); rewrite ?(bool_decide_true _ eq_refl); cbn [negb andb mret M_ret exec];
    try by eapply HQ.
  rewrite bool_decide_false by done. cbn [negb andb].
  destruct (in_sizes x Hx) as (_ & Hl & _ & ? & _). rewrite El in Hl. simpl in Hl.
  destruct (line_snoc x Hx) as (Hs & _ & _); [lia|].
  assert (Hn : in_at (u32 (in_e x - 1)) x <> newline).
  { intros En. apply (io_line x Hx). rewrite Hs, En. set_solver. }
  rewrite (proj2 (Z.eqb_neq _ _)) by done. cbn [negb]. apply exec_bind.
  eapply wp_rubout; [exact E|done|by rewrite El|]. intros s1 x1 E1 Hx1 Hc1 Hl1 [K1 P1].
  eapply IH; [exact E1|done| |].
  - rewrite Hl1, El. assert (Hr : length (removelast (c :: ln)) = length ln).
    { rewrite removelast_firstn_len, length_firstn. simpl. lia. }
    rewrite Hr. simpl in Hf. lia.
  - intros s2 x2 E2 Hx2 Hc2 Hl2 [K2 P2]. eapply HQ; [exact E2|done|by rewrite Hc2|done|].
    split; congruence.
Qed.
End keys.

Lemma input_ok_commit x : input_ok x -> input_ok (x <| in_w := in_e x |>).
Proof.
  intros Hx. destruct (in_sizes x Hx) as (_ & _ & ? & ? & ? & Hs). destruct (commit_spec x Hx) as [_ Hl].
  destruct Hx as [Hb Hr Hw He Hf Hn]. split; simpl; try done; [|rewrite Hl; set_solver].
  rewrite Z.sub_diag. change (u32 0) with 0. lia.
Qed.

Lemma input_ok_typed x c : input_ok x -> u32 (in_w x - in_r x) + u32 (in_e x - in_w x) < INPUT_BUF ->
  c <> newline -> input_ok (typed x c).
Proof.
  intros Hx Hlt Hc. destruct (typed_spec x Hx c Hlt) as (Ht & Hl & Hd & Hlen).
  destruct Hx as [Hb Hr Hw He Hf Hn]. split; [by rewrite Hlen|done|done|apply u32_range| |rewrite Hl; set_solver].
  change (u32 (in_w x - in_r x) + u32 (u32 (in_e x + 1) - in_w x) <= INPUT_BUF). rewrite Hd. lia.
Qed.

(** [typed] then committed, newline or not. *)
Lemma typed_commit x c : input_ok x -> u32 (in_w x - in_r x) + u32 (in_e x - in_w x) < INPUT_BUF ->
  let y := (typed x c) <| in_w := in_e (typed x c) |> in
  input_ok y /\ committed y = committed x ++ line x ++ [c] /\ line y = [].
Proof.
  intros Hx Hlt y. destruct (typed_spec x Hx c Hlt) as (Ht & Hl & Hd & Hlen).
  destruct (in_sizes x Hx) as (Hlc & Hll & Hw0 & He0 & Hf & Hs). pose proof Hx as [Hb Hr Hw He _ Hn].
  assert (Hc : u32 (in_e y - in_r y) = u32 (in_w x - in_r x) + (u32 (in_e x - in_w x) + 1)).
  { unfold y, typed. simpl. unfold u32 at 1 2. rewrite Zminus_mod_idemp_l.
    replace (in_e x + 1 - in_r x) with (in_e x - in_r x + 1) by lia. rewrite <-Zplus_mod_idemp_l.
    fold (u32 (in_e x - in_r x)). rewrite Hs. rewrite Z.mod_small; unfold INPUT_BUF in *; lia. }
  assert (Hline : line y = []) by (unfold y, line, in_count; simpl; by rewrite Z.sub_diag).
  assert (Hcom : committed y = committed x ++ line x ++ [c]).
  { unfold committed at 1. unfold in_count. change (in_w y) with (in_e y). rewrite Hc.
    rewrite Z2Nat.inj_add, ring_app by lia. f_equal.
    - rewrite <-Ht. done.
    - rewrite <-Hl. unfold line, in_count. change (in_e (typed x c)) with (u32 (in_e x + 1)).
      change (in_w (typed x c)) with (in_w x). rewrite Hd.
      apply ring_ext; [done|]. rewrite Z2Nat.id by lia. symmetry.
      rewrite (u32_dist (in_w x) (in_r x)) at 1 by done. apply in_mod. }
  split; [|by split]. split; [by rewrite <-Hb, <-Hlen|done|apply u32_range|apply u32_range| |].
  - change (in_w y) with (in_e y) at 1. rewrite Hc. change (in_w y) with (in_e y). rewrite Z.sub_diag.
    change (u32 0) with 0. lia.
  - rewrite Hline. set_solver.
Qed.

Section chars.
Context (Out In : kst -> Prop) (s : kst) (i : nat) (n : Z) (H : gset lockid) (x : input_t).
Hypothesis HL : lctx (klk s) i n H.
Hypothesis Hpt : ptable_lock ∉ H.
Hypothesis Ht : tickslock ∉ H.
Hypothesis Hlen : length (ptab s) = NPROC.
Hypothesis E : input (fss s) = x.
Hypothesis Hx : input_ok x.

(** The state after a key has done [st] to the input. *)
Definition con_post (st : list Z * list Z) (s' : kst) : Prop :=
  input_ok (input (fss s')) /\ (committed (input (fss s')), line (input (fss s'))) = st /\ lctx (klk s') i n H.

Lemma wp_in_char c (Q : unit -> kst -> Prop) :
  0 <= c < 256 -> c <> C "P" -> c <> C "U" -> c <> C "H" -> c <> 0x7f ->
  (forall s', con_post (edit c (committed x, line x)) s' -> Q tt s') -> wp Out In Q (in_char c s).
Proof.
  intros Hc H1 H2 H3 H4 HQ. destruct (in_sizes x Hx) as (Hlc & Hll & Hw0 & He0 & Hf & Hs).
  remember (edit c (committed x, line x)) as st eqn:Hed. unfold edit in Hed.
  rewrite (proj2 (Z.eqb_neq c (C "P"))), (proj2 (Z.eqb_neq c (C "U"))), (proj2 (Z.eqb_neq c (C "H"))),
    (proj2 (Z.eqb_neq c 0x7f)) in Hed by done. cbn [orb] in Hed. rewrite Nat2Z.inj_add, Hlc, Hll, !Z2Nat.id in Hed by done.
  unfold in_char. apply exec_bind. cbn [fsget gets exec]. rewrite E, Hs.
  destruct (Z.eqb_spec c 0) as [->|Hc0]; [apply HQ; rewrite Hed; split; [by rewrite E|by rewrite E]|].
  cbn [orb negb andb] in Hed |- *. set (m := u32 (in_w x - in_r x) + u32 (in_e x - in_w x)) in *.
  destruct (Z.ltb_spec m INPUT_BUF) as [Hlt|Hge].
  2: { rewrite (proj2 (Z.leb_le _ _)) in Hed by lia. apply HQ. rewrite Hed. split; [by rewrite E|by rewrite E]. }
  rewrite (proj2 (Z.leb_gt _ _)) in Hed by lia. set (c' := if c =? 13 then newline else c) in *.
  assert (Hc' : 0 <= c' < 256) by (unfold c', newline; destruct (c =? 13); lia).
  assert (Hland : Z.land c' 0xff = c') by (rewrite land_0xFF; apply Z.mod_small; lia).
  rewrite Hland. apply exec_bind. cbn [upd_input fsmod modify exec]. apply exec_bind. cbn [consputc modify exec].
  apply exec_bind. cbn [fsget gets exec]. set (s1 := (s <| fss ::= _ |>) <| screen ::= _ |>).
  assert (E1 : input (fss s1) = typed x c') by (by rewrite <-E). rewrite E1.
  assert (Hfull : (in_e (typed x c') =? u32 (in_r (typed x c') + INPUT_BUF)) = (m + 1 =? INPUT_BUF)).
  { change (in_e (typed x c')) with (u32 (in_e x + 1)). change (in_r (typed x c')) with (in_r x).
    rewrite (u32_dist (in_e x) (in_r x)) at 1 by apply Hx. rewrite Hs. fold m.
    unfold u32 at 1 2. rewrite Zplus_mod_idemp_l. fold (u32 (in_r x + m + 1)).
    apply eq_true_iff_eq. rewrite !Z.eqb_eq. replace (in_r x + m + 1) with (in_r x + (m + 1)) by lia.
    pose proof (io_r _ Hx) as Hr. rewrite !u32_add by (try done; unfold INPUT_BUF in *; lia).
    unfold in_u32, INPUT_BUF in *. repeat case_match; lia. }
  rewrite Hfull. destruct ((c' =? newline) || (c' =? C "D") || (m + 1 =? INPUT_BUF)) eqn:Eb; cbn [mwhen].
  - destruct (typed_commit x c' Hx Hlt) as (Ho & Hcm & Hln). apply exec_bind. cbn [upd_input fsmod modify exec].
    set (s2 := s1 <| fss ::= _ |>). assert (E2 : input (fss s2) = (typed x c') <| in_w := in_e (typed x c') |>).
    { unfold s2. by rewrite <-E1. }
    eapply (wp_wakeup _ _ s2); [exact HL|done|done|exact Hlen|]. intros s3 (L3 & R3 & _).
    assert (fss s3 = fss s2) as F3 by (unfold rest in R3; congruence). apply HQ. split; rewrite F3, E2; [done|].
    split; [|done]. by rewrite Hcm, Hln, Hed.
  - apply orb_false_iff in Eb as [[Eb _]%orb_false_iff _]. apply Z.eqb_neq in Eb.
    destruct (typed_spec x Hx c' Hlt) as (Hcm & Hln & _). cbn [mret M_ret exec].
    apply HQ. split; rewrite E1; [by apply input_ok_typed|]. split; [|exact HL]. by rewrite Hcm, Hln, Hed.
Qed.
End chars.

(** C22: Every input character does to the console's buffer what line editing says:
    erase the last character, kill the line, or append to it; a newline, ^D or a
    full buffer commits the line. The buffer's counters stay consistent, also when
    they wrap around, and nothing committed is lost. *)
Theorem console_char_refines (s : kst) (i : nat) (n : Z) (H : gset lockid) (c : Z)
    (HL : lctx (klk s) i n H) (Hpt : ptable_lock ∉ H) (Ht : tickslock ∉ H)
    (Hlen : length (ptab s) = NPROC) (Hx : input_ok (input (fss s))) (Hc : 0 <= c < 256) :
  exists s', console_char c s = Ret (c =? C "P") s' /\ lctx (klk s') i n H /\
    input_ok (input (fss s')) /\
    (committed (input (fss s')), line (input (fss s'))) =
      edit c (committed (input (fss s)), line (input (fss s))).
Proof.
  set (x := input (fss s)) in *.
  edestruct (wp_returns (fun _ => True) (fun b s' => b = (c =? C "P") /\
    con_post i n H (edit c (committed x, line x)) s') (console_char c s)) as (b & s' & Er & -> & Ho & Hed & L);
    [|exists s'; split; [exact Er|]; split; [exact L|]; split; [exact Ho|exact Hed]].
  unfold console_char. destruct (Z.eqb_spec c (C "P")) as [->|HP].
  { split; [done|]. split; [done|]. split; [done|exact HL]. }
  destruct (Z.eqb_spec c (C "U")) as [->|HU].
  { apply exec_bind. destruct (in_sizes x Hx) as (_ & Hll & ? & ? & Hf & _).
    eapply (wp_kill_line _ _ _ s x); [done|done|rewrite Hll; unfold INPUT_BUF in *; lia|].
    intros s' x' <- Hx' Hcm Hln [K _]. split; [done|]. split; [done|].
    split; [by rewrite Hcm, Hln|]. by rewrite K. }
  destruct ((c =? C "H") || (c =? 0x7f)) eqn:EH.
  { assert (Hed : edit c (committed x, line x) = (committed x, removelast (line x))).
    { unfold edit. by rewrite (proj2 (Z.eqb_neq c (C "P"))), (proj2 (Z.eqb_neq c (C "U"))), EH by done. }
    rewrite Hed. apply exec_bind. cbn [fsget gets exec]. fold x. rewrite line_empty by done.
    apply exec_bind. destruct (decide (line x = [])) as [El|El].
    - rewrite bool_decide_true by done. cbn [negb mwhen mret M_ret exec]. split; [done|]. split; [done|].
      split; [|exact HL]. fold x. by rewrite El.
    - rewrite bool_decide_false by done. cbn [negb mwhen]. eapply (wp_rubout _ _ s x); [done|done|done|].
      intros s' x' <- Hx' Hcm Hln [K _]. split; [done|]. split; [done|]. split; [by rewrite Hcm, Hln|]. by rewrite K. }
  apply orb_false_iff in EH as [EH1%Z.eqb_neq EH2%Z.eqb_neq]. apply exec_bind.
  eapply (wp_in_char _ _ s i n H x); done.
Qed.

(** The buffer of the sample machine with two committed characters and an edited
    one, at the wrap-around of the counters. *)
Definition sample_input : input_t :=
  Input (<[127%nat := 108]> (<[0%nat := 10]> (<[1%nat := 120]> (replicate 128 0)))) (2^32 - 1) 1 2.
Definition sample_console : kst := (sample 1) <| fss := fsst0 <| input := sample_input |> |>.

Lemma console_char_refines_witness :
  exists s', console_char (C "H") sample_console = Ret false s' /\ lctx (klk s') 1 0 ∅ /\
    input_ok (input (fss s')) /\ (committed (input (fss s')), line (input (fss s'))) = ([108; 10], []).
Proof.
  apply (console_char_refines sample_console 1 0 ∅ (C "H") (sample_lctx 1 1 eq_refl)).
  - set_solver.
  - set_solver.
  - vm_compute. reflexivity.
  - split; unfold in_u32; try (vm_compute; intuition (discriminate || reflexivity)).
    change (line (input (fss sample_console))) with [120]. set_solver.
  - vm_compute. intuition (discriminate || reflexivity).
Defined.
