(* ===== verification/ArgSpec.v ===== *)
(** The border between user programs and the kernel: pointers that pass the checks
    of syscall.c lie in the caller's memory, and unknown calls are refused. *)
From stdpp Require Import base tactics list numbers strings gmap.
From S2P Require Import Prelude CString FsTypes State Spinlock Console Kalloc Vm Sched Process Args Sysproc Trap SchedInv Sample SchedOps Policy Dispatch Calls MemSpec VmOps VmSpec SysfileOps.

#[local] Open Scope Z_scope.

(** ** Reading arguments changes nothing *)
Lemma lk_only_fault {A} msg : lk_only (fault (A:=A) msg).
Proof. done. Qed.
#[export] Hint Resolve lk_only_fault : lockdb.

Lemma lk_only_walk pg va : lk_only (walkpgdir pg va false).
Proof. unfold walkpgdir, load32. cbn [negb]. lk_walk. Qed.
#[export] Hint Resolve lk_only_walk : lockdb.
Lemma lk_only_uload8 pg va : lk_only (uload8 pg va).
Proof. unfold uload8, uaddr, load32. lk_walk. Qed.
#[export] Hint Resolve lk_only_uload8 : lockdb.
Lemma lk_only_uload32 pg va : lk_only (uload32 pg va).
Proof. unfold uload32. lk_walk. Qed.
Lemma lk_only_curproc : lk_only curproc.
Proof. unfold curproc, deref. lk_walk. Qed.
Lemma lk_only_proc_at j : lk_only (proc_at j).
Proof. unfold proc_at. lk_walk. Qed.
#[export] Hint Resolve lk_only_uload32 lk_only_curproc lk_only_proc_at : lockdb.
Lemma lk_only_argint n : lk_only (argint n).
Proof. unfold argint, fetchint. lk_walk. Qed.
#[export] Hint Resolve lk_only_argint : lockdb.

Lemma curproc_eq s i n H j : lctx (klk s) i n H -> cur (klk s) = Some j ->
  exists l, curproc s = Ret j (s <| klk := l |>) /\ lctx l i n H /\ lk_static l = lk_static (klk s).
Proof.
  intros HL Hc. destruct (cpu_ok_myproc s i n) as (l & E & C1 & S1 & K1); [by destruct HL|].
  exists l. unfold curproc. rewrite (bind_ret _ _ _ _ _ E), Hc. split; [done|].
  split; [by eapply lctx_same_locks|done].
Qed.

(** ** argptr *)

(** C33: A pointer that [argptr] accepts, with the size asked for, is a range of the
    caller's own memory: no wrap-around, nothing beyond [sz], hence nothing of the
    kernel's. Reading the arguments changes no state. *)
Theorem argptr_in_memory (s s' : kst) (i : nat) (n : Z) (H : gset lockid) (j : nat) (k size a : Z)
    (HL : lctx (klk s) i n H) (Hj : cur (klk s) = Some j) (Hsz : 0 <= sz (ptab s !!! j) <= KERNBASE)
    (Hs : in_i32 size) (Hr : argptr k size s = Ret (Some a) s') :
  0 <= a /\ 0 <= size /\ a + size <= sz (ptab s !!! j) /\ ptab s' = ptab s /\ mem s' = mem s.
Proof.
  unfold argptr in Hr. destruct (curproc_eq s i n H j HL Hj) as (l & E & _ & _).
  rewrite (bind_ret _ _ _ _ _ E) in Hr. set (s1 := s <| klk := l |>) in *.
  pose proof (lk_only_argint k s1) as Ha. destruct (argint k s1) as [r s2| | | | |] eqn:E2;
    try (unfold mbind, M_bind in Hr; rewrite E2 in Hr; done).
  rewrite (bind_ret _ _ _ _ _ E2) in Hr. destruct Ha as (l2 & -> & _). destruct r as [v|]; [|done].
  rewrite (bind_ret _ _ _ (ptab s !!! j) (s1 <| klk := l2 |>)) in Hr by done.
  destruct ((size <? 0) || _ || _) eqn:Eb; [done|]. injection Hr as <- <-.
  apply orb_false_iff in Eb as [[E1 Ev]%orb_false_iff Ee]. apply Z.ltb_ge in E1. apply Z.leb_gt in Ev.
  apply Z.ltb_ge in Ee. pose proof (u32_range v) as Hv. unfold in_u32, in_i32, KERNBASE in *.
  rewrite u32_small in Ee by (unfold in_u32; lia). split; [lia|]. split; [done|]. split; [lia|]. done.
Qed.

(** A process whose first page is mapped, with an argument on its stack. *)
Definition sample_args : kst :=
  (sample 1) <| mem := st32 (st32 (st32 ∅ (pg 5) (V2P (pg 6) + 7)) (pg 6) (V2P (pg 8) + 7)) (pg 8 + 0x14) 0x20 |>
    <| ptab ::= alter (fun p => p <| State.pgdir := pg 5 |> <| State.sz := 4096 |>
         <| tframe := zero_trapframe <| esp := 0x10 |> |>) 5%nat |>.

Lemma argptr_in_memory_witness :
  let s' := state_of (argptr 0 16 sample_args) in
  0 <= 0x20 /\ 0 <= 16 /\ 0x20 + 16 <= sz (ptab sample_args !!! 5%nat) /\
  ptab s' = ptab sample_args /\ mem s' = mem sample_args.
Proof.
  intros s'. apply (argptr_in_memory sample_args s' 1 0 ∅ 5 0 16 0x20 (sample_lctx 1 1 eq_refl)).
  - vm_compute. reflexivity.
  - vm_compute. split; discriminate.
  - unfold in_i32. lia.
  - vm_compute. reflexivity.
Defined.

(** ** syscall *)
Section syscall.
Context {F : FileSys} {SF : SysFiles}.

Lemma syscalls_none fuel num : num < 1 \/ num = 22 \/ num = 24 \/ 28 < num -> syscalls fuel num = None.
Proof.
  intros Hn. destruct num as [|p|p]; [done| |done].
  do 5 (destruct p as [p|p|]; try done; try lia).
Qed.

(** A system-call number without an entry in the table is refused: the caller
    gets -1, a message is printed, and no other state changes. *)
Theorem syscall_unknown (s : kst) (i : nat) (n : Z) (H : gset lockid) (j fuel : nat)
    (HL : lctx (klk s) i n H) (Hc : cons_lock ∉ H) (Hj : cur (klk s) = Some j)
    (Hnum : let num := i32 (eax (tframe (ptab s !!! j))) in num < 1 \/ num = 22 \/ num = 24 \/ 28 < num) :
  exists s', syscall fuel s = Ret tt s' /\ lctx (klk s') i n H /\ rest s' = rest s /\
    ptab s' = alter (fun p => p <| tframe ::= fun t => t <| eax := 2^32 - 1 |> |>) j (ptab s).
Proof.
  destruct (curproc_eq s i n H j HL Hj) as (l & E & L & _).
  match goal with |- exists s', _ = _ /\ @?P s' =>
    destruct (wp_returns (fun _ => True) (fun _ s' => P s') (syscall fuel s)) as ([] & s' & Er & HQ);
      [|exists s'; by split] end.
  unfold syscall. rewrite (bind_ret _ _ _ _ _ E). set (s1 := s <| klk := l |>).
  rewrite (bind_ret _ _ _ (ptab s !!! j) s1) by done. rewrite syscalls_none by done. apply exec_bind.
  eapply (wp_cprintf _ _ s1); [exact L|done|reflexivity|]. intros l2 L2 _.
  cbn [set_eax upd_proc modify exec]. split; [exact L2|]. by split.
Qed.
End syscall.

(** The process asks for call 24. *)
Definition sample_call : kst :=
  (sample 1) <| ptab ::= alter (fun p => p <| tframe := zero_trapframe <| eax := 24 |> |>) 5%nat |>.

Lemma syscall_unknown_witness :
  exists s', syscall (F := fs_impl (H := 0%nat)) (SF := sysfile_impl (H := 0%nat)) 0 sample_call = Ret tt s' /\
    lctx (klk s') 1 0 ∅ /\ rest s' = rest sample_call /\
    ptab s' = alter (fun p => p <| tframe ::= fun t => t <| eax := 2^32 - 1 |> |>) 5%nat (ptab sample_call).
Proof.
  apply (syscall_unknown (F := fs_impl (H := 0%nat)) (SF := sysfile_impl (H := 0%nat)) sample_call 1 0 ∅ 5 0
    (sample_lctx 1 1 eq_refl)).
  - set_solver.
  - vm_compute. reflexivity.
  - right. right. left. vm_compute. reflexivity.
Defined.
