(* ===== verification/Main.v ===== *)
(** Starting the machine: main.c, [tvinit] of trap.c.

    The calls that only program the interrupt controllers and the segment
    registers ([lapicinit], [seginit], [picinit], [ioapicinit], [idtinit],
    [lapicstartap]) leave no trace in the state and are left out, as is
    [mpinit]: the processors it finds are in the initial state. A processor that was
    started runs [mpmain] on its own, so the wait for it is left to the
    interleaving. *)
From stdpp Require Import base tactics list numbers strings gmap.
From S2P Require Import Prelude CString FsTypes State Spinlock Console Kalloc Vm Sched Process Sleeplock Ide Bio File ConsoleDev.

#[local] Open Scope Z_scope.

(** ** trap.c *)
Definition tvinit : K unit := initlock tickslock "time".

(** Where the linker put the images of the boot code, the entry point [mpenter]
    and the boot page table. *)
Record image := Image {
  entryother_start : Z; entryother_size : Z;
  initcode_start : Z; initcode_size : Z;
  mpenter_addr : Z; entrypgdir_addr : Z
}.

Section main.
Context {F : FileSys} (img : image).

(** ** main.c *)
Definition startothers : K unit :=
  let code := P2V 0x7000 in
  set_mem (fun m => memmove m code (entryother_start img) (entryother_size img));;
  n ← gets (fun s => ncpu (klk s));
  for_all (seq 0 n) (fun c =>
    me ← mycpu;
    mwhen (negb (c =? me)%nat)
      (stack ← kalloc;
       store32 (code - 4) (u32 (stack + KSTACKSIZE));;
       store32 (code - 8) (mpenter_addr img);;
       store32 (code - 12) (V2P (entrypgdir_addr img)))).

(** [main] up to [mpmain]; [present] is whether disk 1 answers. *)
Definition main (present : bool) : K unit :=
  e ← gets sym_end;
  kinit1 e (P2V (4 * 1024 * 1024));;
  kvmalloc;;
  consoleinit;;
  pinit;;
  tvinit;;
  binit;;
  fileinit;;
  ideinit present;;
  startothers;;
  kinit2 (P2V (4 * 1024 * 1024)) (P2V PHYSTOP);;
  userinit (initcode_start img) (initcode_size img).

(** [mpmain] up to the scheduler's loop. *)
Definition mpmain : K nat :=
  i ← cpuid;
  cprintf ("cpu%d: starting %d" +:+ nl) [AInt i; AInt i];;
  c ← mycpu;
  upd_cpu c (fun x => x <| started := true |>);;
  scheduler_start.

(** A started processor enters here. *)
Definition mpenter : K nat := switchkvm;; mpmain.
End main.
