(* ===== verification/System.v ===== *)
(** The running kernel as a transition system, and the invariant of all states it
    can reach.

    A configuration is the kernel's state and, for every process that has left
    its CPU inside the kernel, the rest of its kernel thread. A step is one of
    - another CPU executes,
    - the boot processor runs [main], a processor runs [mpmain],
    - a trap (interrupt or system call) on the executing CPU, up to its return or
      to the [swtch] back to the scheduler; the devices hold arbitrary input,
    - the system call that changes a process's level, under its condition,
    - a turn of the scheduler: choosing, and running the chosen kernel thread up
      to its return to user mode or its next [swtch].
    Kernel code between these points holds the locks of what it changes, so a step
    is taken as a whole. Panics, faults and spinning CPUs have no next step. *)
From stdpp Require Import base tactics list numbers strings gmap relations.
From S2P Require Import Prelude CString FsTypes State Spinlock Console Kalloc Vm Sched Process Args Sysproc Trap Sleeplock Ide Bio Log Fs Pipe File ConsoleDev Kbd Exec Sysfile SchedInv Sample SchedOps ProcessOps TrapOps FsOps SysfileOps Policy Dispatch Main.

#[local] Open Scope Z_scope.

Definition thread : Type := kst -> outcome kst unit.
Definition config : Type := kst * gmap nat thread.

(** [swtch] saves the context of the process: it will not start at [forkret]. *)
Definition saved (j : nat) (s : kst) : kst :=
  s <| ptab ::= alter (fun p => p <| ctx ::= fun c => c <| c_eip := code_null |> |>) j |>.

(** The kernel's bss: no process, no CPU busy. *)
Definition boot_state (l : lstate) (e d : Z) : kst := {|
  klk := l; ptab := replicate NPROC proc0; count_edf := 0; count_rr := 0; count_fcfs := 0;
  nextpid := 1; initproc := None; first := true; ticks := 0; cons_locking := false;
  screen := []; use_lock := false; freelist := 0; kpgdir := 0; mem := ∅;
  sym_end := e; sym_data := d; fss := fsst0 |}.
Definition cpus_idle (l : lstate) : Prop :=
  forall c, c ∈ cpus l -> cpu_proc c = None /\ nextrrp c = 0%nat.

(** The whole kernel: traps and the first return of a process, with the file
    system and the devices of the sources; [fl] bounds the wakeups that are
    followed, [d] is what the devices hold. *)
Definition ktrap (fl : nat) (d : devin) (t : trapframe) (cr2 : Z) : K unit :=
  let _ : Fuel := fl in trap (D := dev_impl d) fl t cr2.

(** The gates that [tvinit] sets up: an interrupt gate turns interrupts off, the
    system call's trap gate does not; [iret] at the end restores the flag that was
    saved in the trap frame. *)
Definition through_gate (t : trapframe) (m : K unit) : K unit :=
  mwhen (negb (trapno t =? T_SYSCALL)) cli;;
  m;;
  set_IF (negb (Z.land (eflags t) FL_IF =? 0)).
Definition kforkret (fl : nat) : K unit := let _ : Fuel := fl in forkret.
Definition kmain (fl : nat) (img : image) (present : bool) : K unit :=
  let _ : Fuel := fl in main img present.

(** The kernel thread that [swtch] into process [j] continues. *)
Definition resume (fl : nat) (ks : gmap nat thread) (j : nat) (s : kst) : outcome kst unit :=
  match c_eip (ctx (ptab s !!! j)) with
  | code_forkret => kforkret fl s
  | _ => match ks !! j with Some k => k s | None => Fault "no saved thread" s end
  end.

(** What becomes of the machine when code running for [o] stops: it returned, or
    it left the CPU and the scheduler took over. *)
Inductive after (ks : gmap nat thread) (o : option nat) : outcome kst unit -> config -> Prop :=
| after_ret s : after ks o (Ret tt s) (s, ks)
| after_swtch s k j c s' :
    o = Some j -> this_cpu (klk s) = Some c ->
    scheduler_back c (saved j s) = Ret tt s' ->
    after ks o (Swtch s k) (s', <[j := k]> ks).

Inductive step : config -> config -> Prop :=
| step_cpu s ks h :
    step (s, ks) (s <| klk ::= fun l => l <| here := h |> |>, ks)
| step_main s ks fl img present s' :
    nextpid s = 1 -> cur (klk s) = None ->
    kmain fl img present s = Ret tt s' ->
    step (s, ks) (s', ks)
| step_mpmain s ks c s' :
    cur (klk s) = None -> mpmain s = Ret c s' ->
    step (s, ks) (s', ks)
| step_trap s ks fl d t cr2 cfg :
    call_ok s t ->
    after ks (cur (klk s)) (through_gate t (ktrap fl d t cr2) s) cfg ->
    step (s, ks) cfg
| step_level s ks pd lv cfg :
    level_change_ok s pd ->
    after ks (cur (klk s)) ((_ ← change_sched_level pd lv; mret tt) s) cfg ->
    step (s, ks) cfg
| step_idle s ks c s' :
    cur (klk s) = None -> this_cpu (klk s) = Some c ->
    scheduler_pick c s = Ret None s' ->
    step (s, ks) (s', ks)
| step_run s ks fl c j s' cfg :
    cur (klk s) = None -> this_cpu (klk s) = Some c ->
    scheduler_pick c s = Ret (Some j) s' ->
    after (delete j ks) (Some j) (resume fl ks j s') cfg ->
    step (s, ks) cfg.

(** States reachable from power-on. *)
Definition reachable (cfg : config) : Prop :=
  exists l e d, cpus_idle l /\ rtc step (boot_state l e d, ∅) cfg.

(** ** The invariant *)
Definition thread_ok (j : nat) (k : thread) : Prop :=
  forall s, hot (Some j) s -> wlp (leaving (Some j)) (hot (Some j)) (fun _ => hot (Some j)) (k s).
Definition sys_inv (cfg : config) : Prop :=
  hot (cur (klk cfg.1)) cfg.1 /\ forall j k, cfg.2 !! j = Some k -> thread_ok j k.

Lemma hot_cur o s : hot o s -> hot (cur (klk s)) s.
Proof. intros Hs. pose proof Hs as (_ & _ & Hc). by rewrite Hc. Qed.

Lemma boot_inv l e d : cpus_idle l -> hot (cur l) (boot_state l e d).
Proof.
  intros Hidle. assert (Hno : forall c j, ~ running_on l c j).
  { intros c j (x & Hx & Hj). apply list_elem_of_lookup_2 in Hx. destruct (Hidle x Hx). congruence. }
  assert (Hst : forall j, state (replicate NPROC proc0 !!! j) = UNUSED).
  { intros j. rewrite list_lookup_total_alt. destruct (replicate NPROC proc0 !! j) eqn:E; [|done].
    by apply lookup_replicate in E as [-> _]. }
  split; [split|split; [|done]].
  - split; [apply length_replicate|]. split.
    + apply Forall_replicate. by left.
    + intros q. by vm_compute; destruct q.
  - split; [|split].
    + intros i j p q Hp Hq _ Hz. apply lookup_replicate in Hp as [-> _]. done.
    + intros p [i Hp]%list_elem_of_lookup. apply lookup_replicate in Hp as [-> _].
      split; [simpl; lia|done].
    + simpl. lia.
  - split; [|split; [|split]].
    + intros c j Hr. by apply Hno in Hr.
    + intros c1 c2 j Hr. by apply Hno in Hr.
    + intros j _ Hs. simpl in Hs. rewrite Hst in Hs. done.
    + apply Forall_fmap, Forall_forall. intros x Hx. simpl. destruct (Hidle x Hx) as [_ ->].
      unfold NPROC. lia.
Qed.

Lemma leaving_saved j s : leaving (Some j) s -> leaving (Some j) (saved j s).
Proof. apply inv_upd_key. by intros []. Qed.

Lemma after_inv ks o (r : outcome kst unit) cfg :
  after ks o r cfg -> wlp (leaving o) (hot o) (fun _ => hot o) r ->
  (forall j k, ks !! j = Some k -> thread_ok j k) -> sys_inv cfg.
Proof.
  intros [s|s k j c s' -> Ht Hb] Hr Hks; simpl in Hr.
  - split; [by eapply hot_cur|done].
  - destruct Hr as [Hout Hin]. split.
    + simpl. apply (hot_cur None).
      pose proof (wlp_scheduler_back (saved j s) c j (fun _ => True) (fun _ => True)
        (leaving_saved _ _ Hout) Ht) as Hw. by rewrite Hb in Hw.
    + intros j' k'. simpl. destruct (decide (j = j')) as [->|Hne].
      * rewrite lookup_insert_eq. by intros [= <-].
      * rewrite lookup_insert_ne by done. apply Hks.
Qed.

Lemma hot_here o s h : hot o s -> hot (cur ((klk s) <| here := h |>)) (s <| klk ::= fun l => l <| here := h |> |>).
Proof.
  intros (Hd & (H1 & H2 & H3 & H4) & _). split; [done|]. split; [|done]. split; [|split; [done|split; done]].
  intros c j Hr. destruct (H1 c j Hr) as [Hj Hiff]. split; [done|]. rewrite Hiff. naive_solver.
Qed.

Lemma handles_kforkret fl o : handles o (kforkret fl).
Proof. exact (handles_forkret (HF := @fs_impl_ok fl) o). Qed.

Lemma resume_ok fl ks j s :
  (forall j k, ks !! j = Some k -> thread_ok j k) -> hot (Some j) s ->
  wlp (leaving (Some j)) (hot (Some j)) (fun _ => hot (Some j)) (resume fl ks j s).
Proof.
  intros Hks Hs. unfold resume. assert (Hfk := handles_kforkret fl (Some j) s Hs).
  destruct (c_eip _); [|done|]; (destruct (ks !! j) as [k|] eqn:E; [|done]); by apply (Hks j k E).
Qed.

Lemma quiet_startothers img : quiet (startothers img).
Proof. unfold startothers. quiet_walk. Qed.
Lemma quiet_initlock l nm : quiet (initlock l nm).
Proof. unfold initlock. quiet_walk. Qed.
#[local] Hint Resolve quiet_startothers quiet_initlock : quietdb.
Lemma quiet_freerange a b : quiet (freerange a b).
Proof.
  unfold freerange. generalize (PGROUNDUP a) (Z.to_nat (2^20)). intros p f. revert p.
  induction f; intros; simpl; quiet_walk.
Qed.
Lemma quiet_kvmalloc : quiet kvmalloc.
Proof. unfold kvmalloc. quiet_walk. Qed.
Lemma quiet_binit : quiet binit.
Proof. unfold binit. quiet_walk. Qed.
#[local] Hint Resolve quiet_freerange quiet_kvmalloc quiet_binit : quietdb.

Lemma quiet_kinit1 a b : quiet (kinit1 a b).
Proof. unfold kinit1. quiet_walk. Qed.
Lemma quiet_kinit2 a b : quiet (kinit2 a b).
Proof. unfold kinit2. quiet_walk. Qed.
Lemma quiet_consoleinit : quiet consoleinit.
Proof. unfold consoleinit. quiet_walk. Qed.
Lemma quiet_ideinit b : quiet (ideinit b).
Proof. unfold ideinit. quiet_walk. Qed.
#[local] Hint Resolve quiet_kinit1 quiet_kinit2 quiet_consoleinit quiet_ideinit : quietdb.

Lemma wlp_kmain fl img present s :
  hot None s -> nextpid s = 1 ->
  wlp (leaving None) (hot None) (fun _ => hot None) (kmain fl img present s).
Proof.
  intros Hs Hn. unfold kmain, main, pinit, tvinit, fileinit.
  do 11 (apply exec_bind; eapply wlp_quiet_inv; [solve [eauto with quietdb]|exact Hs|];
    clear Hs; intros ? ? Hs E; apply (f_equal v_nextpid) in E; simpl in E;
    rewrite <-E in Hn; clear E).
  refine (wlp_userinit (HF := @fs_impl_ok fl) None _ _ _ Hs _). lia.
Qed.

Lemma wlp_mpmain s : hot None s -> wlp (leaving None) (hot None) (fun _ => hot None) (mpmain s).
Proof.
  intros Hs. unfold mpmain. qstep Hs s1 E1. qstep Hs s2 E2. qstep Hs s3 E3. qstep Hs s4 E4.
  by apply wlp_scheduler_start.
Qed.

Lemma wlp_ktrap fl d t cr2 o s :
  hot o s -> call_ok s t ->
  wlp (leaving o) (hot o) (fun _ => hot o) (through_gate t (ktrap fl d t cr2) s).
Proof.
  intros Hs Hc. unfold through_gate. assert (Hq : quiet (mwhen (negb (trapno t =? T_SYSCALL)) cli)).
  { unfold cli. quiet_walk. }
  qstep Hs s1 E1. apply exec_bind.
  assert (Hc1 : call_ok s1 t).
  { intros Et. rewrite (f_equal v_nextpid E1 : nextpid s1 = nextpid s). by apply Hc. }
  eapply exec_mono; [|exact (wlp_trap (HF := @fs_impl_ok fl) (HSF := @sysfile_impl_ok fl)
    (HD := dev_impl_ok d) o fl t cr2 s1 Hs Hc1)].
  intros [] s2 H2. eapply wlp_quiet_inv; [|exact H2|done]. eauto with quietdb lockdb.
Qed.

Lemma step_inv cfg cfg' : step cfg cfg' -> sys_inv cfg -> sys_inv cfg'.
Proof.
  intros Hst [Hs Hks]. destruct Hst as [s ks h|s ks fl img present s' Hn Hc E|s ks c s' Hc E
    |s ks fl d t cr2 cfg Hok Ha|s ks pd lv cfg Hok Ha|s ks c s' Hc Ht E|s ks fl c j s' cfg Hc Ht E Ha];
    simpl in *.
  - split; [by eapply hot_here|done].
  - rewrite Hc in Hs. split; [|done]. apply (hot_cur None).
    pose proof (wlp_kmain fl img present s Hs Hn) as Hw. by rewrite E in Hw.
  - rewrite Hc in Hs. split; [|done]. apply (hot_cur None).
    pose proof (wlp_mpmain s Hs) as Hw. by rewrite E in Hw.
  - eapply after_inv; [done| |done].
    by apply wlp_ktrap.
  - eapply after_inv; [done| |done]. apply exec_bind.
    eapply exec_mono; [|by apply wlp_change_sched_level]. done.
  - rewrite Hc in Hs. split; [|done]. apply (hot_cur None).
    pose proof (wlp_scheduler_pick s c (fun _ => True) (fun _ => True) Hs Ht) as Hw. by rewrite E in Hw.
  - rewrite Hc in Hs.
    pose proof (wlp_scheduler_pick s c (fun _ => True) (fun _ => True) Hs Ht) as Hw. rewrite E in Hw.
    eapply after_inv; [done|by apply resume_ok|].
    intros j' k' [_ Hl]%lookup_delete_Some. by apply Hks.
Qed.

Lemma steps_inv cfg cfg' : rtc step cfg cfg' -> sys_inv cfg -> sys_inv cfg'.
Proof. induction 1 as [|x y z Hxy _ IH]; [done|]. intros Hx. by eapply IH, step_inv. Qed.

Lemma reachable_inv cfg : reachable cfg -> sys_inv cfg.
Proof.
  intros (l & e & d & Hidle & Hr). assert (H0 : sys_inv (boot_state l e d, ∅)).
  { split; [by apply boot_inv|]. intros j k. simpl. by rewrite lookup_empty. }
  by eapply steps_inv.
Qed.

(** ** Properties of every reachable state *)


(** C3: In every reachable state a process is RUNNING exactly if it is the current
    process of one CPU, and of one CPU only. *)
Theorem reachable_running (s : kst) (ks : gmap nat thread) (j : nat) :
  reachable (s, ks) -> (j < NPROC)%nat ->
  state (ptab s !!! j) = RUNNING <->
  exists c, running_on (klk s) c j /\ forall c', running_on (klk s) c' j -> c' = c.
Proof.
  intros [(_ & (H1 & H2 & H3 & _) & _) _]%reachable_inv Hj. simpl in *. split.
  - intros Hr. destruct (H3 j Hj Hr) as [c Hc]. exists c. split; [done|]. intros c' Hc'. by eapply H2.
  - intros (c & Hc & _). apply (H1 c j Hc). by intros [? _].
Qed.


Lemma one_queue p :
  sched_class p = 1 /\ sched_level p = 0 \/ sched_class p = 2 /\ (sched_level p = 1 \/ sched_level p = 2) ->
  exists q, in_queue q p = true /\ forall q', in_queue q' p = true -> q' = q.
Proof.
  unfold in_queue. intros [[-> ->]|[-> [-> | ->]]]; [exists Q_EDF|exists Q_RR|exists Q_FCFS];
    (split; [done|]); by intros [].
Qed.


(** A run of the machine: one processor, an idle turn of its scheduler, a clock tick. *)
Definition boot1 : kst := boot_state
  (Lstate [Cpu 0 true 0 false None 0 0] 1 0 ∅ ∅ ∅) (KERNBASE + 0x200000) (KERNBASE + 0x180000).
Definition idle1 : kst := state_of (scheduler_pick 0 boot1).
Definition clock : trapframe := zero_trapframe <| trapno := 32 |> <| eflags := FL_IF |>.
Definition ticked : kst := state_of
  (through_gate clock (ktrap 1 (Devin true true [] []) clock 0) idle1).

Lemma ticked_reachable : reachable (ticked, ∅).
Proof.
  exists (klk boot1), (KERNBASE + 0x200000), (KERNBASE + 0x180000). split.
  { intros c Hc. apply list_elem_of_singleton in Hc. by subst. }
  eapply rtc_l; [eapply (step_idle boot1 ∅ 0 idle1); by vm_compute|].
  eapply rtc_l; [|apply rtc_refl].
  eapply (step_trap idle1 ∅ 1 (Devin true true [] []) clock 0); [by intros|].
  replace (through_gate _ _ idle1) with (Ret tt ticked : outcome kst unit) by (by vm_compute).
  constructor.
Qed.


Lemma reachable_running_witness :
  state (ptab ticked !!! 3%nat) = RUNNING <->
  exists c, running_on (klk ticked) c 3 /\ forall c', running_on (klk ticked) c' 3 -> c' = c.
Proof. apply (reachable_running ticked ∅ 3 ticked_reachable). unfold NPROC. lia. Defined.


(** The sample machine, whose EDF process in slot 2 had yielded: CPU 0 picks it. *)
Definition yielded : gmap nat thread := {[2%nat := release ptable_lock]}.
Definition picked : kst := state_of (scheduler_pick 0 (sample 0)).
Definition resumed : kst := state_of (release ptable_lock picked).

Lemma sample_inv : sys_inv (sample 0, yielded).
Proof.
  split; [exact sample_idle|]. intros j k Hk. simpl in Hk. unfold yielded in Hk.
  apply lookup_singleton_Some in Hk as [<- <-]. intros s Hs.
  eapply wlp_quiet_inv; [|exact Hs|done]. eauto with quietdb lockdb.
Qed.

Lemma sample_step : step (sample 0, yielded) (resumed, ∅).
Proof.
  eapply (step_run (sample 0) yielded 1 0 2 picked); [by vm_compute..|].
  replace (resume _ _ _ picked) with (Ret tt resumed : outcome kst unit) by (by vm_compute).
  replace (delete 2%nat yielded) with (∅ : gmap nat thread) by (by vm_compute). constructor.
Qed.

